(* ===== verification/_CoqProject ===== *)
-Q . S2P
Prelude.v
Serde.v
Types.v
Bare.v
BareTypes.v
Block.v
Store.v
StoreProps.v
Object.v
ObjectTree.v
ObjectProps.v
ObjectStore.v
ObjectStoreProps.v
ObjectSize.v
ObjectSim.v
Utils.v
Branch.v
Commit.v
CommitDeps.v
CommitProps.v
BranchSync.v
NetTypes.v
NetErrors.v
BrokerStore.v
BrokerRows.v
BrokerTables.v
NetBare.v
MessageBare.v
AccountProps.v
PeerProps.v
TopicProps.v
OverlayProps.v
ConfigProps.v
Auth.v
AuthProps.v
LmdbRepoStore.v
LmdbView.v
LmdbMem.v
LmdbProps.v
LmdbEvict.v
LmdbIndexes.v
Server.v
LmdbServed.v
ServerTables.v
ServerSim.v
ServerProps.v
Session.v
SessionProps.v
SessionTypes.v
Node.v
Client.v
Connection.v
ConnectionProps.v
ClientProps.v
NodeSteps.v
Async.v
AsyncViews.v
AsyncProps.v
ClientSpec.v
ClientCalls.v
Demo.v
DemoProps.v
DemoGraph.v
DemoRun.v
LibTests.v
LmdbTests.v
