(* ===== verification/Prelude.v ===== *)
(** * LoFiRe: a verification library for the lofire-rs crates

    LoFiRe is a local-first repository system: documents are branches of signed commits,
    stored as encrypted, content-addressed objects, and brokers store and forward them.

    ** The program

    - [lofire]: the data model ([types.rs]), blocks ([block.rs]), block stores
      ([store.rs]), objects as Merkle trees of blocks ([object.rs]), commits with
      signatures, permissions and dependencies ([commit.rs]), branches with their members
      and the request that synchronizes two of them ([branch.rs], [repo.rs]), signatures
      and time ([utils.rs]), and the trait of the broker's properties ([brokerstore.rs]).
    - [lofire-net]: the messages on the wire ([types.rs]) and their errors ([errors.rs]).
    - [lofire-store-lmdb]: the two stores over LMDB.
    - [lofire-broker]: the tables of a broker ([account.rs], [overlay.rs], [peer.rs],
      [topic.rs], [repostoreinfo.rs], [config.rs]), authentication ([auth.rs]), the server
      ([server.rs]) and the client's connection ([connection.rs]).
    - [lofire-node]: a process that listens and runs a task per connection.
    - [lofire-demo]: a client that calls a broker in its own process, then a remote one.

    An object is built from content by [Object::new]: serialized, cut into chunks of the
    size a store takes, each encrypted under a key derived from the repository and from its
    own plaintext, and joined by parents that hold the identifiers and the keys of their
    children.  Commits and their bodies are contents; a commit is verified by its signature,
    by the members of its branch, and by walking the graph of its dependencies in a store.  Two peers
    synchronize by walking the same graph from both their heads.  A broker keeps accounts,
    overlays, topics, peers and keys as properties of a key-value store, the blocks of every
    repository in a store of its own, and authenticates a client by a signature over a
    nonce; then it answers the client's requests in the name of the user.  A client calls a
    broker in its own process or over a connection, where requests and replies are matched
    by identifiers.

    ** The library

    - [Prelude]: results, panics and fuel ([outcome]), the [?] operator, integers of [w]
      bits, arrays of a fixed length, checked [usize] arithmetic, [chunks].
    - [Serde]: the libraries the crates call, as classes with the laws relied on:
      [serde_bare], [blake3], [chacha20], [ed25519_dalek], [fastbloom_rs].
    - [Bare], [BareTypes], [NetBare], [MessageBare]: instances of these classes that compute, for the
      worked examples: the BARE encoding at the types of the program, and stand-ins for
      hash, cipher and signature.  Nothing of the program is in them.
    - [Types], [Block]: [lofire/src/types.rs], [block.rs].  The field of a record has the
      record's name as a prefix; a variant has it where its own name is not unique.
    - [Store], [StoreProps]: [store.rs].  The trait is the class [RepoStore], its contract
      [RepoStoreSpec], [HashMapRepoStore] an instance.  Sizes: the size a store takes is
      whole pages, the least that fits, and choosing it twice changes nothing.  The map of
      the crate: any sequence of operations answers as a finite map does.
    - [Object]: [object.rs], a definition per function, the loops as fixpoints.
      [ObjectTree], [ObjectProps]: building and parsing; [ObjectStore],
      [ObjectStoreProps]: saving and loading; [ObjectSize]: bounds of blocks;
      [ObjectSim]: two stores with the same blocks load the same.
    - [Utils]: [utils.rs], [errors.rs].  [Branch], [BranchSync]: [branch.rs], [repo.rs].
      [Commit], [CommitDeps], [CommitProps]: [commit.rs].
    - [NetTypes], [NetErrors]: [lofire-net].
    - [BrokerStore]: the trait as the class [BrokerStore], its contract, and
      [Module LmdbBrokerStore] over the interface of [rkv].  [BrokerRows]: what the
      contract says of one property.  [BrokerTables]: a module per table.
      [AccountProps], [PeerProps], [TopicProps], [OverlayProps], [ConfigProps]: each
      table against its specification.
    - [Auth], [AuthProps]: [auth.rs].
    - [LmdbRepoStore]: the block store over the interface of [rkv].  [LmdbView]: it keeps
      the contract of [RepoStore].  [LmdbProps], [LmdbEvict]: uses, pins, expiry and
      eviction.  [LmdbIndexes]: any operations, on blocks that are stored or not, and where
      they panic.  [LmdbMem]: databases in memory, for the examples.
    - [Server]: [BrokerServer] of [server.rs], a definition per method, over the interfaces
      of the tables' store, of the block stores and of the directories they are opened in.
      [LmdbServed]: the LMDB block store keeps that interface.  [ServerTables],
      [ServerSim], [ServerProps]: the server against its specification.
    - [Session]: [BrokerProtocolHandler] and [ProtocolHandler] of [server.rs].
      [SessionProps]: a session as a sequence of frames.  [SessionTypes]: the message that
      answers each kind of request.  [Node]: [connection_loop] of
      [lofire-node/src/main.rs].  [NodeSteps]: [run_server], a transition system whose steps
      accept a connection, handle a frame of one, send a frame, or end one.
    - [Client]: the trait [BrokerConnection] of [connection.rs] as a class, and
      [OverlayConnectionClient], whose methods are calls over it.  [Connection]: its two
      implementations, the actors, the task that reads, and the opening of a connection.
      [ConnectionProps]: the two implementations agree.  [ClientProps]: what a client puts
      it gets back, over the interface [ObjectConnection], which both implement.
    - [Async]: a client and the node with frames in flight in both directions, and the
      streams of earlier calls still open, as a transition system.  [AsyncViews],
      [AsyncProps]: its invariant, and what every schedule ends with.
    - [ClientSpec], [ClientCalls]: the specification of the server as a third connection, the
      class [Refines] of connections that answer as it does, and scripts of client calls.
    - [Demo]: [lofire-demo/src/main.rs].  [DemoProps]: the script on any connection.
      [DemoGraph]: the graph of commits it is meant to make, given without the script, and a
      synchronization over it.  [DemoRun]: the script passes.
    - [LibTests], [LmdbTests]: the repository's own tests as programs over the model.

    State is threaded: a function that takes [&dyn RepoStore] or [&dyn BrokerStore] takes
    the store's state and answers it changed.  A Rust panic ([unwrap] of nothing, an index
    out of range, an overflow in a debug build) is [Panic], so a theorem with [Ret] on its
    left excludes it.  Where a function fails, the state after the error is given as the
    code leaves it, except in [verify_deps] and [sync_req], whose stores only answer reads
    and whose state after an error is dropped.

    ** The theorems

    - Objects: content, dependencies and order survive building and parsing, saving and
      loading, copying; a reference determines its content short of a hash collision; no
      block is larger than the store takes; parsing any list of blocks and loading from
      any store without cycles returns, and names what is missing.
    - Commits: the signature of a commit is accepted before and after a trip through a
      store, in an object of at most eight dependencies, and [verify] accepts a commit that
      is permitted and complete; what [verify] accepts is signed, permitted, and complete in
      the store down to the root of the branch, where an identifier stands for one commit;
      the walk returns on any graph.  Synchronization answers exactly the difference of the
      two walks, less what the peer's filter contains, never a root, and returns.
    - Messages: error codes correspond to errors one to one; the conversions of a response
      are given on every message, panics included.
    - Tables: each refines a specification over any sequence of operations on any store
      that keeps the contract, failed operations included, and leaves the other tables
      alone.  The specifications show what [del] leaves behind.
    - Authentication: the handler refines a machine of three states under any calls; it
      reports a user only after a message this user signed over the nonce it drew.
    - The block store of the crate [lofire] is a finite map of blocks.  The LMDB one refines
      a map; under any operations, on blocks that are stored or not, it panics exactly where
      a specification does and until then its indexes are those of its blocks; expiry and
      eviction remove exactly the blocks they name, in order.
    - The server: in local mode it refines a machine on its tables and a map of blocks per
      repository, whichever stores hold them and whenever they are opened, panics and waits
      included; in core mode no block store is ever opened.
    - Sessions: no frame changes the server before a user authenticated, every later one is
      a call in the name of this user, and a reply has the identifiers of its request and the
      type of its content; the node's loop adds that the hello and the signed message are the
      first two frames.  Whatever the connections of a node do, in any order, its server
      changes only by calls of users that authenticated on one of them.
    - Connections: opening one with the keys of a user succeeds; a remote connection then
      answers every sequence of calls as a local one does, and leaves the server in the same
      state; an object that was put over either is got back.  Under every schedule of the
      frames between a client and the node the client's calls end, after a bounded number
      of steps, with the answers of a local connection.  Any script
      of client calls is answered over a local or a remote connection as the specification of
      the server answers it.
    - The demonstration: on a server where its accounts and overlays are new it passes, over
      both connections; it leaves the accounts, the block and the graph of commits it is
      meant to make, and is sent the five commits it asks for, less those in its filter.
    - Tests: [test_commit] passes for any pair of keys, the tests of sizes and depth for the
      BARE encoding and any hash and cipher; the others are run on the example instances.

    ** Fuel

    [Object_new] calls itself once, on a list of dependencies that has none: two turns.
    A tree gets shorter at every level, so the number of leaves bounds [make_tree], and
    the number of blocks bounds [collect_leaves].  [Object_load] is given the fuel as an
    argument: any number above the height of what is in the store is enough
    ([Object_load_total]); the walks over commits take one turn more than there are blocks
    in the store ([Commit_verify_deps_returns], [sync_req_returns]).  The server, the session
    and the client hand on two numbers, [obj_fuel] for [Object_load] and [fuel] for the walk;
    the theorems on them hold for any, with specifications that run the same definitions on
    maps; [Client_put_get] and [Demo_passes] ask for more than there are blocks in an object.  A remote call
    whose reply never comes waits without end: [OutOfFuel].  Identifiers of actors are 64 bits
    wide and are not reused: the theorems on connections bound the calls by that ([requests]
    counts those of a script, [demo_requests] those of the demonstration).

    ** What is not modelled

    Threads.  The connections of a node and the frames between a client and the node are
    scheduled in any order, but a frame is handled in one step: the transactions of two
    frames handled at once are not interleaved, and a task that panics takes no step.
    In [Session], [Client] and [Connection] the replies are read before the caller
    resumes, and the blocks of a stream are a list: the caller keeps the receiver of every
    stream.  In the program, when it was dropped, the next block of its stream stops the actor,
    and a frame after that ends the task that reads, which closes the connection.  A lock is free unless its own
    thread holds it; what a thread that asks for a lock it holds does is the class
    [RwLockRelock].  A panic while a lock is held poisons it, which is not modelled: what
    other tasks would get from it afterwards.

    LMDB is the interface of [rkv] with its documented behaviour.  A comment in the tests of
    [repostore.rs] reports a bug of LMDB that shows with 86 blocks; nothing is said of it.

    [TopicSubscription] and [topic_connect], whose methods are empty or hand out the receiver
    of a channel nothing sends on; event messages have no handler in the program either.
    Directories, sockets, the handshake of the websocket and what is printed; opening LMDB
    environments, the names of directories, [Display] and [Debug].  The test of
    [rkv] itself ([test_lmdb]) and the listings that are only printed ([list_all]). *)

From Stdlib Require Export NArith Lia.
From Stdlib Require Export Strings.Byte.
From Stdlib Require Import Eqdep_dec.
From stdpp Require Export base strings countable gmap sets list.

#[global] Set Default Goal Selector "!".

Create HintDb lofire.
Create Rewrite HintDb lofire_rw.

(** ** Rust results and panics *)

(** [Result<A, E>] *)
Inductive result (A E : Type) : Type :=
  | Ok (a : A)
  | Err (e : E).
Arguments Ok {A E} _.
Arguments Err {A E} _.

(** The outcome of running a Rust function: it returns, it panics ([unwrap] of
    a [None], an index out of range, an arithmetic overflow, [panic!]), or the
    fuel given to a definition ran out. *)
Inductive outcome (A : Type) : Type :=
  | Ret (a : A)
  | Panic
  | OutOfFuel.
Arguments Ret {A} _.
Arguments Panic {A}.
Arguments OutOfFuel {A}.

#[export] Instance outcome_ret : MRet outcome := @Ret.
#[export] Instance outcome_bind : MBind outcome := λ A B f m,
  match m with
  | Ret a => f a
  | Panic => Panic
  | OutOfFuel => OutOfFuel
  end.
#[export] Instance outcome_fmap : FMap outcome := λ A B f m,
  match m with
  | Ret a => Ret (f a)
  | Panic => Panic
  | OutOfFuel => OutOfFuel
  end.

Declare Scope rust_scope.
Delimit Scope rust_scope with rust.

(** [x ←? m ; k]: the [?] operator on a value of type [Result]. *)
Notation "x ←? m ; k" :=
  (match m with Ok x => k | Err e => Err e end)
  (at level 20, m at level 100, k at level 200,
   format "x  ←?  m ;  '/' k") : rust_scope.

(** [x ←! m ; k]: the [?] operator on a call that may also panic. *)
Definition try_bind {A B E} (m : outcome (result A E))
    (k : A → outcome (result B E)) : outcome (result B E) :=
  match m with
  | Ret (Ok a) => k a
  | Ret (Err e) => Ret (Err e)
  | Panic => Panic
  | OutOfFuel => OutOfFuel
  end.
Notation "x ←! m ; k" := (try_bind m (λ x, k))
  (at level 20, m at level 100, k at level 200,
   format "x  ←!  m ;  '/' k") : rust_scope.

Notation "' x ←! m ; k" := (try_bind m (λ x, k))
  (at level 20, x pattern, m at level 100, k at level 200,
   format "' x  ←!  m ;  '/' k") : rust_scope.

#[global] Open Scope rust_scope.

(** [Option::unwrap] *)
Definition unwrap {A} (o : option A) : outcome A :=
  match o with Some a => Ret a | None => Panic end.

Definition is_ok {A E} (r : result A E) : bool :=
  match r with Ok _ => true | Err _ => false end.

(** [Result::map_err] *)
Definition map_err {A E F} (f : E → F) (r : result A E) : result A F :=
  match r with Ok a => Ok a | Err e => Err (f e) end.

(** A computation that returns: neither a panic nor out of fuel. *)
Definition returns {A} (m : outcome A) : Prop := ∃ a, m = Ret a.

(** ** Machine integers and byte arrays at their exact width *)

Abbreviation bytes := (list byte) (only parsing).

#[export] Instance byte_eq_dec : EqDecision byte := Byte.byte_eq_dec.
#[export] Program Instance byte_countable : Countable byte :=
  inj_countable Byte.to_N Byte.of_N _.
Next Obligation. intros []; reflexivity. Qed.

(** [uN]: an unsigned integer of [w] bits. *)
Record uint (w : N) : Type := UInt {
  uint_N : N;
  uint_lt : (uint_N <? 2 ^ w)%N = true
}.
Arguments UInt {w} _ _.
Arguments uint_N {w} _.
Arguments uint_lt {w} _.

Abbreviation u8 := byte (only parsing).
Abbreviation u16 := (uint 16).
Abbreviation u32 := (uint 32).
Abbreviation u64 := (uint 64).
(** [usize] values are kept in [N]; arithmetic on them is checked, below. *)
Abbreviation usize := N (only parsing).

Lemma uint_eq {w} (a b : uint w) : uint_N a = uint_N b → a = b.
Proof.
  destruct a as [a Ha], b as [b Hb]; simpl; intros <-.
  f_equal. apply UIP_dec, bool_dec.
Qed.

(** Truncation to [w] bits, the [as] conversion between integer types. *)
Program Definition uint_wrap (w n : N) : uint w := UInt (n mod 2 ^ w) _.
Next Obligation.
  intros w n. apply N.ltb_lt, N.mod_lt, N.pow_nonzero. done.
Qed.

Lemma uint_bound {w} (a : uint w) : (uint_N a < 2 ^ w)%N.
Proof. apply N.ltb_lt, uint_lt. Qed.

Lemma uint_wrap_small w n : (n < 2 ^ w)%N → uint_N (uint_wrap w n) = n.
Proof. intros. simpl. by apply N.mod_small. Qed.

Lemma uint_wrap_N {w} (a : uint w) : uint_wrap w (uint_N a) = a.
Proof. apply uint_eq, uint_wrap_small, uint_bound. Qed.

#[export] Instance uint_eq_dec w : EqDecision (uint w).
Proof.
  refine (λ a b, match decide (uint_N a = uint_N b) with
                 | left H => left (uint_eq a b H)
                 | right H => right _
                 end).
  congruence.
Defined.
#[export] Program Instance uint_countable w : Countable (uint w) :=
  inj_countable uint_N (λ n, Some (uint_wrap w n)) _.
Next Obligation. intros w a. simpl. f_equal. apply uint_wrap_N. Qed.

(** [[u8; n]] *)
Record array (n : nat) : Type := Array {
  array_list : bytes;
  array_len : Nat.eqb (length array_list) n = true
}.
Arguments Array {n} _ _.
Arguments array_list {n} _.
Arguments array_len {n} _.

Lemma array_length {n} (a : array n) : length (array_list a) = n.
Proof. apply Nat.eqb_eq, array_len. Qed.

Lemma array_eq {n} (a b : array n) : array_list a = array_list b → a = b.
Proof.
  destruct a as [a Ha], b as [b Hb]; simpl; intros <-.
  f_equal. apply UIP_dec, bool_dec.
Qed.

(** [copy_from_slice] of a slice whose length the caller has checked: the list
    cut or zero-filled to [n] bytes. *)
Program Definition to_array (n : nat) (l : bytes) : array n :=
  Array (take n (l ++ replicate n x00)) _.
Next Obligation.
  intros n l. apply Nat.eqb_eq. rewrite length_take, length_app, length_replicate. lia.
Qed.

Lemma to_array_exact {n} l : length l = n → array_list (to_array n l) = l.
Proof. intros <-. simpl. by rewrite take_app_length. Qed.

Lemma to_array_list {n} (a : array n) : to_array n (array_list a) = a.
Proof. apply array_eq, to_array_exact, array_length. Qed.

Lemma to_array_app {n} (a : array n) l : to_array n (array_list a ++ l) = a.
Proof.
  apply array_eq. cbn [to_array array_list]. rewrite <- app_assoc.
  apply take_app_length'. by rewrite array_length.
Qed.

(** [[b; n]] *)
Definition array_fill (n : nat) (b : byte) : array n := to_array n (replicate n b).

#[export] Instance array_eq_dec n : EqDecision (array n).
Proof.
  refine (λ a b, match decide (array_list a = array_list b) with
                 | left H => left (array_eq a b H)
                 | right H => right _
                 end).
  congruence.
Defined.
#[export] Program Instance array_countable n : Countable (array n) :=
  inj_countable array_list (λ l, Some (to_array n l)) _.
Next Obligation. intros n a. simpl. f_equal. apply to_array_list. Qed.

(** Checked [usize] arithmetic (64-bit targets). *)
Definition usize_max : N := 2 ^ 64.
Definition usize_add (a b : usize) : outcome usize :=
  if (a + b <? usize_max)%N then Ret (a + b)%N else Panic.
Definition usize_sub (a b : usize) : outcome usize :=
  if (b <=? a)%N then Ret (a - b)%N else Panic.
Definition usize_mul (a b : usize) : outcome usize :=
  if (a * b <? usize_max)%N then Ret (a * b)%N else Panic.
(** Division panics on zero. *)
Definition usize_div (a b : usize) : outcome usize :=
  if (b =? 0)%N then Panic else Ret (a / b)%N.

Lemma usize_add_ok a b : (a + b < usize_max)%N → usize_add a b = Ret (a + b)%N.
Proof. intros H. unfold usize_add. by apply N.ltb_lt in H as ->. Qed.
Lemma usize_sub_ok a b : (b <= a)%N → usize_sub a b = Ret (a - b)%N.
Proof. intros H. unfold usize_sub. by apply N.leb_le in H as ->. Qed.
Lemma usize_mul_ok a b : (a * b < usize_max)%N → usize_mul a b = Ret (a * b)%N.
Proof. intros H. unfold usize_mul. by apply N.ltb_lt in H as ->. Qed.
Lemma usize_div_ok a b : b ≠ 0%N → usize_div a b = Ret (a / b)%N.
Proof. intros H. unfold usize_div. by apply N.eqb_neq in H as ->. Qed.

(** [Vec::len] and [slice::len] *)
Definition len {A} (l : list A) : usize := N.of_nat (length l).

(** ** Slices *)

(** [slice::chunks]: pieces of [n] elements, the last one possibly shorter. *)
Fixpoint chunks_aux {A} (fuel n : nat) (l : list A) : list (list A) :=
  match fuel, l with
  | _, [] => []
  | O, _ => []
  | S fuel, _ => take n l :: chunks_aux fuel n (drop n l)
  end.
Definition chunks {A} (n : nat) (l : list A) : list (list A) :=
  chunks_aux (length l) n l.
(** [chunks(0)] panics. *)
Definition slice_chunks {A} (n : usize) (l : list A) : outcome (list (list A)) :=
  if (n =? 0)%N then Panic else Ret (chunks (N.to_nat n) l).

Lemma concat_fmap {A B} (f : A → B) (ls : list (list A)) :
  f <$> concat ls = concat ((fmap f : list A → list B) <$> ls).
Proof. induction ls; csimpl; [done|]. by rewrite fmap_app, IHls. Qed.

Section Chunks.
Context {A : Type}.
Implicit Types l : list A.

Lemma chunks_aux_spec fuel n l :
  (0 < n)%nat → (length l <= fuel)%nat →
  concat (chunks_aux fuel n l) = l ∧
  Forall (λ c, c ≠ [] ∧ (length c <= n)%nat) (chunks_aux fuel n l).
Proof.
  intros Hn. revert l. induction fuel as [|fuel IH]; intros [|a l] Hl; simpl in *.
  - by split; [|constructor].
  - lia.
  - by split; [|constructor].
  - destruct n as [|n]; [lia|]. simpl.
    destruct (IH (drop n l)) as [Hc Hf]; [rewrite length_drop; lia|].
    split; [by rewrite Hc, take_drop|].
    constructor; [|done]. simpl. rewrite length_take. split; [done|lia].
Qed.

Lemma chunks_concat n l : (0 < n)%nat → concat (chunks n l) = l.
Proof. intros. by apply chunks_aux_spec. Qed.

Lemma chunks_Forall n l :
  (0 < n)%nat → Forall (λ c, c ≠ [] ∧ (length c <= n)%nat) (chunks n l).
Proof. intros. by apply chunks_aux_spec. Qed.

Lemma chunks_nonempty n l : l ≠ [] → chunks n l ≠ [].
Proof. by destruct l. Qed.

Lemma chunks_single n (a : A) : (length (chunks n [a]) <= 1)%nat.
Proof. unfold chunks. simpl. destruct (drop n [a]); simpl; lia. Qed.

Lemma chunks_aux_length fuel n l :
  (2 <= n)%nat → (2 * length (chunks_aux fuel n l) <= length l + 1)%nat.
Proof.
  intros Hn. revert l. induction fuel as [|fuel IH]; intros [|a l]; simpl; try lia.
  specialize (IH (drop n (a :: l))). rewrite length_drop in IH. simpl in *. lia.
Qed.

(** At least two elements a chunk: the number of chunks goes down. *)
Lemma chunks_decrease n l :
  (2 <= n)%nat → (2 <= length l)%nat → (length (chunks n l) < length l)%nat.
Proof.
  intros Hn Hl. pose proof (chunks_aux_length (length l) n l Hn). unfold chunks. lia.
Qed.
End Chunks.

Lemma slice_chunks_ok {A} n (l : list A) :
  n ≠ 0%N → slice_chunks n l = Ret (chunks (N.to_nat n) l).
Proof. intros H. unfold slice_chunks. by apply N.eqb_neq in H as ->. Qed.

Lemma chunks_fmap {A B} (f : A → B) n (l : list A) :
  chunks n (f <$> l) = (fmap f : list A → list B) <$> chunks n l.
Proof.
  unfold chunks. rewrite length_fmap. generalize (length l) at 1 2. intros fuel.
  revert l. induction fuel as [|fuel IH]; intros [|a l]; [done..|].
  rewrite fmap_cons. cbn [chunks_aux]. rewrite !fmap_cons, <- (fmap_cons f a l).
  by rewrite fmap_take, <- fmap_drop, IH.
Qed.
