(* ===== verification/Serde.v ===== *)
(** * Interfaces to the libraries the crates call

    [serde_bare], [blake3], [chacha20], [ed25519_dalek] and [fastbloom_rs] are
    not part of the repository: their functions are class parameters here, and
    what the crates rely on are the laws stated beside them, each a documented
    property of the library. *)

From S2P Require Import Prelude.

(** ** serde_bare *)

(** [serde_bare::to_vec] and [serde_bare::from_slice] at one type. Writing a
    value of the crates' types into a [Vec<u8>] does not fail, so [to_vec] is
    total; [from_slice] answers [None] where the library answers [Err]. *)
Class Serde (A : Type) : Type := {
  to_vec : A → bytes;
  from_slice : bytes → option A
}.

(** What [#[serde(skip)]] attributes lose on a trip through the serializer:
    skipped fields come back as their default value. The identity for a type
    without such fields. *)
Class SerdeSkip (A : Type) : Type := serde_skip : A → A.
#[export] Instance serde_skip_default A : SerdeSkip A | 100 := λ a, a.

(** Round trip, and skipped fields are not written. *)
Class SerdeLaws (A : Type) `{!Serde A, !SerdeSkip A} : Prop := {
  from_slice_to_vec (a : A) : from_slice (to_vec a) = Some (serde_skip a);
  to_vec_skip (a : A) : to_vec (serde_skip a) = to_vec a
}.

(** An enum is written with its tag: never as the empty string, and the empty
    string is not read as an enum. *)
Class SerdeTagged (A : Type) `{!Serde A} : Prop := {
  to_vec_nonempty (a : A) : to_vec a ≠ [];
  from_slice_nil : from_slice (A := A) [] = None
}.

Lemma to_vec_inj_skip `{SerdeLaws A} (a b : A) :
  to_vec a = to_vec b → serde_skip a = serde_skip b.
Proof.
  intros Heq. apply (inj Some). by rewrite <- !from_slice_to_vec, Heq.
Qed.

(** ** blake3 and chacha20 *)

Class Crypto : Type := {
  (** [blake3::hash] *)
  blake3_hash : bytes → array 32;
  (** [blake3::keyed_hash] *)
  blake3_keyed_hash : array 32 → bytes → array 32;
  (** [blake3::derive_key] *)
  blake3_derive_key : string → bytes → array 32;
  (** [ChaCha20::new] on a key and a nonce, then [apply_keystream] on a
      buffer, which is overwritten. *)
  chacha20_apply_keystream : array 32 → array 12 → bytes → bytes
}.

(** A stream cipher combines the buffer with a keystream by exclusive or: a
    second application with the same key and nonce restores it, and the
    buffer keeps its length. *)
Class CryptoLaws `{!Crypto} : Prop := {
  chacha20_involutive k n b :
    chacha20_apply_keystream k n (chacha20_apply_keystream k n b) = b;
  chacha20_length k n b : length (chacha20_apply_keystream k n b) = length b
}.

(** ** ed25519_dalek *)

Class Ed25519 : Type := {
  Keypair : Type;
  PublicKey : Type;
  Signature : Type;
  (** [Keypair::from_bytes] on the 64 bytes of a secret and a public key *)
  keypair_from_bytes : bytes → option Keypair;
  (** [Keypair::generate], as a function of the random seed it draws *)
  keypair_generate : bytes → Keypair;
  keypair_secret_bytes : Keypair → array 32;
  keypair_public_bytes : Keypair → array 32;
  (** [Keypair::sign] then [Signature::to_bytes] *)
  keypair_sign : Keypair → bytes → array 64;
  public_from_bytes : bytes → option PublicKey;
  signature_from_bytes : bytes → option Signature;
  (** [PublicKey::verify_strict] accepts *)
  verify_strict : PublicKey → bytes → Signature → bool
}.

(** A generated pair is read back from its bytes, and what it signs is accepted
    under its public key. *)
Class Ed25519Laws `{!Ed25519} : Prop := {
  keypair_generate_bytes seed :
    let kp := keypair_generate seed in
    keypair_from_bytes (array_list (keypair_secret_bytes kp) ++
                        array_list (keypair_public_bytes kp)) = Some kp;
  keypair_sign_verifies seed m :
    let kp := keypair_generate seed in
    ∃ pk s, public_from_bytes (array_list (keypair_public_bytes kp)) = Some pk ∧
            signature_from_bytes (array_list (keypair_sign kp m)) = Some s ∧
            verify_strict pk m s = true
}.

(** ** fastbloom_rs *)

(** [BloomFilter::from_u8_array] and [Membership::contains]. Nothing is assumed
    of them: a filter answers as it likes. *)
Class Bloom : Type := {
  Filter : Type;
  filter_from_u8_array : bytes → u64 → Filter;
  filter_contains : Filter → bytes → bool
}.
