(* ===== verification/Types.v ===== *)
(** * Types of the repository: [lofire/src/types.rs]

    One inductive or record per Rust type (a type alias is an abbreviation), fields prefixed with the type's name,
    variants named [Type_Variant] where the variant's own name is not unique. *)

From S2P Require Import Prelude Serde.

(** ** Common types *)

Inductive Digest : Type := Blake3Digest32 (d : array 32).
Inductive SymKey : Type := ChaCha20Key (k : array 32).
Inductive PubKey : Type := Ed25519PubKey (k : array 32).
Inductive PrivKey : Type := Ed25519PrivKey (k : array 32).
(** [[[u8; 32]; 2]] *)
Inductive Sig : Type := Ed25519Sig (s0 s1 : array 32).

Definition SymKey_slice (k : SymKey) : array 32 :=
  match k with ChaCha20Key o => o end.
Definition PubKey_slice (k : PubKey) : array 32 :=
  match k with Ed25519PubKey o => o end.

#[export] Instance Digest_eq_dec : EqDecision Digest.
Proof. solve_decision. Defined.
#[export] Instance SymKey_eq_dec : EqDecision SymKey.
Proof. solve_decision. Defined.
#[export] Instance PubKey_eq_dec : EqDecision PubKey.
Proof. solve_decision. Defined.
#[export] Instance PrivKey_eq_dec : EqDecision PrivKey.
Proof. solve_decision. Defined.
#[export] Instance Sig_eq_dec : EqDecision Sig.
Proof. solve_decision. Defined.

#[export] Program Instance Digest_countable : Countable Digest :=
  inj_countable' (λ '(Blake3Digest32 d), d) Blake3Digest32 _.
Next Obligation. by intros []. Qed.
#[export] Program Instance PubKey_countable : Countable PubKey :=
  inj_countable' (λ '(Ed25519PubKey d), d) Ed25519PubKey _.
Next Obligation. by intros []. Qed.

(** Minutes since 2022-02-22 22:22 UTC *)
Abbreviation Timestamp := u32 (only parsing).
Definition EPOCH_AS_UNIX_TIMESTAMP : N := 1645568520.


Inductive RelTime : Type :=
  | Seconds (n : u8)
  | Minutes (n : u8)
  | Hours (n : u8)
  | Days (n : u8).

Record BloomFilter : Type := {
  BloomFilter_k : u32;
  BloomFilter_f : bytes
}.

(** ** Blocks *)

Abbreviation BlockId := Digest (only parsing).
Abbreviation ObjectId := BlockId (only parsing).


Record BlockRef : Type := {
  BlockRef_id : BlockId;
  BlockRef_key : SymKey
}.
Abbreviation ObjectRef := BlockRef (only parsing).

#[export] Instance BlockRef_eq_dec : EqDecision BlockRef.
Proof. solve_decision. Defined.

Abbreviation InternalNode := (list SymKey) (only parsing).

Inductive BlockContentV0 : Type :=
  | BlockContentV0_InternalNode (keys : InternalNode)
  | BlockContentV0_DataChunk (chunk : bytes).

Inductive DepList : Type := DepList_V0 (ids : list ObjectId).

Inductive ObjectDeps : Type :=
  | ObjectIdList (ids : list ObjectId)
  | DepListRef (r : ObjectRef).

(** [id] and [key] carry [#[serde(skip)]]. *)
Record BlockV0 : Type := {
  BlockV0_id : option BlockId;
  BlockV0_key : option SymKey;
  BlockV0_children : list BlockId;
  BlockV0_deps : ObjectDeps;
  BlockV0_expiry : option Timestamp;
  BlockV0_content : bytes
}.

Inductive Block : Type := Block_V0 (b : BlockV0).

#[export] Instance ObjectDeps_eq_dec : EqDecision ObjectDeps.
Proof. solve_decision. Defined.
#[export] Instance BlockV0_eq_dec : EqDecision BlockV0.
Proof. solve_decision. Defined.
#[export] Instance Block_eq_dec : EqDecision Block.
Proof. solve_decision. Defined.

#[export] Instance Block_serde_skip : SerdeSkip Block := λ '(Block_V0 b),
  Block_V0 {|
    BlockV0_id := None;
    BlockV0_key := None;
    BlockV0_children := BlockV0_children b;
    BlockV0_deps := BlockV0_deps b;
    BlockV0_expiry := BlockV0_expiry b;
    BlockV0_content := BlockV0_content b
  |}.

(** ** Repository, branches and commits *)

Record RepositoryV0 : Type := {
  RepositoryV0_id : PubKey;
  RepositoryV0_branches : list ObjectRef;
  RepositoryV0_allow_ext_requests : bool;
  RepositoryV0_metadata : bytes
}.
Inductive Repository : Type := Repository_V0 (r : RepositoryV0).

Inductive AddBranch : Type := AddBranch_V0 (r : ObjectRef).
Inductive RemoveBranch : Type := RemoveBranch_V0 (r : ObjectRef).

Inductive CommitType : Type :=
  | CommitType_Repository
  | CommitType_AddBranch
  | CommitType_RemoveBranch
  | CommitType_Branch
  | CommitType_AddMembers
  | CommitType_EndOfBranch
  | CommitType_Transaction
  | CommitType_Snapshot
  | CommitType_Ack.

#[export] Instance CommitType_eq_dec : EqDecision CommitType.
Proof. solve_decision. Defined.

(** The variant's index, as in the BARE encoding of the enum. *)
Definition CommitType_index (t : CommitType) : N :=
  match t with
  | CommitType_Repository => 0
  | CommitType_AddBranch => 1
  | CommitType_RemoveBranch => 2
  | CommitType_Branch => 3
  | CommitType_AddMembers => 4
  | CommitType_EndOfBranch => 5
  | CommitType_Transaction => 6
  | CommitType_Snapshot => 7
  | CommitType_Ack => 8
  end.
Definition CommitType_of_index (n : N) : option CommitType :=
  match n with
  | 0 => Some CommitType_Repository
  | 1 => Some CommitType_AddBranch
  | 2 => Some CommitType_RemoveBranch
  | 3 => Some CommitType_Branch
  | 4 => Some CommitType_AddMembers
  | 5 => Some CommitType_EndOfBranch
  | 6 => Some CommitType_Transaction
  | 7 => Some CommitType_Snapshot
  | 8 => Some CommitType_Ack
  | _ => None
  end%N.
#[export] Program Instance CommitType_countable : Countable CommitType :=
  inj_countable CommitType_index CommitType_of_index _.
Next Obligation. by intros []. Qed.

Record MemberV0 : Type := {
  MemberV0_id : PubKey;
  MemberV0_commit_types : list CommitType;
  MemberV0_metadata : bytes
}.
Inductive Member : Type := Member_V0 (m : MemberV0).

Record BranchV0 : Type := {
  BranchV0_id : PubKey;
  BranchV0_topic : PubKey;
  BranchV0_secret : SymKey;
  BranchV0_members : list MemberV0;
  BranchV0_quorum : gmap CommitType u32;
  BranchV0_ack_delay : RelTime;
  BranchV0_tags : bytes;
  BranchV0_metadata : bytes
}.
Inductive Branch : Type := Branch_V0 (b : BranchV0).

Record AddMembersV0 : Type := {
  AddMembersV0_members : list MemberV0;
  AddMembersV0_quorum : option (gmap CommitType u32);
  AddMembersV0_ack_delay : option RelTime
}.
Inductive AddMembers : Type := AddMembers_V0 (a : AddMembersV0).

Inductive PlainOrEncryptedObjectRef : Type :=
  | Plain (r : ObjectRef)
  | Encrypted (b : bytes).

Record EndOfBranchV0 : Type := {
  EndOfBranchV0_fork : option PlainOrEncryptedObjectRef;
  EndOfBranchV0_expiry : Timestamp
}.
Inductive EndOfBranch : Type := EndOfBranch_V0 (e : EndOfBranchV0).

Inductive Transaction : Type := Transaction_V0 (b : bytes).

Record SnapshotV0 : Type := {
  SnapshotV0_heads : list ObjectId;
  SnapshotV0_content : bytes
}.
Inductive Snapshot : Type := Snapshot_V0 (s : SnapshotV0).

Inductive Ack : Type := Ack_V0.

Inductive CommitBody : Type :=
  | CommitBody_Repository (r : Repository)
  | CommitBody_AddBranch (a : AddBranch)
  | CommitBody_RemoveBranch (r : RemoveBranch)
  | CommitBody_Branch (b : Branch)
  | CommitBody_AddMembers (a : AddMembers)
  | CommitBody_EndOfBranch (e : EndOfBranch)
  | CommitBody_Transaction (t : Transaction)
  | CommitBody_Snapshot (s : Snapshot)
  | CommitBody_Ack (a : Ack).

Record CommitContentV0 : Type := {
  CommitContentV0_author : PubKey;
  CommitContentV0_seq : u32;
  CommitContentV0_branch : ObjectRef;
  CommitContentV0_deps : list ObjectRef;
  CommitContentV0_acks : list ObjectRef;
  CommitContentV0_refs : list ObjectRef;
  CommitContentV0_metadata : bytes;
  CommitContentV0_body : ObjectRef;
  CommitContentV0_expiry : option Timestamp
}.

(** [id] and [key] carry [#[serde(skip)]]. *)
Record CommitV0 : Type := {
  CommitV0_id : option ObjectId;
  CommitV0_key : option SymKey;
  CommitV0_content : CommitContentV0;
  CommitV0_sig : Sig
}.
Inductive Commit : Type := Commit_V0 (c : CommitV0).

Record FileV0 : Type := {
  FileV0_content_type : bytes;
  FileV0_metadata : bytes;
  FileV0_content : bytes
}.
Inductive File : Type := File_V0 (f : FileV0).

Inductive ObjectContent : Type :=
  | ObjectContent_Commit (c : Commit)
  | ObjectContent_CommitBody (b : CommitBody)
  | ObjectContent_File (f : File)
  | ObjectContent_DepList (d : DepList).

#[export] Instance Commit_serde_skip : SerdeSkip Commit := λ '(Commit_V0 c),
  Commit_V0 {|
    CommitV0_id := None;
    CommitV0_key := None;
    CommitV0_content := CommitV0_content c;
    CommitV0_sig := CommitV0_sig c
  |}.
#[export] Instance ObjectContent_serde_skip : SerdeSkip ObjectContent := λ c,
  match c with
  | ObjectContent_Commit c => ObjectContent_Commit (serde_skip c)
  | c => c
  end.
