(* ===== verification/Bare.v ===== *)
(** * A serializer in the BARE format

    The other files are proved for any serializer that satisfies the laws of
    [Serde].  This file gives one, in the BARE wire format, with its laws: it is
    what the worked examples run on, and shows that the laws can hold.  Nothing
    in [src/] is modelled here. *)

From S2P Require Import Prelude Serde Types.

(** An encoding, and a decoder that answers the value and the unread rest. *)
Class Bare (A : Type) : Type := {
  bare_enc : A → bytes;
  bare_dec : bytes → option (A * bytes)
}.
Class BareOk (A : Type) `{!Bare A} : Prop :=
  bare_ok (a : A) r : bare_dec (bare_enc a ++ r) = Some (a, r).

(** ** Integers *)

Definition byte_of_N (n : N) : byte := default x00 (Byte.of_N (n mod 256)).

Lemma to_N_byte_of_N n : Byte.to_N (byte_of_N n) = (n mod 256)%N.
Proof.
  unfold byte_of_N. destruct (Byte.of_N (n mod 256)) as [b|] eqn:Hb; simpl.
  - by apply Byte.to_of_N.
  - apply Byte.of_N_None_iff in Hb. pose proof (N.mod_lt n 256). lia.
Qed.

Fixpoint varint_enc (fuel : nat) (n : N) : bytes :=
  match fuel with
  | O => []
  | S fuel => if (n <? 128)%N then [byte_of_N n]
              else byte_of_N (n mod 128 + 128) :: varint_enc fuel (n / 128)
  end.
Definition varint (n : N) : bytes := varint_enc (S (N.size_nat n)) n.

Fixpoint varint_dec (l : bytes) : option (N * bytes) :=
  match l with
  | [] => None
  | b :: l =>
      let v := Byte.to_N b in
      if (v <? 128)%N then Some (v, l)
      else '(n, r) ← varint_dec l; Some (v - 128 + 128 * n, r)%N
  end.

Lemma varint_enc_ok fuel n r :
  (n < 2 ^ N.of_nat fuel)%N → (0 < fuel)%nat →
  varint_dec (varint_enc fuel n ++ r) = Some (n, r).
Proof.
  revert n. induction fuel as [|fuel IH]; intros n Hn Hf; [lia|].
  cbn [varint_enc]. destruct (N.ltb_spec n 128) as [Hlt|Hge].
  - cbn [app varint_dec]. rewrite to_N_byte_of_N.
    rewrite (N.mod_small n 256) by lia. by apply N.ltb_lt in Hlt as ->.
  - cbn [app varint_dec]. rewrite to_N_byte_of_N.
    pose proof (N.mod_lt n 128 ltac:(done)) as Hm.
    pose proof (N.div_mod n 128 ltac:(done)) as Hdm.
    rewrite (N.mod_small (n mod 128 + 128)) by lia.
    assert (Hb : (n mod 128 + 128 <? 128)%N = false) by (apply N.ltb_ge, N.le_add_l).
    rewrite Hb. clear Hb. rewrite Nat2N.inj_succ, N.pow_succ_r' in Hn.
    assert (0 < fuel)%nat by (destruct fuel; [change (N.of_nat 0) with 0%N in Hn; lia|lia]).
    rewrite IH; [|apply N.Div0.div_lt_upper_bound; lia|done].
    cbn [mbind option_bind]. do 2 f_equal.
    generalize dependent (n mod 128)%N. generalize dependent (n / 128)%N. intros. lia.
Qed.

Lemma varint_fuel n : (n < 2 ^ N.of_nat (S (N.size_nat n)))%N.
Proof.
  rewrite Nat2N.inj_succ, N.pow_succ_r'. destruct n as [|p]; [done|]. cbn [N.size_nat].
  assert (N.pos p < 2 ^ N.of_nat (Pos.size_nat p))%N; [|lia].
  induction p as [p IH|p IH|]; cbn [Pos.size_nat]; [| |done];
    rewrite Nat2N.inj_succ, N.pow_succ_r'; lia.
Qed.
Lemma varint_ok n r : varint_dec (varint n ++ r) = Some (n, r).
Proof. apply varint_enc_ok; [apply varint_fuel|lia]. Qed.

Fixpoint le_enc (k : nat) (n : N) : bytes :=
  match k with O => [] | S k => byte_of_N n :: le_enc k (n / 256) end.
Fixpoint le_dec (k : nat) (l : bytes) : option (N * bytes) :=
  match k, l with
  | O, _ => Some (0%N, l)
  | S _, [] => None
  | S k, b :: l => '(n, r) ← le_dec k l; Some (Byte.to_N b + 256 * n, r)%N
  end.

Lemma le_ok k n r : (n < 256 ^ N.of_nat k)%N → le_dec k (le_enc k n ++ r) = Some (n, r).
Proof.
  revert n. induction k as [|k IH]; intros n Hn.
  { simpl in *. do 2 f_equal. lia. }
  rewrite Nat2N.inj_succ, N.pow_succ_r' in Hn. simpl.
  rewrite IH by (apply N.Div0.div_lt_upper_bound; lia). simpl.
  rewrite to_N_byte_of_N. pose proof (N.div_mod n 256 ltac:(done)). do 2 f_equal. lia.
Qed.

Definition uint_bare (w : N) (k : nat) : Bare (uint w) := {|
  bare_enc n := le_enc k (uint_N n);
  bare_dec l := '(n, r) ← le_dec k l; Some (uint_wrap w n, r)
|}.
Lemma uint_bare_ok w k : (2 ^ w = 256 ^ N.of_nat k)%N → @BareOk _ (uint_bare w k).
Proof.
  intros Hw n r. simpl. rewrite le_ok by (rewrite <- Hw; apply uint_bound).
  simpl. by rewrite uint_wrap_N.
Qed.
#[export] Instance u16_bare : Bare u16 := uint_bare 16 2.
#[export] Instance u16_bare_ok : BareOk u16.
Proof. by apply uint_bare_ok. Qed.
#[export] Instance u32_bare : Bare u32 := uint_bare 32 4.
#[export] Instance u32_bare_ok : BareOk u32.
Proof. by apply uint_bare_ok. Qed.
#[export] Instance u64_bare : Bare u64 := uint_bare 64 8.
#[export] Instance u64_bare_ok : BareOk u64.
Proof. by apply uint_bare_ok. Qed.

#[export] Instance byte_bare : Bare byte := {
  bare_enc b := [b];
  bare_dec l := match l with [] => None | b :: l => Some (b, l) end
}.
#[export] Instance byte_bare_ok : BareOk byte.
Proof. done. Qed.

#[export] Instance bool_bare : Bare bool := {
  bare_enc b := [if b then x01 else x00];
  bare_dec l := match l with
                | x00 :: l => Some (false, l) | x01 :: l => Some (true, l) | _ => None
                end
}.
#[export] Instance bool_bare_ok : BareOk bool.
Proof. by intros []. Qed.

(** ** Data *)

Definition take_exact (n : nat) (l : bytes) : option (bytes * bytes) :=
  if (n <=? length l)%nat then Some (take n l, drop n l) else None.
Lemma take_exact_ok l r : take_exact (length l) (l ++ r) = Some (l, r).
Proof.
  unfold take_exact. rewrite length_app, (proj2 (Nat.leb_le _ _)) by lia.
  by rewrite take_app_length, drop_app_length.
Qed.

#[export] Instance array_bare n : Bare (array n) := {
  bare_enc a := array_list a;
  bare_dec l := '(a, r) ← take_exact n l; Some (to_array n a, r)
}.
#[export] Instance array_bare_ok n : BareOk (array n).
Proof.
  intros a r. cbn [bare_enc bare_dec array_bare].
  pose proof (take_exact_ok (array_list a) r) as Ht. rewrite array_length in Ht.
  rewrite Ht. simpl. f_equal. f_equal. apply to_array_list.
Qed.

(** [Vec<u8>] under [serde_bytes]. Kept apart from lists of bytes. *)
Definition data_enc (b : bytes) : bytes := varint (len b) ++ b.
Definition data_dec (l : bytes) : option (bytes * bytes) :=
  '(n, l) ← varint_dec l; take_exact (N.to_nat n) l.
Lemma data_ok b r : data_dec (data_enc b ++ r) = Some (b, r).
Proof.
  unfold data_dec, data_enc. rewrite <- app_assoc, varint_ok. simpl.
  unfold len. by rewrite Nat2N.id, take_exact_ok.
Qed.
#[export] Instance data_bare : Bare bytes | 0 := { bare_enc := data_enc; bare_dec := data_dec }.
#[export] Instance data_bare_ok : BareOk bytes.
Proof. exact data_ok. Qed.

(** ** Aggregates *)

Section Combinators.
Context {A B : Type} `{!Bare A, !Bare B, !BareOk A, !BareOk B}.

#[export] Instance pair_bare : Bare (A * B) := {
  bare_enc x := bare_enc x.1 ++ bare_enc x.2;
  bare_dec l := '(a, l) ← bare_dec l; '(b, l) ← bare_dec l; Some (a, b, l)
}.
#[export] Instance pair_bare_ok : BareOk (A * B).
Proof. intros [a b] r. simpl. rewrite <- app_assoc, bare_ok. simpl. by rewrite bare_ok. Qed.

#[export] Instance option_bare : Bare (option A) := {
  bare_enc o := match o with None => [x00] | Some a => x01 :: bare_enc a end;
  bare_dec l := match l with
                | x00 :: l => Some (None, l)
                | x01 :: l => '(a, l) ← bare_dec l; Some (Some a, l)
                | _ => None
                end
}.
#[export] Instance option_bare_ok : BareOk (option A).
Proof. intros [a|] r; simpl; [by rewrite bare_ok|done]. Qed.

Fixpoint items_dec (n : nat) (l : bytes) : option (list A * bytes) :=
  match n with
  | O => Some ([], l)
  | S n => '(a, l) ← bare_dec l; '(x, l) ← items_dec n l; Some (a :: x, l)
  end.
#[export] Instance list_bare : Bare (list A) | 10 := {
  bare_enc x := varint (len x) ++ concat (bare_enc <$> x);
  bare_dec l := '(n, l) ← varint_dec l; items_dec (N.to_nat n) l
}.
#[export] Instance list_bare_ok : BareOk (list A) | 10.
Proof.
  intros x r. simpl. rewrite <- app_assoc, varint_ok. simpl. unfold len. rewrite Nat2N.id.
  induction x as [|a x IH]; [done|]. csimpl. rewrite <- app_assoc, bare_ok. simpl.
  by rewrite IH.
Qed.

(** Through an isomorphism: records as tuples. *)
Definition iso_bare (f : B → A) (g : A → B) : Bare B := {|
  bare_enc b := bare_enc (f b);
  bare_dec l := '(a, l) ← bare_dec l; Some (g a, l)
|}.
Lemma iso_bare_ok f g : (∀ b, g (f b) = b) → @BareOk B (iso_bare f g).
Proof. intros Hfg b r. simpl. rewrite bare_ok. simpl. by rewrite Hfg. Qed.
End Combinators.

(** [serde_bare] from an encoding: the whole input has to be read. *)
Definition bare_serde (A : Type) `{!Bare A} : Serde A := {|
  to_vec := bare_enc;
  from_slice l := match bare_dec l with Some (a, []) => Some a | _ => None end
|}.
Lemma bare_serde_laws A `{!Bare A, !BareOk A} :
  @SerdeLaws A (bare_serde A) (serde_skip_default A).
Proof.
  split; [|done]. intros a. simpl. by rewrite <- (app_nil_r (bare_enc a)), bare_ok.
Qed.

(** Proves the law of an enum: by cases on the variant. *)
Ltac solve_enum :=
  intros x r; destruct x; simpl; rewrite <- ?app_assoc; rewrite ?bare_ok; try reflexivity.
(** Proves the law of a record. *)
Ltac solve_record := apply iso_bare_ok; by intros [].
