(* ===== verification/BareTypes.v ===== *)
(** * The serializer at the repository's types, and a model of the ciphers

    Instances of the interfaces of [Serde] that compute: [Bare] at the types of
    [Types], and simple functions with the laws asked of the hash, cipher and
    signature libraries.  They are what the worked examples run on; the
    theorems hold of any instances.  Nothing in [src/] is modelled here.  The
    instances are in [Module Instances], to be imported where they are wanted. *)

From S2P Require Import Prelude Serde Types Bare.

(** A type read through a record or a tuple, less its skipped fields. *)
Lemma iso_serde_laws {A B} `{!Bare A, !BareOk A, !SerdeSkip B} (f : B → A) (g : A → B) :
  (∀ b, g (f b) = serde_skip b) → (∀ b, f (serde_skip b) = f b) →
  @SerdeLaws B (@bare_serde B (iso_bare f g)) _.
Proof.
  intros Hgf Hf. split; intros b; simpl.
  - rewrite <- (app_nil_r (bare_enc (f b))), bare_ok. simpl. by rewrite Hgf.
  - by rewrite Hf.
Qed.

(** An enum with one variant. *)
Definition variant_bare {A B} `{!Bare A} (f : B → A) (g : A → B) : Bare B := {|
  bare_enc b := x00 :: bare_enc (f b);
  bare_dec l := match l with
                | x00 :: l => '(a, l) ← bare_dec l; Some (g a, l)
                | _ => None
                end
|}.
Lemma variant_bare_ok {A B} `{!Bare A, !BareOk A} (f : B → A) (g : A → B) :
  (∀ b, g (f b) = b) → @BareOk B (variant_bare f g).
Proof. intros Hgf b r. simpl. rewrite bare_ok. simpl. by rewrite Hgf. Qed.
Lemma variant_serde_laws {A B} `{!Bare A, !BareOk A, !SerdeSkip B} (f : B → A) (g : A → B) :
  (∀ b, g (f b) = serde_skip b) → (∀ b, f (serde_skip b) = f b) →
  @SerdeLaws B (@bare_serde B (variant_bare f g)) _.
Proof.
  intros Hgf Hf. split; intros b; simpl.
  - rewrite <- (app_nil_r (bare_enc (f b))), bare_ok. simpl. by rewrite Hgf.
  - by rewrite Hf.
Qed.
Ltac solve_variant := apply variant_bare_ok; by intros [].

#[export] Instance Digest_bare : Bare Digest :=
  variant_bare (λ '(Blake3Digest32 d), d) Blake3Digest32.
#[export] Instance Digest_bare_ok : BareOk Digest.
Proof. solve_variant. Qed.
#[export] Instance SymKey_bare : Bare SymKey :=
  variant_bare (λ '(ChaCha20Key d), d) ChaCha20Key.
#[export] Instance SymKey_bare_ok : BareOk SymKey.
Proof. solve_variant. Qed.
#[export] Instance PubKey_bare : Bare PubKey :=
  variant_bare (λ '(Ed25519PubKey d), d) Ed25519PubKey.
#[export] Instance PubKey_bare_ok : BareOk PubKey.
Proof. solve_variant. Qed.
#[export] Instance PrivKey_bare : Bare PrivKey :=
  variant_bare (λ '(Ed25519PrivKey d), d) Ed25519PrivKey.
#[export] Instance PrivKey_bare_ok : BareOk PrivKey.
Proof. solve_variant. Qed.
#[export] Instance Sig_bare : Bare Sig :=
  variant_bare (λ '(Ed25519Sig a b), (a, b)) (λ '(a, b), Ed25519Sig a b).
#[export] Instance Sig_bare_ok : BareOk Sig.
Proof. solve_variant. Qed.

#[export] Instance RelTime_bare : Bare RelTime := {
  bare_enc t := match t with
    | Seconds n => [x00; n] | Minutes n => [x01; n] | Hours n => [x02; n] | Days n => [x03; n]
    end;
  bare_dec l := match l with
    | x00 :: n :: l => Some (Seconds n, l) | x01 :: n :: l => Some (Minutes n, l)
    | x02 :: n :: l => Some (Hours n, l) | x03 :: n :: l => Some (Days n, l)
    | _ => None
    end
}.
#[export] Instance RelTime_bare_ok : BareOk RelTime.
Proof. solve_enum. Qed.

#[export] Instance BlockRef_bare : Bare BlockRef :=
  iso_bare (λ r, (BlockRef_id r, BlockRef_key r)) (λ '(i, k), Build_BlockRef i k).
#[export] Instance BlockRef_bare_ok : BareOk BlockRef.
Proof. solve_record. Qed.

#[export] Instance BlockContentV0_bare : Bare BlockContentV0 := {
  bare_enc c := match c with
    | BlockContentV0_InternalNode keys => x00 :: bare_enc keys
    | BlockContentV0_DataChunk c => x01 :: data_enc c
    end;
  bare_dec l := match l with
    | x00 :: l => '(k, l) ← bare_dec l; Some (BlockContentV0_InternalNode k, l)
    | x01 :: l => '(c, l) ← data_dec l; Some (BlockContentV0_DataChunk c, l)
    | _ => None
    end
}.
#[export] Instance BlockContentV0_bare_ok : BareOk BlockContentV0.
Proof. intros [k|c] r; cbn [bare_enc bare_dec BlockContentV0_bare app]; [by rewrite bare_ok|by rewrite data_ok]. Qed.

#[export] Instance DepList_bare : Bare DepList := variant_bare (λ '(DepList_V0 l), l) DepList_V0.
#[export] Instance DepList_bare_ok : BareOk DepList.
Proof. solve_variant. Qed.

#[export] Instance ObjectDeps_bare : Bare ObjectDeps := {
  bare_enc c := match c with
    | ObjectIdList ids => x00 :: bare_enc ids
    | DepListRef r => x01 :: bare_enc r
    end;
  bare_dec l := match l with
    | x00 :: l => '(k, l) ← bare_dec l; Some (ObjectIdList k, l)
    | x01 :: l => '(c, l) ← bare_dec l; Some (DepListRef c, l)
    | _ => None
    end
}.
#[export] Instance ObjectDeps_bare_ok : BareOk ObjectDeps.
Proof. intros [ids|r] l; cbn [bare_enc bare_dec ObjectDeps_bare app]; by rewrite bare_ok. Qed.

(** The fields of a block that are written. *)
Definition block_wire (b : Block) : list BlockId * ObjectDeps * option Timestamp * bytes :=
  match b with Block_V0 b =>
    (BlockV0_children b, BlockV0_deps b, BlockV0_expiry b, BlockV0_content b) end.
Definition block_unwire (t : list BlockId * ObjectDeps * option Timestamp * bytes) : Block :=
  let '(ch, d, e, c) := t in Block_V0 {|
    BlockV0_id := None; BlockV0_key := None; BlockV0_children := ch;
    BlockV0_deps := d; BlockV0_expiry := e; BlockV0_content := c |}.

#[export] Instance CommitType_bare : Bare CommitType := {
  bare_enc t := varint (CommitType_index t);
  bare_dec l := '(n, l) ← varint_dec l; t ← CommitType_of_index n; Some (t, l)
}.
#[export] Instance CommitType_bare_ok : BareOk CommitType.
Proof. intros t r. simpl. rewrite varint_ok. by destruct t. Qed.

#[export] Instance quorum_bare : Bare (gmap CommitType u32) :=
  iso_bare map_to_list list_to_map.
#[export] Instance quorum_bare_ok : BareOk (gmap CommitType u32).
Proof. apply iso_bare_ok, list_to_map_to_list. Qed.

#[export] Instance MemberV0_bare : Bare MemberV0 :=
  iso_bare (λ m, (MemberV0_id m, MemberV0_commit_types m, MemberV0_metadata m))
           (λ '(i, t, m), Build_MemberV0 i t m).
#[export] Instance MemberV0_bare_ok : BareOk MemberV0.
Proof. solve_record. Qed.

#[export] Instance Branch_bare : Bare Branch :=
  variant_bare (λ '(Branch_V0 b), (BranchV0_id b, BranchV0_topic b, BranchV0_secret b,
      BranchV0_members b, BranchV0_quorum b, BranchV0_ack_delay b, BranchV0_tags b,
      BranchV0_metadata b))
    (λ '(i, t, s, m, q, a, g, d), Branch_V0 (Build_BranchV0 i t s m q a g d)).
#[export] Instance Branch_bare_ok : BareOk Branch.
Proof. apply variant_bare_ok. by intros [[]]. Qed.

#[export] Instance Repository_bare : Bare Repository :=
  variant_bare (λ '(Repository_V0 r), (RepositoryV0_id r, RepositoryV0_branches r,
      RepositoryV0_allow_ext_requests r, RepositoryV0_metadata r))
    (λ '(i, b, a, m), Repository_V0 (Build_RepositoryV0 i b a m)).
#[export] Instance Repository_bare_ok : BareOk Repository.
Proof. apply variant_bare_ok. by intros [[]]. Qed.

#[export] Instance AddMembers_bare : Bare AddMembers :=
  variant_bare (λ '(AddMembers_V0 a), (AddMembersV0_members a, AddMembersV0_quorum a,
      AddMembersV0_ack_delay a))
    (λ '(m, q, d), AddMembers_V0 (Build_AddMembersV0 m q d)).
#[export] Instance AddMembers_bare_ok : BareOk AddMembers.
Proof. apply variant_bare_ok. by intros [[]]. Qed.

#[export] Instance PlainOrEncryptedObjectRef_bare : Bare PlainOrEncryptedObjectRef := {
  bare_enc c := match c with
    | Plain r => x00 :: bare_enc r
    | Encrypted b => x01 :: data_enc b
    end;
  bare_dec l := match l with
    | x00 :: l => '(k, l) ← bare_dec l; Some (Plain k, l)
    | x01 :: l => '(c, l) ← data_dec l; Some (Encrypted c, l)
    | _ => None
    end
}.
#[export] Instance PlainOrEncryptedObjectRef_bare_ok : BareOk PlainOrEncryptedObjectRef.
Proof.
  intros [r|b] l; cbn [bare_enc bare_dec PlainOrEncryptedObjectRef_bare app];
    [by rewrite bare_ok|by rewrite data_ok].
Qed.

#[export] Instance EndOfBranch_bare : Bare EndOfBranch :=
  variant_bare (λ '(EndOfBranch_V0 e), (EndOfBranchV0_fork e, EndOfBranchV0_expiry e))
    (λ '(f, e), EndOfBranch_V0 (Build_EndOfBranchV0 f e)).
#[export] Instance EndOfBranch_bare_ok : BareOk EndOfBranch.
Proof. apply variant_bare_ok. by intros [[]]. Qed.

#[export] Instance Snapshot_bare : Bare Snapshot :=
  variant_bare (λ '(Snapshot_V0 e), (SnapshotV0_heads e, SnapshotV0_content e))
    (λ '(f, e), Snapshot_V0 (Build_SnapshotV0 f e)).
#[export] Instance Snapshot_bare_ok : BareOk Snapshot.
Proof. apply variant_bare_ok. by intros [[]]. Qed.

#[export] Instance File_bare : Bare File :=
  variant_bare (λ '(File_V0 f), (FileV0_content_type f, FileV0_metadata f, FileV0_content f))
    (λ '(t, m, c), File_V0 (Build_FileV0 t m c)).
#[export] Instance File_bare_ok : BareOk File.
Proof. apply variant_bare_ok. by intros [[]]. Qed.

#[export] Instance AddBranch_bare : Bare AddBranch :=
  variant_bare (λ '(AddBranch_V0 r), r) AddBranch_V0.
#[export] Instance AddBranch_bare_ok : BareOk AddBranch.
Proof. solve_variant. Qed.
#[export] Instance RemoveBranch_bare : Bare RemoveBranch :=
  variant_bare (λ '(RemoveBranch_V0 r), r) RemoveBranch_V0.
#[export] Instance RemoveBranch_bare_ok : BareOk RemoveBranch.
Proof. solve_variant. Qed.
#[export] Instance Transaction_bare : Bare Transaction :=
  variant_bare (λ '(Transaction_V0 r), r) Transaction_V0.
#[export] Instance Transaction_bare_ok : BareOk Transaction.
Proof. solve_variant. Qed.

#[export] Instance CommitBody_bare : Bare CommitBody := {
  bare_enc b := match b with
    | CommitBody_Repository a => x00 :: bare_enc a
    | CommitBody_AddBranch a => x01 :: bare_enc a
    | CommitBody_RemoveBranch a => x02 :: bare_enc a
    | CommitBody_Branch a => x03 :: bare_enc a
    | CommitBody_AddMembers a => x04 :: bare_enc a
    | CommitBody_EndOfBranch a => x05 :: bare_enc a
    | CommitBody_Transaction a => x06 :: bare_enc a
    | CommitBody_Snapshot a => x07 :: bare_enc a
    | CommitBody_Ack _ => [x08; x00]
    end;
  bare_dec l := match l with
    | x00 :: l => '(a, l) ← bare_dec l; Some (CommitBody_Repository a, l)
    | x01 :: l => '(a, l) ← bare_dec l; Some (CommitBody_AddBranch a, l)
    | x02 :: l => '(a, l) ← bare_dec l; Some (CommitBody_RemoveBranch a, l)
    | x03 :: l => '(a, l) ← bare_dec l; Some (CommitBody_Branch a, l)
    | x04 :: l => '(a, l) ← bare_dec l; Some (CommitBody_AddMembers a, l)
    | x05 :: l => '(a, l) ← bare_dec l; Some (CommitBody_EndOfBranch a, l)
    | x06 :: l => '(a, l) ← bare_dec l; Some (CommitBody_Transaction a, l)
    | x07 :: l => '(a, l) ← bare_dec l; Some (CommitBody_Snapshot a, l)
    | x08 :: x00 :: l => Some (CommitBody_Ack Ack_V0, l)
    | _ => None
    end
}.
#[export] Instance CommitBody_bare_ok : BareOk CommitBody.
Proof.
  intros [a|a|a|a|a|a|a|a|[]] l; cbn [bare_enc bare_dec CommitBody_bare app];
    by rewrite ?bare_ok.
Qed.

#[export] Instance CommitContentV0_bare : Bare CommitContentV0 :=
  iso_bare (λ c, (CommitContentV0_author c, CommitContentV0_seq c, CommitContentV0_branch c,
      CommitContentV0_deps c, CommitContentV0_acks c, CommitContentV0_refs c,
      CommitContentV0_metadata c, CommitContentV0_body c, CommitContentV0_expiry c))
    (λ '(a, s, b, d, k, r, m, y, e), Build_CommitContentV0 a s b d k r m y e).
#[export] Instance CommitContentV0_bare_ok : BareOk CommitContentV0.
Proof. solve_record. Qed.

(** The contents of an object, as they are written: a commit without its
    skipped fields. *)
Inductive object_wire : Type :=
  | wire_Commit (c : CommitContentV0) (s : Sig)
  | wire_CommitBody (b : CommitBody)
  | wire_File (f : File)
  | wire_DepList (d : DepList).
Definition content_wire (c : ObjectContent) : object_wire :=
  match c with
  | ObjectContent_Commit (Commit_V0 c) => wire_Commit (CommitV0_content c) (CommitV0_sig c)
  | ObjectContent_CommitBody b => wire_CommitBody b
  | ObjectContent_File f => wire_File f
  | ObjectContent_DepList d => wire_DepList d
  end.
Definition content_unwire (w : object_wire) : ObjectContent :=
  match w with
  | wire_Commit c s => ObjectContent_Commit (Commit_V0 {|
      CommitV0_id := None; CommitV0_key := None; CommitV0_content := c; CommitV0_sig := s |})
  | wire_CommitBody b => ObjectContent_CommitBody b
  | wire_File f => ObjectContent_File f
  | wire_DepList d => ObjectContent_DepList d
  end.
#[export] Instance object_wire_bare : Bare object_wire := {
  bare_enc w := match w with
    | wire_Commit c s => x00 :: x00 :: bare_enc (c, s)
    | wire_CommitBody b => x01 :: bare_enc b
    | wire_File f => x02 :: bare_enc f
    | wire_DepList d => x03 :: bare_enc d
    end;
  bare_dec l := match l with
    | x00 :: x00 :: l => '((c, s), l) ← bare_dec l; Some (wire_Commit c s, l)
    | x01 :: l => '(a, l) ← bare_dec l; Some (wire_CommitBody a, l)
    | x02 :: l => '(a, l) ← bare_dec l; Some (wire_File a, l)
    | x03 :: l => '(a, l) ← bare_dec l; Some (wire_DepList a, l)
    | _ => None
    end
}.
#[export] Instance object_wire_bare_ok : BareOk object_wire.
Proof.
  intros [c s|a|a|a] l; cbn [bare_enc bare_dec object_wire_bare app]; by rewrite bare_ok.
Qed.

(** ** Hash, cipher and signatures that compute *)

(** A checksum modulo [2 ^ 60] of the length and of the first bytes: enough to tell
    the examples apart, and quick to evaluate. *)
Definition toy_hash (b : bytes) : array 32 :=
  to_array 32 (le_enc 32
    (foldl (λ acc x, N.land (acc * 65599 + Byte.to_N x + 1) (N.ones 60))
       (7 + len b) (take 160 b))%N).

Definition byte_xor (a b : byte) : byte := byte_of_N (N.lxor (Byte.to_N a) (Byte.to_N b)).
Lemma byte_xor_invol a b : byte_xor (byte_xor a b) b = a.
Proof.
  unfold byte_xor. rewrite to_N_byte_of_N.
  assert (Hx : (N.lxor (Byte.to_N a) (Byte.to_N b) < 256)%N).
  { pose proof (Byte.to_N_bounded a). pose proof (Byte.to_N_bounded b).
    destruct (N.eq_dec (N.lxor (Byte.to_N a) (Byte.to_N b)) 0%N) as [->|Hz]; [done|].
    apply (N.log2_lt_pow2 _ 8%N); [lia|]. eapply N.le_lt_trans; [apply N.log2_lxor|].
    assert (∀ x, (x <= 255)%N → (N.log2 x < 8)%N) as Hl.
    { intros x Hxx. apply (N.log2_le_mono x 255) in Hxx. change (N.log2 255) with 7%N in Hxx. lia. }
    apply N.max_lub_lt; by apply Hl. }
  rewrite N.mod_small by done. rewrite N.lxor_assoc, N.lxor_nilpotent, N.lxor_0_r.
  unfold byte_of_N. pose proof (Byte.to_N_bounded a).
  rewrite N.mod_small by lia. by rewrite Byte.of_to_N.
Qed.

(** The keystream repeats the key and the nonce; it covers the first bytes. *)
Fixpoint keystream (k cur : bytes) (b : bytes) : bytes :=
  match b, cur with
  | [], _ => []
  | x :: b, y :: cur => byte_xor x y :: keystream k cur b
  | x :: b, [] =>
      match k with
      | [] => x :: b
      | y :: cur => byte_xor x y :: keystream k cur b
      end
  end.
Lemma keystream_invol k cur b : keystream k cur (keystream k cur b) = b.
Proof.
  revert cur. induction b as [|x b IH]; intros [|y cur]; [done..| |].
  - destruct k as [|z k']; [done|]. cbn. rewrite byte_xor_invol. f_equal. apply IH.
  - cbn. by rewrite byte_xor_invol, IH.
Qed.
Lemma keystream_length k cur b : length (keystream k cur b) = length b.
Proof.
  revert cur. induction b as [|x b IH]; intros [|y cur]; [done..| |].
  - destruct k as [|z k']; [done|]. cbn. f_equal. apply IH.
  - cbn. by rewrite IH.
Qed.

Module Instances.

#[export] Instance toy_crypto : Crypto := {
  blake3_hash := toy_hash;
  blake3_keyed_hash k b := toy_hash (array_list k ++ b);
  blake3_derive_key ctx b := toy_hash (String.list_byte_of_string ctx ++ b);
  chacha20_apply_keystream k n b :=
    keystream (array_list k ++ array_list n) (array_list k) (take 64 b) ++ drop 64 b
}.
#[export] Instance toy_crypto_laws : CryptoLaws.
Proof.
  split; intros k n b; cbn [chacha20_apply_keystream toy_crypto].
  - set (ks := keystream _ _). assert (Hl : length (ks (take 64 b)) = length (take 64 b))
      by apply keystream_length.
    destruct (decide (length b <= 64)%nat) as [Hs|Hs].
    + rewrite (drop_ge b), app_nil_r, (take_ge b) in * by done.
      rewrite take_ge, drop_ge, app_nil_r by lia. apply keystream_invol.
    + rewrite take_app_length', drop_app_length' by (rewrite Hl, length_take; lia).
      unfold ks. by rewrite keystream_invol, take_drop.
  - by rewrite length_app, keystream_length, <- length_app, take_drop.
Qed.

(** The public key is the secret; a signature is a checksum under it. *)
#[export] Instance toy_ed25519 : Ed25519 := {
  Keypair := array 32;
  PublicKey := array 32;
  Signature := bytes;
  keypair_from_bytes b :=
    if decide (length b = 64%nat ∧ take 32 b = drop 32 b) then Some (to_array 32 b) else None;
  keypair_generate seed := to_array 32 seed;
  keypair_secret_bytes k := k;
  keypair_public_bytes k := k;
  keypair_sign k m :=
    to_array 64 (array_list (toy_hash (array_list k ++ m)) ++ array_list k);
  public_from_bytes b := if decide (length b = 32%nat) then Some (to_array 32 b) else None;
  signature_from_bytes b := if decide (length b = 64%nat) then Some b else None;
  verify_strict k m s :=
    bool_decide (s = array_list (toy_hash (array_list k ++ m)) ++ array_list k)
}.
#[export] Instance toy_ed25519_laws : Ed25519Laws.
Proof.
  split; intros seed; cbn [keypair_generate keypair_secret_bytes keypair_public_bytes
    keypair_from_bytes keypair_sign public_from_bytes signature_from_bytes verify_strict
    toy_ed25519]; generalize (to_array 32 seed : array 32) as k; intros k.
  - rewrite decide_True; [by rewrite to_array_app|].
    rewrite length_app, array_length. split; [done|].
    by rewrite take_app_length', drop_app_length' by (by rewrite array_length).
  - intros m.
    assert (Hs : length (array_list (toy_hash (array_list k ++ m)) ++ array_list k) = 64%nat)
      by (rewrite length_app, !array_length; done).
    exists k, (array_list (toy_hash (array_list k ++ m)) ++ array_list k). split_and!.
    + by rewrite decide_True, to_array_list by apply array_length.
    + by rewrite (to_array_exact _ Hs), decide_True.
    + by apply bool_decide_eq_true.
Qed.

#[export] Instance Block_serde : Serde Block :=
  @bare_serde Block (variant_bare block_wire block_unwire).
#[export] Instance Block_serde_laws : SerdeLaws Block.
Proof. apply variant_serde_laws; by intros []. Qed.

#[export] Instance BlockContentV0_serde : Serde BlockContentV0 := bare_serde BlockContentV0.
#[export] Instance BlockContentV0_serde_laws : SerdeLaws BlockContentV0.
Proof. apply bare_serde_laws, _. Qed.

#[export] Instance ObjectContent_serde : Serde ObjectContent :=
  @bare_serde ObjectContent (iso_bare content_wire content_unwire).
#[export] Instance ObjectContent_serde_laws : SerdeLaws ObjectContent.
Proof. apply iso_serde_laws; by intros [[]| | |]. Qed.
#[export] Instance ObjectContent_serde_tagged : SerdeTagged ObjectContent.
Proof. split; [by intros [[]| | |]|done]. Qed.

#[export] Instance CommitContentV0_serde : Serde CommitContentV0 := bare_serde CommitContentV0.
#[export] Instance CommitContentV0_serde_laws : SerdeLaws CommitContentV0.
Proof. apply bare_serde_laws, _. Qed.
End Instances.
