(* ===== verification/Block.v ===== *)
(** * Immutable blocks: [lofire/src/block.rs]

    A block's identifier is the hash of its serialization, which leaves out the
    cached [id] and [key] fields; [Block_id] answers from the cache when it is
    set.  [id_ok] is the invariant that the cache agrees with the hash. *)

From S2P Require Import Prelude Serde Types.

Section Block.
Context `{!Crypto} `{!Serde Block}.

(** [Block::get_id] *)
Definition Block_get_id (b : Block) : BlockId :=
  Blake3Digest32 (blake3_hash (to_vec b)).

(** [BlockV0::new] *)
Definition BlockV0_new (children : list BlockId) (deps : ObjectDeps)
    (expiry : option Timestamp) (content : bytes) (key : option SymKey) : BlockV0 :=
  let b := {|
    BlockV0_id := None;
    BlockV0_key := key;
    BlockV0_children := children;
    BlockV0_deps := deps;
    BlockV0_expiry := expiry;
    BlockV0_content := content
  |} in
  let block := Block_V0 b in
  {|
    BlockV0_id := Some (Block_get_id block);
    BlockV0_key := BlockV0_key b;
    BlockV0_children := BlockV0_children b;
    BlockV0_deps := BlockV0_deps b;
    BlockV0_expiry := BlockV0_expiry b;
    BlockV0_content := BlockV0_content b
  |}.

(** [Block::new] *)
Definition Block_new (children : list BlockId) (deps : ObjectDeps)
    (expiry : option Timestamp) (content : bytes) (key : option SymKey) : Block :=
  Block_V0 (BlockV0_new children deps expiry content key).

(** [Block::id] *)
Definition Block_id (block : Block) : BlockId :=
  match block with
  | Block_V0 b => match BlockV0_id b with
                  | Some id => id
                  | None => Block_get_id block
                  end
  end.

Definition Block_content (block : Block) : bytes :=
  match block with Block_V0 b => BlockV0_content b end.
Definition Block_children (block : Block) : list BlockId :=
  match block with Block_V0 b => BlockV0_children b end.
Definition Block_deps (block : Block) : ObjectDeps :=
  match block with Block_V0 b => BlockV0_deps b end.
Definition Block_expiry (block : Block) : option Timestamp :=
  match block with Block_V0 b => BlockV0_expiry b end.
Definition Block_key (block : Block) : option SymKey :=
  match block with Block_V0 b => BlockV0_key b end.

(** [Block::set_expiry]: the cached id is dropped. *)
Definition Block_set_expiry (expiry : option Timestamp) (block : Block) : Block :=
  match block with
  | Block_V0 b => Block_V0 {|
      BlockV0_id := None;
      BlockV0_key := BlockV0_key b;
      BlockV0_children := BlockV0_children b;
      BlockV0_deps := BlockV0_deps b;
      BlockV0_expiry := expiry;
      BlockV0_content := BlockV0_content b
    |}
  end.

(** [Block::set_key] *)
Definition Block_set_key (key : option SymKey) (block : Block) : Block :=
  match block with
  | Block_V0 b => Block_V0 {|
      BlockV0_id := BlockV0_id b;
      BlockV0_key := key;
      BlockV0_children := BlockV0_children b;
      BlockV0_deps := BlockV0_deps b;
      BlockV0_expiry := BlockV0_expiry b;
      BlockV0_content := BlockV0_content b
    |}
  end.

(** The cached identifier, when there is one, is the block's hash. *)
Definition id_ok (b : Block) : Prop := Block_id b = Block_get_id b.
#[export] Instance id_ok_dec b : Decision (id_ok b).
Proof. unfold id_ok. apply _. Defined.

(** ** Lemmas *)

Context `{!SerdeLaws Block}.

Lemma get_id_skip b : Block_get_id (serde_skip b) = Block_get_id b.
Proof. unfold Block_get_id. by rewrite to_vec_skip. Qed.

Lemma get_id_ext b1 b2 : serde_skip b1 = serde_skip b2 → Block_get_id b1 = Block_get_id b2.
Proof. intros Heq. by rewrite <- (get_id_skip b1), Heq, get_id_skip. Qed.

Lemma skip_set_key k b : serde_skip (Block_set_key k b) = serde_skip b.
Proof. by destruct b. Qed.

Lemma skip_idemp (b : Block) : serde_skip (serde_skip b) = serde_skip b.
Proof. by destruct b. Qed.

Lemma id_skip b : Block_id (serde_skip b) = Block_get_id b.
Proof. destruct b as [b]; simpl. apply (get_id_skip (Block_V0 b)). Qed.

Lemma id_set_key k b : id_ok b → Block_id (Block_set_key k b) = Block_id b.
Proof.
  unfold id_ok. intros Hok. destruct b as [[[i|] k' ch d e c]]; simpl in *; [done|].
  apply get_id_ext; done.
Qed.

Lemma id_ok_set_key k b : id_ok b → id_ok (Block_set_key k b).
Proof.
  intros Hok. unfold id_ok. rewrite id_set_key, Hok by done.
  apply get_id_ext. by rewrite skip_set_key.
Qed.

Lemma id_ok_new ch d e c k : id_ok (Block_new ch d e c k).
Proof. unfold id_ok; simpl. by apply get_id_ext. Qed.

Lemma id_ok_set_expiry e b : id_ok (Block_set_expiry e b).
Proof. by destruct b. Qed.

Lemma id_ok_skip b : id_ok (serde_skip b).
Proof. by destruct b. Qed.

Lemma id_of_skip b1 b2 :
  id_ok b1 → id_ok b2 → serde_skip b1 = serde_skip b2 → Block_id b1 = Block_id b2.
Proof. intros -> -> Heq. by apply get_id_ext. Qed.

Lemma children_skip b : Block_children (serde_skip b) = Block_children b.
Proof. by destruct b. Qed.
Lemma content_skip b : Block_content (serde_skip b) = Block_content b.
Proof. by destruct b. Qed.
Lemma deps_skip b : Block_deps (serde_skip b) = Block_deps b.
Proof. by destruct b. Qed.
Lemma expiry_skip b : Block_expiry (serde_skip b) = Block_expiry b.
Proof. by destruct b. Qed.

Lemma key_set_key k b : Block_key (Block_set_key k b) = k.
Proof. by destruct b. Qed.
Lemma children_set_key k b : Block_children (Block_set_key k b) = Block_children b.
Proof. by destruct b. Qed.
Lemma content_set_key k b : Block_content (Block_set_key k b) = Block_content b.
Proof. by destruct b. Qed.
Lemma deps_set_key k b : Block_deps (Block_set_key k b) = Block_deps b.
Proof. by destruct b. Qed.
End Block.

#[export] Hint Resolve id_ok_new id_ok_set_key id_ok_set_expiry id_ok_skip : lofire.
#[export] Hint Rewrite @skip_set_key @key_set_key @children_set_key @content_set_key
  @deps_set_key @children_skip @content_skip @deps_skip @expiry_skip : lofire_rw.
