(* ===== verification/Store.v ===== *)
(** * Block stores: [lofire/src/store.rs]

    The size classes of the storage backend, the [RepoStore] trait as a class
    with its contract, and the [HashMap] store as an instance. *)

From S2P Require Import Prelude Serde Types Block.

Inductive StorageError : Type :=
  | StorageError_NotFound
  | StorageError_InvalidValue
  | StorageError_BackendError
  | StorageError_SerializationError.

#[export] Instance StorageError_eq_dec : EqDecision StorageError.
Proof. solve_decision. Defined.

(** [impl From<serde_bare::error::Error> for StorageError] at a call
    [from_slice(v)?]. *)
Definition from_slice_se {A} `{!Serde A} (v : bytes) : result A StorageError :=
  match from_slice v with
  | Some a => Ok a
  | None => Err StorageError_SerializationError
  end.

(** ** Value sizes *)

Definition MIN_SIZE : usize := 4072.
Definition PAGE_SIZE : usize := 4096.
Definition HEADER : usize := PAGE_SIZE - MIN_SIZE.
Definition MAX_FACTOR : usize := 512.

(** [x as f32]: the nearest number with a 24-bit significand, ties to even.
    Integers below [2 ^ 64] stay integers, so the value is kept in [N]. *)
Definition f32_of_usize (x : usize) : N :=
  if (x <? 2 ^ 24)%N then x else
  let e := (N.log2 x - 23)%N in
  let q := (x / 2 ^ e)%N in
  let r := (x mod 2 ^ e)%N in
  let half := (2 ^ (e - 1))%N in
  if (half <? r)%N || ((half =? r)%N && N.odd q)
  then ((q + 1) * 2 ^ e)%N else (q * 2 ^ e)%N.

(** [(x / y).ceil() as usize] for [f32] values [x] and [y]. The division is
    exact when [y] is a power of two, as it is at the only call. *)
Definition f32_div_ceil (x y : N) : usize := ((x + (y - 1)) / y)%N.

(** [store_valid_value_size] *)
Definition store_valid_value_size (size : usize) : outcome usize :=
  s ← usize_add size HEADER;
  let pages := f32_div_ceil (f32_of_usize s) (f32_of_usize PAGE_SIZE) in
  v ← usize_mul (N.min pages MAX_FACTOR) PAGE_SIZE;
  usize_sub v HEADER.

(** [store_max_value_size] *)
Definition store_max_value_size : usize := (MAX_FACTOR * PAGE_SIZE - HEADER)%N.

(** The size class on the integers: whole pages, at most [MAX_FACTOR] of them,
    less the header. *)
Definition valid_size (size : usize) : usize :=
  (N.min ((size + HEADER + (PAGE_SIZE - 1)) / PAGE_SIZE) MAX_FACTOR * PAGE_SIZE - HEADER)%N.

Lemma f32_of_usize_small x : (x < 2 ^ 24)%N → f32_of_usize x = x.
Proof. intros Hx. unfold f32_of_usize. by apply N.ltb_lt in Hx as ->. Qed.

Lemma f32_of_usize_large x : (2 ^ 24 <= x)%N → (2 ^ 24 <= f32_of_usize x)%N.
Proof.
  intros Hx. unfold f32_of_usize. rewrite (proj2 (N.ltb_ge _ _) Hx).
  set (e := (N.log2 x - 23)%N).
  assert (Hlog : (24 <= N.log2 x)%N).
  { rewrite <- (N.log2_pow2 24) by lia. by apply N.log2_le_mono. }
  assert (Hq : (2 ^ 23 <= x / 2 ^ e)%N).
  { apply N.div_le_lower_bound; [by apply N.pow_nonzero|].
    rewrite <- N.pow_add_r. replace (e + 23)%N with (N.log2 x) by lia.
    apply N.log2_spec. lia. }
  assert (He : (2 <= 2 ^ e)%N).
  { replace 2%N with (2 ^ 1)%N at 1 by done. apply N.pow_le_mono_r; lia. }
  change (2 ^ 24)%N with (2 ^ 23 * 2)%N.
  destruct (_ || _); apply N.mul_le_mono; lia.
Qed.

Lemma store_valid_value_size_eq size :
  (size + HEADER < usize_max)%N →
  store_valid_value_size size = Ret (valid_size size).
Proof.
  intros Hs. unfold store_valid_value_size.
  rewrite usize_add_ok by done. cbn [mbind outcome_bind].
  rewrite (f32_of_usize_small PAGE_SIZE) by done.
  assert (Hmin : N.min (f32_div_ceil (f32_of_usize (size + HEADER)) PAGE_SIZE) MAX_FACTOR
    = N.min ((size + HEADER + (PAGE_SIZE - 1)) / PAGE_SIZE) MAX_FACTOR).
  { destruct (N.lt_ge_cases (size + HEADER) (2 ^ 24)) as [Hlt|Hge].
    - by rewrite f32_of_usize_small.
    - pose proof (f32_of_usize_large _ Hge) as Hf. unfold f32_div_ceil.
      rewrite !N.min_r; [done| |]; apply N.div_le_lower_bound; unfold PAGE_SIZE, MAX_FACTOR in *; lia. }
  rewrite Hmin.
  set (p := ((size + HEADER + (PAGE_SIZE - 1)) / PAGE_SIZE)%N) in *.
  assert (1 <= p)%N.
  { apply N.div_le_lower_bound; unfold HEADER, MIN_SIZE, PAGE_SIZE in *; lia. }
  assert (1 <= N.min p MAX_FACTOR <= 512)%N by (unfold MAX_FACTOR; lia).
  rewrite usize_mul_ok by (unfold PAGE_SIZE, usize_max; lia). cbn [mbind outcome_bind].
  by rewrite usize_sub_ok by (unfold HEADER, MIN_SIZE, PAGE_SIZE; lia).
Qed.

Lemma valid_size_bounds size :
  (MIN_SIZE <= valid_size size <= store_max_value_size)%N.
Proof.
  unfold valid_size, store_max_value_size, HEADER, MIN_SIZE, PAGE_SIZE, MAX_FACTOR.
  assert (1 <= (size + (4096 - 4072) + (4096 - 1)) / 4096)%N
    by (apply N.div_le_lower_bound; lia).
  lia.
Qed.

Lemma valid_size_fits size :
  (size <= store_max_value_size)%N → (size <= valid_size size)%N.
Proof.
  unfold valid_size, store_max_value_size, HEADER, MIN_SIZE, PAGE_SIZE, MAX_FACTOR.
  intros Hs.
  pose proof (N.div_mod (size + (4096 - 4072) + (4096 - 1)) 4096 ltac:(done)).
  pose proof (N.mod_lt (size + (4096 - 4072) + (4096 - 1)) 4096 ltac:(done)).
  lia.
Qed.

Lemma valid_size_pages size :
  ∃ p, (1 <= p <= MAX_FACTOR)%N ∧ valid_size size = (p * PAGE_SIZE - HEADER)%N.
Proof.
  eexists; split; [|reflexivity]. split; [|lia].
  apply N.min_glb; [|unfold MAX_FACTOR; lia].
  apply N.div_le_lower_bound; unfold HEADER, MIN_SIZE, PAGE_SIZE; lia.
Qed.

Lemma valid_size_tight size :
  (MIN_SIZE <= size)%N → (valid_size size < size + PAGE_SIZE)%N.
Proof.
  unfold valid_size, HEADER, MIN_SIZE, PAGE_SIZE, MAX_FACTOR. intros Hs.
  pose proof (N.Div0.mul_div_le (size + (4096 - 4072) + (4096 - 1)) 4096) as Hq.
  generalize dependent ((size + (4096 - 4072) + (4096 - 1)) / 4096)%N. intros q Hq. lia.
Qed.

Lemma valid_size_max size :
  (store_max_value_size <= size)%N → valid_size size = store_max_value_size.
Proof.
  unfold valid_size, store_max_value_size, HEADER, MIN_SIZE, PAGE_SIZE, MAX_FACTOR. intros Hs.
  rewrite N.min_r; [done|]. apply N.div_le_lower_bound; lia.
Qed.

(** A size class is its own size class. *)
Lemma valid_size_idemp size : valid_size (valid_size size) = valid_size size.
Proof.
  destruct (valid_size_pages size) as (p & Hp & ->). unfold valid_size.
  replace (p * PAGE_SIZE - HEADER + HEADER + (PAGE_SIZE - 1))%N
    with (PAGE_SIZE - 1 + p * PAGE_SIZE)%N
    by (unfold HEADER, MIN_SIZE, PAGE_SIZE; lia).
  rewrite N.div_add, N.div_small by done. rewrite N.add_0_l, N.min_l; [done|lia].
Qed.

(** ** The [RepoStore] trait

    The methods take [&self]: a store changes behind a lock, so each method is
    a function of the store's state, and it may panic. *)

Class RepoStore (S : Type) : Type := {
  store_get : BlockId → S → outcome (result Block StorageError * S);
  store_put : Block → S → outcome (result BlockId StorageError * S);
  store_del : BlockId → S → outcome (result (Block * usize) StorageError * S)
}.

(** The contract a client relies on. A store is seen as a finite map from
    identifiers to blocks, less what is not persisted of a block ([serde_skip]):
    whenever a method returns, it answers from this map and updates it. *)
Class RepoStoreSpec (S : Type) `{!Crypto, !Serde Block, !RepoStore S} : Type := {
  store_inv : S → Prop;
  store_view : S → gmap BlockId Block;
  store_view_skip s id b :
    store_inv s → store_view s !! id = Some b → serde_skip b = b ∧ Block_get_id b = id;
  store_get_spec s id r s' :
    store_inv s → store_get id s = Ret (r, s') →
    store_inv s' ∧ store_view s' = store_view s ∧
    match store_view s !! id with
    | Some b => ∃ b', r = Ok b' ∧ serde_skip b' = b ∧ id_ok b' ∧ Block_key b' = None
    | None => r = Err StorageError_NotFound
    end;
  store_put_spec s b r s' :
    store_inv s → id_ok b → store_put b s = Ret (r, s') →
    r = Ok (Block_id b) ∧ store_inv s' ∧
    store_view s' = <[Block_id b := serde_skip b]> (store_view s);
  store_del_spec s id r s' :
    store_inv s → store_del id s = Ret (r, s') →
    store_inv s' ∧
    match store_view s !! id with
    | Some b => ∃ b' n, r = Ok (b', n) ∧ serde_skip b' = b ∧
                        store_view s' = delete id (store_view s)
    | None => r = Err StorageError_NotFound ∧ store_view s' = store_view s
    end
}.

(** A store whose methods always return. *)
Class RepoStoreTotal (S : Type) `{RepoStoreSpec S} : Prop := {
  store_get_returns s id : store_inv s → returns (store_get id s);
  store_put_returns s b : store_inv s → id_ok b → returns (store_put b s);
  store_del_returns s id : store_inv s → returns (store_del id s)
}.

(** ** The store with a [HashMap] backend *)

(** [std::mem::size_of_val] of a [Block], a constant of the compiler. *)
Class SizeOfBlock : Type := size_of_Block : usize.

Record HashMapRepoStore : Type := { HashMapRepoStore_blocks : gmap BlockId Block }.

Module HashMapRepoStore.
Section Ops.
Context `{!Crypto} `{!Serde Block} `{!SizeOfBlock}.

Definition new : HashMapRepoStore := {| HashMapRepoStore_blocks := ∅ |}.

Definition get_len (s : HashMapRepoStore) : usize :=
  N.of_nat (size (HashMapRepoStore_blocks s)).

(** The order of the answer is the map's own. *)
Definition get_all (s : HashMapRepoStore) : list Block :=
  snd <$> map_to_list (HashMapRepoStore_blocks s).

Definition get (id : BlockId) (s : HashMapRepoStore) : result Block StorageError :=
  match HashMapRepoStore_blocks s !! id with
  | Some block => Ok block
  | None => Err StorageError_NotFound
  end.

Definition put (block : Block) (s : HashMapRepoStore)
    : result BlockId StorageError * HashMapRepoStore :=
  let id := Block_id block in
  let b := Block_set_key None block in
  (Ok id, {| HashMapRepoStore_blocks := <[id := b]> (HashMapRepoStore_blocks s) |}).

Definition del (id : BlockId) (s : HashMapRepoStore)
    : result (Block * usize) StorageError * HashMapRepoStore :=
  match HashMapRepoStore_blocks s !! id with
  | Some block =>
      (Ok (block, size_of_Block),
       {| HashMapRepoStore_blocks := delete id (HashMapRepoStore_blocks s) |})
  | None => (Err StorageError_NotFound, s)
  end.
End Ops.
End HashMapRepoStore.

Section HashMapSpec.
Context `{!Crypto} `{!Serde Block} `{!SizeOfBlock}.

#[export] Instance HashMapRepoStore_RepoStore : RepoStore HashMapRepoStore := {
  store_get id s := Ret (HashMapRepoStore.get id s, s);
  store_put b s := Ret (HashMapRepoStore.put b s);
  store_del id s := Ret (HashMapRepoStore.del id s)
}.

Context `{!SerdeLaws Block}.

(** Every block is filed under its own hash, without its key. *)
Definition HashMapRepoStore_inv (s : HashMapRepoStore) : Prop :=
  map_Forall (λ id b, id_ok b ∧ Block_id b = id ∧ Block_key b = None)
             (HashMapRepoStore_blocks s).
Definition HashMapRepoStore_view (s : HashMapRepoStore) : gmap BlockId Block :=
  serde_skip <$> HashMapRepoStore_blocks s.

#[export, refine] Instance HashMapRepoStore_RepoStoreSpec : RepoStoreSpec HashMapRepoStore := {
  store_inv := HashMapRepoStore_inv;
  store_view := HashMapRepoStore_view
}.
Proof.
  - intros s id b Hinv Hb. unfold HashMapRepoStore_view in Hb.
    rewrite lookup_fmap in Hb. apply fmap_Some in Hb as (b' & Hb' & ->).
    destruct (Hinv _ _ Hb') as (Hok & <- & _).
    split; [apply skip_idemp|]. by rewrite get_id_skip, Hok.
  - intros s id r s' Hinv [= <- <-]. split_and!; [done..|].
    unfold HashMapRepoStore_view, HashMapRepoStore.get. rewrite lookup_fmap.
    destruct (HashMapRepoStore_blocks s !! id) as [b|] eqn:Hb; simpl; [|done].
    destruct (Hinv _ _ Hb) as (? & ? & ?). by exists b.
  - intros s b r s' Hinv Hok [= <- <-]. split_and!; [done| |].
    + intros id b' Hb'. simpl in Hb'.
      apply lookup_insert_Some in Hb' as [[<- <-]|[_ Hb']]; [|by apply Hinv].
      rewrite id_set_key by done. split_and!; [by apply id_ok_set_key|done|by destruct b].
    + unfold HashMapRepoStore_view; simpl. by rewrite fmap_insert, skip_set_key.
  - intros s id r s' Hinv [= Hr]. unfold HashMapRepoStore.del in Hr.
    unfold HashMapRepoStore_view. rewrite lookup_fmap.
    destruct (HashMapRepoStore_blocks s !! id) as [b|] eqn:Hb; simpl; injection Hr as <- <-.
    + split; [by apply map_Forall_delete|].
      exists b, size_of_Block. split_and!; [done|done|apply fmap_delete].
    + done.
Defined.

#[export] Instance HashMapRepoStore_RepoStoreTotal : RepoStoreTotal HashMapRepoStore.
Proof. split; intros; eexists; reflexivity. Qed.

Lemma HashMapRepoStore_new_inv : store_inv HashMapRepoStore.new.
Proof. by intros id b; simpl; rewrite lookup_empty. Qed.

Lemma HashMapRepoStore_new_view : store_view HashMapRepoStore.new = ∅.
Proof. apply fmap_empty. Qed.
End HashMapSpec.
