(* ===== verification/StoreProps.v ===== *)
(** * Properties of block stores

    The size classes of the backend, and whole sequences of operations: a store that
    satisfies the contract of [RepoStore] answers as a finite map, and so does the
    [HashMap] backend. *)

From S2P Require Import Prelude Serde Types Bare BareTypes Block Store.

(** C37: [store_valid_value_size] answers a whole number of pages less the header,
    between the smallest and the largest value; a size up to the largest value fits
    in its size class with less than a page to spare, larger ones are cut to it, and
    a size class is its own size class. The detour through [f32] loses nothing. It
    panics exactly when adding the header overflows. *)
Theorem store_valid_value_size_spec size :
  if (size + HEADER <? usize_max)%N
  then ∃ v, store_valid_value_size size = Ret v ∧
            (MIN_SIZE <= v <= store_max_value_size)%N ∧
            ((v + HEADER) mod PAGE_SIZE = 0)%N ∧
            (size <= store_max_value_size → size <= v)%N ∧
            (MIN_SIZE <= size → v < size + PAGE_SIZE)%N ∧
            (store_max_value_size <= size → v = store_max_value_size)%N ∧
            store_valid_value_size v = Ret v
  else store_valid_value_size size = Panic.
Proof.
  destruct (N.ltb_spec (size + HEADER) usize_max) as [Hs|Hs].
  2: { unfold store_valid_value_size, usize_add. by rewrite (proj2 (N.ltb_ge _ _) Hs). }
  exists (valid_size size). pose proof (valid_size_bounds size) as Hb.
  split; [by apply store_valid_value_size_eq|]. split; [done|]. split.
  { destruct (valid_size_pages size) as (p & Hp & ->).
    rewrite N.sub_add by (unfold HEADER, MIN_SIZE, PAGE_SIZE; lia).
    by apply N.Div0.mod_mul. }
  split; [apply valid_size_fits|]. split; [apply valid_size_tight|].
  split; [apply valid_size_max|].
  rewrite store_valid_value_size_eq; [by rewrite valid_size_idemp|].
  assert (store_max_value_size + HEADER < usize_max)%N by done. lia.
Qed.

(** ** Sequences of operations *)

Inductive store_op : Type :=
  | OpGet (id : BlockId)
  | OpPut (b : Block)
  | OpDel (id : BlockId).

(** What a client sees of an answer: blocks less their cached fields. *)
Inductive store_answer : Type :=
  | AnsBlock (b : Block)
  | AnsId (id : BlockId)
  | AnsError (e : StorageError).

Section Refinement.
Context `{!Crypto} `{!Serde Block} `{!SerdeLaws Block}.

(** The reference: a finite map. *)
Definition spec_op (op : store_op) (m : gmap BlockId Block)
    : store_answer * gmap BlockId Block :=
  match op with
  | OpGet id =>
      (match m !! id with Some b => AnsBlock b | None => AnsError StorageError_NotFound end, m)
  | OpPut b => (AnsId (Block_get_id b), <[Block_get_id b := serde_skip b]> m)
  | OpDel id =>
      (match m !! id with Some b => AnsBlock b | None => AnsError StorageError_NotFound end,
       delete id m)
  end.
Fixpoint spec_run (ops : list store_op) (m : gmap BlockId Block)
    : list store_answer * gmap BlockId Block :=
  match ops with
  | [] => ([], m)
  | op :: ops =>
      let '(a, m) := spec_op op m in
      let '(l, m) := spec_run ops m in (a :: l, m)
  end.

Context {S : Type} `{!RepoStore S, !RepoStoreSpec S, !RepoStoreTotal S}.

Definition run_op (op : store_op) (s : S) : outcome (store_answer * S) :=
  match op with
  | OpGet id =>
      '(r, s) ← store_get id s;
      Ret (match r with Ok b => AnsBlock (serde_skip b) | Err e => AnsError e end, s)
  | OpPut b =>
      '(r, s) ← store_put b s;
      Ret (match r with Ok id => AnsId id | Err e => AnsError e end, s)
  | OpDel id =>
      '(r, s) ← store_del id s;
      Ret (match r with Ok (b, _) => AnsBlock (serde_skip b) | Err e => AnsError e end, s)
  end.
Fixpoint run_ops (ops : list store_op) (s : S) : outcome (list store_answer * S) :=
  match ops with
  | [] => Ret ([], s)
  | op :: ops =>
      '(a, s) ← run_op op s;
      '(l, s) ← run_ops ops s;
      Ret (a :: l, s)
  end.

(** The blocks that are put carry a cached identifier that is their hash, if any. *)
Definition op_ok (op : store_op) : Prop :=
  match op with OpPut b => id_ok b | _ => True end.

Lemma run_op_spec op s :
  store_inv s → op_ok op → ∃ s',
  run_op op s = Ret ((spec_op op (store_view s)).1, s') ∧ store_inv s' ∧
  store_view s' = (spec_op op (store_view s)).2.
Proof.
  intros Hinv Hok. destruct op as [id|b|id]; simpl in *.
  - destruct (store_get_returns s id Hinv) as [[r s'] Hop]. rewrite Hop. exists s'.
    destruct (store_get_spec s id r s' Hinv Hop) as (? & ? & Hr). split_and!; [|done..].
    destruct (store_view s !! id) as [b|]; [|by subst r].
    by destruct Hr as (b' & -> & <- & _).
  - destruct (store_put_returns s b Hinv Hok) as [[r s'] Hop]. rewrite Hop. exists s'.
    destruct (store_put_spec s b r s' Hinv Hok Hop) as (-> & ? & ?).
    rewrite <- Hok. by split_and!.
  - destruct (store_del_returns s id Hinv) as [[r s'] Hop]. rewrite Hop. exists s'.
    destruct (store_del_spec s id r s' Hinv Hop) as (? & Hr). split_and!; [|done|].
    + destruct (store_view s !! id) as [b|]; [|by destruct Hr as [-> _]].
      by destruct Hr as (b' & n & -> & <- & _).
    + destruct (store_view s !! id) as [b|] eqn:Hid.
      * by destruct Hr as (b' & n & _ & _ & ->).
      * destruct Hr as [_ ->]. by rewrite delete_id.
Qed.

(** Over any sequence of operations, a store that satisfies the contract of [RepoStore]
    returns, answers as a finite map from hashes to blocks, and stays related to it. *)
Lemma run_ops_spec ops s :
  store_inv s → Forall op_ok ops → ∃ s',
  run_ops ops s = Ret ((spec_run ops (store_view s)).1, s') ∧ store_inv s' ∧
  store_view s' = (spec_run ops (store_view s)).2.
Proof.
  intros Hinv Hops. revert s Hinv. induction Hops as [|op ops Hop _ IH]; intros s Hinv; cbn.
  { by exists s. }
  destruct (run_op_spec op s Hinv Hop) as (s1 & -> & Hinv1 & Hv1). cbn.
  destruct (IH s1 Hinv1) as (s2 & -> & Hinv2 & Hv2). cbn. exists s2.
  rewrite Hv1 in *. destruct (spec_op op (store_view s)) as [a m]. simpl in *.
  by destruct (spec_run ops m).
Qed.
End Refinement.

(** ** The store with a [HashMap] backend *)

Section HashMap.
Context `{!Crypto} `{!Serde Block} `{!SerdeLaws Block} `{!SizeOfBlock}.

(** C34: over any sequence of [get], [put] and [del], [HashMapRepoStore] answers as a finite
    map from hashes to blocks does, starting from an empty one: what was put last under an
    identifier and was not deleted since is answered, anything else is not found. In the end
    [get_len] counts the blocks of the map and [get_all] lists them, each once, without the
    keys they were put with. *)
Theorem HashMapRepoStore_refines_map ops : Forall op_ok ops → ∃ s,
  run_ops ops HashMapRepoStore.new = Ret ((spec_run ops ∅).1, s) ∧
  HashMapRepoStore.get_len s = N.of_nat (size (spec_run ops ∅).2) ∧
  serde_skip <$> HashMapRepoStore.get_all s ≡ₚ (map_to_list (spec_run ops ∅).2).*2 ∧
  Forall (λ b, id_ok b ∧ Block_key b = None) (HashMapRepoStore.get_all s).
Proof.
  intros Hops.
  destruct (run_ops_spec ops HashMapRepoStore.new HashMapRepoStore_new_inv Hops) as (s & Hrun & Hinv & Hv).
  rewrite HashMapRepoStore_new_view in *. exists s. split; [done|].
  cbn [store_view HashMapRepoStore_RepoStoreSpec] in Hv. unfold HashMapRepoStore_view in Hv.
  rewrite <- Hv. split_and!.
  - unfold HashMapRepoStore.get_len. by rewrite map_size_fmap.
  - unfold HashMapRepoStore.get_all. rewrite map_to_list_fmap, <- !list_fmap_compose. done.
  - unfold HashMapRepoStore.get_all. apply Forall_fmap, Forall_forall.
    intros [id b] Hb%elem_of_map_to_list. by destruct (Hinv id b Hb) as (? & _ & ?).
Qed.
End HashMap.

(** ** Example *)

Module Examples.
Import BareTypes.Instances.
#[local] Instance size_of_block : SizeOfBlock := 168%N.

Definition b1 : Block :=
  Block_new [] (ObjectIdList []) None [x01] (Some (ChaCha20Key (array_fill 32 x09))).
Definition ops : list store_op :=
  [OpPut b1; OpGet (Block_id b1); OpDel (Block_id b1); OpGet (Block_id b1)].

Lemma HashMapRepoStore_refines_map_witness : ∃ s,
  run_ops ops HashMapRepoStore.new = Ret ((spec_run ops ∅).1, s) ∧
  HashMapRepoStore.get_len s = N.of_nat (size (spec_run ops ∅).2) ∧
  serde_skip <$> HashMapRepoStore.get_all s ≡ₚ (map_to_list (spec_run ops ∅).2).*2 ∧
  Forall (λ b, id_ok b ∧ Block_key b = None) (HashMapRepoStore.get_all s).
Proof. apply (HashMapRepoStore_refines_map ops). repeat constructor; apply id_ok_new. Defined.
(** The store forgets the key, and answers from the map. *)
Example ops_answers :
  match run_ops ops HashMapRepoStore.new with
  | Ret ([AnsId i; AnsBlock b; AnsBlock b'; AnsError StorageError_NotFound], _) =>
      bool_decide (i = Block_id b1 ∧ Block_key b = None ∧ b = b')
  | _ => false
  end = true.
Proof. vm_compute. reflexivity. Qed.
End Examples.
