(* ===== verification/Object.v ===== *)
(** * Merkle tree objects: [lofire/src/object.rs]

    An object's content is serialized, cut into chunks, and each chunk encrypted
    into a leaf block; levels of internal nodes hold the keys of their children
    up to the root.  This file has the definitions; [ObjectTree] has the proofs
    about building and parsing, [ObjectStore] those about loading and saving. *)

From S2P Require Import Prelude Serde Types Block Store.

(** ** Constants *)

Definition EMPTY_BLOCK_SIZE : usize := 12.
Definition BLOCK_ID_SIZE : usize := 33.
Definition BLOCK_KEY_SIZE : usize := 33.
Definition EMPTY_ROOT_SIZE_DEPSREF : usize := 77.
Definition DEPSREF_OVERLOAD : usize := EMPTY_ROOT_SIZE_DEPSREF - EMPTY_BLOCK_SIZE.
Definition BIG_VARINT_EXTRA : usize := 3.
Definition DATA_VARINT_EXTRA : usize := 4.
Definition MAX_DEPS_SIZE : usize := 8 * BLOCK_ID_SIZE.

Record Object : Type := {
  Object_blocks : list Block;
  Object_deps : list ObjectId
}.

Inductive ObjectParseError : Type :=
  | ObjectParseError_MissingBlocks (ids : list BlockId)
  | ObjectParseError_MissingRootKey
  | ObjectParseError_InvalidBlockId
  | ObjectParseError_InvalidChildren
  | ObjectParseError_InvalidKeys
  | ObjectParseError_InvalidDeps
  | ObjectParseError_BlockDeserializeError
  | ObjectParseError_ObjectDeserializeError.

Inductive ObjectCopyError : Type :=
  | ObjectCopyError_NotFound
  | ObjectCopyError_ParseError.

Section Object.
Context `{!Crypto} `{!Serde Block, !Serde BlockContentV0, !Serde ObjectContent}.

(** ** Building *)

(** [Object::convergence_key] *)
Definition convergence_key (repo_pubkey : PubKey) (repo_secret : SymKey) : array 32 :=
  let key_material :=
    match repo_pubkey, repo_secret with
    | Ed25519PubKey pubkey, ChaCha20Key secret => array_list pubkey ++ array_list secret
    end in
  blake3_derive_key "LoFiRe Data BLAKE3 key" key_material.

(** [[0u8; 12]] *)
Definition zero_nonce : array 12 := array_fill 12 x00.

(** [Object::make_block] *)
Definition make_block (content : bytes) (conv_key : array 32)
    (children : list ObjectId) (deps : ObjectDeps) (expiry : option Timestamp) : Block :=
  let key_hash := blake3_keyed_hash conv_key content in
  let content_enc := chacha20_apply_keystream key_hash zero_nonce content in
  let key := ChaCha20Key key_hash in
  Block_new children deps expiry content_enc (Some key).

(** The [while] loop of [Object::make_tree]: one parent for each chunk of nodes.
    The dependencies go to a parent that has no sibling. *)
Fixpoint make_parents (chunks : list (list Block)) (conv_key : array 32)
    (root_deps : ObjectDeps) (expiry : option Timestamp) (parents : list Block)
    : outcome (list Block) :=
  match chunks with
  | [] => Ret parents
  | nodes :: rest =>
      keys ← mapM (λ block, unwrap (Block_key block)) nodes;
      let children := Block_id <$> nodes in
      let content := BlockContentV0_InternalNode keys in
      let content_ser := to_vec content in
      let child_deps := ObjectIdList [] in
      let deps :=
        match parents, rest with
        | [], [] => root_deps
        | _, _ => child_deps
        end in
      make_parents rest conv_key root_deps expiry
        (parents ++ [make_block content_ser conv_key children deps expiry])
  end.

(** [Object::make_tree] *)
Fixpoint make_tree (fuel : nat) (leaves : list Block) (conv_key : array 32)
    (root_deps : ObjectDeps) (expiry : option Timestamp) (arity : usize)
    : outcome (list Block) :=
  match fuel with
  | O => OutOfFuel
  | S fuel =>
      chunks ← slice_chunks arity leaves;
      parents ← make_parents chunks conv_key root_deps expiry [];
      if (1 <? len parents)%N then
        great_parents ← make_tree fuel parents conv_key root_deps expiry arity;
        Ret (parents ++ great_parents)
      else Ret parents
  end.

(** [Object::id], [Object::key], [Object::root], [Object::expiry] *)
Definition Object_root (o : Object) : outcome Block := unwrap (last (Object_blocks o)).
Definition Object_id (o : Object) : outcome ObjectId := Block_id <$> Object_root o.
Definition Object_key (o : Object) : outcome (option SymKey) := Block_key <$> Object_root o.
Definition Object_expiry (o : Object) : outcome (option Timestamp) :=
  Block_expiry <$> Object_root o.

(** [Object::reference] *)
Definition Object_reference (o : Object) : outcome (option ObjectRef) :=
  key ← Object_key o;
  match key with
  | Some k =>
      id ← Object_id o;
      Ret (Some {| BlockRef_id := id; BlockRef_key := k |})
  | None => Ret None
  end.

(** [Object::make_deps]; [object_new] is [Object::new]. *)
Definition make_deps
    (object_new : ObjectContent → list ObjectId → option Timestamp → usize →
                  PubKey → SymKey → outcome Object)
    (deps_vec : list ObjectId) (object_size : usize)
    (repo_pubkey : PubKey) (repo_secret : SymKey) : outcome ObjectDeps :=
  if (len deps_vec <=? 8)%N then Ret (ObjectIdList deps_vec)
  else
    let dep_list := DepList_V0 deps_vec in
    dep_obj ← object_new (ObjectContent_DepList dep_list) [] None object_size
                repo_pubkey repo_secret;
    id ← Object_id dep_obj;
    key ← Object_key dep_obj;
    k ← unwrap key;
    Ret (DepListRef {| BlockRef_id := id; BlockRef_key := k |}).

(** The arity computed in [Object::new] and [Object::copy]. *)
Definition tree_arity (valid_block_size : usize) : outcome usize :=
  a ← usize_sub valid_block_size EMPTY_BLOCK_SIZE;
  b ← usize_sub a (BIG_VARINT_EXTRA * 2)%N;
  c ← usize_sub b MAX_DEPS_SIZE;
  usize_div c (BLOCK_ID_SIZE + BLOCK_KEY_SIZE)%N.

(** [Object::new]. It calls itself through [make_deps], on a [DepList] without
    dependencies. Lengths are sums of lengths of live vectors and do not
    overflow. *)
Fixpoint Object_new_fuel (fuel : nat) (content : ObjectContent) (deps : list ObjectId)
    (expiry : option Timestamp) (block_size : usize)
    (repo_pubkey : PubKey) (repo_secret : SymKey) : outcome Object :=
  match fuel with
  | O => OutOfFuel
  | S fuel =>
      valid_block_size ← store_valid_value_size block_size;
      a ← usize_sub valid_block_size EMPTY_BLOCK_SIZE;
      data_chunk_size ← usize_sub a DATA_VARINT_EXTRA;
      let conv_key := convergence_key repo_pubkey repo_secret in
      obj_deps ← make_deps (Object_new_fuel fuel) deps valid_block_size
                   repo_pubkey repo_secret;
      let content_ser := to_vec content in
      if (EMPTY_BLOCK_SIZE + DATA_VARINT_EXTRA + BLOCK_ID_SIZE * len deps
          + len content_ser <=? valid_block_size)%N
      then
        (* content fits in root node *)
        let data_chunk := BlockContentV0_DataChunk content_ser in
        let block := make_block (to_vec data_chunk) conv_key [] obj_deps expiry in
        Ret {| Object_blocks := [block]; Object_deps := deps |}
      else
        (* chunk content and create leaf nodes *)
        data ← slice_chunks data_chunk_size content_ser;
        let blocks :=
          (λ chunk, make_block (to_vec (BlockContentV0_DataChunk chunk)) conv_key []
                      (ObjectIdList []) expiry) <$> data in
        (* internal nodes *)
        arity ← tree_arity valid_block_size;
        parents ← make_tree (length blocks) blocks conv_key obj_deps expiry arity;
        Ret {| Object_blocks := blocks ++ parents; Object_deps := deps |}
  end.
Definition Object_new := Object_new_fuel 2.

(** ** Parsing *)

(** The [for] loop of [Object::collect_leaves] over the parents; [leaves] and
    [obj_content] are the buffers to fill, when the caller gave them. What they
    hold after an error is dropped by every caller. *)
Fixpoint collect_parents (blocks : list Block) (parents : list (ObjectId * SymKey))
    (i : nat) (children : list (ObjectId * SymKey))
    (leaves : option (list Block)) (obj_content : option bytes)
    : outcome (result (list (ObjectId * SymKey) * option (list Block) * option bytes)
                      ObjectParseError) :=
  match parents with
  | [] => Ret (Ok (children, leaves, obj_content))
  | (id, key) :: parents =>
      block ← unwrap (blocks !! i);
      if decide (id ≠ Block_id block) then Ret (Err ObjectParseError_InvalidBlockId) else
      let content_dec :=
        match key with
        | ChaCha20Key key => chacha20_apply_keystream key zero_nonce (Block_content block)
        end in
      match from_slice (A := BlockContentV0) content_dec with
      | None => Ret (Err ObjectParseError_BlockDeserializeError)
      | Some (BlockContentV0_InternalNode keys) =>
          if negb (len keys =? len (Block_children block))%N
          then Ret (Err ObjectParseError_InvalidKeys)
          else collect_parents blocks parents (S i)
                 (children ++ zip (Block_children block) keys) leaves obj_content
      | Some (BlockContentV0_DataChunk chunk) =>
          collect_parents blocks parents (S i) children
            ((λ l, l ++ [Block_set_key (Some key) block]) <$> leaves)
            ((λ c, c ++ chunk) <$> obj_content)
      end
  end.

(** [Object::collect_leaves] *)
Fixpoint collect_leaves (fuel : nat) (blocks : list Block)
    (parents : list (ObjectId * SymKey)) (parent_index : nat)
    (leaves : option (list Block)) (obj_content : option bytes)
    : outcome (result (option (list Block) * option bytes) ObjectParseError) :=
  match fuel with
  | O => OutOfFuel
  | S fuel =>
      '(children, leaves, obj_content) ←!
        collect_parents blocks parents parent_index [] leaves obj_content;
      match children with
      | [] => Ret (Ok (leaves, obj_content))
      | _ :: _ =>
          if (parent_index <? length children)%nat
          then Ret (Err ObjectParseError_InvalidChildren)
          else collect_leaves fuel blocks children (parent_index - length children)
                 leaves obj_content
      end
  end.

(** [Object::leaves]. The levels go up the list of blocks, so its length bounds
    the recursion. *)
Definition Object_leaves (o : Object) : outcome (result (list Block) ObjectParseError) :=
  id ← Object_id o;
  key ← Object_key o;
  k ← unwrap key;
  '(leaves, _) ←! collect_leaves (length (Object_blocks o)) (Object_blocks o) [(id, k)]
                   (length (Object_blocks o) - 1) (Some []) None;
  Ret (Ok (default [] leaves)).

(** [Object::content] *)
Definition Object_content (o : Object) : outcome (result ObjectContent ObjectParseError) :=
  key ← Object_key o;
  match key with
  | None => Ret (Err ObjectParseError_MissingRootKey)
  | Some k =>
      id ← Object_id o;
      '(_, obj_content) ←! collect_leaves (length (Object_blocks o)) (Object_blocks o)
                             [(id, k)] (length (Object_blocks o) - 1) None (Some []);
      match from_slice (default [] obj_content) with
      | Some c => Ret (Ok c)
      | None => Ret (Err ObjectParseError_ObjectDeserializeError)
      end
  end.

(** [Object::copy] *)
Definition Object_copy (o : Object) (expiry : option Timestamp)
    (repo_pubkey : PubKey) (repo_secret : SymKey)
    : outcome (result Object ObjectCopyError) :=
  leaves ←! map_err (λ _, ObjectCopyError_ParseError) <$> Object_leaves o;
  let conv_key := convergence_key repo_pubkey repo_secret in
  first ← unwrap (head leaves);
  let block_size := len (Block_content first) in
  valid_block_size ← store_valid_value_size block_size;
  let blocks := Block_set_expiry expiry <$> leaves in
  arity ← tree_arity valid_block_size;
  root ← Object_root o;
  parents ← make_tree (length blocks) blocks conv_key (Block_deps root) expiry arity;
  Ret (Ok {| Object_blocks := blocks ++ parents; Object_deps := Object_deps o |}).

(** [Object::to_hashmap] *)
Definition Object_to_hashmap (o : Object) : gmap BlockId Block :=
  foldl (λ map block, <[Block_id block := block]> map) ∅ (Object_blocks o).

(** ** Loading and saving *)

Context {S : Type} `{!RepoStore S}.

(** The [for] loop of [load_tree]. *)
Fixpoint load_parents (parents : list BlockId) (s : S) (blocks : list Block)
    (missing : list BlockId) (children : list BlockId)
    : outcome (list Block * list BlockId * list BlockId * S) :=
  match parents with
  | [] => Ret (blocks, missing, children, s)
  | id :: parents =>
      '(res, s) ← store_get id s;
      match res with
      | Ok block =>
          load_parents parents s (block :: blocks) missing
            (children ++ reverse (Block_children block))
      | Err _ => load_parents parents s blocks (missing ++ [id]) children
      end
  end.

(** [load_tree] *)
Fixpoint load_tree (fuel : nat) (parents : list BlockId) (s : S) (blocks : list Block)
    (missing : list BlockId) : outcome (list Block * list BlockId * S) :=
  match fuel with
  | O => OutOfFuel
  | Datatypes.S fuel =>
      '(blocks, missing, children, s) ← load_parents parents s blocks missing [];
      match children with
      | [] => Ret (blocks, missing, s)
      | _ :: _ => load_tree fuel children s blocks missing
      end
  end.

(** [blocks.last_mut().unwrap().set_key(key)] when [key.is_some()] *)
Definition set_root_key (key : option SymKey) (blocks : list Block) : list Block :=
  match key with
  | Some _ => alter (Block_set_key key) (length blocks - 1) blocks
  | None => blocks
  end.

(** [Object::load] *)
Fixpoint Object_load (fuel : nat) (id : ObjectId) (key : option SymKey) (s : S)
    : outcome (result Object ObjectParseError * S) :=
  match fuel with
  | O => OutOfFuel
  | Datatypes.S fuel =>
      '(blocks, missing, s) ← load_tree fuel [id] s [] [];
      match missing with
      | _ :: _ => Ret (Err (ObjectParseError_MissingBlocks missing), s)
      | [] =>
          root ← unwrap (last blocks);
          let blocks := set_root_key key blocks in
          match Block_deps root with
          | ObjectIdList deps_vec =>
              Ret (Ok {| Object_blocks := blocks; Object_deps := deps_vec |}, s)
          | DepListRef deps_ref =>
              '(res, s) ← Object_load fuel (BlockRef_id deps_ref)
                            (Some (BlockRef_key deps_ref)) s;
              match res with
              | Err e => Ret (Err e, s)
              | Ok obj =>
                  content ← Object_content obj;
                  match content with
                  | Err e => Ret (Err e, s)
                  | Ok (ObjectContent_DepList (DepList_V0 deps_vec)) =>
                      Ret (Ok {| Object_blocks := blocks; Object_deps := deps_vec |}, s)
                  | Ok _ => Ret (Err ObjectParseError_InvalidDeps, s)
                  end
              end
          end
      end
  end.

(** The loop of [Object::save] *)
Fixpoint save_blocks (blocks : list Block) (deduplicated : gset ObjectId) (s : S)
    : outcome (result unit StorageError * S) :=
  match blocks with
  | [] => Ret (Ok tt, s)
  | block :: blocks =>
      let id := Block_id block in
      if decide (id ∈ deduplicated) then save_blocks blocks deduplicated s
      else
        '(res, s) ← store_put block s;
        match res with
        | Err e => Ret (Err e, s)
        | Ok _ => save_blocks blocks ({[id]} ∪ deduplicated) s
        end
  end.

(** [Object::save] *)
Definition Object_save (o : Object) (s : S) : outcome (result unit StorageError * S) :=
  save_blocks (Object_blocks o) ∅ s.
End Object.
