(* ===== verification/ObjectTree.v ===== *)
(** * Building and parsing objects

    The shape of an object's list of blocks is described by [tree_over]: the
    levels of a tree, leaves first, each node naming a group of consecutive
    nodes of the level below. [make_tree] builds this shape and
    [collect_leaves] reads it back, from the root down. *)

From S2P Require Import Prelude Serde Types Block Store Object.

(** A block and the key that decrypts it. *)
Abbreviation node := (Block * SymKey)%type.

Section Tree.
Context `{!Crypto} `{!Serde Block, !Serde BlockContentV0, !Serde ObjectContent}.

Definition decrypts (b : Block) (k : SymKey) : option BlockContentV0 :=
  from_slice (chacha20_apply_keystream (SymKey_slice k) zero_nonce (Block_content b)).

Definition ref (n : node) : ObjectId * SymKey := (Block_id n.1, n.2).

Definition leaf_of (n : node) (c : bytes) : Prop :=
  decrypts n.1 n.2 = Some (BlockContentV0_DataChunk c).

Definition parent_of (group : list node) (n : node) : Prop :=
  decrypts n.1 n.2 = Some (BlockContentV0_InternalNode group.*2) ∧
  Block_children n.1 = Block_id <$> group.*1.

(** [tree_over nodes tree]: [tree] holds the levels above [nodes], up to the root. *)
Inductive tree_over : list node → list node → Prop :=
  | tree_root nodes r :
      nodes ≠ [] → parent_of nodes r → tree_over nodes [r]
  | tree_level groups parents tree :
      concat groups ≠ [] → Forall2 parent_of groups parents →
      tree_over parents tree → tree_over (concat groups) (parents ++ tree).

(** The nodes of an object that holds the chunks [cs]: a single leaf, or leaves
    and the tree above them. *)
Inductive nodes_repr : list node → list bytes → Prop :=
  | repr_single n c : leaf_of n c → nodes_repr [n] [c]
  | repr_tree leaves cs tree :
      Forall2 leaf_of leaves cs → tree_over leaves tree →
      nodes_repr (leaves ++ tree) cs.

Definition object_repr (o : Object) (cs : list bytes) : Prop :=
  ∃ ns r, Object_blocks o = ns.*1 ∧ nodes_repr ns cs ∧ last ns = Some r ∧
          Block_key r.1 = Some r.2.

(** As [object_repr], for an object whose leaves have no children. *)
Definition childless_leaf (n : node) : Prop := ∀ c, leaf_of n c → Block_children n.1 = [].
Definition object_sealed (o : Object) (cs : list bytes) : Prop :=
  ∃ ns r, Object_blocks o = ns.*1 ∧ nodes_repr ns cs ∧ last ns = Some r ∧
          Block_key r.1 = Some r.2 ∧ Forall childless_leaf ns.

Lemma object_sealed_repr o cs : object_sealed o cs → object_repr o cs.
Proof. intros (ns & r & ? & ? & ? & ? & _). by exists ns, r. Qed.

Lemma parent_childless g n : parent_of g n → childless_leaf n.
Proof. intros [Hd _] c Hc. unfold leaf_of in Hc. congruence. Qed.

Lemma tree_over_childless nodes tree : tree_over nodes tree → Forall childless_leaf tree.
Proof.
  induction 1 as [nodes r _ Hr|groups ps tree _ Hps _ IH].
  - constructor; [by eapply parent_childless|done].
  - apply Forall_app. split; [|done]. clear IH.
    induction Hps; constructor; [by eapply parent_childless|done].
Qed.

Lemma tree_over_nonempty nodes tree :
  tree_over nodes tree → nodes ≠ [] ∧ tree ≠ [].
Proof. induction 1 as [|??? ??? [??]]; [done|]. by destruct parents. Qed.

Lemma nodes_repr_nonempty ns cs : nodes_repr ns cs → ns ≠ [].
Proof.
  intros [|leaves ? tree _ Htree]; [done|].
  apply tree_over_nonempty in Htree as [? _]. by destruct leaves.
Qed.

Lemma zip_refs (g : list node) : zip (Block_id <$> g.*1) g.*2 = ref <$> g.
Proof. induction g as [|[b k] g IH]; csimpl; [done|]. by rewrite IH. Qed.

(** ** Reading one level *)

(** The node at the position the loop has reached. *)
Lemma lookup_at (A : list node) (n : node) (B : list node) :
  (A ++ n :: B).*1 !! length A = Some n.1.
Proof. by rewrite list_lookup_fmap, list_lookup_middle. Qed.

Lemma collect_parents_internal groups ps A B ch lv oc :
  Forall2 parent_of groups ps →
  collect_parents (A ++ ps ++ B).*1 (ref <$> ps) (length A) ch lv oc
  = Ret (Ok (ch ++ (ref <$> concat groups), lv, oc)).
Proof.
  intros Hps. revert A ch.
  induction Hps as [|g n groups ps [Hdec Hch] Hps IH]; intros A ch; csimpl.
  { by rewrite app_nil_r. }
  rewrite lookup_at. simpl. rewrite decide_False by (intros Hne; by apply Hne).
  fold zero_nonce. unfold decrypts in Hdec. destruct n as [b [k]]; simpl in *.
  rewrite Hdec. rewrite Hch. unfold len. rewrite !length_fmap, N.eqb_refl. simpl.
  replace (A ++ (b, ChaCha20Key k) :: ps ++ B)
    with ((A ++ [(b, ChaCha20Key k)]) ++ ps ++ B) by (by rewrite <- app_assoc).
  specialize (IH (A ++ [(b, ChaCha20Key k)])).
  rewrite length_app, Nat.add_comm in IH. simpl in IH.
  rewrite IH, zip_refs, fmap_app. by rewrite app_assoc.
Qed.

Definition with_key (n : node) : Block := Block_set_key (Some n.2) n.1.

Lemma collect_parents_leaves ps cs A B ch lv oc :
  Forall2 leaf_of ps cs →
  collect_parents (A ++ ps ++ B).*1 (ref <$> ps) (length A) ch lv oc
  = Ret (Ok (ch, (λ l, l ++ (with_key <$> ps)) <$> lv,
                 (λ c, c ++ concat cs) <$> oc)).
Proof.
  intros Hps. revert A lv oc.
  induction Hps as [|n c ps cs Hdec Hps IH]; intros A lv oc; csimpl.
  { destruct lv, oc; simpl; by rewrite ?app_nil_r. }
  rewrite lookup_at. simpl. rewrite decide_False by (intros Hne; by apply Hne).
  unfold leaf_of, decrypts in Hdec. destruct n as [b [k]]; simpl in *. rewrite Hdec.
  replace (A ++ (b, ChaCha20Key k) :: ps ++ B)
    with ((A ++ [(b, ChaCha20Key k)]) ++ ps ++ B) by (by rewrite <- app_assoc).
  specialize (IH (A ++ [(b, ChaCha20Key k)])).
  rewrite length_app, Nat.add_comm in IH. simpl in IH. rewrite IH.
  destruct lv, oc; simpl; by rewrite <- ?app_assoc.
Qed.

(** ** Reading a tree *)

(** One turn of [collect_leaves] goes from a level to the one below it. *)
Lemma collect_leaves_level f groups ps A B lv oc :
  Forall2 parent_of groups ps → concat groups ≠ [] →
  collect_leaves (S f) (A ++ concat groups ++ ps ++ B).*1 (ref <$> ps)
    (length A + length (concat groups)) lv oc
  = collect_leaves f (A ++ concat groups ++ ps ++ B).*1 (ref <$> concat groups)
      (length A) lv oc.
Proof.
  intros Hps Hne. simpl.
  rewrite (app_assoc A), <- length_app, (collect_parents_internal groups) by done.
  simpl. destruct (ref <$> concat groups) as [|x l] eqn:Hx.
  { by apply fmap_nil_inv in Hx. }
  rewrite <- Hx. rewrite length_fmap, length_app.
  rewrite (proj2 (Nat.ltb_ge _ _)) by lia.
  by replace (length A + length (concat groups) - length (concat groups))%nat
    with (length A) by lia.
Qed.

(** From the root down to [nodes], in [h] turns. *)
Lemma collect_tree nodes tree :
  tree_over nodes tree → ∃ root h, last tree = Some root ∧ (h <= length tree)%nat ∧
  ∀ A f lv oc,
    collect_leaves (h + f) (A ++ nodes ++ tree).*1 [ref root]
      (length A + length nodes + length tree - 1) lv oc
    = collect_leaves f (A ++ nodes ++ tree).*1 (ref <$> nodes) (length A) lv oc.
Proof.
  induction 1 as [nodes r Hne Hr|groups ps tree Hne Hps Htree (root & h & Hlast & Hh & IH)].
  - exists r, 1%nat. split_and!; [done|done|]. intros A f lv oc.
    pose proof (collect_leaves_level f [nodes] [r] A [] lv oc) as Hstep.
    simpl in Hstep. rewrite !app_nil_r in Hstep.
    replace (length A + length nodes + length [r] - 1)%nat
      with (length A + length nodes)%nat by (simpl; lia).
    apply Hstep; [by constructor|done].
  - exists root, (S h). split_and!.
    + by rewrite last_app, Hlast.
    + apply tree_over_nonempty in Htree as [? _].
      rewrite length_app. destruct ps; [done|simpl; lia].
    + intros A f lv oc. rewrite <- (collect_leaves_level f groups ps A tree) by done.
      specialize (IH (A ++ concat groups) (S f) lv oc).
      rewrite <- !app_assoc, !length_app in IH.
      replace (S h + f)%nat with (h + S f)%nat by lia. rewrite <- IH.
      f_equal. rewrite length_app. lia.
Qed.

(** The leaves of an object and the chunks they hold, for any fuel at least the
    number of blocks. *)
Lemma collect_repr ns cs fuel :
  nodes_repr ns cs → (length ns <= fuel)%nat → ∃ root leaves,
  last ns = Some root ∧ Forall2 leaf_of leaves cs ∧ leaves ⊆ ns ∧ ∀ lv oc,
  collect_leaves fuel ns.*1 [ref root] (length ns - 1) lv oc
  = Ret (Ok ((λ l, l ++ (with_key <$> leaves)) <$> lv, (λ c, c ++ concat cs) <$> oc)).
Proof.
  intros [n c Hn|leaves cs' tree Hleaves Htree] Hfuel.
  - exists n, [n]. split_and!; [done|by constructor|done|].
    destruct fuel as [|f]; [simpl in Hfuel; lia|]. intros lv oc. cbn [collect_leaves].
    pose proof (collect_parents_leaves [n] [c] [] [] [] lv oc) as Hp.
    by rewrite (Hp ltac:(by constructor)
      : collect_parents [n].*1 [ref n] (length [n] - 1) [] lv oc = _).
  - destruct (collect_tree _ _ Htree) as (root & h & Hlast & Hh & Htrav).
    exists root, leaves. split_and!; [by rewrite last_app, Hlast|done|set_solver|].
    rewrite length_app in *. apply tree_over_nonempty in Htree as [Hne _].
    assert (0 < length leaves)%nat by (destruct leaves; [done|simpl; lia]).
    intros lv oc. replace fuel with (h + S (fuel - h - 1))%nat by lia.
    pose proof (Htrav [] (S (fuel - h - 1)) lv oc) as Ht. simpl in Ht.
    rewrite Ht. cbn [collect_leaves].
    by rewrite (collect_parents_leaves leaves cs' [] tree [] lv oc Hleaves
      : collect_parents (leaves ++ tree).*1 (ref <$> leaves) 0 [] lv oc = _).
Qed.

(** ** Parsing an object *)

(** [o] parses, and its leaves hold the chunks [cs]. *)
Definition object_holds (o : Object) (cs : list bytes) : Prop :=
  ∃ r k leaves, Object_root o = Ret r ∧ Block_key r = Some k ∧
  Forall2 leaf_of leaves cs ∧ leaves.*1 ⊆ Object_blocks o ∧ ∀ lv oc,
  collect_leaves (length (Object_blocks o)) (Object_blocks o) [(Block_id r, k)]
    (length (Object_blocks o) - 1) lv oc
  = Ret (Ok ((λ l, l ++ (with_key <$> leaves)) <$> lv, (λ c, c ++ concat cs) <$> oc)).

Lemma Object_root_repr (o : Object) (ns : list node) (r : node) :
  Object_blocks o = ns.*1 → last ns = Some r → Object_root o = Ret r.1.
Proof. intros Hb Hl. unfold Object_root. by rewrite Hb, fmap_last, Hl. Qed.

Lemma object_repr_holds o cs : object_repr o cs → object_holds o cs.
Proof.
  intros (ns & r & Hb & Hns & Hl & Hk).
  destruct (collect_repr ns cs (length ns) Hns) as (r' & lv & Hl' & Hlv & Hsub & Hc); [done|].
  simplify_eq. exists r.1, r.2, lv. split_and!; [by eapply Object_root_repr|done|done| |].
  - rewrite Hb. intros b [n [-> Hn]]%list_elem_of_fmap. apply list_elem_of_fmap. eauto.
  - intros. by rewrite Hb, length_fmap.
Qed.

Lemma Object_content_holds o cs :
  object_holds o cs →
  Object_content o = Ret (match from_slice (concat cs) with
                          | Some c => Ok c
                          | None => Err ObjectParseError_ObjectDeserializeError
                          end).
Proof.
  intros (r & k & lv & Hr & Hk & _ & _ & Hc). unfold Object_content, Object_key, Object_id.
  rewrite Hr. simpl. rewrite Hk. simpl. rewrite Hc. simpl.
  by destruct (from_slice (concat cs)).
Qed.

(** What the loop reads does not depend on the buffers it is given. *)
Lemma collect_parents_uniform blocks parents i ch lv oc ch' lv' oc' :
  collect_parents blocks parents i ch lv oc = Ret (Ok (ch', lv', oc')) →
  ∃ leaves cs, Forall2 leaf_of leaves cs ∧ leaves.*1 ⊆ blocks ∧ ∀ lv oc,
  collect_parents blocks parents i ch lv oc
  = Ret (Ok (ch', (λ l, l ++ (with_key <$> leaves)) <$> lv, (λ c, c ++ concat cs) <$> oc)).
Proof.
  revert i ch lv oc. induction parents as [|[id [k]] parents IH]; intros i ch lv oc; simpl.
  { intros [= <- <- <-]. exists [], []. split_and!; [done|set_solver|].
    intros [] []; simpl; by rewrite ?app_nil_r. }
  destruct (blocks !! i) as [b|] eqn:Hb; [|done]. simpl.
  destruct (decide (id ≠ Block_id b)); [done|].
  destruct (from_slice _) as [[keys|chunk]|] eqn:Hdec; [| |done].
  - destruct (negb _); [done|]. apply IH.
  - intros (leaves & cs & Hl & Hsub & Hu)%IH.
    exists ((b, ChaCha20Key k) :: leaves), (chunk :: cs). split_and!.
    + by constructor.
    + apply list_elem_of_lookup_2 in Hb. csimpl. by apply list_subseteq_cons_iff.
    + intros [] []; rewrite Hu; simpl; by rewrite <- ?app_assoc.
Qed.

Lemma collect_leaves_uniform fuel blocks parents i lv oc lv' oc' :
  collect_leaves fuel blocks parents i lv oc = Ret (Ok (lv', oc')) →
  ∃ leaves cs, Forall2 leaf_of leaves cs ∧ leaves.*1 ⊆ blocks ∧ ∀ lv oc,
  collect_leaves fuel blocks parents i lv oc
  = Ret (Ok ((λ l, l ++ (with_key <$> leaves)) <$> lv, (λ c, c ++ concat cs) <$> oc)).
Proof.
  revert parents i lv oc. induction fuel as [|fuel IH]; intros parents i lv oc; [done|].
  cbn [collect_leaves].
  destruct (collect_parents _ _ _ _ _ _) as [[[[ch lv1] oc1]|]| |] eqn:Hp; try done.
  apply collect_parents_uniform in Hp as (l1 & c1 & Hl1 & Hs1 & Hu1). simpl.
  destruct ch as [|x ch].
  { intros _. exists l1, c1. split_and!; [done|done|]. intros. by rewrite Hu1. }
  destruct (_ <? _)%nat eqn:Hlt; [done|]. intros (l2 & c2 & Hl2 & Hs2 & Hu2)%IH.
  exists (l1 ++ l2), (c1 ++ c2). split_and!.
  - by apply Forall2_app.
  - rewrite fmap_app. by apply list_subseteq_app_iff_l.
  - intros lv0 oc0. rewrite Hu1. cbn [try_bind]. rewrite Hlt, Hu2.
    destruct lv0, oc0; simpl; by rewrite ?fmap_app, ?concat_app, ?app_assoc.
Qed.

(** An object whose content parses. *)
Lemma Object_content_inv o c :
  Object_content o = Ret (Ok c) → ∃ cs, object_holds o cs ∧ from_slice (concat cs) = Some c.
Proof.
  unfold Object_content, Object_key, Object_id.
  destruct (Object_root o) as [r| |] eqn:Hr; try done. simpl.
  destruct (Block_key r) as [k|] eqn:Hk; [|done]. simpl.
  destruct (collect_leaves _ _ _ _ _ _) as [[[lv oc]|]| |] eqn:Hc; try done. simpl.
  pose proof Hc as (leaves & cs & Hl & Hs & Hu)%collect_leaves_uniform.
  rewrite Hu in Hc. injection Hc as <- <-. simpl.
  destruct (from_slice (concat cs)) as [c'|] eqn:Hf; [|done]. intros [= <-].
  exists cs. split; [|done]. by exists r, k, leaves.
Qed.

Lemma Object_leaves_holds o cs :
  object_holds o cs → ∃ leaves : list node,
  Object_leaves o = Ret (Ok (with_key <$> leaves)) ∧
  Forall2 leaf_of leaves cs ∧ leaves.*1 ⊆ Object_blocks o.
Proof.
  intros (r & k & lv & Hr & Hk & Hl & Hs & Hc). unfold Object_leaves, Object_key, Object_id.
  rewrite Hr. simpl. rewrite Hk. simpl. rewrite Hc. simpl. by exists lv.
Qed.

(** ** Parsing arbitrary blocks *)

(** The loop over a level does not run off the list of blocks. *)
Lemma collect_parents_returns blocks parents i ch lv oc :
  (i + length parents <= length blocks)%nat →
  returns (collect_parents blocks parents i ch lv oc).
Proof.
  revert i ch lv oc. induction parents as [|[id [k]] parents IH]; intros i ch lv oc Hi; simpl.
  { by eexists. }
  simpl in Hi. destruct (lookup_lt_is_Some_2 blocks i) as [b Hb]; [lia|]. rewrite Hb. simpl.
  destruct (decide _); [by eexists|].
  destruct (from_slice _) as [[keys|chunk]|]; [|apply IH; lia|by eexists].
  destruct (negb _); [by eexists|]. apply IH. lia.
Qed.

Lemma collect_leaves_returns fuel blocks parents i lv oc :
  (i + length parents <= length blocks)%nat → (i < fuel)%nat →
  returns (collect_leaves fuel blocks parents i lv oc).
Proof.
  revert parents i lv oc. induction fuel as [|fuel IH]; intros parents i lv oc Hi Hf; [lia|].
  cbn [collect_leaves].
  destruct (collect_parents_returns blocks parents i [] lv oc Hi) as [[[[ch lv'] oc']|e] ->];
    [|by eexists]. cbn [try_bind].
  destruct ch as [|x ch]; [by eexists|].
  destruct (Nat.ltb_spec i (length (x :: ch))) as [|Hle]; [by eexists|].
  simpl in Hle. apply IH; simpl; lia.
Qed.

Lemma Object_content_returns o : Object_blocks o ≠ [] → returns (Object_content o).
Proof.
  intros Hne. unfold Object_content, Object_key, Object_id, Object_root.
  destruct (last (Object_blocks o)) as [root|] eqn:Hl; [|by apply last_None in Hl]. cbn.
  destruct (Block_key root) as [k|]; [|by eexists]. cbn.
  edestruct (collect_leaves_returns (length (Object_blocks o)) (Object_blocks o)
    [(Block_id root, k)] (length (Object_blocks o) - 1) None (Some [])) as [res Hres];
    [destruct (Object_blocks o); [done|simpl; lia]..|].
  rewrite Hres. destruct res as [[lv oc]|]; simpl; [|by eexists].
  destruct (from_slice _); by eexists.
Qed.

(** Parsing reads the blocks of the object: it does not report any as missing. *)
Lemma collect_parents_not_missing bs ps i ch lv oc m :
  collect_parents bs ps i ch lv oc ≠ Ret (Err (ObjectParseError_MissingBlocks m)).
Proof.
  revert i ch lv oc. induction ps as [|[id [k]] ps IH]; intros i ch lv oc; [done|].
  cbn [collect_parents]. destruct (bs !! i); [|done]. cbn [unwrap mbind outcome_bind].
  destruct (decide _); [done|]. destruct (from_slice _) as [[]|]; [|apply IH|done].
  destruct (negb _); [done|apply IH].
Qed.
Lemma Object_content_not_missing o m :
  Object_content o ≠ Ret (Err (ObjectParseError_MissingBlocks m)).
Proof.
  unfold Object_content. destruct (Object_key o) as [[k|]| |]; cbn; try done.
  destruct (Object_id o) as [id| |]; cbn; try done.
  generalize [(id, k)] (length (Object_blocks o) - 1)%nat (None : option (list Block)) (Some ([] : bytes)).
  generalize (length (Object_blocks o)) as f. induction f as [|f IH]; intros ps i lv oc; [done|].
  cbn [collect_leaves].
  destruct (collect_parents _ _ _ _ _ _) as [[[[ch lv'] oc']|e]| |] eqn:Hp; cbn [try_bind]; try done.
  - destruct ch as [|x ch]; [cbn; by destruct (from_slice _)|].
    destruct (_ <? _)%nat; [done|]. apply IH.
  - intros [= ->]. by apply collect_parents_not_missing in Hp.
Qed.

(** ** Building *)

(** The key that decrypts the block is the one it carries. *)
Definition keyed (n : node) : Prop := Block_key n.1 = Some n.2.

(** A node as the builder makes it, with expiry [e]. *)
Definition fresh (e : option Timestamp) (n : node) : Prop :=
  keyed n ∧ id_ok n.1 ∧ Block_expiry n.1 = e.

Lemma fresh_keyed e ns : Forall (fresh e) ns → Forall keyed ns.
Proof. intros Hf. eapply Forall_impl; [exact Hf|]. by intros n [? _]. Qed.

Lemma mapM_keys (g : list node) :
  Forall keyed g → mapM (λ block, unwrap (Block_key block)) g.*1 = Ret g.*2.
Proof.
  induction 1 as [|n g Hn Hg IH]; [done|]. csimpl. rewrite Hn. simpl.
  exact (f_equal (λ m, m ≫= (λ k, mret (n.2 :: k))) IH).
Qed.

Context `{!SerdeLaws Block, !SerdeLaws BlockContentV0, !CryptoLaws}.

Lemma make_block_spec c ck ch d e :
  ∃ k, let b := make_block (to_vec c) ck ch d e in
       Block_key b = Some k ∧ decrypts b k = Some c ∧ Block_children b = ch ∧
       Block_deps b = d ∧ Block_expiry b = e ∧ id_ok b.
Proof.
  eexists. split_and!; try reflexivity.
  - unfold decrypts, make_block; simpl.
    by rewrite chacha20_involutive, from_slice_to_vec.
  - apply id_ok_new.
Qed.

(** A leaf for each chunk. *)
Lemma make_leaf_spec chunk ck d e :
  ∃ n : node, n.1 = make_block (to_vec (BlockContentV0_DataChunk chunk)) ck [] d e ∧
              leaf_of n chunk ∧ fresh e n ∧ Block_deps n.1 = d ∧ Block_children n.1 = [].
Proof.
  destruct (make_block_spec (BlockContentV0_DataChunk chunk) ck [] d e)
    as (k & Hk & Hd & Hc & Hde & He & Hi).
  by exists (make_block (to_vec (BlockContentV0_DataChunk chunk)) ck [] d e, k).
Qed.

Lemma make_leaves_spec (data : list bytes) ck d e :
  ∃ ns, ns.*1 = (λ chunk, make_block (to_vec (BlockContentV0_DataChunk chunk)) ck [] d e)
                  <$> data ∧
        Forall2 leaf_of ns data ∧ Forall (fresh e) ns ∧
        Forall (λ n, Block_children n.1 = []) ns.
Proof.
  induction data as [|c data (ns & Hns & Hl & Hf & Hd)].
  { by exists []. }
  destruct (make_leaf_spec c ck d e) as (n & Hn & ? & ? & _ & ?).
  exists (n :: ns). csimpl. split_and!; [by rewrite Hn, Hns|by constructor..].
Qed.

Lemma make_parents_spec groups ck rd e acc :
  Forall (Forall keyed) groups → ∃ ps,
  make_parents ((fmap fst : list node → list Block) <$> groups) ck rd e acc
  = Ret (acc ++ ps.*1) ∧
  Forall2 parent_of groups ps ∧ Forall (fresh e) ps ∧
  Forall (λ p, Block_deps p.1 = if decide (acc = [] ∧ length groups = 1%nat)
                                then rd else ObjectIdList []) ps.
Proof.
  intros Hg. revert acc. induction Hg as [|g groups Hg Hgs IH]; intros acc.
  { exists []. by rewrite app_nil_r. }
  rewrite fmap_cons. cbn [make_parents]. rewrite (mapM_keys g Hg). simpl.
  set (d := match acc with [] => _ | _ => _ end).
  assert (Hdd : d = if decide (acc = [] ∧ length (g :: groups) = 1%nat)
                    then rd else ObjectIdList []).
  { unfold d. destruct acc, groups; case_decide; naive_solver. }
  clearbody d.
  destruct (make_block_spec (BlockContentV0_InternalNode g.*2) ck (Block_id <$> g.*1) d e)
    as (k & Hk & Hdec & Hch & Hd & He & Hid).
  generalize dependent (make_block (to_vec (BlockContentV0_InternalNode g.*2)) ck
    (Block_id <$> g.*1) d e). intros b Hk Hdec Hch Hd He Hid.
  destruct (IH (acc ++ [b])) as (ps & -> & Hps & Hfr & Hds).
  exists ((b, k) :: ps). csimpl. rewrite <- app_assoc. split_and!; [done|by constructor..|].
  constructor.
  - cbn [fst]. by rewrite Hd.
  - destruct groups as [|g' groups]; [by inversion Hps; subst|].
    eapply Forall_impl; [exact Hds|]. cbn beta. intros p ->.
    rewrite decide_False by (by intros [? _]; destruct acc).
    by rewrite decide_False by (by intros [_ ?]).
Qed.

(** Termination and shape of [make_tree]: with an arity of at least two, fuel for
    as many turns as there are nodes is enough, no [unwrap] fails, and the result
    is the tree over the nodes. Only its root carries the dependencies, and no
    node has more children than the arity. *)
Lemma make_tree_spec fuel ns ck rd e arity :
  Forall keyed ns → ns ≠ [] → (length ns <= fuel)%nat → (2 <= arity)%N →
  ∃ ts r, make_tree fuel ns.*1 ck rd e arity = Ret ts.*1 ∧ tree_over ns ts ∧
          Forall (fresh e) ts ∧ last ts = Some r ∧ Block_deps r.1 = rd ∧
          Forall (λ t, (len (Block_children t.1) <= arity)%N) ts.
Proof.
  revert ns. induction fuel as [|fuel IH]; intros ns Hk Hne Hfuel Har.
  { destruct ns; simpl in *; [done|lia]. }
  cbn [make_tree]. rewrite slice_chunks_ok by lia. cbn [mbind outcome_bind].
  rewrite chunks_fmap. set (groups := chunks (N.to_nat arity) ns).
  assert (Hcat : concat groups = ns) by (apply chunks_concat; lia).
  assert (Hlen : Forall (λ g : list node, g ≠ [] ∧ (length g <= N.to_nat arity)%nat) groups)
    by (apply chunks_Forall; lia).
  assert (Hgne : groups ≠ []) by (by apply chunks_nonempty).
  assert (Hgk : Forall (Forall keyed) groups) by (apply Forall_concat; by rewrite Hcat).
  destruct (make_parents_spec groups ck rd e [] Hgk) as (ps & -> & Hps & Hfr & Hds).
  cbn [mbind outcome_bind]. rewrite app_nil_l.
  pose proof (Forall2_length _ _ _ Hps) as Hgl.
  assert (Hbound : Forall (λ t : node, (len (Block_children t.1) <= arity)%N) ps).
  { apply Forall_forall. intros p (i & Hp)%list_elem_of_lookup.
    destruct (Forall2_lookup_r _ _ _ _ _ Hps Hp) as (g & Hg & _ & Hch).
    pose proof (Forall_lookup_1 _ _ _ _ Hlen Hg) as [_ Hgn].
    unfold len. rewrite Hch, !length_fmap. lia. }
  assert (Hlps : len ps.*1 = N.of_nat (length groups)) by (unfold len; by rewrite length_fmap, Hgl).
  rewrite Hlps. destruct (N.ltb_spec 1 (N.of_nat (length groups))) as [Hlt|Hge].
  - assert (2 <= length ns)%nat.
    { destruct ns as [|n1 [|n2 ns]]; [done| |simpl; lia].
      assert (length groups <= 1)%nat by apply (chunks_single (N.to_nat arity) n1). lia. }
    assert (length groups < length ns)%nat by (apply chunks_decrease; lia).
    destruct (IH ps) as (ts & r & -> & Htree & Hfrt & Hlast & Hd & Hb);
      [by eapply fresh_keyed|by destruct ps, groups|lia|done|].
    exists (ps ++ ts), r. cbn [mbind outcome_bind]. split_and!.
    + by rewrite fmap_app.
    + rewrite <- Hcat. by constructor; [rewrite Hcat| |].
    + by apply Forall_app.
    + by rewrite last_app, Hlast.
    + done.
    + by apply Forall_app.
  - destruct groups as [|g [|]] eqn:Hgs; [done| |simpl in Hge; lia].
    apply Forall2_cons_inv_l in Hps as (p & ps' & Hp & Hps' & ->).
    inversion Hps'; subst ps'. simpl in Hcat. rewrite app_nil_r in Hcat. subst g.
    exists [p], p. split_and!; [done|by constructor|done|done| |done].
    by inversion Hds.
Qed.
(** ** New objects *)

Lemma tree_arity_spec v :
  (MIN_SIZE <= v)%N → ∃ a, tree_arity v = Ret a ∧ (57 <= a)%N ∧ (a * 66 + 282 <= v)%N.
Proof.
  intros Hv. unfold MIN_SIZE in Hv. unfold tree_arity.
  change EMPTY_BLOCK_SIZE with 12%N. change (BIG_VARINT_EXTRA * 2)%N with 6%N.
  change MAX_DEPS_SIZE with 264%N. change (BLOCK_ID_SIZE + BLOCK_KEY_SIZE)%N with 66%N.
  rewrite usize_sub_ok by lia. cbn [mbind outcome_bind].
  rewrite usize_sub_ok by lia. cbn [mbind outcome_bind].
  rewrite usize_sub_ok by lia. cbn [mbind outcome_bind].
  rewrite usize_div_ok by done. eexists. split; [reflexivity|].
  replace (v - 12 - 6 - 264)%N with (v - 282)%N by lia.
  pose proof (N.div_mod (v - 282) 66 ltac:(done)).
  pose proof (N.mod_lt (v - 282) 66 ltac:(done)).
  generalize dependent ((v - 282) / 66)%N. generalize dependent ((v - 282) mod 66)%N.
  intros. lia.
Qed.

Context `{!SerdeTagged ObjectContent}.

(** What [Object::new] answers: an object that holds the serialized content. *)
Definition new_ok (content : ObjectContent) (deps : list ObjectId)
    (expiry : option Timestamp) (d : ObjectDeps) (o : Object) : Prop :=
  ∃ cs, object_sealed o cs ∧ concat cs = to_vec content ∧ Object_deps o = deps ∧
        Forall (λ b, Block_expiry b = expiry ∧ id_ok b) (Object_blocks o) ∧
        ∃ root, Object_root o = Ret root ∧ Block_deps root = d.

Lemma fresh_blocks e ns :
  Forall (fresh e) ns → Forall (λ b, Block_expiry b = e ∧ id_ok b) ns.*1.
Proof.
  intros Hf. apply Forall_fmap. eapply Forall_impl; [exact Hf|].
  by intros n (_ & ? & ?).
Qed.

Lemma Object_new_step fuel content deps expiry bs pk sk d :
  (bs + HEADER < usize_max)%N →
  make_deps (Object_new_fuel fuel) deps (valid_size bs) pk sk = Ret d →
  ∃ o, Object_new_fuel (S fuel) content deps expiry bs pk sk = Ret o ∧
       new_ok content deps expiry d o.
Proof.
  intros Hbs Hd. cbn [Object_new_fuel].
  rewrite (store_valid_value_size_eq bs Hbs). cbn [mbind outcome_bind].
  pose proof (valid_size_bounds bs) as [Hv _]. unfold MIN_SIZE in Hv.
  rewrite usize_sub_ok by (unfold EMPTY_BLOCK_SIZE; lia). cbn [mbind outcome_bind].
  rewrite usize_sub_ok by (unfold EMPTY_BLOCK_SIZE, DATA_VARINT_EXTRA; lia).
  cbn [mbind outcome_bind]. rewrite Hd. cbn [mbind outcome_bind].
  destruct (_ <=? _)%N.
  - (* the content fits in the root *)
    destruct (make_leaf_spec (to_vec content) (convergence_key pk sk) d expiry)
      as (n & Hn & Hl & Hf & Hde & Hch).
    eexists. split; [reflexivity|]. rewrite <- Hn.
    exists [to_vec content]. split_and!.
    + exists [n], n. split_and!; [done|by constructor|done|apply Hf|].
      constructor; [by intros ? _|done].
    + simpl. by rewrite app_nil_r.
    + done.
    + by apply (fresh_blocks expiry [n]); constructor.
    + by exists n.1.
  - (* leaves and the tree above *)
    set (w := (valid_size bs - EMPTY_BLOCK_SIZE - DATA_VARINT_EXTRA)%N).
    assert (0 < w)%N by (unfold w, EMPTY_BLOCK_SIZE, DATA_VARINT_EXTRA; lia).
    rewrite slice_chunks_ok by lia. cbn [mbind outcome_bind].
    set (data := chunks (N.to_nat w) (to_vec content)).
    destruct (make_leaves_spec data (convergence_key pk sk) (ObjectIdList []) expiry)
      as (ns & Hns & Hl & Hf & Hch). rewrite <- Hns.
    assert (Hne : ns ≠ []).
    { assert (data ≠ []) by apply chunks_nonempty, to_vec_nonempty.
      by intros ->; inversion Hl; subst; destruct data. }
    destruct (tree_arity_spec (valid_size bs)) as (a & -> & Ha & _);
      [unfold MIN_SIZE; lia|]. cbn [mbind outcome_bind].
    destruct (make_tree_spec (length ns.*1) ns (convergence_key pk sk) d expiry a)
      as (ts & r & -> & Htree & Hft & Hlast & Hrd & _);
      [by eapply fresh_keyed|done|by rewrite length_fmap|lia|].
    cbn [mbind outcome_bind]. eexists. split; [reflexivity|].
    assert (Hlast' : last (ns ++ ts) = Some r) by (by rewrite last_app, Hlast).
    exists data. split_and!.
    + exists (ns ++ ts), r. split_and!; [by rewrite fmap_app|by constructor|done| |].
      * apply last_Some_elem_of in Hlast. by apply (proj1 (Forall_forall _ _) Hft).
      * apply Forall_app. split; [|by eapply tree_over_childless].
        eapply Forall_impl; [exact Hch|]. by intros n ? c _.
    + apply chunks_concat. lia.
    + done.
    + cbn [Object_blocks]. rewrite <- fmap_app. apply fresh_blocks. by apply Forall_app.
    + exists r.1. split; [|done].
      by apply (Object_root_repr _ (ns ++ ts)); [cbn; rewrite fmap_app|].
Qed.
Lemma valid_size_no_overflow bs : (valid_size bs + HEADER < usize_max)%N.
Proof.
  pose proof (valid_size_bounds bs) as [_ Hv].
  assert (store_max_value_size + HEADER < usize_max)%N by done. lia.
Qed.

(** [make_deps] returns; more than eight dependencies go to an object of their
    own, which is the one [Object::new] makes for the [DepList]. *)
Lemma make_deps_spec deps bs pk sk :
  ∃ d, make_deps (Object_new_fuel 1) deps (valid_size bs) pk sk = Ret d ∧
  if (len deps <=? 8)%N then d = ObjectIdList deps
  else ∃ o r, Object_new (ObjectContent_DepList (DepList_V0 deps)) [] None
                (valid_size bs) pk sk = Ret o ∧
              Object_reference o = Ret (Some r) ∧ d = DepListRef r.
Proof.
  unfold make_deps. destruct (len deps <=? 8)%N; [by eexists|].
  destruct (Object_new_step 0 (ObjectContent_DepList (DepList_V0 deps)) [] None
    (valid_size bs) pk sk (ObjectIdList [])) as (o & Ho & cs & Hr & _ & _ & _ & root & Hroot & _);
    [apply valid_size_no_overflow|done|].
  destruct (Object_new_step 1 (ObjectContent_DepList (DepList_V0 deps)) [] None
    (valid_size bs) pk sk (ObjectIdList [])) as (o' & Ho' & _);
    [apply valid_size_no_overflow|done|].
  assert (o' = o) as ->.
  { enough (Ret o' = Ret o) by congruence. rewrite <- Ho, <- Ho'. reflexivity. }
  rewrite Ho. cbn [mbind outcome_bind].
  apply object_sealed_repr, object_repr_holds in Hr as (root' & k & _ & Hroot' & Hk & _).
  rewrite Hroot in Hroot'. injection Hroot' as <-.
  assert (Hid : Object_id o = Ret (Block_id root)) by (unfold Object_id; by rewrite Hroot).
  assert (Hkey : Object_key o = Ret (Some k)) by (unfold Object_key; by rewrite Hroot; simpl; rewrite Hk).
  rewrite Hid, Hkey. simpl. eexists. split; [reflexivity|].
  eexists o, _. split_and!; [exact Ho'| |reflexivity].
  unfold Object_reference. by rewrite Hid, Hkey.
Qed.

Lemma Object_new_spec content deps expiry bs pk sk :
  (bs + HEADER < usize_max)%N →
  ∃ o d, Object_new content deps expiry bs pk sk = Ret o ∧
         new_ok content deps expiry d o ∧
         make_deps (Object_new_fuel 1) deps (valid_size bs) pk sk = Ret d.
Proof.
  intros Hbs. destruct (make_deps_spec deps bs pk sk) as (d & Hd & _).
  destruct (Object_new_step 1 content deps expiry bs pk sk d Hbs Hd) as (o & Ho & Hok).
  by exists o, d.
Qed.

(** ** Copies *)

Lemma copied_leaf e n c :
  leaf_of n c → leaf_of (Block_set_expiry e (with_key n), n.2) c ∧
                fresh e (Block_set_expiry e (with_key n), n.2).
Proof. destruct n as [[b] k]. done. Qed.

Lemma copied_leaves e (leaves : list node) cs :
  Forall2 leaf_of leaves cs → ∃ ns : list node,
  ns.*1 = Block_set_expiry e <$> (with_key <$> leaves) ∧
  Forall2 leaf_of ns cs ∧ Forall (fresh e) ns.
Proof.
  induction 1 as [|n c leaves cs Hn _ (ns & Hns & Hl & Hf)]; [by exists []|].
  destruct (copied_leaf e n c Hn). exists ((Block_set_expiry e (with_key n), n.2) :: ns).
  split_and!; [csimpl; by rewrite Hns|by constructor..].
Qed.

Lemma Object_copy_spec o cs e pk sk :
  object_holds o cs → cs ≠ [] →
  Forall (λ b, len (Block_content b) + HEADER < usize_max)%N (Object_blocks o) →
  ∃ o', Object_copy o e pk sk = Ret (Ok o') ∧ object_repr o' cs ∧
        Object_deps o' = Object_deps o ∧
        Forall (λ b, Block_expiry b = e ∧ id_ok b) (Object_blocks o').
Proof.
  intros Ho Hne Hsz. destruct (Object_leaves_holds _ _ Ho) as (leaves & Hlv & Hl & Hsub).
  destruct Ho as (root & _ & _ & Hroot & _). unfold Object_copy. rewrite Hlv. cbn [fmap outcome_fmap].
  cbn [map_err try_bind].
  assert (∃ n0, n0 ∈ leaves ∧ head (with_key <$> leaves) = Some (with_key n0))
    as (n0 & Hn0 & ->).
  { destruct leaves as [|n0 leaves]; [by apply Forall2_nil_inv_l in Hl|].
    exists n0. split; [left|done]. }
  assert (Hfirst : (len (Block_content (with_key n0)) + HEADER < usize_max)%N).
  { unfold with_key. rewrite content_set_key. apply (proj1 (Forall_forall _ _) Hsz).
    apply Hsub, list_elem_of_fmap. by exists n0. }
  cbn [unwrap mbind outcome_bind].
  rewrite (store_valid_value_size_eq _ Hfirst). cbn [mbind outcome_bind].
  edestruct tree_arity_spec as (a & -> & Ha & _); [apply valid_size_bounds|].
  cbn [mbind outcome_bind]. rewrite Hroot. cbn [mbind outcome_bind].
  destruct (copied_leaves e _ _ Hl) as (ns & <- & Hl' & Hf).
  destruct (make_tree_spec (length ns.*1) ns (convergence_key pk sk) (Block_deps root) e a)
    as (ts & r & -> & Htree & Hft & Hlast & _);
    [by eapply fresh_keyed| |by rewrite length_fmap|lia|].
  { intros ->. by apply Forall2_nil_inv_l in Hl'. }
  cbn [mbind outcome_bind].
  eexists. split; [reflexivity|].
  assert (Hlast' : last (ns ++ ts) = Some r) by (by rewrite last_app, Hlast).
  split_and!.
  - exists (ns ++ ts), r. split_and!; [by rewrite fmap_app|by constructor|done|].
    apply last_Some_elem_of in Hlast. by apply (proj1 (Forall_forall _ _) Hft).
  - done.
  - cbn [Object_blocks]. rewrite <- fmap_app. apply fresh_blocks. by apply Forall_app.
Qed.
End Tree.
