(* ===== verification/ObjectProps.v ===== *)
(** * Properties of objects: building, parsing and copying

    The theorems about [Object::new], [Object::content], [Object::leaves] and
    [Object::copy], each with an example on concrete inputs. *)

From S2P Require Import Prelude Serde Types Bare BareTypes Block Store Object.
From S2P Require Import ObjectTree.

Section ObjectProps.
Context `{!Crypto, !CryptoLaws}.
Context `{!Serde Block, !Serde BlockContentV0, !Serde ObjectContent}.
Context `{!SerdeLaws Block, !SerdeLaws BlockContentV0, !SerdeLaws ObjectContent}.
Context `{!SerdeTagged ObjectContent}.

Lemma object_holds_content o cs c :
  object_holds o cs → concat cs = to_vec c → Object_content o = Ret (Ok (serde_skip c)).
Proof.
  intros Ho Hcs. rewrite (Object_content_holds o cs Ho), Hcs. by rewrite from_slice_to_vec.
Qed.

(** C1: [Object::new] returns on every content, list of dependencies and block size
    (short of overflowing [usize]): no arithmetic on sizes underflows, no [unwrap]
    fails, the tree construction terminates. The content of the object it builds
    parses back to the content given, less what serialization skips of a commit;
    the object keeps its dependencies, and every block has the expiry given. *)
Theorem Object_new_content content deps expiry bs pk sk :
  (bs + HEADER < usize_max)%N →
  ∃ o, Object_new content deps expiry bs pk sk = Ret o ∧
       Object_content o = Ret (Ok (serde_skip content)) ∧
       Object_deps o = deps ∧
       Forall (λ b, Block_expiry b = expiry) (Object_blocks o).
Proof.
  intros Hbs. destruct (Object_new_spec content deps expiry bs pk sk Hbs)
    as (o & d & Ho & (cs & Hr & Hcs & Hd & Hb & _) & _).
  exists o. split_and!; [done|by eapply object_holds_content, Hcs; apply object_repr_holds, object_sealed_repr|done|].
  eapply Forall_impl; [exact Hb|]. by intros b [? _].
Qed.

(** C29: [Object::copy] of any object whose content parses returns an object with the
    same content and the same dependencies, and every one of its blocks has the new
    expiry. It needs the leaves to exist: no object parses from zero bytes. *)
Theorem Object_copy_content o c expiry pk sk :
  Object_content o = Ret (Ok c) →
  Forall (λ b, len (Block_content b) + HEADER < usize_max)%N (Object_blocks o) →
  ∃ o', Object_copy o expiry pk sk = Ret (Ok o') ∧
        Object_content o' = Ret (Ok c) ∧ Object_deps o' = Object_deps o ∧
        Forall (λ b, Block_expiry b = expiry ∧ id_ok b) (Object_blocks o').
Proof.
  intros (cs & Hh & Hc)%Object_content_inv Hsz.
  assert (cs ≠ []) by (intros ->; simpl in Hc; by rewrite from_slice_nil in Hc).
  destruct (Object_copy_spec o cs expiry pk sk Hh) as (o' & Ho' & Hr & Hd & Hb); [done..|].
  exists o'. split_and!; [done| |done|done].
  rewrite (Object_content_holds o' cs (object_repr_holds _ _ Hr)). by rewrite Hc.
Qed.

(** ** Parsing arbitrary blocks *)

(** C30: [Object::content] returns on an object made of any blocks at all, well formed
    or not: whatever ids, children, keys and ciphertexts the blocks hold, the
    recursion terminates and no index is out of range or underflows; the only panic
    left is that of an object without blocks. *)
Theorem Object_content_total o :
  returns (Object_content o) ↔ Object_blocks o ≠ [].
Proof.
  split; [|apply Object_content_returns].
  intros [r Hr] Hb. unfold Object_content, Object_key, Object_root in Hr.
  by rewrite Hb in Hr.
Qed.

(** ** Binding *)

(** The blocks of one list and of another with the same hash are the same block. *)
Definition no_collision (bs1 bs2 : list Block) : Prop :=
  ∀ b1 b2, b1 ∈ bs1 → b2 ∈ bs2 →
  Block_get_id b1 = Block_get_id b2 → serde_skip b1 = serde_skip b2.

Lemma collect_parents_bind bs1 bs2 ps i1 i2 ch oc r1 r2 :
  no_collision bs1 bs2 → Forall id_ok bs1 → Forall id_ok bs2 →
  collect_parents bs1 ps i1 ch None oc = Ret (Ok r1) →
  collect_parents bs2 ps i2 ch None oc = Ret (Ok r2) → r1 = r2.
Proof.
  intros Hnc Hok1 Hok2. revert i1 i2 ch oc.
  induction ps as [|[id [k]] ps IH]; intros i1 i2 ch oc; simpl; [congruence|].
  destruct (bs1 !! i1) as [b1|] eqn:Hb1; [|done].
  destruct (bs2 !! i2) as [b2|] eqn:Hb2; [|done]. simpl.
  destruct (decide (id ≠ Block_id b1)) as [|Hid1%dec_stable]; [done|].
  destruct (decide (id ≠ Block_id b2)) as [|Hid2%dec_stable]; [done|].
  assert (Hs : serde_skip b1 = serde_skip b2).
  { apply Hnc; [by eapply list_elem_of_lookup_2..|].
    rewrite <- (Forall_lookup_1 _ _ _ _ Hok1 Hb1), <- (Forall_lookup_1 _ _ _ _ Hok2 Hb2).
    congruence. }
  rewrite <- (content_skip b1), <- (children_skip b1), Hs, content_skip, children_skip.
  destruct (from_slice _) as [[keys|chunk]|]; [| |done].
  - destruct (negb _); [done|]. apply IH.
  - apply IH.
Qed.

Lemma collect_leaves_bind bs1 bs2 f1 f2 ps i1 i2 oc r1 r2 :
  no_collision bs1 bs2 → Forall id_ok bs1 → Forall id_ok bs2 →
  collect_leaves f1 bs1 ps i1 None oc = Ret (Ok r1) →
  collect_leaves f2 bs2 ps i2 None oc = Ret (Ok r2) → r1.2 = r2.2.
Proof.
  intros Hnc Hok1 Hok2. revert f2 ps i1 i2 oc.
  induction f1 as [|f1 IH]; intros [|f2] ps i1 i2 oc; try done. cbn [collect_leaves].
  destruct (collect_parents bs1 _ _ _ _ _) as [[[[ch1 lv1] oc1]|]| |] eqn:Hp1; try done.
  destruct (collect_parents bs2 _ _ _ _ _) as [[[[ch2 lv2] oc2]|]| |] eqn:Hp2; try done.
  pose proof (collect_parents_bind _ _ _ _ _ _ _ _ _ Hnc Hok1 Hok2 Hp1 Hp2) as [= <- <- <-].
  pose proof Hp1 as (l1 & c1 & _ & _ & Hu1)%collect_parents_uniform.
  rewrite Hu1 in Hp1. injection Hp1 as <- <-.
  cbn [try_bind]. destruct ch1 as [|x ch1]; [congruence|].
  destruct (_ <? _)%nat; [done|]. destruct (_ <? _)%nat; [done|]. apply IH.
Qed.

(** C18: an object reference binds the content. If two objects have the same root
    identifier and key, and no block of one collides with a different block of the
    other under the hash, then whatever else their lists of blocks hold, they parse
    to the same content. *)
Theorem Object_reference_binds o1 o2 r c1 c2 :
  Forall id_ok (Object_blocks o1) → Forall id_ok (Object_blocks o2) →
  no_collision (Object_blocks o1) (Object_blocks o2) →
  Object_reference o1 = Ret (Some r) → Object_reference o2 = Ret (Some r) →
  Object_content o1 = Ret (Ok c1) → Object_content o2 = Ret (Ok c2) → c1 = c2.
Proof.
  intros Hok1 Hok2 Hnc. unfold Object_reference, Object_content, Object_key, Object_id.
  destruct (Object_root o1) as [r1| |]; [|done..].
  destruct (Object_root o2) as [r2| |]; [|done..]. simpl.
  destruct (Block_key r1) as [k1|]; [|done]. destruct (Block_key r2) as [k2|]; [|done].
  simpl. intros [= <-] [= <- <-].
  destruct (collect_leaves _ (Object_blocks o1) _ _ _ _) as [[[lv1 oc1]|]| |] eqn:H1; try done.
  destruct (collect_leaves _ (Object_blocks o2) _ _ _ _) as [[[lv2 oc2]|]| |] eqn:H2; try done.
  pose proof (collect_leaves_bind _ _ _ _ _ _ _ _ _ _ Hnc Hok1 Hok2 H1 H2) as Heq.
  simpl in *. subst oc2. destruct (from_slice _); congruence.
Qed.
End ObjectProps.

(** ** Examples *)

Module Examples.
Import BareTypes.Instances.

Definition pk : PubKey := Ed25519PubKey (array_fill 32 x01).
Definition sk : SymKey := ChaCha20Key (array_fill 32 x02).
Definition ids (n : nat) : list ObjectId :=
  (λ i, Blake3Digest32 (to_array 32 [byte_of_N (N.of_nat i)])) <$> seq 0 n.

(** 5000 bytes over blocks of 4072: two leaves and a root. *)
Definition file : ObjectContent := ObjectContent_File (File_V0 {|
  FileV0_content_type := [x61]; FileV0_metadata := [];
  FileV0_content := concat (replicate 500 [x00; x01; x02; x03; x04; x05; x06; x07; x08; x09]) |}).
Definition out {A} (d : A) (m : outcome A) : A := match m with Ret a => a | _ => d end.
Definition file_object : Object :=
  out {| Object_blocks := []; Object_deps := [] |}
    (Object_new file (ids 3) (Some (uint_wrap 32 7)) 0 pk sk).
(** The same root over one more block. *)
Definition padded_object : Object := {|
  Object_blocks := Block_new [] (ObjectIdList []) None [x2a] None :: Object_blocks file_object;
  Object_deps := [] |}.

Example file_object_blocks : length (Object_blocks file_object) = 3%nat.
Proof. vm_compute. reflexivity. Qed.

Lemma Object_new_content_witness :
  (0 + HEADER < usize_max)%N ∧
  ∃ o, Object_new file (ids 10) None 0 pk sk = Ret o ∧
       Object_content o = Ret (Ok file) ∧ Object_deps o = ids 10 ∧
       Forall (λ b, Block_expiry b = None) (Object_blocks o).
Proof. split; [reflexivity|]. apply (Object_new_content file (ids 10) None 0 pk sk). reflexivity. Defined.

Example file_object_content : Object_content file_object = Ret (Ok file).
Proof. vm_compute. reflexivity. Qed.
Example padded_object_content : Object_content padded_object = Ret (Ok file).
Proof. vm_compute. reflexivity. Qed.

Lemma Object_copy_content_witness :
  Object_content padded_object = Ret (Ok file) ∧
  ∃ o', Object_copy padded_object (Some (uint_wrap 32 99)) pk sk = Ret (Ok o') ∧
        Object_content o' = Ret (Ok file) ∧ Object_deps o' = [] ∧
        Forall (λ b, Block_expiry b = Some (uint_wrap 32 99) ∧ id_ok b) (Object_blocks o').
Proof.
  split; [apply padded_object_content|].
  apply (Object_copy_content padded_object file (Some (uint_wrap 32 99)) pk sk).
  - apply padded_object_content.
  - apply (bool_decide_unpack _). vm_compute. done.
Defined.

(** Decides [no_collision], hashing every block once. *)
Definition with_id (b : Block) : BlockId * Block := (Block_get_id b, serde_skip b).
Definition no_collision_b (l1 l2 : list (BlockId * Block)) : bool :=
  forallb (λ x, forallb (λ y, if bool_decide (x.1 = y.1) then bool_decide (x.2 = y.2) else true)
                  l2) l1.
Lemma no_collision_dec bs1 bs2 :
  no_collision_b (with_id <$> bs1) (with_id <$> bs2) = true → no_collision bs1 bs2.
Proof.
  unfold no_collision_b. rewrite forallb_forall. intros H b1 b2 H1 H2 Heq.
  assert (Hin : ∀ b bs, b ∈ bs → In (with_id b) (with_id <$> bs))
    by (intros; apply list_elem_of_In, list_elem_of_fmap_2; done).
  specialize (H _ (Hin _ _ H1)). rewrite forallb_forall in H.
  specialize (H _ (Hin _ _ H2)). simpl in H.
  rewrite bool_decide_true in H by done. by apply bool_decide_eq_true in H.
Qed.

Definition file_ref : option BlockRef := out None (Object_reference file_object).
Lemma Object_reference_binds_witness :
  Object_blocks file_object ≠ Object_blocks padded_object ∧ file = file.
Proof.
  split; [intros H%(f_equal length); vm_compute in H; discriminate|].
  apply (Object_reference_binds file_object padded_object (default
    {| BlockRef_id := Blake3Digest32 (array_fill 32 x00); BlockRef_key := sk |} file_ref)).
  - apply (bool_decide_unpack _). vm_compute. done.
  - apply (bool_decide_unpack _). vm_compute. done.
  - apply no_collision_dec. vm_compute. done.
  - vm_compute. reflexivity.
  - vm_compute. reflexivity.
  - apply file_object_content.
  - apply padded_object_content.
Defined.
End Examples.
