(* ===== verification/ObjectStore.v ===== *)
(** * Saving and loading objects

    [Object::save] and [Object::load] against the contract of a block store.
    Loading goes down the tree breadth first and pushes every level in front of
    the levels above it, so that the list of blocks comes back in the order in
    which it was built. *)

From S2P Require Import Prelude Serde Types Block Store Object ObjectTree.

(** Lists related to a concatenation are concatenations. *)
Lemma Forall2_concat_inv_l {A B} (R : A → B → Prop) (gs : list (list A)) l :
  Forall2 R (concat gs) l → ∃ gs', l = concat gs' ∧ Forall2 (Forall2 R) gs gs'.
Proof.
  revert l. induction gs as [|g gs IH]; intros l H.
  { apply Forall2_nil_inv_l in H as ->. by exists []. }
  apply Forall2_app_inv_l in H as (l1 & l2 & H1 & (gs' & -> & H2)%IH & ->).
  exists (l1 :: gs'). split; [done|by constructor].
Qed.

Section ObjectStore.
Context `{!Crypto} `{!Serde Block, !Serde BlockContentV0, !Serde ObjectContent}.
Context `{!SerdeLaws Block}.

(** ** The same blocks, less their cached fields *)

Definition same (b b' : Block) : Prop := serde_skip b' = serde_skip b ∧ id_ok b ∧ id_ok b'.
Definition same_node (n n' : node) : Prop := n'.2 = n.2 ∧ same n.1 n'.1.

Lemma same_id b b' : same b b' → Block_id b' = Block_id b.
Proof. intros (Hs & ? & ?). by apply id_of_skip. Qed.
Lemma same_content b b' : same b b' → Block_content b' = Block_content b.
Proof. intros (Hs & _). by rewrite <- content_skip, Hs, content_skip. Qed.
Lemma same_children b b' : same b b' → Block_children b' = Block_children b.
Proof. intros (Hs & _). by rewrite <- children_skip, Hs, children_skip. Qed.
Lemma same_deps b b' : same b b' → Block_deps b' = Block_deps b.
Proof. intros (Hs & _). by rewrite <- deps_skip, Hs, deps_skip. Qed.
Lemma same_set_key k b b' : same b b' → same b (Block_set_key k b').
Proof. intros (Hs & ? & ?). split_and!; [by rewrite skip_set_key|done|by apply id_ok_set_key]. Qed.

Lemma same_decrypts n n' : same_node n n' → decrypts n'.1 n'.2 = decrypts n.1 n.2.
Proof. intros [Hk Hs]. unfold decrypts. by rewrite Hk, (same_content _ _ Hs). Qed.

Lemma same_leaf n n' c : same_node n n' → leaf_of n c → leaf_of n' c.
Proof. intros Hs. unfold leaf_of. by rewrite (same_decrypts _ _ Hs). Qed.

Lemma same_nodes_refs g g' :
  Forall2 same_node g g' → Block_id <$> g'.*1 = Block_id <$> g.*1 ∧ g'.*2 = g.*2.
Proof.
  induction 1 as [|n n' g g' [Hk Hs] _ [IH1 IH2]]; [done|]. csimpl.
  by rewrite (same_id _ _ Hs), Hk, IH1, IH2.
Qed.

Lemma same_parent g g' n n' :
  Forall2 same_node g g' → same_node n n' → parent_of g n → parent_of g' n'.
Proof.
  intros [Hi Hk]%same_nodes_refs Hs [Hd Hc]. split.
  - by rewrite (same_decrypts _ _ Hs), Hk.
  - destruct Hs as [_ Hs]. by rewrite (same_children _ _ Hs), Hi.
Qed.

Lemma same_parents gs gs' ps ps' :
  Forall2 (Forall2 same_node) gs gs' → Forall2 same_node ps ps' →
  Forall2 parent_of gs ps → Forall2 parent_of gs' ps'.
Proof.
  intros Hg Hs Hp. revert gs' ps' Hg Hs.
  induction Hp as [|g n gs ps Hgn Hp IH]; intros gs' ps' Hg Hs.
  - apply Forall2_nil_inv_l in Hg as ->. by apply Forall2_nil_inv_l in Hs as ->.
  - apply Forall2_cons_inv_l in Hg as (g' & gs1 & ? & ? & ->).
    apply Forall2_cons_inv_l in Hs as (n' & ps1 & ? & ? & ->).
    constructor; [by eapply same_parent|by apply IH].
Qed.

Lemma same_tree nodes tree nodes' tree' :
  tree_over nodes tree → Forall2 same_node nodes nodes' → Forall2 same_node tree tree' →
  tree_over nodes' tree'.
Proof.
  intros Hover. revert nodes' tree'.
  induction Hover as [nodes r Hne Hr|gs ps tree Hne Hps Ht IH]; intros nodes' tree' Hn Htr.
  - apply Forall2_cons_inv_l in Htr as (r' & l & Hr' & Hl & ->).
    apply Forall2_nil_inv_l in Hl as ->. constructor; [|by eapply same_parent].
    intros ->. by apply Forall2_nil_inv_r in Hn.
  - apply Forall2_concat_inv_l in Hn as (gs' & -> & Hg).
    apply Forall2_app_inv_l in Htr as (ps' & tr' & Hp & Htr & ->).
    constructor; [|by eapply same_parents|by apply IH].
    intros Hc. apply Hne. clear -Hg Hc.
    induction Hg as [|g g' gs gs' Hgg _ IHg]; [done|].
    apply app_nil in Hc as [-> Hc]. apply Forall2_nil_inv_r in Hgg as ->. by apply IHg.
Qed.

Lemma same_repr ns ns' cs :
  nodes_repr ns cs → Forall2 same_node ns ns' → nodes_repr ns' cs.
Proof.
  intros [n c Hn|leaves cs' tree Hl Ht] Hs.
  - apply Forall2_cons_inv_l in Hs as (n' & l & Hn' & Hl & ->).
    apply Forall2_nil_inv_l in Hl as ->. constructor. by eapply same_leaf.
  - apply Forall2_app_inv_l in Hs as (l' & t' & Hl' & Ht' & ->).
    constructor; [|by eapply same_tree]. clear -Hl Hl'. revert l' Hl'.
    induction Hl as [|n c l cs Hn Hl IH]; intros l' Hl'.
    + by apply Forall2_nil_inv_l in Hl' as ->.
    + apply Forall2_cons_inv_l in Hl' as (n' & l1 & ? & ? & ->).
      constructor; [by eapply same_leaf|by apply IH].
Qed.

(** Blocks that match the blocks of some nodes, as nodes. *)
Lemma same_zip (ns : list node) bs :
  Forall2 same ns.*1 bs → ∃ ns', bs = ns'.*1 ∧ Forall2 same_node ns ns'.
Proof.
  revert bs. induction ns as [|n ns IH]; intros bs Hbs.
  { apply Forall2_nil_inv_l in Hbs as ->. by exists []. }
  rewrite fmap_cons in Hbs. apply Forall2_cons_inv_l in Hbs as (b & bs1 & Hb & (ns' & -> & Hs)%IH & ->).
  exists ((b, n.2) :: ns'). split; [done|by constructor].
Qed.

(** ** Saving *)

Context {S : Type} `{!RepoStore S, !RepoStoreSpec S, !RepoStoreTotal S}.

(** No two different blocks of the list have the same hash. *)
Definition collision_free (bs : list Block) : Prop :=
  ∀ b1 b2, b1 ∈ bs → b2 ∈ bs → Block_id b1 = Block_id b2 → serde_skip b1 = serde_skip b2.

(** The store holds the block. *)
Definition stored (s : S) (b : Block) : Prop :=
  store_view s !! Block_id b = Some (serde_skip b).

(** The blocks, by identifier. *)
Definition blocks_map (bs : list Block) : gmap BlockId Block :=
  list_to_map ((λ b, (Block_id b, serde_skip b)) <$> bs).

Lemma collision_free_cons b bs : collision_free (b :: bs) → collision_free bs.
Proof. intros Hcf b1 b2 ??. apply Hcf; by right. Qed.

Lemma blocks_map_lookup bs b :
  collision_free bs → b ∈ bs → blocks_map bs !! Block_id b = Some (serde_skip b).
Proof.
  intros Hc Hb. unfold blocks_map. induction bs as [|b' bs IH]; [by apply elem_of_nil in Hb|].
  csimpl. destruct (decide (Block_id b' = Block_id b)) as [Heq|Hne].
  - rewrite Heq, lookup_insert_eq. f_equal. apply Hc; [left|done|done].
  - rewrite lookup_insert_ne by done. apply elem_of_cons in Hb as [->|Hb]; [done|].
    apply IH; [by eapply collision_free_cons|done].
Qed.

Lemma blocks_map_cons b bs (v : gmap BlockId Block) :
  collision_free (b :: bs) →
  blocks_map (b :: bs) ∪ v = blocks_map bs ∪ <[Block_id b := serde_skip b]> v.
Proof.
  intros Hc. apply map_eq. intros i. unfold blocks_map. csimpl. fold (blocks_map bs).
  destruct (decide (Block_id b = i)) as [<-|Hne];
    [|by rewrite !lookup_union, !lookup_insert_ne by done].
  rewrite <- insert_union_l, lookup_insert_eq.
  destruct (blocks_map bs !! Block_id b) as [b'|] eqn:Hl;
    [|by rewrite lookup_union_r, lookup_insert_eq by done].
  rewrite (lookup_union_Some_l _ _ _ _ Hl).
  apply elem_of_list_to_map_2, list_elem_of_fmap in Hl as (b2 & [= Hid ->] & Hb2).
  f_equal. apply Hc; [left|by right|done].
Qed.

Lemma save_blocks_spec bs D s :
  collision_free bs → Forall id_ok bs → store_inv s →
  (∀ b, b ∈ bs → Block_id b ∈ D → stored s b) →
  ∃ s', save_blocks bs D s = Ret (Ok tt, s') ∧ store_inv s' ∧
        store_view s' = blocks_map bs ∪ store_view s.
Proof.
  revert D s. induction bs as [|b bs IH]; intros D s Hc Hok Hinv HD.
  { exists s. split_and!; [done|done|]. symmetry. apply (left_id_L ∅ (∪)). }
  apply Forall_cons in Hok as [Hb Hok]. cbn [save_blocks].
  pose proof (collision_free_cons _ _ Hc) as Hc'. rewrite blocks_map_cons by done.
  destruct (decide (Block_id b ∈ D)) as [Hin|Hin].
  - rewrite insert_id by (apply HD; [left|done]).
    apply IH; [done..|]. intros b' Hb' ?. apply HD; [by right|done].
  - destruct (store_put_returns s b Hinv Hb) as [[r s1] Hput]. rewrite Hput. cbn.
    destruct (store_put_spec s b r s1 Hinv Hb Hput) as (-> & Hinv1 & <-).
    apply IH; [done|done|done|]. intros b' Hb' HDb'. unfold stored.
    destruct (store_put_spec s b _ s1 Hinv Hb Hput) as (_ & _ & ->).
    destruct (decide (Block_id b = Block_id b')) as [Heq|Hne].
    + rewrite Heq, lookup_insert_eq. f_equal. apply Hc; [left|by right|done].
    + rewrite lookup_insert_ne by done. apply HD; [by right|].
      by apply elem_of_union in HDb' as [?%elem_of_singleton|?]; [congruence|].
Qed.

(** ** Loading *)

(** A block as it comes back from the store. *)
Definition loaded (b b' : Block) : Prop := same b b' ∧ Block_key b' = None.

Lemma store_get_stored s b :
  store_inv s → id_ok b → stored s b →
  ∃ b' s', store_get (Block_id b) s = Ret (Ok b', s') ∧ loaded b b' ∧
           store_inv s' ∧ store_view s' = store_view s.
Proof.
  intros Hinv Hok Hst. destruct (store_get_returns s (Block_id b) Hinv) as [[r s'] Hget].
  destruct (store_get_spec s _ r s' Hinv Hget) as (Hinv' & Hv & Hr).
  rewrite Hst in Hr. destruct Hr as (b' & -> & Hs & Hok' & Hk). by exists b', s'.
Qed.

(** One level: its identifiers are visited from the last to the first. *)
Lemma load_parents_spec bs s acc miss ch :
  store_inv s → Forall id_ok bs → Forall (stored s) bs →
  ∃ bs' s', load_parents (reverse (Block_id <$> bs)) s acc miss ch
            = Ret (bs' ++ acc, miss, ch ++ reverse (concat (Block_children <$> bs)), s') ∧
            Forall2 loaded bs bs' ∧ store_inv s' ∧ store_view s' = store_view s.
Proof.
  intros Hinv. revert s acc ch Hinv.
  induction bs as [|b bs IH] using rev_ind; intros s acc ch Hinv Hok Hst.
  { exists [], s. rewrite app_nil_r. by split_and!. }
  apply Forall_app in Hok as [Hok [Hb _]%Forall_cons].
  apply Forall_app in Hst as [Hst [Hbst _]%Forall_cons].
  rewrite fmap_app, reverse_app. cbn [fmap list_fmap reverse rev_append app load_parents].
  destruct (store_get_stored s b Hinv Hb Hbst) as (b' & s1 & -> & Hl & Hinv1 & Hv1). cbn.
  destruct (IH s1 (b' :: acc) (ch ++ reverse (Block_children b'))) as (bs' & s' & -> & Hbs & ? & Hv);
    [done|done|unfold stored; by rewrite Hv1|].
  exists (bs' ++ [b']), s'. split_and!; [|by apply Forall2_app; [|constructor]|done|congruence].
  rewrite <- !app_assoc. do 4 f_equal.
  rewrite fmap_app, concat_app, reverse_app. simpl.
  by rewrite app_nil_r, (same_children b b') by apply Hl.
Qed.

(** From the root down to [nodes], a level a turn. *)
Lemma load_tree_levels nodes tree :
  tree_over nodes tree → ∃ root h, last tree = Some root ∧ (h <= length tree)%nat ∧
  ∀ f s, store_inv s → Forall id_ok tree.*1 → Forall (stored s) tree.*1 →
  ∃ tree' s', load_tree (h + f) [Block_id root.1] s [] []
              = load_tree f (reverse (Block_id <$> nodes.*1)) s' tree' [] ∧
              Forall2 loaded tree.*1 tree' ∧ store_inv s' ∧ store_view s' = store_view s.
Proof.
  induction 1 as [nodes r Hne [_ Hch]|gs ps tree Hne Hps Ht (root & h & Hlast & Hh & IH)].
  - exists r, 1%nat. split_and!; [done|done|]. intros f s Hinv Hok Hst.
    destruct (load_parents_spec [r.1] s [] [] [] Hinv Hok Hst)
      as (bs' & s' & Hl & Hbs & ? & Hv). exists bs', s'.
    split_and!; [|done|done|done]. change (reverse (Block_id <$> [r.1])) with [Block_id r.1] in Hl.
    cbn [load_tree Nat.add]. rewrite Hl. cbn [mbind outcome_bind fmap list_fmap concat].
    rewrite !app_nil_r, Hch. cbn [app].
    destruct (reverse (Block_id <$> nodes.*1)) as [|x l] eqn:Hx; [|done].
    apply (f_equal length) in Hx. rewrite length_reverse, !length_fmap in Hx.
    by destruct nodes.
  - exists root, (Datatypes.S h). split_and!.
    + by rewrite last_app, Hlast.
    + apply tree_over_nonempty in Ht as [? _].
      rewrite length_app. destruct ps; [done|simpl; lia].
    + intros f s Hinv Hok Hst. rewrite fmap_app, Forall_app in Hok, Hst.
      destruct (IH (Datatypes.S f) s Hinv) as (tree' & s1 & Hl & Htr & Hinv1 & Hv1);
        [apply Hok|apply Hst|].
      assert (Hch : concat (Block_children <$> ps.*1) = Block_id <$> (concat gs).*1).
      { clear -Hps. induction Hps as [|g n gs ps [_ Hg] _ IHp]; [done|].
        csimpl. by rewrite fmap_app, fmap_app, <- IHp, Hg. }
      destruct (load_parents_spec ps.*1 s1 tree' [] []) as (ps' & s' & Hlp & Hps' & ? & Hv);
        [done|apply Hok|unfold stored; rewrite Hv1; apply Hst|].
      exists (ps' ++ tree'), s'. split_and!; [|by rewrite fmap_app; apply Forall2_app|done|congruence].
      replace (Datatypes.S h + f)%nat with (h + Datatypes.S f)%nat by lia. rewrite Hl.
      cbn [load_tree]. rewrite Hlp. cbn [mbind outcome_bind]. rewrite Hch. cbn [app].
      destruct (reverse (Block_id <$> (concat gs).*1)) as [|x l] eqn:Hx; [|done].
      apply (f_equal length) in Hx. rewrite length_reverse, !length_fmap in Hx.
      by destruct (concat gs).
Qed.

(** The last level. *)
Lemma load_leaves leaves cs f acc s :
  Forall2 leaf_of leaves cs → Forall childless_leaf leaves →
  store_inv s → Forall id_ok leaves.*1 → Forall (stored s) leaves.*1 →
  ∃ bs' s', load_tree (Datatypes.S f) (reverse (Block_id <$> leaves.*1)) s acc []
            = Ret (bs' ++ acc, [], s') ∧
            Forall2 loaded leaves.*1 bs' ∧ store_inv s' ∧ store_view s' = store_view s.
Proof.
  intros Hl Hcl Hinv Hok Hst.
  destruct (load_parents_spec leaves.*1 s acc [] [] Hinv Hok Hst)
    as (bs' & s' & Hlp & Hbs & ? & ?).
  exists bs', s'. split_and!; [|done..]. cbn [load_tree]. rewrite Hlp.
  cbn [mbind outcome_bind].
  assert (Hch : concat (Block_children <$> leaves.*1) = []); [|by rewrite Hch].
  clear -Hl Hcl. induction Hl as [|n c l cs Hn _ IHl]; [done|].
  apply Forall_cons in Hcl as [Hc Hcl]. csimpl. rewrite (Hc c Hn). by apply IHl.
Qed.

(** The blocks of an object come back in order. *)
Lemma load_tree_sealed ns cs fuel s :
  nodes_repr ns cs → Forall childless_leaf ns → (length ns <= fuel)%nat →
  store_inv s → Forall id_ok ns.*1 → Forall (stored s) ns.*1 →
  ∃ root bs' s', last ns = Some root ∧
  load_tree fuel [Block_id root.1] s [] [] = Ret (bs', [], s') ∧
  Forall2 loaded ns.*1 bs' ∧ store_inv s' ∧ store_view s' = store_view s.
Proof.
  intros Hr Hcl Hf Hinv Hok Hst.
  destruct Hr as [n c Hn|leaves cs tree Hl Ht].
  - destruct fuel as [|fuel]; [simpl in Hf; lia|].
    destruct (load_leaves [n] [c] fuel [] s) as (bs' & s' & Hlt & ? & ? & ?);
      [by constructor|done..|]. exists n, bs', s'. rewrite app_nil_r in Hlt. done.
  - destruct (load_tree_levels _ _ Ht) as (root & h & Hlast & Hh & Hlev).
    rewrite length_app in Hf. apply tree_over_nonempty in Ht as [Hne _].
    assert (0 < length leaves)%nat by (destruct leaves; [done|simpl; lia]).
    rewrite fmap_app, Forall_app in Hok, Hst. apply Forall_app in Hcl as [Hcl _].
    destruct (Hlev (Datatypes.S (fuel - h - 1)) s) as (tree' & s1 & Hlt & Htr & Hinv1 & Hv1);
      [done|apply Hok|apply Hst|].
    replace (h + Datatypes.S (fuel - h - 1))%nat with fuel in Hlt by lia.
    destruct (load_leaves leaves cs (fuel - h - 1) tree' s1) as (bs' & s' & Hll & Hbs & ? & Hv);
      [done..|apply Hok|unfold stored; rewrite Hv1; apply Hst|].
    exists root, (bs' ++ tree'), s'. rewrite Hlt, Hll, last_app, Hlast.
    split_and!; [done|done|by rewrite fmap_app; apply Forall2_app|done|congruence].
Qed.

Lemma set_root_key_same bs bs' k :
  Forall2 same bs bs' → Forall2 same bs (set_root_key k bs').
Proof.
  intros Hs. unfold set_root_key. destruct k; [|done].
  apply Forall2_alter_r; [done|]. intros. by apply same_set_key.
Qed.

Lemma set_root_key_last bs b k :
  last bs = Some b → last (set_root_key (Some k) bs) = Some (Block_set_key (Some k) b).
Proof.
  unfold set_root_key. rewrite !last_lookup, length_alter.
  intros Hb. rewrite <- Nat.sub_1_r in *. by rewrite list_lookup_alter_eq, Hb.
Qed.

Lemma Forall2_last {A B} (R : A → B → Prop) l l' x :
  Forall2 R l l' → last l = Some x → ∃ y, last l' = Some y ∧ R x y.
Proof.
  intros Hl. rewrite !last_lookup, <- (Forall2_length _ _ _ Hl).
  intros Hx. by apply (Forall2_lookup_l _ _ _ _ _ Hl Hx).
Qed.

(** An object whose blocks are stored, down to where its dependencies are read. *)
Lemma Object_load_blocks o cs fuel s :
  object_sealed o cs → Forall id_ok (Object_blocks o) → store_inv s →
  Forall (stored s) (Object_blocks o) → (length (Object_blocks o) <= fuel)%nat →
  ∃ root k bs s', Object_root o = Ret root ∧ Block_key root = Some k ∧
  load_tree fuel [Block_id root] s [] [] = Ret (bs, [], s') ∧
  store_inv s' ∧ store_view s' = store_view s ∧
  (∃ b, last bs = Some b ∧ Block_deps b = Block_deps root) ∧
  ∀ deps, object_repr {| Object_blocks := set_root_key (Some k) bs; Object_deps := deps |} cs.
Proof.
  intros (ns & r & Hb & Hns & Hlast & Hk & Hcl) Hok Hinv Hst Hf. rewrite Hb in *.
  rewrite length_fmap in Hf.
  destruct (load_tree_sealed ns cs fuel s Hns Hcl Hf Hinv Hok Hst)
    as (root & bs & s' & Hroot & Hlt & Hbs & ? & ?). simplify_eq.
  assert (Hsame : Forall2 same ns.*1 bs) by (eapply Forall2_impl; [exact Hbs|by intros ?? [? _]]).
  assert (Hl1 : last ns.*1 = Some r.1) by (by rewrite fmap_last, Hlast).
  destruct (Forall2_last _ _ _ _ Hsame Hl1) as (b & Hbl & Hsb).
  exists r.1, r.2, bs, s'. split_and!; try done.
  - by eapply Object_root_repr.
  - exists b. split; [done|by apply same_deps].
  - intros deps. destruct (same_zip ns _ (set_root_key_same _ _ (Some r.2) Hsame))
      as (ns' & Hns' & Hs').
    destruct (Forall2_last _ _ _ _ Hs' Hlast) as (r' & Hr' & [Hk' _]).
    exists ns', r'. split_and!; [done|by eapply same_repr|done|].
    pose proof (set_root_key_last bs b r.2 Hbl) as Hl2.
    rewrite Hns', fmap_last, Hr' in Hl2. injection Hl2 as ->.
    by rewrite key_set_key, Hk'.
Qed.

(** ** Loading from any store *)

(** The stored block [i] names [j] as a child; [reach] is a path of such steps. *)
Definition child (v : gmap BlockId Block) (i j : BlockId) : Prop :=
  ∃ b, v !! i = Some b ∧ j ∈ Block_children b.
Definition reach (v : gmap BlockId Block) : BlockId → BlockId → Prop := rtc (child v).

(** What one level of the traversal finds and does not find. *)
Lemma load_parents_any ps s acc miss ch0 :
  store_inv s → ∃ bs ms ch s',
  load_parents ps s acc miss ch0 = Ret (bs ++ acc, miss ++ ms, ch0 ++ ch, s') ∧
  store_inv s' ∧ store_view s' = store_view s ∧
  (∀ i, i ∈ ms ↔ i ∈ ps ∧ store_view s !! i = None) ∧
  (∀ i, i ∈ Block_id <$> bs ↔ i ∈ ps ∧ is_Some (store_view s !! i)) ∧
  (∀ j, j ∈ ch ↔ ∃ i, i ∈ ps ∧ child (store_view s) i j) ∧ Forall (stored s) bs.
Proof.
  revert s acc miss ch0. induction ps as [|p ps IH]; intros s acc miss ch0 Hinv.
  { exists [], [], [], s. rewrite !app_nil_r.
    split_and!; [done..| | | |done]; intros i; rewrite ?fmap_nil, !elem_of_nil;
      [by split; [|intros [[] _]]..|].
    by split; [|intros (? & []%elem_of_nil & _)]. }
  cbn [load_parents]. destruct (store_get_returns s p Hinv) as [[r s1] Hget].
  destruct (store_get_spec s p r s1 Hinv Hget) as (Hinv1 & Hv1 & Hr). rewrite Hget. cbn.
  destruct (store_view s !! p) as [b|] eqn:Hp.
  - destruct Hr as (b' & -> & Hb' & Hok & _).
    destruct (IH s1 (b' :: acc) miss (ch0 ++ reverse (Block_children b')) Hinv1)
      as (bs & ms & ch & s' & -> & Hinv' & Hv' & Hms & Hbs & Hch & Hst).
    unfold stored in Hst. rewrite Hv1 in *.
    assert (Hid : Block_id b' = p).
    { destruct (store_view_skip s p b Hinv Hp) as [_ Hid].
      by rewrite Hok, <- Hid, <- Hb', get_id_skip. }
    assert (Hcb : Block_children b' = Block_children b) by (by rewrite <- Hb', children_skip).
    exists (bs ++ [b']), ms, (reverse (Block_children b') ++ ch), s'.
    rewrite <- !app_assoc. split_and!; [done|done|congruence|..].
    + intros i. rewrite Hms, elem_of_cons. naive_solver.
    + intros i. rewrite fmap_app, elem_of_app, Hbs, elem_of_cons.
      change (Block_id <$> [b']) with [Block_id b']. rewrite Hid, list_elem_of_singleton.
      naive_solver.
    + intros j. rewrite elem_of_app, Hch, elem_of_reverse, Hcb. unfold child. split.
      * intros [Hj|(i & ? & ?)]; [|exists i; split; [by right|done]].
        exists p. split; [left|]. by exists b.
      * intros (i & [->|Hi]%elem_of_cons & Hc); [|right; by exists i].
        left. destruct Hc as (b0 & ? & ?). by simplify_eq.
    + apply Forall_app. split; [done|]. constructor; [|done].
      unfold stored. by rewrite Hid, Hp, Hb'.
  - subst r. destruct (IH s1 acc (miss ++ [p]) ch0 Hinv1)
      as (bs & ms & ch & s' & -> & Hinv' & Hv' & Hms & Hbs & Hch & Hst).
    unfold stored in Hst. rewrite Hv1 in *.
    exists bs, (p :: ms), ch, s'. rewrite <- !app_assoc.
    split_and!; [done|done|congruence|..].
    + intros i. rewrite !elem_of_cons, Hms. naive_solver.
    + intros i. rewrite Hbs, elem_of_cons. split; [naive_solver|].
      intros [[->|?] [? ?]]; [congruence|]. naive_solver.
    + intros j. rewrite Hch. split.
      * intros (i & ? & ?). exists i. split; [by right|done].
      * intros (i & [->|Hi]%elem_of_cons & Hc); [|by exists i].
        destruct Hc as (b0 & ? & ?). congruence.
    + done.
Qed.

(** The traversal finds what is reachable and stored, and reports what is
    reachable and not stored. Children rank below their parents; fuel above the
    ranks it starts from is enough. *)
Lemma load_tree_any (rank : BlockId → nat) fuel ps s acc miss :
  store_inv s → (∀ i j, child (store_view s) i j → (rank j < rank i)%nat) →
  (∀ p, p ∈ ps → (rank p < fuel)%nat) → (0 < fuel)%nat → ∃ bs ms s',
  load_tree fuel ps s acc miss = Ret (bs ++ acc, miss ++ ms, s') ∧
  store_inv s' ∧ store_view s' = store_view s ∧
  (∀ i, i ∈ ms ↔ (∃ p, p ∈ ps ∧ reach (store_view s) p i) ∧ store_view s !! i = None) ∧
  (∀ i, i ∈ Block_id <$> bs ↔
        (∃ p, p ∈ ps ∧ reach (store_view s) p i) ∧ is_Some (store_view s !! i)) ∧
  Forall (stored s) bs.
Proof.
  revert ps s acc miss. induction fuel as [|fuel IH]; intros ps s acc miss Hinv Hrk Hps Hf; [lia|].
  cbn [load_tree].
  destruct (load_parents_any ps s acc miss [] Hinv)
    as (bs & ms & ch & s1 & -> & Hinv1 & Hv1 & Hms & Hbs & Hch & Hst). cbn [mbind outcome_bind app].
  assert (Hstep : ∀ i, (∃ p, p ∈ ps ∧ reach (store_view s) p i) ↔
                       i ∈ ps ∨ ∃ p, p ∈ ch ∧ reach (store_view s) p i).
  { intros i. split.
    - intros (p & Hp & Hr). apply rtc_inv in Hr as [->|(j & Hc & Hr)]; [by left|].
      right. exists j. split; [|done]. apply Hch. by exists p.
    - intros [Hi|(j & (p & Hp & Hc)%Hch & Hr)]; [by exists i; split; [|constructor]|].
      exists p. split; [done|by eapply rtc_l]. }
  destruct ch as [|c ch].
  { exists bs, ms, s1. split_and!; [done..| | |done]; intros i; rewrite ?Hms, ?Hbs, Hstep.
    - split; [naive_solver|]. intros [[?|(j & []%elem_of_nil & _)] ?]; done.
    - split; [naive_solver|]. intros [[?|(j & []%elem_of_nil & _)] ?]; done. }
  assert (Hlt : ∀ j, j ∈ c :: ch → (rank j < fuel)%nat).
  { intros j (p & Hp & Hc)%Hch. specialize (Hrk _ _ Hc). specialize (Hps _ Hp). lia. }
  destruct (IH (c :: ch) s1 (bs ++ acc) (miss ++ ms)) as (bs2 & ms2 & s2 & -> & Hinv2 & Hv2 & Hm2 & Hb2 & Hst2);
    [done|by rewrite Hv1|done|specialize (Hlt c ltac:(left)); lia|].
  unfold stored in Hst2. rewrite Hv1 in *. exists (bs2 ++ bs), (ms ++ ms2), s2. rewrite <- !app_assoc.
  split_and!; [done|done|done| | |by apply Forall_app];
    intros i; rewrite ?fmap_app, elem_of_app, Hstep.
  - rewrite Hms, Hm2. naive_solver.
  - rewrite Hbs, Hb2. naive_solver.
Qed.

(** [Object::load] once the tree is loaded. *)
Lemma Object_load_found fuel id key s bs s' b :
  load_tree fuel [id] s [] [] = Ret (bs, [], s') → last bs = Some b →
  Object_load (Datatypes.S fuel) id key s =
  match Block_deps b with
  | ObjectIdList deps =>
      Ret (Ok {| Object_blocks := set_root_key key bs; Object_deps := deps |}, s')
  | DepListRef r =>
      '(res, s) ← Object_load fuel (BlockRef_id r) (Some (BlockRef_key r)) s';
      match res with
      | Err e => Ret (Err e, s)
      | Ok obj =>
          content ← Object_content obj;
          match content with
          | Err e => Ret (Err e, s)
          | Ok (ObjectContent_DepList (DepList_V0 deps)) =>
              Ret (Ok {| Object_blocks := set_root_key key bs; Object_deps := deps |}, s)
          | Ok _ => Ret (Err ObjectParseError_InvalidDeps, s)
          end
      end
  end.
Proof.
  intros Hlt Hb. cbn [Object_load]. rewrite Hlt. cbn [mbind outcome_bind].
  rewrite Hb. reflexivity.
Qed.

Lemma Object_load_missing fuel id key s bs i ms s' :
  load_tree fuel [id] s [] [] = Ret (bs, i :: ms, s') →
  Object_load (Datatypes.S fuel) id key s
  = Ret (Err (ObjectParseError_MissingBlocks (i :: ms)), s').
Proof. intros Hlt. cbn [Object_load]. by rewrite Hlt. Qed.

(** An identifier that is not stored. *)
Lemma load_tree_absent fuel id s :
  store_inv s → store_view s !! id = None → ∃ s',
  load_tree (Datatypes.S fuel) [id] s [] [] = Ret ([], [id], s') ∧
  store_inv s' ∧ store_view s' = store_view s.
Proof.
  intros Hinv Hid. destruct (store_get_returns s id Hinv) as [[r s'] Hget].
  destruct (store_get_spec s id r s' Hinv Hget) as (Hinv' & Hv & Hr).
  rewrite Hid in Hr. subst r. exists s'. split_and!; [|done..].
  cbn [load_tree load_parents]. rewrite Hget. reflexivity.
Qed.

(** Ranks that go down from a stored block to its children, and to the list of
    dependencies it refers to. *)
Definition ranked (v : gmap BlockId Block) (rank : BlockId → nat) : Prop :=
  (∀ i j, child v i j → (rank j < rank i)%nat) ∧
  (∀ i b r, v !! i = Some b → Block_deps b = DepListRef r →
            (rank (BlockRef_id r) < rank i)%nat).

Lemma ranked_reach v rank i j : ranked v rank → reach v i j → (rank j <= rank i)%nat.
Proof. intros [Hc _]. induction 1 as [|i k j Hik _ IH]; [done|]. specialize (Hc _ _ Hik). lia. Qed.

(** [Object::load] returns, and what it reports as missing is what is reachable and
    not stored. *)
Lemma Object_load_returns rank fuel id key s :
  store_inv s → ranked (store_view s) rank → (rank id + 1 < fuel)%nat → ∃ r s',
  Object_load fuel id key s = Ret (r, s') ∧ store_inv s' ∧ store_view s' = store_view s ∧
  ((∃ i, reach (store_view s) id i ∧ store_view s !! i = None) →
   ∃ ms, r = Err (ObjectParseError_MissingBlocks ms) ∧
         ∀ i, i ∈ ms ↔ reach (store_view s) id i ∧ store_view s !! i = None) ∧
  (∀ o, r = Ok o → Object_blocks o ≠ []).
Proof.
  revert id key s. induction fuel as [|fuel IH]; intros id key s Hinv Hrk Hf; [lia|].
  destruct (load_tree_any rank fuel [id] s [] [] Hinv)
    as (bs & ms & s1 & Hlt & Hinv1 & Hv1 & Hms & Hbs & Hst);
    [apply Hrk|intros p ->%list_elem_of_singleton; lia|lia|].
  rewrite app_nil_r, app_nil_l in Hlt.
  assert (Hid : ∀ i, (∃ p, p ∈ [id] ∧ reach (store_view s) p i) ↔ reach (store_view s) id i).
  { intros i. split; [by intros (p & ->%list_elem_of_singleton & ?)|].
    intros. exists id. by rewrite list_elem_of_singleton. }
  setoid_rewrite Hid in Hms. setoid_rewrite Hid in Hbs. clear Hid.
  destruct ms as [|m ms].
  2: { rewrite (Object_load_missing _ _ _ _ _ _ _ _ Hlt). eexists _, s1.
       split_and!; [done..| |done]. intros _. by exists (m :: ms). }
  assert (Hno : ¬ ∃ i, reach (store_view s) id i ∧ store_view s !! i = None).
  { intros (i & Hi). by apply Hms, elem_of_nil in Hi. }
  destruct (last bs) as [b|] eqn:Hb.
  2: { apply last_None in Hb as ->. destruct (store_view s !! id) eqn:Hsid.
       - assert (Hin : id ∈ Block_id <$> []) by (apply Hbs; split; [constructor|by eexists]).
         by apply elem_of_nil in Hin.
       - destruct Hno. exists id. split; [constructor|done]. }
  rewrite (Object_load_found _ _ _ _ _ _ _ Hlt Hb).
  assert (Hbin : b ∈ bs) by (by apply last_Some_elem_of).
  assert (Hne : set_root_key key bs ≠ []).
  { intros Hnil%(f_equal length). destruct key; simpl in Hnil; rewrite ?length_alter in Hnil;
      destruct bs; by try apply elem_of_nil in Hbin. }
  destruct (Block_deps b) as [deps|r] eqn:Hd.
  { eexists _, s1. split_and!; [done..|]. by intros o [= <-]. }
  assert (Hr : (rank (BlockRef_id r) < rank id)%nat).
  { rewrite Forall_forall in Hst. pose proof (Hst b Hbin) as Hsb. unfold stored in Hsb.
    pose proof (proj2 Hrk _ _ r Hsb) as Hlt'. rewrite deps_skip in Hlt'.
    specialize (Hlt' Hd). destruct (proj1 (Hbs (Block_id b))) as [Hreach _];
      [by apply list_elem_of_fmap_2|]. pose proof (ranked_reach _ _ _ _ Hrk Hreach). lia. }
  destruct (IH (BlockRef_id r) (Some (BlockRef_key r)) s1) as (res & s2 & -> & Hinv2 & Hv2 & _ & Hob);
    [done|by rewrite Hv1|lia|]. cbn [mbind outcome_bind]. rewrite Hv1 in Hv2.
  destruct res as [obj|e]; [|by eexists _, s2; split_and!].
  destruct (Object_content_returns obj (Hob obj eq_refl)) as [[c|e] ->]; cbn [mbind outcome_bind];
    [|by eexists _, s2; split_and!].
  destruct c as [| | |[deps]]; eexists _, s2; split_and!; try done. by intros o [= <-].
Qed.

(** ** Used by the properties *)

Lemma save_blocks_stored o s :
  collision_free (Object_blocks o) → Forall id_ok (Object_blocks o) → store_inv s →
  ∃ s1, Object_save o s = Ret (Ok tt, s1) ∧ store_inv s1 ∧
        store_view s1 = blocks_map (Object_blocks o) ∪ store_view s ∧
        Forall (stored s1) (Object_blocks o).
Proof.
  intros Hcf Hok Hinv.
  destruct (save_blocks_spec (Object_blocks o) ∅ s) as (s1 & Hs & Hinv1 & Hv); [done..|].
  exists s1. split_and!; [done..|]. apply Forall_forall. intros b Hb. unfold stored. rewrite Hv.
  apply lookup_union_Some_l. by apply blocks_map_lookup.
Qed.

Lemma sealed_reference o cs :
  object_sealed o cs → ∃ root k, Object_root o = Ret root ∧ Block_key root = Some k ∧
  Object_reference o = Ret (Some {| BlockRef_id := Block_id root; BlockRef_key := k |}).
Proof.
  intros (ns & r & Hb & _ & Hl & Hk & _).
  pose proof (Object_root_repr o ns r Hb Hl) as Hroot. exists r.1, r.2. split_and!; [done..|].
  unfold Object_reference, Object_key, Object_id. rewrite Hroot. cbn. by rewrite Hk.
Qed.

Context `{!CryptoLaws, !SerdeLaws BlockContentV0, !SerdeLaws ObjectContent}.
Context `{!SerdeTagged ObjectContent}.

(** An object that [Object::new] has made. *)
Lemma new_sealed content deps expiry bs pk sk o :
  (bs + HEADER < usize_max)%N → Object_new content deps expiry bs pk sk = Ret o →
  ∃ cs root, object_sealed o cs ∧ concat cs = to_vec content ∧
  Forall id_ok (Object_blocks o) ∧ Object_deps o = deps ∧ Object_root o = Ret root ∧
  if (len deps <=? 8)%N then Block_deps root = ObjectIdList deps
  else ∃ od r, Object_new (ObjectContent_DepList (DepList_V0 deps)) [] None
                 (valid_size bs) pk sk = Ret od ∧
               Object_reference od = Ret (Some r) ∧ Block_deps root = DepListRef r.
Proof.
  intros Hbs Hnew. destruct (Object_new_spec content deps expiry bs pk sk Hbs)
    as (o' & d & Ho & (cs & Hr & Hcs & Hdo & Hb & root & Hroot & Hd) & Hmk).
  rewrite Hnew in Ho. injection Ho as <-. subst d.
  destruct (make_deps_spec deps bs pk sk) as (d & Hmk' & Hdd). rewrite Hmk in Hmk'.
  injection Hmk' as <-. exists cs, root. split_and!; [done|done| |done|done|done].
  eapply Forall_impl; [exact Hb|]. by intros b [_ ?].
Qed.

(** Saving a new object, then loading it. *)
Lemma new_save_load content deps expiry bs pk sk o s :
  (bs + HEADER < usize_max)%N → (len deps <= 8)%N → store_inv s →
  Object_new content deps expiry bs pk sk = Ret o → collision_free (Object_blocks o) →
  ∃ r s1, Object_reference o = Ret (Some r) ∧ Object_save o s = Ret (Ok tt, s1) ∧
  store_inv s1 ∧ ∀ fuel, (length (Object_blocks o) < fuel)%nat → ∃ o' s2,
    Object_load fuel (BlockRef_id r) (Some (BlockRef_key r)) s1 = Ret (Ok o', s2) ∧
    Object_content o' = Ret (Ok (serde_skip content)) ∧ Object_deps o' = deps ∧
    store_inv s2 ∧ store_view s2 = store_view s1.
Proof.
  intros Hbs Hdeps Hinv Hnew Hcf.
  destruct (new_sealed content deps expiry bs pk sk o Hbs Hnew)
    as (cs & root & Hseal & Hcs & Hok & _ & Hroot & Hd).
  destruct (save_blocks_stored o s Hcf Hok Hinv) as (s1 & Hsave & Hinv1 & _ & Hst).
  destruct (sealed_reference o cs Hseal) as (root' & k & Hroot' & Hk & Href).
  assert (root' = root) as -> by congruence.
  eexists _, s1. split_and!; [exact Href|done|done|]. intros [|fuel] Hf; [lia|].
  cbn [BlockRef_id BlockRef_key].
  destruct (Object_load_blocks o cs fuel s1 Hseal Hok Hinv1 Hst)
    as (root' & k' & bs' & s2 & Hr' & Hk' & Hlt & Hinv2 & Hv2 & (b & Hb & Hdb) & Hrep); [lia|].
  assert (root' = root) as -> by congruence. assert (k' = k) as -> by congruence.
  rewrite (Object_load_found fuel _ (Some k) s1 bs' s2 b Hlt Hb), Hdb.
  rewrite (proj2 (N.leb_le _ _) Hdeps) in Hd. rewrite Hd.
  eexists _, s2. split_and!; [done| |done|done|done].
  rewrite (Object_content_holds _ cs (object_repr_holds _ _ (Hrep _))), Hcs.
  by rewrite from_slice_to_vec.
Qed.
End ObjectStore.
