(* ===== verification/ObjectStoreProps.v ===== *)
(** * Properties of saving and loading

    The theorems about [Object::save] and [Object::load] over any store that
    satisfies the contract of [Store], with examples over the [HashMap] store. *)

From S2P Require Import Prelude Serde Types Bare BareTypes Block Store Object.
From S2P Require Import ObjectTree ObjectStore ObjectProps.

Section Props.
Context `{!Crypto, !CryptoLaws}.
Context `{!Serde Block, !Serde BlockContentV0, !Serde ObjectContent}.
Context `{!SerdeLaws Block, !SerdeLaws BlockContentV0, !SerdeLaws ObjectContent}.
Context `{!SerdeTagged ObjectContent}.
Context {S : Type} `{!RepoStore S, !RepoStoreSpec S, !RepoStoreTotal S}.

(** C2: saving an object with at most eight dependencies and loading it by its
    reference gives back its content and its dependencies, whatever else the store
    holds and however many blocks the object has, and loading does not change the
    store. No two different blocks of the object may have the same hash. *)
Theorem Object_save_load content deps expiry bs pk sk o s :
  (bs + HEADER < usize_max)%N → (len deps <= 8)%N → store_inv s →
  Object_new content deps expiry bs pk sk = Ret o → collision_free (Object_blocks o) →
  ∃ r s1, Object_reference o = Ret (Some r) ∧ Object_save o s = Ret (Ok tt, s1) ∧
  ∀ fuel, (length (Object_blocks o) < fuel)%nat → ∃ o' s2,
    Object_load fuel (BlockRef_id r) (Some (BlockRef_key r)) s1 = Ret (Ok o', s2) ∧
    Object_content o' = Ret (Ok (serde_skip content)) ∧ Object_deps o' = deps ∧
    store_inv s2 ∧ store_view s2 = store_view s1.
Proof.
  intros Hbs Hdeps Hinv Hnew Hcf.
  destruct (new_save_load content deps expiry bs pk sk o s Hbs Hdeps Hinv Hnew Hcf)
    as (r & s1 & Hr & Hs & _ & Hl). by exists r, s1.
Qed.

(** Saving stores every block of the object under its hash and changes nothing
    else in the store; saving the same object again leaves the store as it is. *)
Theorem Object_save_view o s :
  store_inv s → Forall id_ok (Object_blocks o) → collision_free (Object_blocks o) →
  ∃ s1 s2, Object_save o s = Ret (Ok tt, s1) ∧
           store_view s1 = blocks_map (Object_blocks o) ∪ store_view s ∧
           (∀ b, b ∈ Object_blocks o → store_view s1 !! Block_get_id b = Some (serde_skip b)) ∧
           Object_save o s1 = Ret (Ok tt, s2) ∧ store_view s2 = store_view s1.
Proof.
  intros Hinv Hok Hcf.
  destruct (save_blocks_stored o s Hcf Hok Hinv) as (s1 & Hs1 & Hinv1 & Hv1 & Hst).
  destruct (save_blocks_stored o s1 Hcf Hok Hinv1) as (s2 & Hs2 & _ & Hv2 & _).
  exists s1, s2. split_and!; [done..| |done|].
  - intros b Hb. rewrite Forall_forall in Hok, Hst. rewrite <- (Hok b Hb). by apply Hst.
  - by rewrite Hv2, Hv1, (assoc_L (∪)), (idemp_L (∪)).
Qed.

(** C40: more than eight dependencies do not survive. The root refers to an object that
    holds them, which saving does not store: unless the store has it already, loading
    fails and reports the identifier of the dependency list as missing. *)
Theorem Object_load_deplist_missing content deps expiry bs pk sk o s :
  (bs + HEADER < usize_max)%N → (8 < len deps)%N → store_inv s →
  Object_new content deps expiry bs pk sk = Ret o → collision_free (Object_blocks o) →
  ∃ od rd r s1,
    Object_new (ObjectContent_DepList (DepList_V0 deps)) [] None (valid_size bs) pk sk = Ret od ∧
    Object_reference od = Ret (Some rd) ∧
    Object_reference o = Ret (Some r) ∧ Object_save o s = Ret (Ok tt, s1) ∧
    (store_view s1 !! BlockRef_id rd = None →
     ∀ fuel, (length (Object_blocks o) + 1 < fuel)%nat → ∃ s2,
     Object_load fuel (BlockRef_id r) (Some (BlockRef_key r)) s1
     = Ret (Err (ObjectParseError_MissingBlocks [BlockRef_id rd]), s2)).
Proof.
  intros Hbs Hdeps Hinv Hnew Hcf.
  destruct (new_sealed content deps expiry bs pk sk o Hbs Hnew)
    as (cs & root & Hseal & _ & Hok & _ & Hroot & Hd).
  rewrite (proj2 (N.leb_gt _ _) Hdeps) in Hd. destruct Hd as (od & rd & Hod & Hrd & Hd).
  destruct (save_blocks_stored o s Hcf Hok Hinv) as (s1 & Hsave & Hinv1 & _ & Hst).
  destruct (sealed_reference o cs Hseal) as (root' & k & Hroot' & Hk & Href).
  assert (root' = root) as -> by congruence.
  eexists od, rd, _, s1. split_and!; [done|done|exact Href|done|]. intros Habs [|fuel] Hf; [lia|].
  cbn [BlockRef_id BlockRef_key].
  destruct (Object_load_blocks o cs fuel s1 Hseal Hok Hinv1 Hst)
    as (root' & k' & bs' & s2 & Hr' & Hk' & Hlt & Hinv2 & Hv2 & (b & Hb & Hdb) & _); [lia|].
  assert (root' = root) as -> by congruence.
  rewrite (Object_load_found fuel _ (Some k) s1 bs' s2 b Hlt Hb), Hdb, Hd.
  assert (Hpos : (0 < length (Object_blocks o))%nat).
  { unfold Object_root in Hroot. destruct (Object_blocks o); [done|simpl; lia]. }
  destruct fuel as [|[|fuel]]; [lia|lia|].
  destruct (load_tree_absent fuel (BlockRef_id rd) s2) as (s3 & Hl3 & _); [done|by rewrite Hv2|].
  rewrite (Object_load_missing _ _ _ _ _ _ _ _ Hl3). by eexists.
Qed.

(** C24: [Object::load] returns on any store whose blocks form no cycle, whatever the
    blocks hold: with fuel above the rank of the root, neither a panic nor an endless
    loop, and the store unchanged. When blocks reachable from the root are not in the
    store, it fails and names exactly those. *)
Theorem Object_load_total rank fuel id key s :
  store_inv s → ranked (store_view s) rank → (rank id + 1 < fuel)%nat → ∃ r s',
  Object_load fuel id key s = Ret (r, s') ∧ store_view s' = store_view s ∧
  ((∃ i, reach (store_view s) id i ∧ store_view s !! i = None) →
   ∃ ms, r = Err (ObjectParseError_MissingBlocks ms) ∧
         ∀ i, i ∈ ms ↔ reach (store_view s) id i ∧ store_view s !! i = None).
Proof.
  intros Hinv Hrk Hf.
  destruct (Object_load_returns rank fuel id key s Hinv Hrk Hf) as (r & s' & ? & _ & ? & ? & _).
  by exists r, s'.
Qed.
End Props.

(** ** Examples *)

Module Examples.
Import BareTypes.Instances ObjectProps.Examples.

#[export] Instance size_of_block : SizeOfBlock := 168%N.

Definition collision_free_b (l : list (BlockId * Block)) : bool :=
  forallb (λ x, forallb (λ y, if bool_decide (x.1 = y.1) then bool_decide (x.2 = y.2) else true)
                  l) l.
Lemma collision_free_dec bs :
  collision_free_b ((λ b, (Block_id b, serde_skip b)) <$> bs) = true → collision_free bs.
Proof.
  unfold collision_free_b. rewrite forallb_forall. intros Hall b1 b2 H1 H2 Heq.
  assert (Hin : ∀ b, b ∈ bs → In (Block_id b, serde_skip b) ((λ b, (Block_id b, serde_skip b)) <$> bs))
    by (intros b Hb; apply list_elem_of_In, (list_elem_of_fmap_2 (λ b, (Block_id b, serde_skip b))); done).
  specialize (Hall _ (Hin _ H1)). rewrite forallb_forall in Hall.
  specialize (Hall _ (Hin _ H2)). simpl in Hall.
  rewrite bool_decide_true in Hall by done. by apply bool_decide_eq_true in Hall.
Qed.

Lemma Object_save_load_witness :
  length (Object_blocks file_object) = 3%nat ∧
  ∃ r s1, Object_reference file_object = Ret (Some r) ∧
          Object_save file_object HashMapRepoStore.new = Ret (Ok tt, s1) ∧
  ∀ fuel, (length (Object_blocks file_object) < fuel)%nat → ∃ o' s2,
    Object_load fuel (BlockRef_id r) (Some (BlockRef_key r)) s1 = Ret (Ok o', s2) ∧
    Object_content o' = Ret (Ok file) ∧ Object_deps o' = ids 3 ∧
    store_inv s2 ∧ store_view s2 = store_view s1.
Proof.
  split; [vm_compute; reflexivity|].
  apply (Object_save_load file (ids 3) (Some (uint_wrap 32 7)) 0 pk sk file_object).
  - reflexivity.
  - vm_compute. discriminate.
  - apply HashMapRepoStore_new_inv.
  - vm_compute. reflexivity.
  - apply collision_free_dec. vm_compute. reflexivity.
Defined.

Lemma Object_save_view_witness :
  ∃ s1 s2, Object_save file_object HashMapRepoStore.new = Ret (Ok tt, s1) ∧
           store_view s1 = blocks_map (Object_blocks file_object) ∪ store_view HashMapRepoStore.new ∧
           (∀ b, b ∈ Object_blocks file_object →
                 store_view s1 !! Block_get_id b = Some (serde_skip b)) ∧
           Object_save file_object s1 = Ret (Ok tt, s2) ∧ store_view s2 = store_view s1.
Proof.
  apply (Object_save_view file_object HashMapRepoStore.new).
  - apply HashMapRepoStore_new_inv.
  - apply (bool_decide_unpack _). vm_compute. done.
  - apply collision_free_dec. vm_compute. reflexivity.
Defined.

(** A small file with ten dependencies. *)
Definition small : ObjectContent := ObjectContent_File (File_V0 {|
  FileV0_content_type := []; FileV0_metadata := []; FileV0_content := [x2a] |}).
Definition deps_object : Object :=
  out {| Object_blocks := []; Object_deps := [] |} (Object_new small (ids 10) None 0 pk sk).

Lemma Object_load_deplist_missing_witness :
  ∃ od rd r s1,
    Object_new (ObjectContent_DepList (DepList_V0 (ids 10))) [] None (valid_size 0) pk sk = Ret od ∧
    Object_reference od = Ret (Some rd) ∧ Object_reference deps_object = Ret (Some r) ∧
    Object_save deps_object HashMapRepoStore.new = Ret (Ok tt, s1) ∧
    (store_view s1 !! BlockRef_id rd = None →
     ∀ fuel, (length (Object_blocks deps_object) + 1 < fuel)%nat → ∃ s2,
     Object_load fuel (BlockRef_id r) (Some (BlockRef_key r)) s1
     = Ret (Err (ObjectParseError_MissingBlocks [BlockRef_id rd]), s2)).
Proof.
  apply (Object_load_deplist_missing small (ids 10) None 0 pk sk deps_object).
  - reflexivity.
  - reflexivity.
  - apply HashMapRepoStore_new_inv.
  - vm_compute. reflexivity.
  - apply collision_free_dec. vm_compute. reflexivity.
Defined.

(** On the store that saving leaves, the list is missing and loading fails. *)
Definition after_save : HashMapRepoStore :=
  (out (Ok tt, HashMapRepoStore.new) (Object_save deps_object HashMapRepoStore.new)).2.
Definition deps_ref : option BlockRef := out None (Object_reference deps_object).
Example deps_object_lost :
  match deps_ref with
  | Some r => match Object_load 5 (BlockRef_id r) (Some (BlockRef_key r)) after_save with
              | Ret (Err (ObjectParseError_MissingBlocks [_]), _) => true
              | _ => false
              end
  | None => false
  end = true.
Proof. vm_compute. reflexivity. Qed.

(** A store that has the root of the object and neither of its leaves. *)
Definition root_block : Block :=
  default (Block_new [] (ObjectIdList []) None [] None) (last (Object_blocks file_object)).
Definition root_id : BlockId := Block_id root_block.
Definition root_only : HashMapRepoStore :=
  {| HashMapRepoStore_blocks := {[root_id := Block_set_key None root_block]} |}.
Definition root_rank (i : BlockId) : nat := if decide (i = root_id) then 1 else 0.

Lemma root_only_view : store_view root_only = {[root_id := serde_skip root_block]}.
Proof.
  change (serde_skip <$> {[root_id := Block_set_key None root_block]}
          = ({[root_id := serde_skip root_block]} : gmap BlockId Block)).
  by rewrite map_fmap_singleton, skip_set_key.
Qed.
Lemma root_only_inv : store_inv root_only.
Proof.
  apply map_Forall_singleton. split_and!; [|done|done].
  apply (bool_decide_unpack _). vm_compute. done.
Qed.
Lemma root_only_ranked : ranked (store_view root_only) root_rank.
Proof.
  rewrite root_only_view. split.
  - intros i j (b & [<- <-]%lookup_singleton_Some & Hj). rewrite children_skip in Hj.
    unfold root_rank. rewrite (decide_True _ _ eq_refl), decide_False; [lia|].
    assert (Hall : Forall (λ j, j ≠ root_id) (Block_children root_block))
      by (apply (bool_decide_unpack _); vm_compute; done).
    by apply (proj1 (Forall_forall _ _) Hall).
  - intros i b r [<- <-]%lookup_singleton_Some. rewrite deps_skip.
    assert (Hd : match Block_deps root_block with DepListRef _ => False | _ => True end)
      by (vm_compute; done).
    revert Hd. generalize (Block_deps root_block). by intros ? ? ->.
Qed.

Lemma Object_load_total_witness :
  ∃ r s', Object_load 3 root_id None root_only = Ret (r, s') ∧
          store_view s' = store_view root_only ∧
  ((∃ i, reach (store_view root_only) root_id i ∧ store_view root_only !! i = None) →
   ∃ ms, r = Err (ObjectParseError_MissingBlocks ms) ∧
         ∀ i, i ∈ ms ↔ reach (store_view root_only) root_id i ∧
                       store_view root_only !! i = None).
Proof.
  apply (Object_load_total root_rank 3 root_id None root_only).
  - apply root_only_inv.
  - apply root_only_ranked.
  - vm_compute. apply Nat.le_refl.
Defined.
Example root_only_missing :
  match Object_load 3 root_id None root_only with
  | Ret (Err (ObjectParseError_MissingBlocks ms), _) => length ms
  | _ => 0%nat
  end = 2%nat.
Proof. vm_compute. reflexivity. Qed.
End Examples.
