(* ===== verification/ObjectSize.v ===== *)
(** * Sizes of serialized blocks

    [Object::new] takes the size of a storage value and promises blocks that fit
    in it. The constants of [object.rs] account for the BARE encoding byte by
    byte; this file states the sizes of that encoding and proves the promise. *)

From S2P Require Import Prelude Serde Types Bare BareTypes Block Store Object.
From S2P Require Import ObjectTree ObjectProps.

(** The length of a BARE varint: a byte for each seven bits. *)
Definition varint_len (n : N) : N := N.max 1 ((N.size n + 6) / 7).

Lemma varint_len_le k n : (1 <= k)%N → (n < 2 ^ (7 * k))%N → (varint_len n <= k)%N.
Proof.
  intros Hk Hn. unfold varint_len. apply N.max_lub; [done|].
  assert (Hs : (N.size n <= 7 * k)%N).
  { destruct (N.eq_dec n 0%N) as [->|Hz]; [simpl; lia|]. rewrite N.size_log2 by done.
    apply N.le_succ_l, N.log2_lt_pow2; [lia|done]. }
  apply N.lt_succ_r. apply N.Div0.div_lt_upper_bound. lia.
Qed.

(** An enum has its tag in one byte, an identifier or a key 33 bytes, an
    [Option<u32>] one byte or five. *)
Definition deps_size (d : ObjectDeps) : N :=
  match d with
  | ObjectIdList ids => 1 + varint_len (len ids) + 33 * len ids
  | DepListRef _ => 67
  end.
Definition expiry_size (e : option Timestamp) : N := if e is Some _ then 5 else 1.

(** Documented sizes of the BARE encoding, at the two types of a block. *)
Class SerdeSizes `{!Serde Block, !Serde BlockContentV0} : Prop := {
  block_size b : len (to_vec (A := Block) b) =
    (1 + varint_len (len (Block_children b)) + 33 * len (Block_children b)
     + deps_size (Block_deps b) + expiry_size (Block_expiry b)
     + varint_len (len (Block_content b)) + len (Block_content b))%N;
  internal_size keys : len (to_vec (BlockContentV0_InternalNode keys)) =
    (1 + varint_len (len keys) + 33 * len keys)%N;
  chunk_size c : len (to_vec (BlockContentV0_DataChunk c)) =
    (1 + varint_len (len c) + len c)%N
}.

Section Size.
Context `{!Crypto, !CryptoLaws}.
Context `{!Serde Block, !Serde BlockContentV0, !Serde ObjectContent}.
Context `{!SerdeSizes}.

(** Value sizes stay below [2 ^ 21]: a varint of a length takes three bytes at most. *)
Lemma varint_len_3 n : (n < 2097152)%N → (varint_len n <= 3)%N.
Proof. intros. by apply varint_len_le. Qed.

Lemma make_block_size content ck ch d e :
  len (to_vec (make_block content ck ch d e)) =
  (1 + varint_len (len ch) + 33 * len ch + deps_size d + expiry_size e
   + varint_len (len content) + len content)%N.
Proof.
  rewrite block_size. unfold make_block, len; simpl. by rewrite chacha20_length.
Qed.

Lemma expiry_size_le e : (expiry_size e <= 5)%N.
Proof. by destruct e. Qed.

(** A leaf, or a root that holds the whole content. *)
Lemma leaf_size V chunk ck d e :
  (V <= store_max_value_size)%N →
  (EMPTY_BLOCK_SIZE + DATA_VARINT_EXTRA + (deps_size d - 2) + len chunk <= V)%N →
  (2 <= deps_size d)%N →
  (len (to_vec (make_block (to_vec (BlockContentV0_DataChunk chunk)) ck [] d e)) <= V)%N.
Proof.
  intros HV Hsz Hd. rewrite make_block_size, chunk_size. change (len []) with 0%N.
  change (store_max_value_size) with 2097128%N in HV.
  change EMPTY_BLOCK_SIZE with 12%N in Hsz. change DATA_VARINT_EXTRA with 4%N in Hsz.
  change (varint_len 0) with 1%N. pose proof (expiry_size_le e).
  assert (Hv1 : (varint_len (len chunk) <= 3)%N) by (apply varint_len_3; lia).
  assert (Hv2 : (varint_len (1 + varint_len (len chunk) + len chunk) <= 3)%N)
    by (apply varint_len_3; lia).
  lia.
Qed.

(** An internal node with as many children as the arity allows. *)
Lemma internal_node_size V keys ck ch d e :
  (V <= store_max_value_size)%N → len keys = len ch → (len ch * 66 + 282 <= V)%N →
  (deps_size d <= 266)%N →
  (len (to_vec (make_block (to_vec (BlockContentV0_InternalNode keys)) ck ch d e)) <= V)%N.
Proof.
  intros HV Hk Hsz Hd. rewrite make_block_size, internal_size, Hk.
  change (store_max_value_size) with 2097128%N in HV. pose proof (expiry_size_le e).
  assert (Hv1 : (varint_len (len ch) <= 3)%N) by (apply varint_len_3; lia).
  assert (Hv2 : (varint_len (1 + varint_len (len ch) + 33 * len ch) <= 3)%N)
    by (apply varint_len_3; lia).
  lia.
Qed.

(** ** The blocks [make_tree] makes *)

Definition internal_of (ck : array 32) (rd : ObjectDeps) (e : option Timestamp)
    (arity : N) (b : Block) : Prop :=
  ∃ keys ch d, b = make_block (to_vec (BlockContentV0_InternalNode keys)) ck ch d e ∧
               len keys = len ch ∧ (len ch <= arity)%N ∧ (d = rd ∨ d = ObjectIdList []).

Lemma mapM_outcome_length {A B} (f : A → outcome B) l k :
  mapM f l = Ret k → length k = length l.
Proof.
  revert k. induction l as [|x l IH]; intros k; [by intros [= <-]|].
  cbn [mapM]. destruct (f x) as [y| |]; cbn; try done.
  change (mapM f l ≫= (λ k0, mret (y :: k0)) = Ret k → length k = Datatypes.S (length l)).
  destruct (mapM f l) as [k'| |]; cbn; try done.
  intros [= <-]. simpl. f_equal. by apply IH.
Qed.

Lemma make_parents_internal chunks ck rd e acc arity ps :
  make_parents chunks ck rd e acc = Ret ps →
  Forall (λ c : list Block, (length c <= N.to_nat arity)%nat) chunks →
  Forall (internal_of ck rd e arity) acc → Forall (internal_of ck rd e arity) ps.
Proof.
  intros Hps Hch. revert acc Hps.
  induction Hch as [|nodes chunks Hn _ IH]; intros acc; cbn [make_parents].
  { by intros [= <-]. }
  destruct (mapM _ nodes) as [keys| |] eqn:Hk; cbn; try done.
  apply mapM_outcome_length in Hk. intros Hps Hacc. eapply IH; [exact Hps|].
  apply Forall_app. split; [done|]. constructor; [|done].
  eexists keys, (Block_id <$> nodes), _. split_and!; [reflexivity|..].
  - unfold len. by rewrite length_fmap, Hk.
  - unfold len. rewrite length_fmap. lia.
  - destruct acc, chunks; auto.
Qed.

Lemma make_tree_internal fuel leaves ck rd e arity ts :
  make_tree fuel leaves ck rd e arity = Ret ts →
  Forall (internal_of ck rd e arity) ts.
Proof.
  revert leaves ts. induction fuel as [|fuel IH]; intros leaves ts; [done|].
  cbn [make_tree]. unfold slice_chunks.
  destruct (N.eqb_spec arity 0%N) as [|Ha]; cbn; [done|].
  destruct (make_parents _ _ _ _ _) as [ps| |] eqn:Hps; cbn; try done.
  assert (Hint : Forall (internal_of ck rd e arity) ps).
  { eapply make_parents_internal; [exact Hps| |done].
    eapply Forall_impl; [apply chunks_Forall; lia|]. by intros c [_ ?]. }
  destruct (1 <? len ps)%N; cbn; [|by intros [= <-]].
  destruct (make_tree fuel ps ck rd e arity) as [gs| |] eqn:Hgs; cbn; try done.
  intros [= <-]. apply Forall_app. split; [done|by eapply IH].
Qed.

(** ** The promise *)

Context `{!SerdeLaws Block, !SerdeLaws BlockContentV0}.
Context `{!SerdeLaws ObjectContent, !SerdeTagged ObjectContent}.

(** The dependencies of a root: at most eight are listed in it. *)
Lemma make_deps_size deps bs pk sk d :
  make_deps (Object_new_fuel 1) deps (valid_size bs) pk sk = Ret d →
  (2 <= deps_size d <= 266)%N ∧ (deps_size d <= 2 + 33 * len deps)%N.
Proof.
  destruct (make_deps_spec deps bs pk sk) as (d' & -> & Hd). intros [= ->].
  destruct (N.leb_spec (len deps) 8) as [Hle|Hgt].
  - subst d. cbn [deps_size].
    assert (Hv : varint_len (len deps) = 1%N).
    { apply N.le_antisymm; [apply varint_len_le; [done|change (2 ^ (7 * 1))%N with 128%N; lia]|].
      apply N.le_max_l. }
    rewrite Hv. lia.
  - destruct Hd as (? & r & _ & _ & ->). cbn [deps_size]. lia.
Qed.

Lemma Object_new_step_sizes fuel content deps expiry bs pk sk o :
  (bs + HEADER < usize_max)%N →
  (∀ d, make_deps (Object_new_fuel fuel) deps (valid_size bs) pk sk = Ret d →
        (2 <= deps_size d <= 266)%N ∧ (deps_size d <= 2 + 33 * len deps)%N) →
  Object_new_fuel (S fuel) content deps expiry bs pk sk = Ret o →
  Forall (λ b, (len (to_vec b) <= valid_size bs)%N) (Object_blocks o).
Proof.
  intros Hbs Hdeps. cbn [Object_new_fuel].
  rewrite (store_valid_value_size_eq bs Hbs). cbn [mbind outcome_bind].
  pose proof (valid_size_bounds bs) as [Hv HV]. unfold MIN_SIZE in Hv.
  rewrite usize_sub_ok by (unfold EMPTY_BLOCK_SIZE; lia). cbn [mbind outcome_bind].
  rewrite usize_sub_ok by (unfold EMPTY_BLOCK_SIZE, DATA_VARINT_EXTRA; lia).
  cbn [mbind outcome_bind].
  destruct (make_deps _ _ _ _ _) as [d| |]; cbn [mbind outcome_bind]; try done.
  destruct (Hdeps d eq_refl) as [[Hd2 Hd] Hdl]. clear Hdeps.
  destruct (N.leb_spec (EMPTY_BLOCK_SIZE + DATA_VARINT_EXTRA + BLOCK_ID_SIZE * len deps
    + len (to_vec content)) (valid_size bs)) as [Hle|_].
  - intros [= <-]. cbn [Object_blocks]. constructor; [|done].
    apply leaf_size; [done| |done]. change BLOCK_ID_SIZE with 33%N in Hle. lia.
  - set (w := (valid_size bs - EMPTY_BLOCK_SIZE - DATA_VARINT_EXTRA)%N).
    assert (Hw : (0 < w)%N) by (unfold w, EMPTY_BLOCK_SIZE, DATA_VARINT_EXTRA; lia).
    rewrite slice_chunks_ok by lia. cbn [mbind outcome_bind].
    destruct (tree_arity_spec (valid_size bs)) as (a & -> & _ & Ha);
      [unfold MIN_SIZE; lia|]. cbn [mbind outcome_bind].
    destruct (make_tree _ _ _ _ _ _) as [ts| |] eqn:Hts; cbn [mbind outcome_bind]; try done.
    intros [= <-]. cbn [Object_blocks]. apply Forall_app. split.
    + apply Forall_fmap. eapply Forall_impl; [apply chunks_Forall; lia|].
      intros c [_ Hc]. apply leaf_size; [done| |done]. change (deps_size (ObjectIdList [])) with 2%N.
      unfold w, len, EMPTY_BLOCK_SIZE, DATA_VARINT_EXTRA in *. lia.
    + apply make_tree_internal in Hts. eapply Forall_impl; [exact Hts|].
      intros b (keys & ch & d' & -> & Hk & Hch & Hd'). apply internal_node_size; [done|done|lia|].
      destruct Hd' as [-> | ->]; [done|]. change (deps_size (ObjectIdList [])) with 2%N. lia.
Qed.

(** C19: every block of the object that [Object::new] builds, leaf, internal node or
    root, has a serialization no longer than the storage value size chosen for the
    block size asked for: the byte counts in the constants of the source and the
    arity computed from them are enough, for any content, any number of
    dependencies and any expiry. *)
Theorem Object_new_block_sizes content deps expiry bs pk sk o :
  (bs + HEADER < usize_max)%N → Object_new content deps expiry bs pk sk = Ret o →
  Forall (λ b, (len (to_vec b) <= valid_size bs)%N) (Object_blocks o).
Proof.
  intros Hbs Hnew. apply (Object_new_step_sizes 1 content deps expiry bs pk sk o Hbs);
    [|done]. intros d. apply make_deps_size.
Qed.
End Size.

(** ** The sizes hold of the BARE encoding *)

Lemma varint_len_small n : (n < 128)%N → varint_len n = 1%N.
Proof.
  intros Hn. apply N.le_antisymm; [|apply N.le_max_l]. by apply varint_len_le.
Qed.
Lemma varint_len_step n : (128 <= n)%N → varint_len n = (1 + varint_len (n / 128))%N.
Proof.
  intros Hn. unfold varint_len.
  assert (Hlog : (7 <= N.log2 n)%N) by (apply (N.log2_le_mono 128 n) in Hn; exact Hn).
  assert (Hdiv : (n / 128)%N ≠ 0%N).
  { assert (1 <= n / 128)%N by (apply N.div_le_lower_bound; lia). lia. }
  rewrite !N.size_log2 by lia.
  replace (n / 128)%N with (N.shiftr n 7) by apply N.shiftr_div_pow2.
  rewrite N.log2_shiftr. generalize dependent (N.log2 n). intros l Hl. clear -Hl.
  replace (N.succ l + 6)%N with (N.succ (l - 7) + 6 + 1 * 7)%N by lia.
  rewrite N.div_add by done.
  assert (1 <= (N.succ (l - 7) + 6) / 7)%N by (apply N.div_le_lower_bound; lia).
  rewrite !N.max_r by lia. lia.
Qed.
Lemma varint_enc_len fuel n :
  (n < 2 ^ N.of_nat fuel)%N → (0 < fuel)%nat → len (varint_enc fuel n) = varint_len n.
Proof.
  revert n. induction fuel as [|fuel IH]; intros n Hn Hf; [lia|].
  cbn [varint_enc]. destruct (N.ltb_spec n 128) as [Hlt|Hge].
  - by rewrite varint_len_small.
  - rewrite varint_len_step by done. rewrite Nat2N.inj_succ, N.pow_succ_r' in Hn.
    assert (0 < fuel)%nat by (destruct fuel; [change (N.of_nat 0) with 0%N in Hn; lia|lia]).
    rewrite <- IH; [|apply N.Div0.div_lt_upper_bound; lia|done].
    unfold len. cbn [length]. lia.
Qed.
Lemma len_varint n : len (varint n) = varint_len n.
Proof. apply varint_enc_len; [apply varint_fuel|lia]. Qed.

Lemma len_app {A} (l k : list A) : len (l ++ k) = (len l + len k)%N.
Proof. unfold len. rewrite length_app. lia. Qed.
Lemma len_cons {A} (x : A) l : len (x :: l) = (1 + len l)%N.
Proof. unfold len. cbn [length]. lia. Qed.

(** A list of items of 33 bytes. *)
Lemma list_len `{!Bare A} (l : list A) :
  (∀ a : A, len (bare_enc a) = 33%N) → len (bare_enc l) = (varint_len (len l) + 33 * len l)%N.
Proof.
  intros Ha. cbn [bare_enc list_bare]. rewrite len_app, len_varint. f_equal.
  induction l as [|a l IH]; [done|]. csimpl. rewrite len_app, Ha, IH, len_cons. lia.
Qed.
Lemma array_len_N {n} (a : array n) : len (array_list a) = N.of_nat n.
Proof. unfold len. by rewrite array_length. Qed.
Lemma digest_len (d : Digest) : len (bare_enc d) = 33%N.
Proof. destruct d as [a]. change (len (x00 :: array_list a) = 33%N). by rewrite len_cons, array_len_N. Qed.
Lemma symkey_len (d : SymKey) : len (bare_enc d) = 33%N.
Proof. destruct d as [a]. change (len (x00 :: array_list a) = 33%N). by rewrite len_cons, array_len_N. Qed.
Lemma data_len c : len (data_enc c) = (varint_len (len c) + len c)%N.
Proof. unfold data_enc. by rewrite len_app, len_varint. Qed.
Lemma deps_len d : len (bare_enc d) = deps_size d.
Proof.
  destruct d as [ids|[i k]].
  - change (len (x00 :: bare_enc ids) = deps_size (ObjectIdList ids)).
    rewrite len_cons, (list_len ids digest_len). cbn [deps_size]. lia.
  - change (len (x01 :: bare_enc i ++ bare_enc k) = 67%N).
    by rewrite len_cons, len_app, digest_len, symkey_len.
Qed.
Lemma expiry_len (e : option Timestamp) : len (bare_enc e) = expiry_size e.
Proof. by destruct e. Qed.

Module Instances.
Import BareTypes.Instances.
#[export] Instance bare_sizes : SerdeSizes.
Proof.
  split.
  - intros [[i k ch d e c]]. cbn [Block_children Block_deps Block_expiry Block_content
      BlockV0_children BlockV0_deps BlockV0_expiry BlockV0_content].
    match goal with |- len ?v = _ =>
      change v with (x00 :: ((bare_enc ch ++ bare_enc d) ++ bare_enc e) ++ data_enc c) end.
    rewrite len_cons, !len_app, data_len, expiry_len, deps_len, (list_len ch digest_len). lia.
  - intros keys. match goal with |- len ?v = _ => change v with (x00 :: bare_enc keys) end.
    rewrite len_cons, (list_len keys symkey_len). lia.
  - intros c. match goal with |- len ?v = _ => change v with (x01 :: data_enc c) end. rewrite len_cons, data_len. lia.
Qed.
End Instances.

(** ** Example *)

Module Examples.
Import BareTypes.Instances Instances ObjectProps.Examples.

Lemma Object_new_block_sizes_witness :
  map (λ b, len (to_vec b)) (Object_blocks file_object) = [4070; 965; 243]%N ∧
  Forall (λ b, (len (to_vec b) <= valid_size 0)%N) (Object_blocks file_object).
Proof.
  split; [vm_compute; reflexivity|].
  apply (Object_new_block_sizes file (ids 3) (Some (uint_wrap 32 7)) 0 pk sk file_object).
  - reflexivity.
  - vm_compute. reflexivity.
Defined.
End Examples.
