(* ===== verification/ObjectSim.v ===== *)
(** * Loading depends on the contents of a store only

    A finite map is itself a store, the reference one. Loading an object from any
    store gives the same object, up to the cached fields of its blocks, as loading
    it from the map the store stands for: what is built on [Object::load] can be
    reasoned about on the map. *)

From S2P Require Import Prelude Serde Types Block Store Object ObjectTree ObjectStore.

(** ** Related outcomes *)

Inductive osim {A B} (R : A → B → Prop) : outcome A → outcome B → Prop :=
  | osim_ret a b : R a b → osim R (Ret a) (Ret b)
  | osim_panic : osim R Panic Panic
  | osim_fuel : osim R OutOfFuel OutOfFuel.

Lemma osim_bind {A B A' B'} (R : A → B → Prop) (R' : A' → B' → Prop) m m' f f' :
  osim R m m' → (∀ a b, R a b → osim R' (f a) (f' b)) → osim R' (m ≫= f) (m' ≫= f').
Proof. intros [a b Hab| |] Hf; cbn; [by apply Hf|constructor..]. Qed.

Lemma osim_eq {A} (m : outcome A) : osim eq m m.
Proof. destruct m; by constructor. Qed.

Lemma osim_impl {A B} (R R' : A → B → Prop) m m' :
  osim R m m' → (∀ a b, R a b → R' a b) → osim R' m m'.
Proof. intros [] HR; constructor; auto. Qed.

Section Sim.
Context `{!Crypto} `{!Serde Block, !Serde BlockContentV0, !Serde ObjectContent}.
Context `{!SerdeLaws Block}.

(** ** The reference store *)

#[export] Instance map_store : RepoStore (gmap BlockId Block) := {
  store_get id m :=
    Ret (match m !! id with Some b => Ok b | None => Err StorageError_NotFound end, m);
  store_put b m := Ret (Ok (Block_id b), <[Block_id b := serde_skip b]> m);
  store_del id m :=
    Ret (match m !! id with Some b => Ok (b, 0%N) | None => Err StorageError_NotFound end,
         delete id m)
}.

(** ** Blocks and objects up to what is cached *)

Definition like (b b' : Block) : Prop := same b b' ∧ Block_key b' = Block_key b.
Definition object_like (o o' : Object) : Prop :=
  Forall2 like (Object_blocks o) (Object_blocks o') ∧ Object_deps o = Object_deps o'.
Definition result_like {A B E} (R : A → B → Prop) (r : result A E) (r' : result B E) : Prop :=
  match r, r' with
  | Ok a, Ok b => R a b
  | Err e, Err e' => e = e'
  | _, _ => False
  end.

Lemma like_set_key k b b' : like b b' → like (Block_set_key k b) (Block_set_key k b').
Proof.
  intros [(Hs & ? & ?) Hk]. split; [split_and!|by rewrite !key_set_key].
  - by rewrite !skip_set_key.
  - by apply id_ok_set_key.
  - by apply id_ok_set_key.
Qed.

Lemma collect_parents_like bs bs' ps i ch oc :
  Forall2 like bs bs' →
  collect_parents bs ps i ch None oc = collect_parents bs' ps i ch None oc.
Proof.
  intros Hbs. revert i ch oc. induction ps as [|[id [k]] ps IH]; intros i ch oc; [done|].
  cbn [collect_parents].
  destruct (bs !! i) as [b|] eqn:Hb.
  - destruct (Forall2_lookup_l _ _ _ _ _ Hbs Hb) as (b' & -> & [Hs _]).
    cbn [unwrap mbind outcome_bind].
    rewrite (same_id _ _ Hs), (same_content _ _ Hs), (same_children _ _ Hs).
    destruct (decide _); [done|]. destruct (from_slice _) as [[keys|c]|]; [|apply IH|done].
    destruct (negb _); [done|apply IH].
  - destruct (bs' !! i) as [b'|] eqn:Hb'; [|done].
    destruct (Forall2_lookup_r _ _ _ _ _ Hbs Hb') as (? & ? & _). congruence.
Qed.

Lemma collect_leaves_like fuel bs bs' ps i oc :
  Forall2 like bs bs' →
  collect_leaves fuel bs ps i None oc = collect_leaves fuel bs' ps i None oc.
Proof.
  intros Hbs. revert ps i oc. induction fuel as [|fuel IH]; intros ps i oc; [done|].
  cbn [collect_leaves]. rewrite <- (collect_parents_like bs bs') by done.
  destruct (collect_parents _ _ _ _ _ _) as [[[[ch lv] oc']|]| |] eqn:Hp; try done.
  cbn [try_bind]. destruct ch as [|x ch]; [done|]. destruct (_ <? _)%nat; [done|].
  pose proof Hp as (l & c & _ & _ & Hu)%collect_parents_uniform. rewrite Hu in Hp.
  injection Hp as <- <-. apply IH.
Qed.

Lemma root_like o o' :
  object_like o o' → osim like (Object_root o) (Object_root o').
Proof.
  intros [Hb _]. unfold Object_root. destruct (last (Object_blocks o)) as [b|] eqn:Hl.
  - destruct (Forall2_last _ _ _ _ Hb Hl) as (b' & -> & ?). by constructor.
  - apply last_None in Hl. rewrite Hl in Hb. apply Forall2_nil_inv_l in Hb as ->. constructor.
Qed.

Lemma content_like o o' : object_like o o' → Object_content o = Object_content o'.
Proof.
  intros Ho. pose proof (root_like o o' Ho) as Hr. destruct Ho as [Hb _].
  unfold Object_content, Object_key, Object_id. destruct Hr as [r r' [Hs Hk]| |]; [|done..].
  cbn. rewrite Hk. destruct (Block_key r) as [k|]; [|done]. cbn.
  rewrite (same_id _ _ Hs), <- (Forall2_length _ _ _ Hb).
  by rewrite (collect_leaves_like _ _ _ _ _ _ Hb).
Qed.

(** ** Loading *)

Context {S : Type} `{!RepoStore S, !RepoStoreSpec S, !RepoStoreTotal S}.

(** The store [s'] is [s] as far as a client can see. *)
Definition unchanged (s s' : S) : Prop := store_inv s' ∧ store_view s' = store_view s.
Lemma unchanged_refl s : store_inv s → unchanged s s.
Proof. done. Qed.

Lemma get_sim id s :
  store_inv s → ∃ r s', store_get id s = Ret (r, s') ∧ unchanged s s' ∧
  result_like like (match store_view s !! id with
                    | Some b => Ok b | None => Err StorageError_NotFound end) r.
Proof.
  intros Hinv. destruct (store_get_returns s id Hinv) as [[r s'] Hget]. exists r, s'.
  destruct (store_get_spec s id r s' Hinv Hget) as (? & ? & Hr). split_and!; [done|done|].
  destruct (store_view s !! id) as [b|] eqn:Hb; [|by subst r].
  destruct Hr as (b' & -> & Hs & Hok & Hk).
  destruct (store_view_skip s id b Hinv Hb) as [Hsk _].
  split; [split_and!|].
  - by rewrite Hs, Hsk.
  - rewrite <- Hsk. apply id_ok_skip.
  - done.
  - rewrite Hk, <- Hs. by destruct b'.
Qed.

Lemma load_parents_sim ps s acc acc' miss ch :
  store_inv s → Forall2 like acc acc' → ∃ bs bs' ms cs s',
  load_parents ps (store_view s) acc miss ch = Ret (bs, ms, cs, store_view s) ∧
  load_parents ps s acc' miss ch = Ret (bs', ms, cs, s') ∧
  Forall2 like bs bs' ∧ unchanged s s'.
Proof.
  revert s acc acc' miss ch. induction ps as [|p ps IH]; intros s acc acc' miss ch Hinv Hacc.
  { by exists acc, acc', miss, ch, s. }
  cbn [load_parents]. cbn [store_get map_store mbind outcome_bind].
  destruct (get_sim p s Hinv) as (r & s1 & -> & [Hinv1 Hv1] & Hr). cbn [mbind outcome_bind].
  destruct (store_view s !! p) as [b|]; destruct r as [b'|e]; try done; simpl in Hr.
  - destruct (IH s1 (b :: acc) (b' :: acc') miss (ch ++ reverse (Block_children b)))
      as (bs & bs' & ms & cs & s' & Hl & Hl' & Hb & [? Hv']); [done|by constructor|].
    rewrite Hv1 in *. exists bs, bs', ms, cs, s'. destruct Hr as [Hs _].
    rewrite (same_children _ _ Hs). split_and!; try done; congruence.
  - destruct (IH s1 acc acc' (miss ++ [p]) ch)
      as (bs & bs' & ms & cs & s' & Hl & Hl' & Hb & [? Hv']); [done..|].
    rewrite Hv1 in *. exists bs, bs', ms, cs, s'.
    split_and!; try done; congruence.
Qed.

Definition tree_sim (s : S) (x : list Block * list BlockId * gmap BlockId Block)
    (y : list Block * list BlockId * S) : Prop :=
  let '(bs, ms, v) := x in let '(bs', ms', s') := y in
  Forall2 like bs bs' ∧ ms = ms' ∧ v = store_view s ∧ unchanged s s'.

Lemma load_tree_sim fuel ps s acc acc' miss :
  store_inv s → Forall2 like acc acc' →
  osim (tree_sim s) (load_tree fuel ps (store_view s) acc miss) (load_tree fuel ps s acc' miss).
Proof.
  revert ps s acc acc' miss. induction fuel as [|fuel IH]; intros ps s acc acc' miss Hinv Hacc.
  { constructor. }
  cbn [load_tree].
  destruct (load_parents_sim ps s acc acc' miss [] Hinv Hacc)
    as (bs & bs' & ms & cs & s1 & -> & -> & Hb & [Hinv1 Hv1]). cbn [mbind outcome_bind].
  destruct cs as [|c cs]; [by constructor|].
  pose proof (IH (c :: cs) s1 bs bs' ms Hinv1 Hb) as Hs. rewrite Hv1 in Hs.
  eapply osim_impl; [exact Hs|]. intros [[? ?] ?] [[? ?] ?] (? & ? & ? & [? ?]).
  unfold tree_sim, unchanged.
  split_and!; try done; congruence.
Qed.

Definition load_sim {A B E} (R : A → B → Prop) (s : S) (x : result A E * gmap BlockId Block)
    (y : result B E * S) : Prop :=
  result_like R x.1 y.1 ∧ x.2 = store_view s ∧ unchanged s y.2.

Lemma set_root_key_like k bs bs' :
  Forall2 like bs bs' → Forall2 like (set_root_key k bs) (set_root_key k bs').
Proof.
  intros Hb. unfold set_root_key. destruct k as [k|]; [|done].
  rewrite (Forall2_length _ _ _ Hb). apply Forall2_alter; [done|].
  intros. by apply like_set_key.
Qed.

(** Loading from a store is loading from its map. *)
Lemma Object_load_sim fuel id key s :
  store_inv s →
  osim (load_sim object_like s) (Object_load fuel id key (store_view s))
    (Object_load fuel id key s).
Proof.
  revert id key s. induction fuel as [|fuel IH]; intros id key s Hinv; [constructor|].
  cbn [Object_load].
  eapply osim_bind; [apply load_tree_sim; [done|constructor]|].
  intros [[bs ms] v] [[bs' ms'] s'] (Hb & <- & -> & Hun).
  destruct ms as [|m ms]; [|by constructor]. destruct Hun as [Hinv' Hv'].
  apply (osim_bind like _ (unwrap (last bs)) (unwrap (last bs'))).
  { destruct (last bs) as [b|] eqn:Hl.
    - destruct (Forall2_last _ _ _ _ Hb Hl) as (b' & -> & ?). by constructor.
    - apply last_None in Hl as ->. apply Forall2_nil_inv_l in Hb as ->. constructor. }
  intros b b' [Hs _]. rewrite (same_deps _ _ Hs).
  pose proof (set_root_key_like key _ _ Hb) as Hkb.
  destruct (Block_deps b) as [ids|r].
  { constructor. by split_and!. }
  pose proof (IH (BlockRef_id r) (Some (BlockRef_key r)) s' Hinv') as Hrec. rewrite Hv' in Hrec.
  eapply osim_bind; [exact Hrec|].
  intros [res v2] [res' s2] (Hres & Hv2 & [Hinv2 Hv2']). simpl in *.
  assert (Hun2 : unchanged s s2) by (split; congruence).
  destruct res as [o|e], res' as [o'|e']; simpl in Hres; try done; [|by apply osim_ret; unfold load_sim; simpl; split_and!; congruence || apply Hun2].
  rewrite <- (content_like o o') by done.
  eapply osim_bind; [apply osim_eq|]. intros c ? <-.
  destruct c as [[| | |[ids]]|]; apply osim_ret; unfold load_sim; simpl;
    split_and!; try done; congruence.
Qed.
End Sim.
