(* ===== verification/Utils.v ===== *)
(** * Signatures and time: [lofire/src/utils.rs], [lofire/src/errors.rs] *)

From S2P Require Import Prelude Serde Types.

Inductive LofireError : Type :=
  | LofireError_InvalidSignature
  | LofireError_SerializationError.

(** [ed25519_dalek::SignatureError], which carries no information a caller sees. *)
Inductive SignatureError : Type := SignatureError_new.

(** [impl From<serde_bare::error::Error> for LofireError] and
    [impl From<ed25519_dalek::ed25519::Error> for LofireError] *)
Definition LofireError_of_serde_bare (e : unit) : LofireError := LofireError_SerializationError.
Definition LofireError_of_ed25519 (e : SignatureError) : LofireError :=
  LofireError_InvalidSignature.

(** A call of the library followed by [?]. *)
Definition ed25519_ok {A} (o : option A) : result A SignatureError :=
  match o with Some a => Ok a | None => Err SignatureError_new end.

(** [chunks_exact(32)] of the 64 bytes of a signature. *)
Definition Sig_of_bytes (b : array 64) : Sig :=
  Ed25519Sig (to_array 32 (take 32 (array_list b))) (to_array 32 (drop 32 (array_list b))).
(** [[ss[0], ss[1]].concat()] *)
Definition Sig_bytes (s : Sig) : bytes :=
  match s with Ed25519Sig s0 s1 => array_list s0 ++ array_list s1 end.

Lemma Sig_bytes_of b : Sig_bytes (Sig_of_bytes b) = array_list b.
Proof.
  unfold Sig_of_bytes, Sig_bytes. pose proof (array_length b) as Hb.
  rewrite !to_array_exact by (rewrite ?length_take, ?length_drop; lia). apply take_drop.
Qed.

Section Utils.
Context `{!Ed25519}.

(** The part [sign] and [CommitV0::new] have in common: the keypair from both keys,
    the signature cut in two. *)
Definition sign_bytes (author_privkey : PrivKey) (author_pubkey : PubKey) (content : bytes)
    : result Sig SignatureError :=
  let kp := match author_privkey, author_pubkey with
            | Ed25519PrivKey sk, Ed25519PubKey pk => array_list sk ++ array_list pk
            end in
  keypair ←? ed25519_ok (keypair_from_bytes kp);
  Ok (Sig_of_bytes (keypair_sign keypair content)).

(** The part [verify] and [Commit::verify_sig] have in common. *)
Definition verify_bytes (content : bytes) (sig : Sig) (pub_key : PubKey)
    : result unit SignatureError :=
  pk ←? ed25519_ok (public_from_bytes (array_list (PubKey_slice pub_key)));
  sig ←? ed25519_ok (signature_from_bytes (Sig_bytes sig));
  if verify_strict pk content sig then Ok tt else Err SignatureError_new.

(** [sign] *)
Definition sign (author_privkey : PrivKey) (author_pubkey : PubKey) (content : bytes)
    : result Sig LofireError :=
  map_err LofireError_of_ed25519 (sign_bytes author_privkey author_pubkey content).

(** [verify] *)
Definition verify (content : bytes) (sig : Sig) (pub_key : PubKey) : result unit LofireError :=
  map_err LofireError_of_ed25519 (verify_bytes content sig pub_key).

(** [generate_keypair], as a function of the randomness it draws *)
Definition generate_keypair (seed : bytes) : PrivKey * PubKey :=
  let keypair := keypair_generate seed in
  (Ed25519PrivKey (keypair_secret_bytes keypair), Ed25519PubKey (keypair_public_bytes keypair)).

Lemma sign_verify_bytes `{!Ed25519Laws} seed content :
  let '(sk, pk) := generate_keypair seed in
  ∃ s, sign_bytes sk pk content = Ok s ∧ verify_bytes content s pk = Ok tt.
Proof.
  unfold generate_keypair, sign_bytes, verify_bytes. rewrite keypair_generate_bytes. simpl.
  eexists. split; [reflexivity|]. rewrite Sig_bytes_of.
  destruct (keypair_sign_verifies seed content) as (pk & s & -> & -> & Hv). simpl.
  by rewrite Hv.
Qed.
End Utils.

(** [now_timestamp], at [secs] seconds since the Unix epoch: a clock before the LoFiRe
    epoch or past the end of [u32] minutes panics. *)
Definition now_timestamp (secs : u64) : outcome Timestamp :=
  d ← usize_sub (uint_N secs) EPOCH_AS_UNIX_TIMESTAMP;
  if (d / 60 <? 2 ^ 32)%N then Ret (uint_wrap 32 (d / 60)) else Panic.
