(* ===== verification/Branch.v ===== *)
(** * Repositories, members and branches: [lofire/src/repo.rs], [lofire/src/branch.rs]

    Constructors, permissions, and the synchronization of a branch: the commits to
    send to a peer that has [their_heads]. *)

From S2P Require Import Prelude Serde Types Block Store Object.

(** [RepositoryV0::new], [Repository::new] *)
Definition RepositoryV0_new (id : PubKey) (branches : list ObjectRef)
    (allow_ext_requests : bool) (metadata : bytes) : RepositoryV0 := {|
  RepositoryV0_id := id;
  RepositoryV0_branches := branches;
  RepositoryV0_allow_ext_requests := allow_ext_requests;
  RepositoryV0_metadata := metadata
|}.
Definition Repository_new (id : PubKey) (branches : list ObjectRef)
    (allow_ext_requests : bool) (metadata : bytes) : Repository :=
  Repository_V0 (RepositoryV0_new id branches allow_ext_requests metadata).

(** [MemberV0::new], [MemberV0::has_perm] *)
Definition MemberV0_new (id : PubKey) (commit_types : list CommitType) (metadata : bytes)
    : MemberV0 := {|
  MemberV0_id := id;
  MemberV0_commit_types := commit_types;
  MemberV0_metadata := metadata
|}.
Definition MemberV0_has_perm (m : MemberV0) (commit_type : CommitType) : bool :=
  bool_decide (commit_type ∈ MemberV0_commit_types m).

(** [Member::new], [Member::has_perm] *)
Definition Member_new (id : PubKey) (commit_types : list CommitType) (metadata : bytes)
    : Member := Member_V0 (MemberV0_new id commit_types metadata).
Definition Member_has_perm (m : Member) (commit_type : CommitType) : bool :=
  match m with Member_V0 m => MemberV0_has_perm m commit_type end.

(** [BranchV0::new], [Branch::new] *)
Definition BranchV0_new (id topic : PubKey) (secret : SymKey) (members : list MemberV0)
    (quorum : gmap CommitType u32) (ack_delay : RelTime) (tags metadata : bytes)
    : BranchV0 := {|
  BranchV0_id := id;
  BranchV0_topic := topic;
  BranchV0_secret := secret;
  BranchV0_members := members;
  BranchV0_quorum := quorum;
  BranchV0_ack_delay := ack_delay;
  BranchV0_tags := tags;
  BranchV0_metadata := metadata
|}.
Definition Branch_new (id topic : PubKey) (secret : SymKey) (members : list MemberV0)
    (quorum : gmap CommitType u32) (ack_delay : RelTime) (tags metadata : bytes) : Branch :=
  Branch_V0 (BranchV0_new id topic secret members quorum ack_delay tags metadata).

(** The loop of [Branch::get_member] *)
Fixpoint find_member (members : list MemberV0) (id : PubKey) : option MemberV0 :=
  match members with
  | [] => None
  | m :: members => if decide (MemberV0_id m = id) then Some m else find_member members id
  end.
(** [Branch::get_member] *)
Definition Branch_get_member (b : Branch) (id : PubKey) : option MemberV0 :=
  match b with Branch_V0 b => find_member (BranchV0_members b) id end.

Lemma find_member_spec members id m :
  find_member members id = Some m ↔
  ∃ ms1 ms2, members = ms1 ++ m :: ms2 ∧ MemberV0_id m = id ∧
             Forall (λ m', MemberV0_id m' ≠ id) ms1.
Proof.
  induction members as [|m0 members IH]; simpl.
  { split; [done|]. by intros ([] & ? & ? & _). }
  destruct (decide (MemberV0_id m0 = id)) as [Hid|Hid].
  - split.
    + intros [= <-]. by exists [], members.
    + intros ([|m1 ms1] & ms2 & Heq & Hm & Hne); simplify_eq/=; [done|].
      by apply Forall_cons in Hne as [? _].
  - rewrite IH. split.
    + intros (ms1 & ms2 & -> & ? & ?). exists (m0 :: ms1), ms2. by split_and!; [..|constructor].
    + intros ([|m1 ms1] & ms2 & Heq & Hm & Hne); simplify_eq/=.
      apply Forall_cons in Hne as [_ ?]. by exists ms1, ms2.
Qed.

Section Sync.
Context `{!Crypto, !Bloom} `{!Serde Block, !Serde BlockContentV0, !Serde ObjectContent}.
Context {S : Type} `{!RepoStore S}.

(** Fuel of [Object::load]: more than the height of any object. *)
Variable obj_fuel : nat.

Definition sync_state : Type := gset ObjectId * gset ObjectId * S.

(** The [for] loop of [load_branch] over the dependencies; [load_branch] is the
    recursive call. The sets are [visited] and [missing]; after an error the caller
    drops them. *)
Fixpoint sync_deps
    (load_branch : Object → sync_state → outcome (result (bool * sync_state) ObjectParseError))
    (deps : list ObjectId) (their_head_found : bool) (st : sync_state)
    : outcome (result (bool * sync_state) ObjectParseError) :=
  match deps with
  | [] => Ret (Ok (their_head_found, st))
  | id :: deps =>
      let '(visited, missing, s) := st in
      '(res, s) ← Object_load obj_fuel id None s;
      match res with
      | Ok o =>
          if decide (id ∈ visited)
          then sync_deps load_branch deps their_head_found (visited, missing, s)
          else
            '(found, st) ←! load_branch o (visited, missing, s);
            sync_deps load_branch deps (their_head_found || found) st
      | Err (ObjectParseError_MissingBlocks m) =>
          sync_deps load_branch deps their_head_found (visited, list_to_set m ∪ missing, s)
      | Err e => Ret (Err e)
      end
  end.

(** [load_branch] of [Branch::sync_req] *)
Fixpoint sync_load_branch (fuel : nat) (their_heads : list ObjectId) (cobj : Object)
    (st : sync_state) : outcome (result (bool * sync_state) ObjectParseError) :=
  match fuel with
  | O => OutOfFuel
  | Datatypes.S fuel =>
      id ← Object_id cobj;
      let is_root := (len (Object_deps cobj) =? 0)%N in
      let their_head_found := bool_decide (id ∈ their_heads) in
      if negb is_root && negb their_head_found then
        let '(visited, missing, s) := st in
        sync_deps (sync_load_branch fuel their_heads) (Object_deps cobj) their_head_found
          ({[id]} ∪ visited, missing, s)
      else Ret (Ok (their_head_found, st))
  end.

(** The two loops of [sync_req] over heads: each head is loaded and its branch visited
    from an empty set, and what was visited is added to [acc]. *)
Fixpoint sync_heads (fuel : nat) (heads their_heads : list ObjectId)
    (acc missing : gset ObjectId) (s : S)
    : outcome (result (gset ObjectId * gset ObjectId * S) ObjectParseError) :=
  match heads with
  | [] => Ret (Ok (acc, missing, s))
  | id :: heads =>
      '(res, s) ← Object_load obj_fuel id None s;
      match res with
      | Err e => Ret (Err e)
      | Ok cobj =>
          '(_, (visited, missing, s)) ←!
            sync_load_branch fuel their_heads cobj (∅, missing, s);
          sync_heads fuel heads their_heads (acc ∪ visited) missing s
      end
  end.

(** The filtering loop: identifiers in the peer's Bloom filter are removed. *)
Definition bloom_keep (filter : Filter) (id : ObjectId) : bool :=
  match id with Blake3Digest32 d => negb (filter_contains filter (array_list d)) end.

(** [Branch::sync_req] *)
Definition sync_req (fuel : nat) (our_heads their_heads : list ObjectId)
    (their_filter : BloomFilter) (s : S)
    : outcome (result (list ObjectId * S) ObjectParseError) :=
  '(ours, missing, s) ←! sync_heads fuel our_heads their_heads ∅ ∅ s;
  '(theirs, _, s) ←! sync_heads fuel their_heads [] ∅ missing s;
  let f := filter_from_u8_array (BloomFilter_f their_filter)
             (uint_wrap 64 (uint_N (BloomFilter_k their_filter))) in
  Ret (Ok (base.filter (λ id, bloom_keep f id = true) (elements (ours ∖ theirs)), s)).
End Sync.
