(* ===== verification/Commit.v ===== *)
(** * Commits: [lofire/src/commit.rs]

    Building and signing a commit, loading it and its body, and its verification:
    signature, permission of the author, and presence of every commit it depends on. *)

From S2P Require Import Prelude Serde Types Block Store Object Utils Branch.

Inductive CommitLoadError : Type :=
  | CommitLoadError_MissingBlocks (ids : list BlockId)
  | CommitLoadError_ObjectParseError
  | CommitLoadError_DeserializeError.

Inductive CommitVerifyError : Type :=
  | CommitVerifyError_InvalidSignature
  | CommitVerifyError_PermissionDenied
  | CommitVerifyError_BodyLoadError (e : CommitLoadError)
  | CommitVerifyError_DepLoadError (e : CommitLoadError).

(** [CommitBody::to_type] *)
Definition CommitBody_to_type (b : CommitBody) : CommitType :=
  match b with
  | CommitBody_Ack _ => CommitType_Ack
  | CommitBody_AddBranch _ => CommitType_AddBranch
  | CommitBody_AddMembers _ => CommitType_AddMembers
  | CommitBody_Branch _ => CommitType_Branch
  | CommitBody_EndOfBranch _ => CommitType_EndOfBranch
  | CommitBody_RemoveBranch _ => CommitType_RemoveBranch
  | CommitBody_Repository _ => CommitType_Repository
  | CommitBody_Snapshot _ => CommitType_Snapshot
  | CommitBody_Transaction _ => CommitType_Transaction
  end.

(** ** Accessors *)

Definition Commit_id (c : Commit) : option ObjectId :=
  match c with Commit_V0 c => CommitV0_id c end.
Definition Commit_key (c : Commit) : option SymKey :=
  match c with Commit_V0 c => CommitV0_key c end.
Definition Commit_sig (c : Commit) : Sig :=
  match c with Commit_V0 c => CommitV0_sig c end.
Definition Commit_content (c : Commit) : CommitContentV0 :=
  match c with Commit_V0 c => CommitV0_content c end.
Definition Commit_acks (c : Commit) : list ObjectRef :=
  match c with Commit_V0 c => CommitContentV0_acks (CommitV0_content c) end.
Definition Commit_deps (c : Commit) : list ObjectRef :=
  match c with Commit_V0 c => CommitContentV0_deps (CommitV0_content c) end.
Definition Commit_deps_acks (c : Commit) : list ObjectRef :=
  match c with Commit_V0 c =>
    CommitContentV0_acks (CommitV0_content c) ++ CommitContentV0_deps (CommitV0_content c)
  end.
Definition Commit_seq (c : Commit) : u32 :=
  match c with Commit_V0 c => CommitContentV0_seq (CommitV0_content c) end.

Definition Commit_set_id (id : ObjectId) (c : Commit) : Commit :=
  match c with Commit_V0 c => Commit_V0 {|
    CommitV0_id := Some id; CommitV0_key := CommitV0_key c;
    CommitV0_content := CommitV0_content c; CommitV0_sig := CommitV0_sig c |} end.
Definition Commit_set_key (key : SymKey) (c : Commit) : Commit :=
  match c with Commit_V0 c => Commit_V0 {|
    CommitV0_id := CommitV0_id c; CommitV0_key := Some key;
    CommitV0_content := CommitV0_content c; CommitV0_sig := CommitV0_sig c |} end.

Section Signing.
Context `{!Ed25519} `{!Serde CommitContentV0}.

(** [CommitV0::new] *)
Definition CommitV0_new (author_privkey : PrivKey) (author_pubkey : PubKey) (seq : u32)
    (branch : ObjectRef) (deps acks refs : list ObjectRef) (metadata : bytes)
    (body : ObjectRef) (expiry : option Timestamp) : result CommitV0 SignatureError :=
  let content := {|
    CommitContentV0_author := author_pubkey;
    CommitContentV0_seq := seq;
    CommitContentV0_branch := branch;
    CommitContentV0_deps := deps;
    CommitContentV0_acks := acks;
    CommitContentV0_refs := refs;
    CommitContentV0_metadata := metadata;
    CommitContentV0_body := body;
    CommitContentV0_expiry := expiry
  |} in
  let content_ser := to_vec content in
  (* sign commit *)
  sig ←? sign_bytes author_privkey author_pubkey content_ser;
  Ok {| CommitV0_id := None; CommitV0_key := None;
        CommitV0_content := content; CommitV0_sig := sig |}.

(** [Commit::new] *)
Definition Commit_new (author_privkey : PrivKey) (author_pubkey : PubKey) (seq : u32)
    (branch : ObjectRef) (deps acks refs : list ObjectRef) (metadata : bytes)
    (body : ObjectRef) (expiry : option Timestamp) : result Commit SignatureError :=
  c ←? CommitV0_new author_privkey author_pubkey seq branch deps acks refs metadata body expiry;
  Ok (Commit_V0 c).

(** [Commit::verify_sig] *)
Definition Commit_verify_sig (c : Commit) : result unit SignatureError :=
  match c with Commit_V0 c =>
    let content_ser := to_vec (CommitV0_content c) in
    verify_bytes content_ser (CommitV0_sig c) (CommitContentV0_author (CommitV0_content c))
  end.
End Signing.

(** [Commit::verify_perm] *)
Definition Commit_verify_perm (c : Commit) (body : CommitBody) (branch : Branch)
    : result unit CommitVerifyError :=
  let content := Commit_content c in
  match Branch_get_member branch (CommitContentV0_author content) with
  | Some m =>
      if MemberV0_has_perm m (CommitBody_to_type body) then Ok tt
      else Err CommitVerifyError_PermissionDenied
  | None => Err CommitVerifyError_PermissionDenied
  end.

Section Commit.
Context `{!Crypto, !Ed25519}.
Context `{!Serde Block, !Serde BlockContentV0, !Serde ObjectContent, !Serde CommitContentV0}.
Context {S : Type} `{!RepoStore S}.

(** Fuel of [Object::load]: more than the height of any object. *)
Variable obj_fuel : nat.

(** The object and its content, as [Commit::load] and [Commit::load_body] read them. *)
Definition load_content (r : ObjectRef) (s : S)
    : outcome (result ObjectContent CommitLoadError * S) :=
  '(res, s) ← Object_load obj_fuel (BlockRef_id r) (Some (BlockRef_key r)) s;
  match res with
  | Ok obj =>
      content ← Object_content obj;
      Ret (map_err (λ _, CommitLoadError_ObjectParseError) content, s)
  | Err (ObjectParseError_MissingBlocks missing) =>
      Ret (Err (CommitLoadError_MissingBlocks missing), s)
  | Err _ => Ret (Err CommitLoadError_ObjectParseError, s)
  end.

(** [Commit::load] *)
Definition Commit_load (commit_ref : ObjectRef) (s : S)
    : outcome (result Commit CommitLoadError * S) :=
  '(content, s) ← load_content commit_ref s;
  Ret (match content with
       | Ok (ObjectContent_Commit c) =>
           Ok (Commit_set_key (BlockRef_key commit_ref)
                (Commit_set_id (BlockRef_id commit_ref) c))
       | Ok _ => Err CommitLoadError_DeserializeError
       | Err e => Err e
       end, s).

(** [Commit::load_body] *)
Definition Commit_load_body (c : Commit) (s : S)
    : outcome (result CommitBody CommitLoadError * S) :=
  '(content, s) ← load_content (CommitContentV0_body (Commit_content c)) s;
  Ret (match content with
       | Ok (ObjectContent_CommitBody body) => Ok body
       | Ok _ => Err CommitLoadError_DeserializeError
       | Err e => Err e
       end, s).

Definition deps_state : Type := gset ObjectId * gset ObjectId * S.

(** The [for] loop of [load_branch] over the dependencies; [load_branch] is the
    recursive call. The sets are [visited] and [missing]. *)
Fixpoint load_deps
    (load_branch : Commit → deps_state → outcome (result deps_state CommitLoadError))
    (deps : list ObjectRef) (st : deps_state) : outcome (result deps_state CommitLoadError) :=
  match deps with
  | [] => Ret (Ok st)
  | dep :: deps =>
      let '(visited, missing, s) := st in
      '(res, s) ← Commit_load dep s;
      match res with
      | Ok c =>
          st ←! load_branch c (visited, missing, s);
          load_deps load_branch deps st
      | Err (CommitLoadError_MissingBlocks m) =>
          load_deps load_branch deps (visited, list_to_set m ∪ missing, s)
      | Err e => Ret (Err e)
      end
  end.

(** [load_branch] of [Commit::verify_deps], after the check of [visited]: the body,
    and the dependencies unless it is the root's. *)
Definition visit_commit
    (load_branch : Commit → deps_state → outcome (result deps_state CommitLoadError))
    (commit : Commit) (st : deps_state) : outcome (result deps_state CommitLoadError) :=
  let '(visited, missing, s) := st in
  '(res, s) ← Commit_load_body commit s;
  '(is_root, missing) ←!
    Ret match res with
        | Ok body => Ok (bool_decide (CommitBody_to_type body = CommitType_Branch), missing)
        | Err (CommitLoadError_MissingBlocks m) => Ok (false, list_to_set m ∪ missing)
        | Err e => Err e
        end;
  if negb is_root
  then load_deps load_branch (Commit_deps_acks commit) (visited, missing, s)
  else Ret (Ok (visited, missing, s)).

(** [load_branch] of [Commit::verify_deps] *)
Fixpoint load_branch (fuel : nat) (commit : Commit) (st : deps_state)
    : outcome (result deps_state CommitLoadError) :=
  match fuel with
  | O => OutOfFuel
  | Datatypes.S fuel =>
      let '(visited, missing, s) := st in
      match Commit_id commit with
      | Some id =>
          if decide (id ∈ visited) then Ret (Ok st)
          else visit_commit (load_branch fuel) commit ({[id]} ∪ visited, missing, s)
      | None => visit_commit (load_branch fuel) commit st
      end
  end.

(** [Commit::verify_deps]; the order of the answer is the set's own. *)
Definition Commit_verify_deps (fuel : nat) (c : Commit) (s : S)
    : outcome (result (list ObjectId * S) CommitLoadError) :=
  '(visited, missing, s) ←! load_branch fuel c (∅, ∅, s);
  if decide (missing = ∅) then Ret (Ok (elements visited, s))
  else Ret (Err (CommitLoadError_MissingBlocks (elements missing))).

(** [Commit::verify] *)
Definition Commit_verify (fuel : nat) (c : Commit) (branch : Branch) (s : S)
    : outcome (result unit CommitVerifyError) :=
  _ ←! Ret (map_err (λ _, CommitVerifyError_InvalidSignature) (Commit_verify_sig c));
  '(res, s) ← Commit_load_body c s;
  body ←! Ret (map_err CommitVerifyError_BodyLoadError res);
  _ ←! Ret (Commit_verify_perm c body branch);
  _ ←! map_err CommitVerifyError_DepLoadError <$> Commit_verify_deps fuel c s;
  Ret (Ok tt).
End Commit.
