(* ===== verification/CommitDeps.v ===== *)
(** * The commits a commit depends on

    [Commit::verify_deps] walks the graph of commits depth first. The graph is read
    from the map a store stands for ([ObjectSim]); this file relates what the walk
    visits to what is reachable in the graph, and bounds its fuel. *)

From S2P Require Import Prelude Serde Types Block Store Object ObjectTree ObjectStore.
From S2P Require Import ObjectSim Utils Branch Commit.

Section Deps.
Context `{!Crypto, !Ed25519}.
Context `{!Serde Block, !Serde BlockContentV0, !Serde ObjectContent, !Serde CommitContentV0}.
Context `{!SerdeLaws Block}.
Variable obj_fuel : nat.

(** ** The graph of commits of a map of blocks *)

Definition commit_at (v : gmap BlockId Block) (r : ObjectRef)
    : outcome (result Commit CommitLoadError) := fst <$> Commit_load obj_fuel r v.
Definition body_at (v : gmap BlockId Block) (c : Commit)
    : outcome (result CommitBody CommitLoadError) := fst <$> Commit_load_body obj_fuel c v.

(** The walk stops at a commit whose body is a [Branch]. *)
Definition is_root (v : gmap BlockId Block) (c : Commit) : Prop :=
  ∃ body, body_at v c = Ret (Ok body) ∧ CommitBody_to_type body = CommitType_Branch.
Definition dep_edge (v : gmap BlockId Block) (c c' : Commit) : Prop :=
  ¬ is_root v c ∧ ∃ r, r ∈ Commit_deps_acks c ∧ commit_at v r = Ret (Ok c').
Definition commit_reach (v : gmap BlockId Block) : Commit → Commit → Prop := rtc (dep_edge v).

(** The body is there and, but for the root, so is every dependency. *)
Definition complete (v : gmap BlockId Block) (c : Commit) : Prop :=
  ∃ body, body_at v c = Ret (Ok body) ∧
  (CommitBody_to_type body = CommitType_Branch ∨
   ∀ r, r ∈ Commit_deps_acks c → ∃ c', commit_at v r = Ret (Ok c')).

(** An identifier stands for one commit among those reachable. *)
Definition ids_unique (v : gmap BlockId Block) (c : Commit) : Prop :=
  ∀ c1 c2 i, commit_reach v c c1 → commit_reach v c c2 →
  Commit_id c1 = Some i → Commit_id c2 = Some i → Commit_content c1 = Commit_content c2.

Lemma commit_at_id v r c : commit_at v r = Ret (Ok c) → Commit_id c = Some (BlockRef_id r).
Proof.
  unfold commit_at, Commit_load. destruct (load_content _ _ _) as [[[[c0| | |]|] v']| |]; cbn; try done.
  intros [= <-]. by destruct c0.
Qed.

(** As [complete], every dependency visited. *)
Definition covered (v : gmap BlockId Block) (V : gset ObjectId) (c : Commit) : Prop :=
  ∃ body, body_at v c = Ret (Ok body) ∧
  (CommitBody_to_type body = CommitType_Branch ∨
   ∀ r, r ∈ Commit_deps_acks c → (∃ c', commit_at v r = Ret (Ok c')) ∧ BlockRef_id r ∈ V).

Lemma covered_mono v V V' c : V ⊆ V' → covered v V c → covered v V' c.
Proof. intros HV (body & Hb & Hd). exists body. split; [done|]. naive_solver. Qed.

Lemma covered_complete v V c : covered v V c → complete v c.
Proof. intros (body & Hb & Hd). exists body. split; [done|]. naive_solver. Qed.

(** The graph at a commit depends on its content only. *)
Lemma body_at_content v c1 c2 :
  Commit_content c1 = Commit_content c2 → body_at v c1 = body_at v c2.
Proof. unfold body_at, Commit_load_body. by intros ->. Qed.
Lemma deps_acks_content c1 c2 :
  Commit_content c1 = Commit_content c2 → Commit_deps_acks c1 = Commit_deps_acks c2.
Proof. destruct c1, c2; simpl. by intros ->. Qed.
Lemma covered_content v V c1 c2 :
  Commit_content c1 = Commit_content c2 → covered v V c1 → covered v V c2.
Proof.
  intros Hc (body & Hb & Hd). exists body.
  by rewrite <- (body_at_content v c1 c2), <- (deps_acks_content c1 c2).
Qed.

(** ** Loading commits from a store *)

Context {S : Type} `{!RepoStore S, !RepoStoreSpec S, !RepoStoreTotal S}.

Lemma load_content_sim r s :
  store_inv s →
  osim (load_sim eq s) (load_content obj_fuel r (store_view s)) (load_content obj_fuel r s).
Proof.
  intros Hinv. unfold load_content. eapply osim_bind; [by apply Object_load_sim|].
  intros [res v] [res' s'] (Hr & Hv & Hun). simpl in *.
  destruct res as [o|e], res' as [o'|e']; simpl in Hr; try done.
  - rewrite <- (content_like o o') by done. eapply osim_bind; [apply osim_eq|].
    intros c ? <-. apply osim_ret. by destruct c.
  - subst e'. by destruct e; apply osim_ret.
Qed.

Lemma Commit_load_sim r s :
  store_inv s →
  osim (load_sim eq s) (Commit_load obj_fuel r (store_view s)) (Commit_load obj_fuel r s).
Proof.
  intros Hinv. unfold Commit_load. eapply osim_bind; [by apply load_content_sim|].
  intros [[c|e] v] [[c'|e'] s'] (Hr & Hv & Hun); simpl in Hr; try done; subst;
    apply osim_ret; [by destruct c'|done].
Qed.

Lemma Commit_load_body_sim c s :
  store_inv s →
  osim (load_sim eq s) (Commit_load_body obj_fuel c (store_view s))
    (Commit_load_body obj_fuel c s).
Proof.
  intros Hinv. unfold Commit_load_body. eapply osim_bind; [by apply load_content_sim|].
  intros [[c0|e] v] [[c'|e'] s'] (Hr & Hv & Hun); simpl in Hr; try done; subst;
    apply osim_ret; [by destruct c'|done].
Qed.

Lemma load_sim_eq {A E} (m : outcome (result A E * gmap BlockId Block))
    (m' : outcome (result A E * S)) s res s' :
  osim (load_sim eq s) m m' → m' = Ret (res, s') → fst <$> m = Ret res ∧ unchanged s s'.
Proof.
  intros [[r v] [r' s1] (Hr & _ & Hun)| |]; try done. intros [= -> ->]. split; [|done].
  simpl in *. destruct r, res; simpl in Hr; naive_solver.
Qed.

Lemma Commit_load_at r s0 s res s' :
  unchanged s0 s → Commit_load obj_fuel r s = Ret (res, s') →
  commit_at (store_view s0) r = Ret res ∧ unchanged s0 s'.
Proof.
  intros [Hinv Hv] Hl. destruct (load_sim_eq _ _ _ _ _ (Commit_load_sim r s Hinv) Hl) as [Hc [Hi Hv']].
  unfold commit_at. rewrite <- Hv. split; [done|]. split; [done|congruence].
Qed.
Lemma Commit_load_body_at c s0 s res s' :
  unchanged s0 s → Commit_load_body obj_fuel c s = Ret (res, s') →
  body_at (store_view s0) c = Ret res ∧ unchanged s0 s'.
Proof.
  intros [Hinv Hv] Hl.
  destruct (load_sim_eq _ _ _ _ _ (Commit_load_body_sim c s Hinv) Hl) as [Hc [Hi Hv']].
  unfold body_at. rewrite <- Hv. split; [done|]. split; [done|congruence].
Qed.

(** What is reported missing is not an empty list. *)
Lemma Object_load_missing_nonempty fuel id key (s : S) m s' :
  Object_load fuel id key s = Ret (Err (ObjectParseError_MissingBlocks m), s') → m ≠ [].
Proof.
  revert id key s s'. induction fuel as [|fuel IH]; intros id key s s'; [done|]. cbn [Object_load].
  destruct (load_tree _ _ _ _ _) as [[[bs [|m0 ms]] s1]| |]; cbn; try done; [|by intros [= <- _]].
  destruct (last bs) as [b|]; cbn; [|done]. destruct (Block_deps b) as [ids|r]; [done|].
  destruct (Object_load fuel _ _ s1) as [[[o|e] s2]| |] eqn:Hl; cbn; try done.
  - destruct (Object_content o) as [[[| | |[]]|e]| |] eqn:Hc; cbn; try done.
    intros [= -> _]. by apply Object_content_not_missing in Hc.
  - intros [= -> ->]. by eapply IH.
Qed.

Lemma load_content_missing r (s : S) m s' :
  load_content obj_fuel r s = Ret (Err (CommitLoadError_MissingBlocks m), s') → m ≠ [].
Proof.
  unfold load_content.
  destruct (Object_load _ _ _ s) as [[[o|e] s1]| |] eqn:Hl; cbn; try done.
  - by destruct (Object_content o) as [[|]| |].
  - destruct e; try done. intros [= -> _]. by eapply Object_load_missing_nonempty.
Qed.

Lemma Commit_load_missing r (s : S) m s' :
  Commit_load obj_fuel r s = Ret (Err (CommitLoadError_MissingBlocks m), s') → m ≠ [].
Proof.
  unfold Commit_load.
  destruct (load_content _ _ s) as [[[[]|e] s1]| |] eqn:Hl; cbn; try done.
  intros [= -> _]. by eapply load_content_missing.
Qed.
Lemma Commit_load_body_missing c (s : S) m s' :
  Commit_load_body obj_fuel c s = Ret (Err (CommitLoadError_MissingBlocks m), s') → m ≠ [].
Proof.
  unfold Commit_load_body.
  destruct (load_content _ _ s) as [[[[]|e] s1]| |] eqn:Hl; cbn; try done.
  intros [= -> _]. by eapply load_content_missing.
Qed.

Lemma missing_nonempty (m : list BlockId) (M : gset BlockId) :
  m ≠ [] → list_to_set m ∪ M ≠ ∅.
Proof. destruct m; [done|]. set_solver. Qed.

(** ** What the walk visits *)

Variable s0 : S.
Local Abbreviation v := (store_view s0).

(** After a walk from [c] that found nothing missing: what was visited is reachable
    and its dependencies are visited. *)
Definition walked (c : Commit) (V V' : gset ObjectId) : Prop :=
  (∀ i, i ∈ V' → i ∉ V →
        ∃ c', commit_reach v c c' ∧ Commit_id c' = Some i ∧ covered v V' c') ∧
  (covered v V' c ∨ ∃ i, Commit_id c = Some i ∧ i ∈ V).

Definition walk_post (c : Commit) (V M V' M' : gset ObjectId) (s' : S) : Prop :=
  unchanged s0 s' ∧ V ⊆ V' ∧ M ⊆ M' ∧ (∀ i, Commit_id c = Some i → i ∈ V') ∧
  (M' = ∅ → walked c V V').

Definition rec_ok (rec : Commit → deps_state → outcome (result deps_state CommitLoadError)) : Prop :=
  ∀ c V M s V' M' s', unchanged s0 s →
  rec c (V, M, s) = Ret (Ok (V', M', s')) → walk_post c V M V' M' s'.

Lemma load_deps_spec rec deps V M s V' M' s' :
  rec_ok rec → unchanged s0 s →
  load_deps obj_fuel rec deps (V, M, s) = Ret (Ok (V', M', s')) →
  unchanged s0 s' ∧ V ⊆ V' ∧ M ⊆ M' ∧
  (M' = ∅ →
   (∀ r, r ∈ deps → (∃ c', commit_at v r = Ret (Ok c')) ∧ BlockRef_id r ∈ V') ∧
   (∀ i, i ∈ V' → i ∉ V → ∃ r c1 c', r ∈ deps ∧ commit_at v r = Ret (Ok c1) ∧
         commit_reach v c1 c' ∧ Commit_id c' = Some i ∧ covered v V' c')).
Proof.
  intros Hrec. revert V M s. induction deps as [|r deps IH]; intros V M s Hun; cbn [load_deps].
  { intros [= <- <- <-]. split_and!; [done..|]. intros _.
    split; [by intros ? ?%elem_of_nil|done]. }
  destruct (Commit_load obj_fuel r s) as [[res s1]| |] eqn:Hl; cbn [mbind outcome_bind]; try done.
  destruct (Commit_load_at r s0 s res s1 Hun Hl) as [Hat Hun1].
  destruct res as [c|[m| |]]; try done.
  - destruct (rec c (V, M, s1)) as [[[[V1 M1] s2]|]| |] eqn:Hc; cbn [try_bind]; try done.
    destruct (Hrec c V M s1 V1 M1 s2 Hun1 Hc) as (Hun2 & HV1 & HM1 & Hid & Hw).
    intros (Hun3 & HV2 & HM2 & Hd)%IH; [|done].
    split_and!; [done|by etrans|by etrans|]. intros Hemp. destruct (Hd Hemp) as [Hdeps Hfr].
    assert (M1 = ∅) as HM1e by (clear -HM2 Hemp; set_solver). destruct (Hw HM1e) as [Hfr1 _].
    pose proof (commit_at_id _ _ _ Hat) as Hcid. split.
    + intros r' [->|Hr']%elem_of_cons; [|by apply Hdeps].
      split; [by exists c|]. apply HV2, Hid, Hcid.
    + intros i Hi Hn. destruct (decide (i ∈ V1)) as [Hi1|Hi1].
      * destruct (Hfr1 i Hi1 Hn) as (c' & ? & ? & Hcov). exists r, c, c'.
        split_and!; [left|done..|]. by eapply covered_mono.
      * destruct (Hfr i Hi Hi1) as (r' & c1 & c' & ? & ?). exists r', c1, c'. split; [by right|done].
  - intros (Hun3 & HV2 & HM2 & Hd)%IH; [|done]. apply Commit_load_missing in Hl.
    split_and!; [done|done|clear -HM2; set_solver|].
    intros ->. exfalso. apply (missing_nonempty m M Hl). clear -HM2. set_solver.
Qed.

(** One visit. *)
Lemma visit_commit_spec rec c V M s V' M' s' :
  rec_ok rec → unchanged s0 s →
  visit_commit obj_fuel rec c (V, M, s) = Ret (Ok (V', M', s')) →
  unchanged s0 s' ∧ V ⊆ V' ∧ M ⊆ M' ∧
  (M' = ∅ → covered v V' c ∧ ∀ i, i ∈ V' → i ∉ V →
     ∃ c', commit_reach v c c' ∧ Commit_id c' = Some i ∧ covered v V' c').
Proof.
  intros Hrec Hun. unfold visit_commit.
  destruct (Commit_load_body obj_fuel c s) as [[res s1]| |] eqn:Hl; cbn [mbind outcome_bind]; try done.
  destruct (Commit_load_body_at c s0 s res s1 Hun Hl) as [Hat Hun1].
  destruct res as [body|[m| |]]; cbn [try_bind]; try done.
  - destruct (decide (CommitBody_to_type body = CommitType_Branch)) as [Hr|Hr].
    + rewrite bool_decide_true by done. intros [= <- <- <-]. split_and!; [done..|].
      intros _. split; [|done]. exists body. split; [done|by left].
    + rewrite bool_decide_false by done. cbn [negb].
      intros (Hun2 & HV & HM & Hd)%load_deps_spec; [|done..].
      split_and!; [done..|]. intros Hemp. destruct (Hd Hemp) as [Hdeps Hfr]. split.
      * exists body. split; [done|by right].
      * intros i Hi Hn. destruct (Hfr i Hi Hn) as (r & c1 & c' & Hin & Hc1 & Hreach & ? & ?).
        exists c'. split_and!; [|done..]. eapply rtc_l; [|exact Hreach]. split; [|by exists r].
        intros (body' & Hb' & ?). rewrite Hat in Hb'. by simplify_eq.
  - cbn [negb]. intros (Hun2 & HV & HM & Hd)%load_deps_spec; [|done..].
    apply Commit_load_body_missing in Hl. split_and!; [done|done|clear -HM; set_solver|].
    intros ->. exfalso. apply (missing_nonempty m M Hl). clear -HM. set_solver.
Qed.

Lemma load_branch_spec fuel : rec_ok (load_branch obj_fuel fuel).
Proof.
  induction fuel as [|fuel IH]; intros c V M s V' M' s' Hun; [done|]. cbn [load_branch].
  destruct (Commit_id c) as [i|] eqn:Hid.
  - destruct (decide (i ∈ V)) as [Hi|Hi].
    + intros [= <- <- <-]. split_and!; [done..| |].
      * intros; by simplify_eq.
      * intros _. split; [done|]. right. by exists i.
    + intros (Hun' & HV & HM & Hw)%visit_commit_spec; [|done..].
      split_and!; [done|set_solver|done| |].
      * intros j Hj. simplify_eq. set_solver.
      * intros Hemp. destruct (Hw Hemp) as [Hcov Hfr]. split; [|by left].
        intros j Hj Hn. destruct (decide (j = i)) as [->|Hne].
        { exists c. split_and!; [constructor|done|done]. }
        apply Hfr; [done|]. set_solver.
  - intros (Hun' & HV & HM & Hw)%visit_commit_spec; [|done..].
    split_and!; [done..| |].
    + intros; congruence.
    + intros Hemp. destruct (Hw Hemp) as [Hcov Hfr]. split; [done|by left].
Qed.

(** When nothing is missing, everything reachable is complete, and what was visited
    is what is reachable. *)
Lemma load_branch_reach fuel c V' s s' :
  unchanged s0 s → ids_unique v c →
  load_branch obj_fuel fuel c (∅, ∅, s) = Ret (Ok (V', ∅, s')) →
  unchanged s0 s' ∧ ∀ c', commit_reach v c c' →
  complete v c' ∧ ∀ i, Commit_id c' = Some i → i ∈ V'.
Proof.
  intros Hun Huniq Hl.
  destruct (load_branch_spec fuel c ∅ ∅ s V' ∅ s' Hun Hl) as (Hun' & _ & _ & Hid & Hw).
  destruct (Hw eq_refl) as [Hfr [Hcov|(i & _ & Hi)]]; [|by apply not_elem_of_empty in Hi].
  split; [done|].
  assert (Hall : ∀ c', commit_reach v c c' → covered v V' c' ∧ ∀ i, Commit_id c' = Some i → i ∈ V').
  { refine (rtc_ind_r (λ c', covered v V' c' ∧ ∀ i, Commit_id c' = Some i → i ∈ V') c _ _);
      [done|]. intros c1 c2 Hreach [Hnr (r & Hr & Hc2)] [Hc1 _].
    pose proof (commit_at_id _ _ _ Hc2) as Hi2.
    assert (HrV : BlockRef_id r ∈ V').
    { destruct Hc1 as (body & Hb & [Hroot|Hdeps]); [|by apply Hdeps].
      destruct Hnr. by exists body. }
    split; [|by intros ? [= <-]%(eq_trans (eq_sym Hi2))].
    destruct (Hfr (BlockRef_id r) HrV (not_elem_of_empty _)) as (c3 & Hreach3 & Hi3 & Hc3).
    eapply covered_content; [|exact Hc3].
    eapply Huniq; [exact Hreach3| |exact Hi3|exact Hi2].
    eapply rtc_r; [exact Hreach|]. split; [done|by exists r]. }
  intros c' Hreach. destruct (Hall c' Hreach) as [? ?]. split; [by eapply covered_complete|done].
Qed.

Lemma load_branch_visited fuel c V' s s' i :
  unchanged s0 s → load_branch obj_fuel fuel c (∅, ∅, s) = Ret (Ok (V', ∅, s')) →
  i ∈ V' → ∃ c', commit_reach v c c' ∧ Commit_id c' = Some i.
Proof.
  intros Hun Hl Hi.
  destruct (load_branch_spec fuel c ∅ ∅ s V' ∅ s' Hun Hl) as (_ & _ & _ & _ & Hw).
  destruct (Hw eq_refl) as [Hfr _].
  destruct (Hfr i Hi (not_elem_of_empty _)) as (c' & ? & ? & _). by exists c'.
Qed.

(** ** A walk where nothing is missing *)

(** What is reachable depends on the content of the commit only. *)
Definition all_complete (c : Commit) : Prop := ∀ c', commit_reach v c c' → complete v c'.
Lemma complete_content c1 c2 : Commit_content c1 = Commit_content c2 → complete v c1 → complete v c2.
Proof.
  intros Hc (body & Hb & Hd). exists body.
  by rewrite <- (body_at_content v c1 c2), <- (deps_acks_content c1 c2).
Qed.
Lemma dep_edge_content c1 c2 c' :
  Commit_content c1 = Commit_content c2 → dep_edge v c1 c' → dep_edge v c2 c'.
Proof.
  unfold dep_edge, is_root. intros Hc.
  by rewrite <- (body_at_content v c1 c2), <- (deps_acks_content c1 c2).
Qed.
Lemma all_complete_content c1 c2 :
  Commit_content c1 = Commit_content c2 → all_complete c1 → all_complete c2.
Proof.
  intros Hc Hall c' Hreach. apply rtc_inv in Hreach as [<-|(c3 & Hedge & Hreach)].
  { eapply complete_content; [exact Hc|]. apply Hall. constructor. }
  apply Hall. eapply rtc_l; [|exact Hreach]. by eapply dep_edge_content; [symmetry|].
Qed.

Definition rec_complete
    (rec : Commit → deps_state → outcome (result (deps_state (S := S)) CommitLoadError)) : Prop :=
  ∀ c V M s res, unchanged s0 s → all_complete c →
  rec c (V, M, s) = Ret res → ∃ V' s', res = Ok (V', M, s') ∧ unchanged s0 s'.

Lemma load_deps_complete rec deps V M s res :
  rec_complete rec → unchanged s0 s →
  (∀ r, r ∈ deps → ∃ c', commit_at v r = Ret (Ok c') ∧ all_complete c') →
  load_deps obj_fuel rec deps (V, M, s) = Ret res → ∃ V' s', res = Ok (V', M, s') ∧ unchanged s0 s'.
Proof.
  intros Hrec. revert V M s. induction deps as [|r deps IH]; intros V M s Hun Hdeps; cbn [load_deps].
  { intros [= <-]. by exists V, s. }
  destruct (Commit_load obj_fuel r s) as [[cres s1]| |] eqn:Hl; cbn [mbind outcome_bind]; try done.
  destruct (Commit_load_at r s0 s cres s1 Hun Hl) as [Hat Hun1].
  destruct (Hdeps r ltac:(left)) as (c & Hc & Hall). rewrite Hc in Hat. injection Hat as <-.
  destruct (rec c (V, M, s1)) as [res1| |] eqn:Hr; cbn [try_bind]; try done.
  destruct (Hrec c V M s1 res1 Hun1 Hall Hr) as (V1 & s2 & -> & Hun2).
  apply IH; [done|]. intros r' Hr'. apply Hdeps. by right.
Qed.
Lemma visit_commit_complete rec c V M s res :
  rec_complete rec → unchanged s0 s → all_complete c →
  visit_commit obj_fuel rec c (V, M, s) = Ret res → ∃ V' s', res = Ok (V', M, s') ∧ unchanged s0 s'.
Proof.
  intros Hrec Hun Hall. unfold visit_commit.
  destruct (Commit_load_body obj_fuel c s) as [[bres s1]| |] eqn:Hl; cbn [mbind outcome_bind]; try done.
  destruct (Commit_load_body_at c s0 s bres s1 Hun Hl) as [Hat Hun1].
  destruct (Hall c (rtc_refl _ c)) as (body & Hb & Hd). rewrite Hb in Hat. injection Hat as <-.
  cbn [try_bind]. case_bool_decide as Hroot; cbn [negb]; [intros [= <-]; by exists V, s1|].
  apply load_deps_complete; [done..|]. intros r Hr. destruct Hd as [?|Hd]; [done|].
  destruct (Hd r Hr) as [c' Hc']. exists c'. split; [done|]. intros c'' Hreach. apply Hall.
  eapply rtc_l; [|exact Hreach]. split; [|by exists r].
  intros (body' & Hb' & ?). rewrite Hb in Hb'. by simplify_eq.
Qed.
Lemma load_branch_complete fuel : rec_complete (load_branch obj_fuel fuel).
Proof.
  induction fuel as [|fuel IH]; intros c V M s res Hun Hall; [done|]. cbn [load_branch].
  destruct (Commit_id c) as [i|]; [|by apply visit_commit_complete].
  destruct (decide (i ∈ V)); [intros [= <-]; by exists V, s|by apply visit_commit_complete].
Qed.

(** ** The walk terminates

    Objects form no cycle, and the fuel of [Object::load] is above their height.
    Commits may form cycles: every visit adds a stored identifier to those visited,
    so one more than their number is enough fuel. *)

Variable rank : BlockId → nat.
Hypothesis Hrank : ranked v rank.
Hypothesis Hobj_fuel : ∀ i, (rank i + 1 < obj_fuel)%nat.

Lemma load_content_returns r s :
  unchanged s0 s → ∃ res s', load_content obj_fuel r s = Ret (res, s') ∧
  ∀ c, res = Ok c → BlockRef_id r ∈ dom v.
Proof.
  intros [Hinv Hv]. unfold load_content.
  destruct (Object_load_returns rank obj_fuel (BlockRef_id r) (Some (BlockRef_key r)) s)
    as (res & s' & -> & _ & _ & Hmiss & Hne); [done|by rewrite Hv|done|].
  cbn [mbind outcome_bind]. destruct res as [o|e].
  - destruct (Object_content_returns o (Hne o eq_refl)) as [[c|e] ->]; cbn; eexists _, s';
      (split; [reflexivity|]); intros c' [= _].
    rewrite Hv in Hmiss. apply elem_of_dom.
    destruct (v !! BlockRef_id r) eqn:Hr; [by eexists|].
    destruct Hmiss as (ms & ? & _); [|done]. exists (BlockRef_id r). split; [constructor|done].
  - destruct e; eexists _, s'; (split; [reflexivity|]); by intros c [=].
Qed.

Lemma Commit_load_returns r s :
  unchanged s0 s → ∃ res s', Commit_load obj_fuel r s = Ret (res, s') ∧
  ∀ c, res = Ok c → BlockRef_id r ∈ dom v.
Proof.
  intros Hun. unfold Commit_load. destruct (load_content_returns r s Hun) as (res & s' & -> & Hd).
  cbn [mbind outcome_bind]. eexists _, s'. split; [reflexivity|]. intros c Hc.
  destruct res as [c'|]; [|done]. by apply (Hd c').
Qed.
Lemma Commit_load_body_returns c s :
  unchanged s0 s → returns (Commit_load_body obj_fuel c s).
Proof.
  intros Hun. unfold Commit_load_body.
  destruct (load_content_returns (CommitContentV0_body (Commit_content c)) s Hun) as (res & s' & -> & _).
  cbn [mbind outcome_bind]. by eexists.
Qed.

Definition rec_total (n : nat)
    (rec : Commit → deps_state → outcome (result (deps_state (S := S)) CommitLoadError)) : Prop :=
  ∀ c i V M s, unchanged s0 s → Commit_id c = Some i → i ∈ dom v →
  (size (dom v ∖ V) < n)%nat → returns (rec c (V, M, s)).

Lemma load_deps_returns n rec deps V M s :
  rec_ok rec → rec_total n rec → unchanged s0 s → (size (dom v ∖ V) < n)%nat →
  returns (load_deps obj_fuel rec deps (V, M, s)).
Proof.
  intros Hok Hrec. revert V M s. induction deps as [|r deps IH]; intros V M s Hun Hn; cbn [load_deps].
  { by eexists. }
  destruct (Commit_load_returns r s Hun) as (res & s1 & Hl & Hd). rewrite Hl.
  cbn [mbind outcome_bind]. destruct (Commit_load_at r s0 s res s1 Hun Hl) as [Hat Hun1].
  destruct res as [c|[m| |]]; [|by apply IH|by eexists..].
  destruct (Hrec c (BlockRef_id r) V M s1 Hun1) as [res Hr];
    [by eapply commit_at_id|by apply (Hd c)|done|]. rewrite Hr.
  destruct res as [[[V1 M1] s2]|e]; cbn [try_bind]; [|by eexists].
  destruct (Hok c V M s1 V1 M1 s2 Hun1 Hr) as (Hun2 & HV & _). apply IH; [done|].
  eapply Nat.le_lt_trans; [|exact Hn]. apply subseteq_size. set_solver.
Qed.

Lemma visit_commit_returns n rec c V M s :
  rec_ok rec → rec_total n rec → unchanged s0 s → (size (dom v ∖ V) < n)%nat →
  returns (visit_commit obj_fuel rec c (V, M, s)).
Proof.
  intros Hok Hrec Hun Hn. unfold visit_commit.
  destruct (Commit_load_body_returns c s Hun) as [[res s1] Hl]. rewrite Hl.
  destruct (Commit_load_body_at c s0 s res s1 Hun Hl) as [_ Hun1]. cbn [mbind outcome_bind].
  destruct res as [body|[m| |]]; cbn [try_bind]; [|by eapply load_deps_returns|by eexists..].
  destruct (negb _); [by eapply load_deps_returns|by eexists].
Qed.

Lemma load_branch_returns fuel : rec_total fuel (load_branch obj_fuel fuel).
Proof.
  induction fuel as [|fuel IH]; intros c i V M s Hun Hid Hi Hn; [lia|]. cbn [load_branch].
  rewrite Hid. destruct (decide (i ∈ V)) as [|HiV]; [by eexists|].
  apply (visit_commit_returns fuel); [apply load_branch_spec|done|done|].
  eapply Nat.lt_le_trans; [|apply Nat.lt_succ_r, Hn].
  apply subset_size. set_solver.
Qed.

(** One more turn for the commit the walk starts from, which may not be stored. *)
Lemma load_branch_start fuel c s :
  unchanged s0 s → (size v < fuel)%nat → returns (load_branch obj_fuel (Datatypes.S fuel) c (∅, ∅, s)).
Proof.
  intros Hun Hf. cbn [load_branch].
  assert (Hsz : ∀ V : gset ObjectId, (size (dom v ∖ V) < fuel)%nat).
  { intros V. eapply Nat.le_lt_trans; [|exact Hf]. rewrite <- size_dom.
    apply subseteq_size. set_solver. }
  destruct (Commit_id c) as [i|].
  - destruct (decide _); [by eexists|].
    apply (visit_commit_returns fuel); [apply load_branch_spec|apply load_branch_returns|done|done].
  - apply (visit_commit_returns fuel); [apply load_branch_spec|apply load_branch_returns|done|done].
Qed.
End Deps.

(** ** Signature, permission and dependencies *)

Lemma verify_perm_ok c body b :
  Commit_verify_perm c body (Branch_V0 b) = Ok tt ↔
  ∃ ms1 m ms2, BranchV0_members b = ms1 ++ m :: ms2 ∧
    MemberV0_id m = CommitContentV0_author (Commit_content c) ∧
    Forall (λ m', MemberV0_id m' ≠ CommitContentV0_author (Commit_content c)) ms1 ∧
    CommitBody_to_type body ∈ MemberV0_commit_types m.
Proof.
  unfold Commit_verify_perm, Branch_get_member, MemberV0_has_perm.
  destruct (find_member _ _) as [m|] eqn:Hm.
  - pose proof Hm as (ms1 & ms2 & Hms & Hid & Hne)%find_member_spec.
    case_bool_decide as Hp; split; [|done|done|].
    + intros _. by exists ms1, m, ms2.
    + intros (ms1' & m' & ms2' & Hms' & Hid' & Hne' & Hp').
      assert (Hm' : find_member (BranchV0_members b) (CommitContentV0_author (Commit_content c)) = Some m')
        by (apply find_member_spec; by exists ms1', ms2').
      congruence.
  - split; [done|]. intros (ms1' & m' & ms2' & Hms' & Hid' & Hne' & Hp').
    assert (Hm' : find_member (BranchV0_members b) (CommitContentV0_author (Commit_content c)) = Some m')
      by (apply find_member_spec; by exists ms1', ms2').
    congruence.
Qed.

Lemma verify_sig_ok `{!Ed25519, !Serde CommitContentV0} c :
  Commit_verify_sig c = Ok tt → ∃ pk sig,
  public_from_bytes (array_list (PubKey_slice (CommitContentV0_author (Commit_content c)))) = Some pk ∧
  signature_from_bytes (Sig_bytes (Commit_sig c)) = Some sig ∧
  verify_strict pk (to_vec (Commit_content c)) sig = true.
Proof.
  destruct c as [c]. unfold Commit_verify_sig, verify_bytes. cbn [Commit_content Commit_sig].
  destruct (public_from_bytes _) as [pk|]; cbn; [|done].
  destruct (signature_from_bytes _) as [sig|]; cbn; [|done].
  destruct (verify_strict _ _ _) eqn:Hv; [|done]. by exists pk, sig.
Qed.

Lemma verify_deps_sound `{!Crypto, !Ed25519}
    `{!Serde Block, !Serde BlockContentV0, !Serde ObjectContent, !Serde CommitContentV0}
    `{!SerdeLaws Block} {S : Type} `{!RepoStore S, !RepoStoreSpec S, !RepoStoreTotal S}
    obj_fuel fuel c (s : S) ids s' :
  store_inv s → ids_unique obj_fuel (store_view s) c →
  Commit_verify_deps obj_fuel fuel c s = Ret (Ok (ids, s')) →
  (∀ c', commit_reach obj_fuel (store_view s) c c' → complete obj_fuel (store_view s) c') ∧
  (∀ i, i ∈ ids ↔ ∃ c', commit_reach obj_fuel (store_view s) c c' ∧ Commit_id c' = Some i) ∧
  store_view s' = store_view s.
Proof.
  intros Hinv Huniq. unfold Commit_verify_deps.
  destruct (load_branch obj_fuel fuel c (∅, ∅, s)) as [[[[V M] s1]|]| |] eqn:Hl; cbn [try_bind]; try done.
  case_decide as HM; [|done]. subst M. intros [= <- <-].
  destruct (load_branch_reach obj_fuel s fuel c V s s1 (unchanged_refl s Hinv) Huniq Hl)
    as [[_ Hv] Hall].
  split_and!; [intros c' Hr; apply (Hall c' Hr)| |done].
  intros i. rewrite elem_of_elements. split.
  - by apply (load_branch_visited obj_fuel s fuel c V s s1).
  - intros (c' & Hr & Hi). by apply (Hall c' Hr).
Qed.
