(* ===== verification/CommitProps.v ===== *)
(** * Properties of commits

    The theorems about signing, loading and verifying commits, with examples on a
    small branch of two commits. *)

From S2P Require Import Prelude Serde Types Bare BareTypes Block Store Object.
From S2P Require Import ObjectTree ObjectProps ObjectStore ObjectStoreProps ObjectSim.
From S2P Require Import Utils Branch Commit CommitDeps.

Section Props.
Context `{!Crypto, !CryptoLaws, !Ed25519, !Ed25519Laws}.
Context `{!Serde Block, !Serde BlockContentV0, !Serde ObjectContent, !Serde CommitContentV0}.
Context `{!SerdeLaws Block, !SerdeLaws BlockContentV0, !SerdeLaws ObjectContent}.
Context `{!SerdeTagged ObjectContent}.
Context {S : Type} `{!RepoStore S, !RepoStoreSpec S, !RepoStoreTotal S}.

Lemma verify_sig_content c c' :
  Commit_content c' = Commit_content c → Commit_sig c' = Commit_sig c →
  Commit_verify_sig c' = Commit_verify_sig c.
Proof. destruct c, c'; simpl. by intros -> ->. Qed.

(** [Commit::verify] accepts what is signed, permitted and complete in the store. *)
Lemma Commit_verify_complete rank obj_fuel fuel c branch body (s : S) :
  store_inv s → ranked (store_view s) rank → (∀ i, (rank i + 1 < obj_fuel)%nat) →
  (size (store_view s) + 1 < fuel)%nat →
  Commit_verify_sig c = Ok tt → body_at obj_fuel (store_view s) c = Ret (Ok body) →
  Commit_verify_perm c body branch = Ok tt → all_complete obj_fuel s c →
  Commit_verify obj_fuel fuel c branch s = Ret (Ok tt).
Proof.
  intros Hinv Hrk Hof Hf Hsig Hbody Hperm Hall. unfold Commit_verify. rewrite Hsig. cbn [map_err try_bind].
  pose proof (unchanged_refl s Hinv) as Hun.
  destruct (Commit_load_body_returns obj_fuel s rank Hrk Hof c s Hun) as [[res s1] Hl]. rewrite Hl.
  destruct (Commit_load_body_at obj_fuel c s s res s1 Hun Hl) as [Hat Hun1].
  rewrite Hbody in Hat. injection Hat as <-. cbn [mbind outcome_bind map_err try_bind].
  rewrite Hperm. cbn [try_bind]. unfold Commit_verify_deps.
  destruct fuel as [|fuel]; [lia|].
  destruct (load_branch_start obj_fuel s rank Hrk Hof fuel c s1 Hun1) as [res Hw]; [lia|].
  destruct (load_branch_complete obj_fuel s _ c ∅ ∅ s1 res Hun1 Hall Hw) as (V & s2 & -> & _).
  rewrite Hw. cbn [try_bind]. by rewrite decide_True.
Qed.

(** C31: a commit made with a generated key pair is signed and its signature is accepted. Put
    in an object with at most eight dependencies, saved to a store and loaded by the object's
    reference, it has the same content and carries the identifier and the key it was loaded
    by; its signature is accepted again, and [Commit::verify] accepts it, as it is made and as
    it is loaded, in any branch of which its author is a member with permission for its body,
    when every commit reachable from it is complete in the store. *)
Theorem Commit_sign_load_verify seed seq branch deps acks refs metadata body expiry :
  let '(sk, pk) := generate_keypair seed in ∃ c,
  Commit_new sk pk seq branch deps acks refs metadata body expiry = Ok c ∧
  Commit_verify_sig c = Ok tt ∧
  ∀ odeps oexpiry bs rpk rsk o (s : S),
  (bs + HEADER < usize_max)%N → (len odeps <= 8)%N → store_inv s →
  Object_new (ObjectContent_Commit c) odeps oexpiry bs rpk rsk = Ret o →
  collision_free (Object_blocks o) → ∃ r s1,
  Object_reference o = Ret (Some r) ∧ Object_save o s = Ret (Ok tt, s1) ∧
  ∀ obj_fuel, (length (Object_blocks o) < obj_fuel)%nat → ∃ c' s2,
  Commit_load obj_fuel r s1 = Ret (Ok c', s2) ∧
  Commit_content c' = Commit_content c ∧ Commit_sig c' = Commit_sig c ∧
  Commit_id c' = Some (BlockRef_id r) ∧ Commit_key c' = Some (BlockRef_key r) ∧
  Commit_verify_sig c' = Ok tt ∧
  ∀ rank fuel b commit_body, ranked (store_view s1) rank → (∀ i, (rank i + 1 < obj_fuel)%nat) →
  (size (store_view s1) + 1 < fuel)%nat →
  body_at obj_fuel (store_view s1) c = Ret (Ok commit_body) →
  Commit_verify_perm c commit_body b = Ok tt →
  (∀ c1, commit_reach obj_fuel (store_view s1) c c1 → complete obj_fuel (store_view s1) c1) →
  Commit_verify obj_fuel fuel c b s1 = Ret (Ok tt) ∧ Commit_verify obj_fuel fuel c' b s2 = Ret (Ok tt).
Proof.
  pose proof (sign_verify_bytes seed) as Hsv. destruct (generate_keypair seed) as [sk pk].
  unfold Commit_new, CommitV0_new. set (content := Build_CommitContentV0 _ _ _ _ _ _ _ _ _).
  destruct (Hsv (to_vec content)) as (sig & Hs & Hv).
  change (sign_bytes sk pk _) with (sign_bytes sk pk (to_vec content)). rewrite Hs. cbn [fst].
  eexists. split; [reflexivity|]. split; [exact Hv|].
  intros odeps oexpiry bs rpk rsk o s Hbs Hd Hinv Hnew Hcf.
  destruct (new_save_load _ _ _ _ _ _ _ _ Hbs Hd Hinv Hnew Hcf) as (r & s1 & Href & Hsave & Hinv1 & Hload).
  exists r, s1. split_and!; [done..|]. intros f Hf.
  destruct (Hload f Hf) as (o' & s2 & Hl & Hc & _).
  assert (Hcl : Commit_load f r s1 = Ret (Ok (Commit_set_key (BlockRef_key r) (Commit_set_id (BlockRef_id r)
    (Commit_V0 {| CommitV0_id := None; CommitV0_key := None; CommitV0_content := content; CommitV0_sig := sig |}))), s2)).
  { unfold Commit_load, load_content. rewrite Hl. cbn [mbind outcome_bind]. rewrite Hc. reflexivity. }
  destruct (Commit_load_at f r s1 s1 _ s2 (unchanged_refl s1 Hinv1) Hcl) as [_ [Hinv2 Hv2]].
  eexists _, s2. split; [exact Hcl|].
  do 4 (split; [reflexivity|]). split; [exact Hv|].
  intros rank fuel b cbody Hrk Hof Hfuel Hbody Hperm Hall. split.
  - by apply (Commit_verify_complete rank f fuel _ b cbody s1).
  - apply (Commit_verify_complete rank f fuel _ b cbody s2); rewrite ?Hv2; try done.
    intros c1. rewrite Hv2. revert c1.
    match goal with |- ∀ c1, commit_reach _ _ ?c c1 → _ => change (all_complete f s1 c) end.
    eapply all_complete_content; [|exact Hall]. reflexivity.
Qed.

(** [verify_perm] accepts exactly the commits whose author is a member of the
    branch whose first entry in the list of members allows the type of the body. *)
Theorem Commit_verify_perm_spec c body b :
  (Commit_verify_perm c body (Branch_V0 b) = Ok tt ↔
   ∃ ms1 m ms2, BranchV0_members b = ms1 ++ m :: ms2 ∧
     MemberV0_id m = CommitContentV0_author (Commit_content c) ∧
     Forall (λ m', MemberV0_id m' ≠ CommitContentV0_author (Commit_content c)) ms1 ∧
     CommitBody_to_type body ∈ MemberV0_commit_types m) ∧
  (Commit_verify_perm c body (Branch_V0 b) = Ok tt ∨
   Commit_verify_perm c body (Branch_V0 b) = Err CommitVerifyError_PermissionDenied).
Proof. split; [apply verify_perm_ok|]. unfold Commit_verify_perm. by repeat case_match; auto. Qed.

(** C13: when [verify_deps] accepts, every commit reachable from the commit through
    [deps] and [acks], without going past the commit that defines the branch, is in
    the store: its body loads and, but for that root, every commit it depends on
    loads. The answer lists exactly the identifiers of the commits reachable, and the
    store is unchanged. An identifier must stand for one commit: two commits that are
    reachable and have the same one have the same content, which [ids_unique] says. *)
Theorem Commit_verify_deps_sound obj_fuel fuel c (s : S) ids s' :
  store_inv s → ids_unique obj_fuel (store_view s) c →
  Commit_verify_deps obj_fuel fuel c s = Ret (Ok (ids, s')) →
  (∀ c', commit_reach obj_fuel (store_view s) c c' → complete obj_fuel (store_view s) c') ∧
  (∀ i, i ∈ ids ↔ ∃ c', commit_reach obj_fuel (store_view s) c c' ∧ Commit_id c' = Some i) ∧
  store_view s' = store_view s.
Proof. apply verify_deps_sound. Qed.

(** C32: [verify_deps] returns, on any store of objects without cycles and any graph of
    commits, cycles included: one turn more than there are blocks, and one for the
    commit itself, is enough. *)
Theorem Commit_verify_deps_returns rank obj_fuel fuel c (s : S) :
  store_inv s → ranked (store_view s) rank → (∀ i, (rank i + 1 < obj_fuel)%nat) →
  (size (store_view s) + 1 < fuel)%nat →
  returns (Commit_verify_deps obj_fuel fuel c s).
Proof.
  intros Hinv Hrk Hof Hf. unfold Commit_verify_deps. destruct fuel as [|fuel]; [lia|].
  destruct (load_branch_start obj_fuel s rank Hrk Hof fuel c s (unchanged_refl s Hinv)) as [res ->];
    [lia|].
  destruct res as [[[V M] s']|e]; cbn [try_bind]; [|by eexists]. case_decide; by eexists.
Qed.

(** C3: a commit that [Commit::verify] accepts is signed by its author over its
    content; its body is in the store, and its author is a member of the branch with
    permission for that type of body; and every commit reachable from it is in the
    store. An identifier must stand for one commit ([ids_unique]). *)
Theorem Commit_verify_sound obj_fuel fuel c b (s : S) :
  store_inv s → ids_unique obj_fuel (store_view s) c →
  Commit_verify obj_fuel fuel c (Branch_V0 b) s = Ret (Ok tt) →
  (∃ pk sig, public_from_bytes (array_list (PubKey_slice (CommitContentV0_author (Commit_content c)))) = Some pk ∧
             signature_from_bytes (Sig_bytes (Commit_sig c)) = Some sig ∧
             verify_strict pk (to_vec (Commit_content c)) sig = true) ∧
  (∃ body m, body_at obj_fuel (store_view s) c = Ret (Ok body) ∧ m ∈ BranchV0_members b ∧
             MemberV0_id m = CommitContentV0_author (Commit_content c) ∧
             CommitBody_to_type body ∈ MemberV0_commit_types m) ∧
  ∀ c', commit_reach obj_fuel (store_view s) c c' → complete obj_fuel (store_view s) c'.
Proof.
  intros Hinv Huniq. unfold Commit_verify.
  destruct (Commit_verify_sig c) as [[]|] eqn:Hsig; cbn [map_err try_bind]; [|done].
  destruct (Commit_load_body obj_fuel c s) as [[res s1]| |] eqn:Hb; cbn [mbind outcome_bind]; try done.
  destruct (Commit_load_body_at obj_fuel c s s res s1 (unchanged_refl s Hinv) Hb) as [Hat [Hinv1 Hv1]].
  destruct res as [body|]; cbn [map_err try_bind]; [|done].
  destruct (Commit_verify_perm c body (Branch_V0 b)) as [[]|] eqn:Hperm; cbn [try_bind]; [|done].
  destruct (Commit_verify_deps obj_fuel fuel c s1) as [[[ids s2]|]| |] eqn:Hdeps; cbn; try done.
  intros _. split_and!.
  - by apply verify_sig_ok.
  - apply verify_perm_ok in Hperm as (ms1 & m & ms2 & Hms & ? & _ & ?).
    exists body, m. split_and!; [done| |done|done]. rewrite Hms. set_solver.
  - rewrite <- Hv1. eapply verify_deps_sound; [done| |exact Hdeps]. by rewrite Hv1.
Qed.
End Props.

(** ** Examples: a branch of two commits *)

Module Examples.
Import BareTypes.Instances ObjectProps.Examples ObjectStoreProps.Examples.

Definition author : PrivKey * PubKey := generate_keypair (replicate 32 x07).
Definition no_ref : ObjectRef :=
  {| BlockRef_id := Blake3Digest32 (array_fill 32 x00); BlockRef_key := sk |}.
Definition no_object : Object := {| Object_blocks := []; Object_deps := [] |}.
Definition get_ok {A E} (d : A) (r : result A E) : A := match r with Ok a => a | Err _ => d end.

Definition object_of (c : ObjectContent) : Object := out no_object (Object_new c [] None 0 pk sk).
Definition ref_of (o : Object) : ObjectRef := default no_ref (out None (Object_reference o)).
Definition member : MemberV0 :=
  MemberV0_new author.2 [CommitType_Branch; CommitType_Ack] [].
Definition branchV0 : BranchV0 :=
  BranchV0_new author.2 author.2 sk [member] ∅ (Seconds x00) [] [].

Definition body1 : CommitBody := CommitBody_Branch (Branch_V0 branchV0).
Definition body2 : CommitBody := CommitBody_Ack Ack_V0.
Definition obj_body1 : Object := object_of (ObjectContent_CommitBody body1).
Definition obj_body2 : Object := object_of (ObjectContent_CommitBody body2).

Definition sample (seq : N) (deps : list ObjectRef) (body : Object) : Commit :=
  get_ok (Commit_V0 {| CommitV0_id := None; CommitV0_key := None;
            CommitV0_content := {|
              CommitContentV0_author := author.2; CommitContentV0_seq := uint_wrap 32 0;
              CommitContentV0_branch := no_ref; CommitContentV0_deps := [];
              CommitContentV0_acks := []; CommitContentV0_refs := [];
              CommitContentV0_metadata := []; CommitContentV0_body := no_ref;
              CommitContentV0_expiry := None |};
            CommitV0_sig := Ed25519Sig (array_fill 32 x00) (array_fill 32 x00) |})
    (Commit_new author.1 author.2 (uint_wrap 32 seq) no_ref deps [] [] [] (ref_of body) None).
Definition c1 : Commit := sample 0 [] obj_body1.
Definition obj_c1 : Object := object_of (ObjectContent_Commit c1).
Definition c2 : Commit := sample 1 [ref_of obj_c1] obj_body2.

Definition save_all (l : list Object) : HashMapRepoStore :=
  foldl (λ s o, (out (Ok tt, s) (Object_save o s)).2) HashMapRepoStore.new l.
Definition store : HashMapRepoStore := save_all [obj_body1; obj_c1; obj_body2].

Lemma save_all_inv (l : list Object) s :
  Forall (λ o, Forall id_ok (Object_blocks o) ∧ collision_free (Object_blocks o)) l →
  store_inv s → store_inv (foldl (λ s o, (out (Ok tt, s) (Object_save o s)).2) s l).
Proof.
  intros Hl. revert s. induction Hl as [|o l [Hok Hcf] _ IH]; intros s Hinv; [done|].
  cbn [foldl]. apply IH.
  destruct (save_blocks_stored o s Hcf Hok Hinv) as (s1 & -> & ? & _). done.
Qed.
Definition object_ok_b (o : Object) : bool :=
  bool_decide (Forall id_ok (Object_blocks o)) &&
  collision_free_b ((λ b, (Block_id b, serde_skip b)) <$> Object_blocks o).
Lemma objects_ok_dec l :
  forallb object_ok_b l = true →
  Forall (λ o, Forall id_ok (Object_blocks o) ∧ collision_free (Object_blocks o)) l.
Proof.
  rewrite forallb_forall. intros Hl. apply Forall_forall. intros o Ho%list_elem_of_In%Hl.
  apply andb_prop in Ho as [Hid Hcf]. split; [by apply bool_decide_eq_true in Hid|].
  by apply collision_free_dec.
Qed.
Lemma store_ok : store_inv store.
Proof.
  unfold store, save_all. apply save_all_inv; [|apply HashMapRepoStore_new_inv].
  apply objects_ok_dec. vm_compute. reflexivity.
Qed.
Example c2_verifies :
  match Commit_verify 3 6 c2 (Branch_V0 branchV0) store with Ret (Ok tt) => true | _ => false end
  = true.
Proof. vm_compute. reflexivity. Qed.
Example c2_deps :
  match Commit_verify_deps 3 6 c2 store with
  | Ret (Ok (ids, _)) => bool_decide (ids = [BlockRef_id (ref_of obj_c1)])
  | _ => false
  end = true.
Proof. vm_compute. reflexivity. Qed.

(** A commit whose one dependency is the root: what is reachable is the two. *)
Definition is_root_b (v : gmap BlockId Block) (c : Commit) : bool :=
  match body_at 3 v c with
  | Ret (Ok body) => bool_decide (CommitBody_to_type body = CommitType_Branch)
  | _ => false
  end.
Lemma is_root_b_ok v c : is_root_b v c = true → is_root 3 v c.
Proof.
  unfold is_root_b, is_root. destruct (body_at 3 v c) as [[body|]| |]; try done.
  intros Ht%bool_decide_eq_true. by exists body.
Qed.
Definition root_at_b (v : gmap BlockId Block) (r : ObjectRef) : bool :=
  match commit_at 3 v r with Ret (Ok c) => is_root_b v c | _ => false end.
Lemma root_at_b_ok v r c : root_at_b v r = true → commit_at 3 v r = Ret (Ok c) → is_root 3 v c.
Proof. unfold root_at_b. intros Hr Hc. rewrite Hc in Hr. by apply is_root_b_ok. Qed.
Lemma one_dep_reach v c r c' :
  bool_decide (Commit_deps_acks c = [r]) = true → root_at_b v r = true →
  commit_reach 3 v c c' → c' = c ∨ commit_at 3 v r = Ret (Ok c').
Proof.
  intros Hd%bool_decide_eq_true Hroot. revert c'.
  refine (rtc_ind_r (λ c', c' = c ∨ commit_at 3 v r = Ret (Ok c')) c _ _); [by left|].
  intros c3 c4 _ [Hnr (r' & Hr & Hc4)] [-> | Hc3].
  - right. rewrite Hd in Hr. by apply list_elem_of_singleton in Hr as ->.
  - destruct Hnr. by eapply root_at_b_ok.
Qed.
Lemma one_dep_unique v c r :
  bool_decide (Commit_deps_acks c = [r]) = true → root_at_b v r = true → Commit_id c = None →
  ids_unique 3 v c.
Proof.
  intros Hd Hroot Hid c3 c4 i H3 H4 Hi3 Hi4.
  apply (one_dep_reach v c r) in H3 as [-> | H3]; [congruence| |done..].
  apply (one_dep_reach v c r) in H4 as [-> | H4]; [congruence| |done..]. congruence.
Qed.

Definition ref1 : ObjectRef := ref_of obj_c1.
Lemma c2_unique : ids_unique 3 (store_view store) c2.
Proof. apply (one_dep_unique _ _ ref1); vm_compute; reflexivity. Qed.

Definition deps_answer : list ObjectId * HashMapRepoStore :=
  match Commit_verify_deps 3 6 c2 store with Ret (Ok x) => x | _ => ([], store) end.

Lemma Commit_verify_deps_sound_witness :
  (∀ c', commit_reach 3 (store_view store) c2 c' → complete 3 (store_view store) c') ∧
  (∀ i, i ∈ deps_answer.1 ↔
        ∃ c', commit_reach 3 (store_view store) c2 c' ∧ Commit_id c' = Some i) ∧
  store_view deps_answer.2 = store_view store.
Proof.
  apply (Commit_verify_deps_sound 3 6 c2 store deps_answer.1 deps_answer.2).
  - apply store_ok.
  - apply c2_unique.
  - vm_compute. reflexivity.
Defined.

Lemma Commit_verify_sound_witness :
  (∃ pk sig, public_from_bytes (array_list (PubKey_slice (CommitContentV0_author (Commit_content c2)))) = Some pk ∧
             signature_from_bytes (Sig_bytes (Commit_sig c2)) = Some sig ∧
             verify_strict pk (to_vec (Commit_content c2)) sig = true) ∧
  (∃ body m, body_at 3 (store_view store) c2 = Ret (Ok body) ∧ m ∈ BranchV0_members branchV0 ∧
             MemberV0_id m = CommitContentV0_author (Commit_content c2) ∧
             CommitBody_to_type body ∈ MemberV0_commit_types m) ∧
  ∀ c', commit_reach 3 (store_view store) c2 c' → complete 3 (store_view store) c'.
Proof.
  apply (Commit_verify_sound 3 6 c2 branchV0 store).
  - apply store_ok.
  - apply c2_unique.
  - vm_compute. reflexivity.
Defined.

(** No block has children or refers to a list of dependencies. *)
Lemma flat_ranked (v : gmap BlockId Block) :
  bool_decide (map_Forall (λ (_ : BlockId) b, Block_children b = [] ∧
    match Block_deps b with ObjectIdList _ => true | DepListRef _ => false end = true) v) = true →
  ranked v (λ _, 0%nat).
Proof.
  intros Hall%bool_decide_eq_true. split.
  - intros i j (b & [Hch _]%Hall & Hj). rewrite Hch in Hj. by apply elem_of_nil in Hj.
  - intros i b r [_ Hd]%Hall Hr. by rewrite Hr in Hd.
Qed.
Lemma view_ranked : ranked (store_view store) (λ _, 0%nat).
Proof. apply flat_ranked. vm_compute. reflexivity. Qed.
Lemma Commit_verify_deps_returns_witness : returns (Commit_verify_deps 3 6 c2 store).
Proof.
  apply (Commit_verify_deps_returns (λ _, 0%nat) 3 6 c2 store).
  - apply store_ok.
  - apply view_ranked.
  - intros _. vm_compute. do 2 constructor.
  - vm_compute. do 2 constructor.
Defined.

(** The second commit, saved and loaded with what it depends on. *)
Definition obj_c2 : Object := object_of (ObjectContent_Commit c2).
Definition store2 : HashMapRepoStore := (out (Ok tt, store) (Object_save obj_c2 store)).2.
Lemma store2_saved : Object_save obj_c2 store = Ret (Ok tt, store2).
Proof.
  assert (Hok : match Object_save obj_c2 store with Ret (Ok tt, _) => true | _ => false end = true)
    by (vm_compute; reflexivity).
  unfold store2. destruct (Object_save obj_c2 store) as [[[[]|e] s]| |]; [reflexivity|discriminate Hok..].
Qed.
Definition complete_b (v : gmap BlockId Block) (c : Commit) : bool :=
  match body_at 3 v c with
  | Ret (Ok body) =>
      bool_decide (CommitBody_to_type body = CommitType_Branch) ||
      forallb (λ r, match commit_at 3 v r with Ret (Ok _) => true | _ => false end) (Commit_deps_acks c)
  | _ => false
  end.
Lemma complete_b_ok v c : complete_b v c = true → complete 3 v c.
Proof.
  unfold complete_b, complete. destruct (body_at 3 v c) as [[body|]| |]; try done.
  intros [Ht%bool_decide_eq_true|Hall]%orb_true_iff; exists body; (split; [done|]); [by left|].
  right. rewrite forallb_forall in Hall. intros r Hr%list_elem_of_In%Hall.
  destruct (commit_at 3 v r) as [[c'|]| |]; [by exists c'|done..].
Qed.
Lemma one_dep_complete v c r :
  bool_decide (Commit_deps_acks c = [r]) = true → root_at_b v r = true →
  complete_b v c = true →
  match commit_at 3 v r with Ret (Ok c') => complete_b v c' | _ => false end = true →
  ∀ c', commit_reach 3 v c c' → complete 3 v c'.
Proof.
  intros Hd Hroot Hc Hr c' [->|Hc']%(one_dep_reach v c r); [by apply complete_b_ok| |done..].
  rewrite Hc' in Hr. by apply complete_b_ok.
Qed.

Lemma Commit_sign_load_verify_witness :
  ∃ r c' s2, Object_reference obj_c2 = Ret (Some r) ∧ Object_save obj_c2 store = Ret (Ok tt, store2) ∧
  Commit_load 3 r store2 = Ret (Ok c', s2) ∧
  Commit_content c' = Commit_content c2 ∧ Commit_sig c' = Commit_sig c2 ∧
  Commit_id c' = Some (BlockRef_id r) ∧ Commit_key c' = Some (BlockRef_key r) ∧
  Commit_verify_sig c' = Ok tt ∧
  Commit_verify 3 7 c2 (Branch_V0 branchV0) store2 = Ret (Ok tt) ∧
  Commit_verify 3 7 c' (Branch_V0 branchV0) s2 = Ret (Ok tt).
Proof.
  destruct (Commit_sign_load_verify (S := HashMapRepoStore) (replicate 32 x07) (uint_wrap 32 1) no_ref [ref1] [] [] []
    (ref_of obj_body2) None) as (c & Hc & _ & Hl).
  change (Commit_new author.1 author.2 (uint_wrap 32 1) no_ref [ref1] [] [] []
    (ref_of obj_body2) None = Ok c) in Hc.
  assert (Hc2 : c2 = c) by (unfold c2, sample; fold ref1; by rewrite Hc). subst c.
  destruct (Hl [] None 0%N pk sk obj_c2 store) as (r & s1 & Hr & Hsave & Hload).
  - reflexivity.
  - vm_compute. discriminate.
  - apply store_ok.
  - vm_compute. reflexivity.
  - apply collision_free_dec. vm_compute. reflexivity.
  - rewrite store2_saved in Hsave. injection Hsave as <-.
    destruct (Hload 3) as (c' & s2 & H1 & H2 & H3 & H4 & H5 & H6 & Hverify); [vm_compute; lia|].
    exists r, c', s2. split; [exact Hr|]. split; [exact store2_saved|].
    do 6 (split; [assumption|]).
    apply (Hverify (λ _, 0%nat) 7 (Branch_V0 branchV0) body2).
    + apply flat_ranked. vm_compute. reflexivity.
    + intros _. lia.
    + vm_compute. lia.
    + vm_compute. reflexivity.
    + vm_compute. reflexivity.
    + apply (one_dep_complete _ _ ref1); vm_compute; reflexivity.
Defined.
End Examples.
