(* ===== verification/BranchSync.v ===== *)
(** * What a synchronization request visits

    [Branch::sync_req] walks the dependencies of objects depth first, from each head,
    and stops at the heads of the peer and at objects without dependencies. The graph
    is read from the map a store stands for ([ObjectSim]); this file relates what a
    walk visits to what is reachable, and bounds its fuel. *)

From S2P Require Import Prelude Serde Types Block Store Object ObjectTree ObjectStore.
From S2P Require Import Bare BareTypes ObjectProps ObjectStoreProps ObjectSim Branch CommitProps.

Section Sync.
Context `{!Crypto, !Bloom} `{!Serde Block, !Serde BlockContentV0, !Serde ObjectContent}.
Context `{!SerdeLaws Block}.
Variable obj_fuel : nat.

(** ** The graph of objects of a map of blocks *)

Definition object_at (v : gmap BlockId Block) (i : ObjectId)
    : outcome (result Object ObjectParseError) := fst <$> Object_load obj_fuel i None v.

(** From [i], which is not a head of the peer, to a dependency that is there. *)
Definition sync_edge (v : gmap BlockId Block) (T : list ObjectId) (i j : ObjectId) : Prop :=
  (i ∉ T) ∧ (∃ o, object_at v i = Ret (Ok o) ∧ j ∈ Object_deps o) ∧
  ∃ o', object_at v j = Ret (Ok o').
Definition sync_reach (v : gmap BlockId Block) (T : list ObjectId)
  : ObjectId → ObjectId → Prop := rtc (sync_edge v T).

(** [j] is reached from the head [h], is not a head of the peer and is not the root. *)
Definition sync_walk (v : gmap BlockId Block) (T : list ObjectId) (h j : ObjectId) : Prop :=
  sync_reach v T h j ∧ (j ∉ T) ∧ ∃ o, object_at v j = Ret (Ok o) ∧ Object_deps o ≠ [].

Context {S : Type} `{!RepoStore S, !RepoStoreSpec S, !RepoStoreTotal S}.

(** ** The identifier of what is loaded *)

Lemma load_tree_grows fuel ps s acc miss bs ms s' :
  store_inv s → load_tree fuel ps s acc miss = Ret (bs, ms, s') →
  ∃ bs0 : list Block, bs = bs0 ++ acc.
Proof.
  revert ps s acc miss. induction fuel as [|fuel IH]; intros ps s acc miss Hinv; [done|].
  cbn [load_tree]. destruct (load_parents_any ps s acc miss [] Hinv)
    as (bs1 & ms1 & ch & s1 & -> & Hinv1 & _). cbn [mbind outcome_bind app].
  destruct ch as [|c ch]; [intros [= <- _ _]; by exists bs1|].
  intros (bs0 & ->)%IH; [|done]. exists (bs0 ++ bs1). by rewrite app_assoc.
Qed.

Lemma load_tree_root fuel id s bs s' :
  store_inv s → load_tree fuel [id] s [] [] = Ret (bs, [], s') →
  ∃ b, last bs = Some b ∧ Block_id b = id.
Proof.
  intros Hinv. destruct fuel as [|fuel]; [done|]. cbn [load_tree load_parents].
  destruct (store_get_returns s id Hinv) as [[r s1] Hget]. rewrite Hget.
  destruct (store_get_spec s id r s1 Hinv Hget) as (Hinv1 & Hv1 & Hr).
  destruct (store_view s !! id) as [b0|] eqn:Hid; [|subst r; cbn; by intros [=]].
  destruct Hr as (b & -> & Hs & Hok & _). cbn [mbind outcome_bind app].
  assert (Hb : Block_id b = id).
  { destruct (store_view_skip s id b0 Hinv Hid) as [_ <-]. by rewrite Hok, <- Hs, get_id_skip. }
  destruct (reverse (Block_children b)) as [|c ch]; [intros [= <- _]; by exists b|].
  intros Hl. destruct (load_tree_grows _ _ _ _ _ _ _ _ Hinv1 Hl) as (bs0 & ->).
  exists b. by rewrite last_app.
Qed.

Lemma Object_load_id fuel id s o s' :
  store_inv s → Object_load fuel id None s = Ret (Ok o, s') → Object_id o = Ret id.
Proof.
  intros Hinv. destruct fuel as [|fuel]; [done|].
  destruct (load_tree fuel [id] s [] []) as [[[bs [|m ms]] s1]| |] eqn:Hl.
  - destruct (load_tree_root _ _ _ _ _ Hinv Hl) as (b & Hb & Hid).
    rewrite (Object_load_found _ _ _ _ _ _ _ Hl Hb). unfold set_root_key.
    assert (Hob : ∀ deps, Object_id {| Object_blocks := bs; Object_deps := deps |} = Ret id)
      by (intros; unfold Object_id, Object_root; cbn; by rewrite Hb; cbn; rewrite Hid).
    destruct (Block_deps b) as [ids|r]; [by intros [= <- _]|].
    destruct (Object_load fuel _ _ s1) as [[[o'|] s2]| |]; cbn; try done.
    destruct (Object_content o') as [[[| | |[ids]]|]| |]; cbn; try done. by intros [= <- _].
  - by rewrite (Object_load_missing _ _ _ _ _ _ _ _ Hl).
  - cbn [Object_load]. by rewrite Hl.
  - cbn [Object_load]. by rewrite Hl.
Qed.

Variable s0 : S.
Local Abbreviation v := (store_view s0).
Variable T : list ObjectId.

(** An object as it comes from a store with the map [v]. *)
Definition object_from (i : ObjectId) (o : Object) : Prop :=
  Object_id o = Ret i ∧ ∃ o0, object_at v i = Ret (Ok o0) ∧ Object_deps o = Object_deps o0.

Lemma load_at i s res s' :
  unchanged s0 s → Object_load obj_fuel i None s = Ret (res, s') →
  unchanged s0 s' ∧ match res with
                    | Ok o => object_from i o
                    | Err e => object_at v i = Ret (Err e)
                    end.
Proof.
  intros [Hinv Hv] Hl. pose proof (Object_load_sim obj_fuel i None s Hinv) as Hsim.
  rewrite Hl in Hsim. unfold object_from, object_at. rewrite <- Hv.
  inversion Hsim as [[r v'] [? ?] (Hr & _ & [Hi Hv'])| |]; simplify_eq/=.
  split; [split; [done|congruence]|]. destruct r as [o0|e0], res as [o|e]; simpl in Hr; try done.
  - split; [exact (Object_load_id _ _ _ _ _ Hinv Hl)|]. exists o0.
    split; [done|]. by destruct Hr as [_ ->].
  - by subst.
Qed.

(** ** What a walk visits *)

(** A dependency that is there has been visited, or is where a walk stops. *)
Definition handled (V : gset ObjectId) (d : ObjectId) : Prop :=
  ∀ o, object_at v d = Ret (Ok o) → d ∈ V ∨ d ∈ T ∨ Object_deps o = [].
Definition visited_ok (V : gset ObjectId) (j : ObjectId) : Prop :=
  (j ∉ T) ∧ ∃ o, object_at v j = Ret (Ok o) ∧ Object_deps o ≠ [] ∧
               ∀ d, d ∈ Object_deps o → handled V d.

Lemma handled_mono V V' d : V ⊆ V' → handled V d → handled V' d.
Proof. intros HV Hd o Ho. destruct (Hd o Ho) as [?|?]; [left; by apply HV|by right]. Qed.
Lemma visited_ok_mono V V' j : V ⊆ V' → visited_ok V j → visited_ok V' j.
Proof.
  intros HV (? & o & ? & ? & Hd). split; [done|]. exists o. split_and!; [done..|].
  intros d ?. by eapply handled_mono, Hd.
Qed.

Definition sync_rec : Type :=
  Object → sync_state (S := S) → outcome (result (bool * sync_state (S := S)) ObjectParseError).
Definition sync_rec_ok (rec : sync_rec) : Prop :=
  ∀ i o V M s found V' M' s', unchanged s0 s → object_from i o →
  rec o (V, M, s) = Ret (Ok (found, (V', M', s'))) →
  unchanged s0 s' ∧ V ⊆ V' ∧ handled V' i ∧
  ∀ j, j ∈ V' → j ∉ V → sync_reach v T i j ∧ visited_ok V' j.

Lemma sync_deps_spec rec deps found V M s found' V' M' s' :
  sync_rec_ok rec → unchanged s0 s →
  sync_deps obj_fuel rec deps found (V, M, s) = Ret (Ok (found', (V', M', s'))) →
  unchanged s0 s' ∧ V ⊆ V' ∧ (∀ d, d ∈ deps → handled V' d) ∧
  ∀ j, j ∈ V' → j ∉ V → visited_ok V' j ∧
    ∃ d o, d ∈ deps ∧ object_at v d = Ret (Ok o) ∧ sync_reach v T d j.
Proof.
  intros Hrec. revert found V M s. induction deps as [|d deps IH]; intros found V M s Hun; cbn [sync_deps].
  { intros [= <- <- <- <-]. split_and!; [done|done|by intros ? ?%elem_of_nil|done]. }
  destruct (Object_load obj_fuel d None s) as [[res s1]| |] eqn:Hl; cbn [mbind outcome_bind]; try done.
  destruct (load_at d s res s1 Hun Hl) as [Hun1 Hat].
  destruct res as [o|[m| | | | | | |]]; try done.
  - destruct Hat as [Hid (o0 & Ho0 & Hdo)]. destruct (decide (d ∈ V)) as [Hin|Hin].
    + intros (Hun2 & HV & Hh & Hj)%IH; [|done]. split_and!; [done|done| |].
      * intros d' [->|?]%elem_of_cons; [|by apply Hh]. intros ? _. left. by apply HV.
      * intros j Hj1 Hj2. destruct (Hj j Hj1 Hj2) as (? & d' & o' & ? & ?).
        split; [done|]. exists d', o'. split; [by right|done].
    + destruct (rec o (V, M, s1)) as [[[f1 [[V1 M1] s2]]|]| |] eqn:Hr; cbn [try_bind]; try done.
      assert (Hfrom : object_from d o) by (split; [done|by exists o0]).
      destruct (Hrec d o V M s1 f1 V1 M1 s2 Hun1 Hfrom Hr) as (Hun2 & HV1 & Hh1 & Hj1).
      intros (Hun3 & HV2 & Hh & Hj)%IH; [|done]. split_and!; [done|by etrans| |].
      * intros d' [->|?]%elem_of_cons; [by eapply handled_mono|by apply Hh].
      * intros j Hin' Hn. destruct (decide (j ∈ V1)) as [Hin1|Hin1].
        { destruct (Hj1 j Hin1 Hn) as [? ?]. split; [by eapply visited_ok_mono|].
          exists d, o0. split_and!; [left|done|done]. }
        destruct (Hj j Hin' Hin1) as (? & d' & o' & ? & ?).
        split; [done|]. exists d', o'. split; [by right|done].
  - intros (Hun2 & HV & Hh & Hj)%IH; [|done]. split_and!; [done|done| |].
    + intros d' [->|?]%elem_of_cons; [|by apply Hh]. intros o Ho. congruence.
    + intros j Hj1 Hj2. destruct (Hj j Hj1 Hj2) as (? & d' & o' & ? & ?).
      split; [done|]. exists d', o'. split; [by right|done].
Qed.

Lemma sync_load_branch_spec fuel : sync_rec_ok (sync_load_branch obj_fuel fuel T).
Proof.
  induction fuel as [|fuel IH]; intros i o V M s found V' M' s' Hun [Hid (o0 & Ho0 & Hd)]; [done|].
  cbn [sync_load_branch]. rewrite Hid. cbn [mbind outcome_bind].
  destruct (N.eqb_spec (len (Object_deps o)) 0) as [Hz|Hz]; cbn [negb andb].
  { intros [= _ <- <- <-]. split_and!; [done|done| |done]. intros o' Ho'. right. right.
    assert (o' = o0) as -> by congruence. rewrite <- Hd. by destruct (Object_deps o). }
  case_bool_decide as HT; cbn [negb].
  { intros [= _ <- <- <-]. split_and!; [done|done| |done]. intros o' _. right. by left. }
  intros (Hun' & HV & Hh & Hj)%sync_deps_spec; [|done..].
  assert (Hi : visited_ok V' i).
  { split; [done|]. exists o0. rewrite <- Hd. split_and!; [done| |done]. by destruct (Object_deps o). }
  split_and!; [done|clear -HV; set_solver| |].
  - intros ? _. left. clear -HV. set_solver.
  - intros j Hin Hn. destruct (decide (j = i)) as [->|Hne]; [split; [constructor|done]|].
    destruct (Hj j Hin) as (? & d & od & Hdin & Hod & Hreach); [clear -Hn Hne; set_solver|].
    split; [|done]. eapply rtc_l; [|exact Hreach]. split_and!; [done| |by exists od].
    exists o0. rewrite <- Hd. done.
Qed.

(** From an empty set, a walk from [i] visits what is reachable from it and is neither
    a head of the peer nor a root. *)
Lemma sync_load_branch_exact fuel i o M s found V' M' s' :
  unchanged s0 s → object_from i o →
  sync_load_branch obj_fuel fuel T o (∅, M, s) = Ret (Ok (found, (V', M', s'))) →
  unchanged s0 s' ∧ ∀ j, j ∈ V' ↔ sync_walk v T i j.
Proof.
  intros Hun Ho Hl.
  destruct (sync_load_branch_spec fuel i o ∅ M s found V' M' s' Hun Ho Hl) as (Hun' & _ & Hi & Hj).
  split; [done|]. intros j. split.
  - intros Hin. destruct (Hj j Hin (not_elem_of_empty _)) as (? & ? & oj & ? & ? & _).
    split_and!; [done|done|by exists oj].
  - intros (Hreach & HjT & oj & Hoj & Hne).
    assert (Hall : ∀ k, sync_reach v T i k → handled V' k); [|by destruct (Hall j Hreach oj Hoj) as [?|[?|?]]].
    refine (rtc_ind_r (handled V') i _ _); [done|].
    intros k l _ (HkT & (ok & Hok & Hl') & _) Hk.
    destruct (Hk ok Hok) as [Hin|[?|Hnil]]; [|done|by rewrite Hnil in Hl'; apply elem_of_nil in Hl'].
    destruct (Hj k Hin (not_elem_of_empty _)) as (_ & _ & ok' & Hok' & _ & Hdeps).
    apply Hdeps. by assert (ok' = ok) as -> by congruence.
Qed.

(** ** A walk over what is there *)

(** The object is there and so is all it depends on, down at most [n] levels. *)
Fixpoint deep (n : nat) (i : ObjectId) : Prop := ∃ o, object_at v i = Ret (Ok o) ∧
  match n with
  | O => Object_deps o = []
  | Datatypes.S n => ∀ d, d ∈ Object_deps o → deep n d
  end.

Lemma load_ok i s o0 : unchanged s0 s → object_at v i = Ret (Ok o0) → ∃ o s',
  Object_load obj_fuel i None s = Ret (Ok o, s') ∧ unchanged s0 s' ∧ object_from i o.
Proof.
  intros Hun Hat. destruct (Object_load obj_fuel i None s) as [[res s']| |] eqn:Hl.
  - destruct (load_at i s res s' Hun Hl) as [Hun' Hr]. destruct res as [o|e]; [by exists o, s'|congruence].
  - pose proof (Object_load_sim obj_fuel i None s (proj1 Hun)) as Hsim. unfold object_at in Hat.
    rewrite Hl, (proj2 Hun) in Hsim. by inversion Hsim as [|Hx|]; rewrite <- Hx in Hat.
  - pose proof (Object_load_sim obj_fuel i None s (proj1 Hun)) as Hsim. unfold object_at in Hat.
    rewrite Hl, (proj2 Hun) in Hsim. by inversion Hsim as [| |Hx]; rewrite <- Hx in Hat.
Qed.

Definition rec_deep (n : nat) (rec : sync_rec) : Prop := ∀ i o V M s,
  unchanged s0 s → object_from i o → deep n i → ∃ found V' s',
  rec o (V, M, s) = Ret (Ok (found, (V', M, s'))) ∧ unchanged s0 s'.

Lemma sync_deps_deep n rec deps found V M s :
  rec_deep n rec → unchanged s0 s → (∀ d, d ∈ deps → deep n d) → ∃ found' V' s',
  sync_deps obj_fuel rec deps found (V, M, s) = Ret (Ok (found', (V', M, s'))) ∧ unchanged s0 s'.
Proof.
  intros Hrec. revert found V s. induction deps as [|d deps IH]; intros found V s Hun Hdeps; cbn [sync_deps].
  { by exists found, V, s. }
  assert (Hd : deep n d) by (apply Hdeps; left).
  assert (Hat : ∃ o0, object_at v d = Ret (Ok o0)) by (destruct n; destruct Hd as (o0 & ? & _); by exists o0).
  destruct Hat as [o0 Hat]. destruct (load_ok d s o0 Hun Hat) as (o & s1 & Hl & Hun1 & Ho). rewrite Hl.
  cbn [mbind outcome_bind]. destruct (decide (d ∈ V)); [apply IH; [done|intros; apply Hdeps; by right]|].
  destruct (Hrec d o V M s1 Hun1 Ho Hd) as (f & V1 & s2 & -> & Hun2). cbn [try_bind].
  apply IH; [done|]. intros. apply Hdeps. by right.
Qed.
Lemma sync_load_branch_deep n fuel : (n < fuel)%nat → rec_deep n (sync_load_branch obj_fuel fuel T).
Proof.
  revert fuel. induction n as [|n IH]; intros [|fuel] Hn i o V M s Hun [Hid (o0 & Ho0 & Hd)] Hdeep; try lia;
    cbn [sync_load_branch]; rewrite Hid; cbn [mbind outcome_bind];
    destruct Hdeep as (o1 & Ho1 & Hdeps); assert (o1 = o0) as -> by congruence; rewrite <- Hd in Hdeps.
  - rewrite Hdeps. cbn. by eexists _, V, s.
  - destruct (_ && _); [|by eexists _, V, s].
    apply (sync_deps_deep n); [apply IH; lia|done|done].
Qed.

(** ** A walk terminates

    Objects form no cycle and the fuel of [Object::load] is above their height; the
    graph of dependencies may have cycles. *)

Variable rank : BlockId → nat.
Hypothesis Hrank : ranked v rank.
Hypothesis Hobj_fuel : ∀ i, (rank i + 1 < obj_fuel)%nat.

Lemma load_returns i s :
  unchanged s0 s → ∃ res s', Object_load obj_fuel i None s = Ret (res, s') ∧
  ∀ o, res = Ok o → i ∈ dom v.
Proof.
  intros [Hinv Hv].
  destruct (Object_load_returns rank obj_fuel i None s) as (res & s' & -> & _ & _ & Hmiss & _);
    [done|by rewrite Hv|done|].
  exists res, s'. split; [done|]. intros o ->. rewrite Hv in Hmiss. apply elem_of_dom.
  destruct (v !! i) eqn:Hi; [by eexists|].
  destruct Hmiss as (ms & ? & _); [|done]. exists i. split; [constructor|done].
Qed.

Definition sync_rec_total (n : nat) (rec : sync_rec) : Prop :=
  ∀ i o V M s, unchanged s0 s → object_from i o → i ∈ dom v → i ∉ V →
  (size (dom v ∖ V) < n)%nat → returns (rec o (V, M, s)).

Lemma sync_deps_returns n rec deps found V M s :
  sync_rec_ok rec → sync_rec_total n rec → unchanged s0 s → (size (dom v ∖ V) < n)%nat →
  returns (sync_deps obj_fuel rec deps found (V, M, s)).
Proof.
  intros Hok Hrec. revert found V M s. induction deps as [|d deps IH]; intros found V M s Hun Hn;
    cbn [sync_deps]; [by eexists|].
  destruct (load_returns d s Hun) as (res & s1 & Hl & Hd). rewrite Hl. cbn [mbind outcome_bind].
  destruct (load_at d s res s1 Hun Hl) as [Hun1 Hat].
  destruct res as [o|[m| | | | | | |]]; [|by apply IH|by eexists..].
  destruct (decide (d ∈ V)) as [|HdV]; [by apply IH|].
  destruct (Hrec d o V M s1 Hun1 Hat (Hd o eq_refl) HdV Hn) as [res Hr]. rewrite Hr.
  destruct res as [[f [[V1 M1] s2]]|e]; cbn [try_bind]; [|by eexists].
  destruct (Hok d o V M s1 f V1 M1 s2 Hun1 Hat Hr) as (Hun2 & HV & _).
  apply IH; [done|]. eapply Nat.le_lt_trans; [|exact Hn]. apply subseteq_size. clear -HV. set_solver.
Qed.

Lemma sync_load_branch_returns fuel : sync_rec_total fuel (sync_load_branch obj_fuel fuel T).
Proof.
  induction fuel as [|fuel IH]; intros i o V M s Hun [Hid Ho] Hi HiV Hn; [lia|].
  cbn [sync_load_branch]. rewrite Hid. cbn [mbind outcome_bind].
  destruct (_ && _); [|by eexists].
  apply (sync_deps_returns fuel); [apply sync_load_branch_spec|done|done|].
  eapply Nat.lt_le_trans; [|apply Nat.lt_succ_r, Hn].
  apply subset_size. clear -Hi HiV. set_solver.
Qed.
End Sync.

Section Request.
Context `{!Crypto, !Bloom} `{!Serde Block, !Serde BlockContentV0, !Serde ObjectContent}.
Context `{!SerdeLaws Block}.
Context {S : Type} `{!RepoStore S, !RepoStoreSpec S, !RepoStoreTotal S}.
Variables (obj_fuel : nat) (s0 : S).

(** The loop over the heads collects what is walked from each. *)
Lemma sync_heads_spec fuel heads T acc M s acc' M' s' :
  unchanged s0 s →
  sync_heads obj_fuel fuel heads T acc M s = Ret (Ok (acc', M', s')) →
  unchanged s0 s' ∧ ∀ j, j ∈ acc' ↔
  j ∈ acc ∨ ∃ h, h ∈ heads ∧ sync_walk obj_fuel (store_view s0) T h j.
Proof.
  revert acc M s. induction heads as [|h heads IH]; intros acc M s Hun; cbn [sync_heads].
  { intros [= <- <- <-]. split; [done|]. intros j. split; [by left|].
    by intros [?|(? & ?%elem_of_nil & _)]. }
  destruct (Object_load obj_fuel h None s) as [[res s1]| |] eqn:Hl; cbn [mbind outcome_bind]; try done.
  destruct (load_at obj_fuel s0 h s res s1 Hun Hl) as [Hun1 Hat].
  destruct res as [o|]; [|done].
  destruct (sync_load_branch _ _ _ _ _) as [[[f [[V1 M1] s2]]|]| |] eqn:Hb; cbn [try_bind]; try done.
  destruct (sync_load_branch_exact obj_fuel s0 T _ h o M s1 f V1 M1 s2 Hun1 Hat Hb) as [Hun2 HV].
  intros [Hun3 Hacc]%IH; [|done]. split; [done|]. intros j.
  rewrite Hacc, elem_of_union, HV. setoid_rewrite elem_of_cons. naive_solver.
Qed.

Lemma sync_heads_returns rank fuel heads T acc M s :
  ranked (store_view s0) rank → (∀ i, (rank i + 1 < obj_fuel)%nat) →
  unchanged s0 s → (size (store_view s0) < fuel)%nat →
  returns (sync_heads obj_fuel fuel heads T acc M s).
Proof.
  intros Hrk Hof Hun Hf. revert acc M s Hun.
  induction heads as [|h heads IH]; intros acc M s Hun; cbn [sync_heads]; [by eexists|].
  destruct (load_returns obj_fuel s0 rank Hrk Hof h s Hun) as (res & s1 & Hl & Hd).
  rewrite Hl. cbn [mbind outcome_bind].
  destruct (load_at obj_fuel s0 h s res s1 Hun Hl) as [Hun1 Hat].
  destruct res as [o|]; [|by eexists].
  destruct (sync_load_branch_returns obj_fuel s0 T rank Hrk Hof fuel h o ∅ M s1) as [res Hb];
    [done|done|by apply (Hd o)|apply not_elem_of_empty| |].
  { eapply Nat.le_lt_trans; [|exact Hf]. rewrite <- size_dom. apply subseteq_size. set_solver. }
  rewrite Hb. destruct res as [[f [[V1 M1] s2]]|]; cbn [try_bind]; [|by eexists].
  apply IH. by destruct (sync_load_branch_exact obj_fuel s0 T _ h o M s1 f V1 M1 s2 Hun1 Hat Hb).
Qed.

(** When the heads and all they depend on are there, it answers. *)
Lemma sync_heads_deep n fuel heads T acc M s :
  (n < fuel)%nat → unchanged s0 s → (∀ h, h ∈ heads → deep obj_fuel s0 n h) → ∃ acc' s',
  sync_heads obj_fuel fuel heads T acc M s = Ret (Ok (acc', M, s')) ∧ unchanged s0 s'.
Proof.
  intros Hn. revert acc s. induction heads as [|h heads IH]; intros acc s Hun Hheads; cbn [sync_heads].
  { by exists acc, s. }
  assert (Hh : deep obj_fuel s0 n h) by (apply Hheads; left).
  assert (Hat : ∃ o0, object_at obj_fuel (store_view s0) h = Ret (Ok o0))
    by (destruct n; destruct Hh as (o0 & ? & _); by exists o0).
  destruct Hat as [o0 Hat]. destruct (load_ok obj_fuel s0 h s o0 Hun Hat) as (o & s1 & -> & Hun1 & Ho).
  cbn [mbind outcome_bind].
  destruct (sync_load_branch_deep obj_fuel s0 T n fuel Hn h o ∅ M s1 Hun1 Ho Hh) as (f & V & s2 & -> & Hun2).
  cbn [try_bind]. apply IH; [done|]. intros. apply Hheads. by right.
Qed.
Lemma sync_req_deep n fuel our_heads their_heads filter :
  (n < fuel)%nat → store_inv s0 → (∀ h, h ∈ our_heads ++ their_heads → deep obj_fuel s0 n h) → ∃ ids s',
  sync_req obj_fuel fuel our_heads their_heads filter s0 = Ret (Ok (ids, s')) ∧ unchanged s0 s'.
Proof.
  intros Hn Hinv Hheads. unfold sync_req.
  destruct (sync_heads_deep n fuel our_heads their_heads ∅ ∅ s0 Hn (unchanged_refl s0 Hinv))
    as (ours & s1 & -> & Hun1); [intros; apply Hheads, elem_of_app; by left|]. cbn [try_bind].
  destruct (sync_heads_deep n fuel their_heads [] ∅ ∅ s1 Hn Hun1)
    as (theirs & s2 & -> & Hun2); [intros; apply Hheads, elem_of_app; by right|]. cbn [try_bind].
  by eexists _, s2.
Qed.

(** What a synchronization answers *)
Lemma sync_req_walks fuel our_heads their_heads filter ids s' :
  store_inv s0 →
  sync_req obj_fuel fuel our_heads their_heads filter s0 = Ret (Ok (ids, s')) →
  NoDup ids ∧ store_view s' = store_view s0 ∧ ∀ j, j ∈ ids ↔
  (∃ h, h ∈ our_heads ∧ sync_walk obj_fuel (store_view s0) their_heads h j) ∧
  ¬ (∃ h, h ∈ their_heads ∧ sync_walk obj_fuel (store_view s0) [] h j) ∧
  bloom_keep (filter_from_u8_array (BloomFilter_f filter)
                (uint_wrap 64 (uint_N (BloomFilter_k filter)))) j = true.
Proof.
  intros Hinv. unfold sync_req.
  destruct (sync_heads _ _ our_heads _ _ _ _) as [[[[ours M1] s1]|]| |] eqn:H1; cbn [try_bind]; try done.
  destruct (sync_heads_spec _ _ _ _ _ _ _ _ _ (unchanged_refl s0 Hinv) H1) as [Hun1 Hours].
  destruct (sync_heads _ _ their_heads _ _ _ _) as [[[[theirs M2] s2]|]| |] eqn:H2; cbn [try_bind]; try done.
  destruct (sync_heads_spec _ _ _ _ _ _ _ _ _ Hun1 H2) as [[_ Hv2] Htheirs].
  intros [= <- <-]. split_and!; [apply NoDup_filter, NoDup_elements|done|].
  intros j. rewrite list_elem_of_filter, elem_of_elements, elem_of_difference, Hours, Htheirs.
  split.
  - intros (? & [[[]%elem_of_empty|?] Hn]). split_and!; [done| |done]. intros ?. apply Hn. by right.
  - intros (? & Hn & ?). split_and!; [done|by right|]. by intros [?%elem_of_empty|?].
Qed.

(** C15: [sync_req] answers the identifiers to send: those of the objects with dependencies
    that are reached from our heads through dependencies that are in the store, without
    going past a head of the peer, which is not answered itself; less those that are reached
    in the same way from the heads of the peer, and those in the peer's Bloom filter. No
    other, each once. An object without dependencies is never answered: the root of a branch
    is not sent, not even to a peer that knows no head and asks for it. *)
Theorem sync_req_exact fuel our_heads their_heads filter ids s' :
  store_inv s0 →
  sync_req obj_fuel fuel our_heads their_heads filter s0 = Ret (Ok (ids, s')) →
  NoDup ids ∧ store_view s' = store_view s0 ∧ (∀ j, j ∈ ids ↔
  (∃ h, h ∈ our_heads ∧ sync_walk obj_fuel (store_view s0) their_heads h j) ∧
  ¬ (∃ h, h ∈ their_heads ∧ sync_walk obj_fuel (store_view s0) [] h j) ∧
  bloom_keep (filter_from_u8_array (BloomFilter_f filter)
                (uint_wrap 64 (uint_N (BloomFilter_k filter)))) j = true) ∧
  ∀ j o, object_at obj_fuel (store_view s0) j = Ret (Ok o) → Object_deps o = [] → j ∉ ids.
Proof.
  intros Hinv Hrun. destruct (sync_req_walks _ _ _ _ _ _ Hinv Hrun) as (Hnd & Hv & Hids).
  split_and!; [done..|]. intros j o Ho Hd Hj.
  apply Hids in Hj as ((h & _ & _ & _ & o' & Ho' & Hne) & _). congruence.
Qed.

(** C33: [sync_req] returns, on any store of objects without cycles and any graph of
    dependencies, cycles included: one turn more than there are blocks is enough. *)
Theorem sync_req_returns rank fuel our_heads their_heads filter :
  store_inv s0 → ranked (store_view s0) rank → (∀ i, (rank i + 1 < obj_fuel)%nat) →
  (size (store_view s0) < fuel)%nat →
  returns (sync_req obj_fuel fuel our_heads their_heads filter s0).
Proof.
  intros Hinv Hrk Hof Hf. unfold sync_req.
  destruct (sync_heads_returns rank fuel our_heads their_heads ∅ ∅ s0) as [res H1]; [done..|].
  rewrite H1. destruct res as [[[ours M1] s1]|]; cbn [try_bind]; [|by eexists].
  destruct (sync_heads_spec _ _ _ _ _ _ _ _ _ (unchanged_refl s0 Hinv) H1) as [Hun1 _].
  destruct (sync_heads_returns rank fuel their_heads [] ∅ M1 s1) as [res H2]; [done..|].
  rewrite H2. destruct res as [[[theirs M2] s2]|]; cbn [try_bind]; by eexists.
Qed.
End Request.

(** ** Example: a chain of four objects *)

Module Examples.
Import BareTypes.Instances ObjectProps.Examples ObjectStoreProps.Examples CommitProps.Examples.

(** A filter that holds the bytes of one digest, or nothing. *)
#[local] Instance toy_bloom : Bloom := {
  Filter := bytes;
  filter_from_u8_array b k := b;
  filter_contains f d := bool_decide (f = d)
}.

Definition link (n : N) (deps : list ObjectId) : Object :=
  out no_object (Object_new (ObjectContent_File (File_V0 {|
    FileV0_content_type := [byte_of_N n]; FileV0_metadata := []; FileV0_content := [] |}))
    deps None 0 pk sk).
Definition id_of (o : Object) : ObjectId := BlockRef_id (ref_of o).
Definition o1 : Object := link 1 [].
Definition o2 : Object := link 2 [id_of o1].
Definition o3 : Object := link 3 [id_of o2].
Definition o4 : Object := link 4 [id_of o3].
Definition chain : HashMapRepoStore := save_all [o1; o2; o3; o4].
Definition no_filter : BloomFilter := {| BloomFilter_k := uint_wrap 32 1; BloomFilter_f := [] |}.
Definition answer (their_heads : list ObjectId) (f : BloomFilter) : list ObjectId * HashMapRepoStore :=
  match sync_req 3 5 [id_of o4] their_heads f chain with Ret (Ok x) => x | _ => ([], chain) end.

Lemma chain_ok : store_inv chain.
Proof.
  unfold chain, save_all. apply save_all_inv; [|apply HashMapRepoStore_new_inv].
  apply objects_ok_dec. vm_compute. reflexivity.
Qed.

(** A peer whose head is [o2] is sent [o3] and [o4]. *)
Example chain_answer :
  bool_decide (list_to_set (answer [id_of o2] no_filter).1
               = ({[id_of o3]} ∪ {[id_of o4]} : gset ObjectId)) = true.
Proof. vm_compute. reflexivity. Qed.

(** The root is not sent, to a peer that has nothing and asks for it. *)
Example root_not_sent : bool_decide (
  (fst <$> match sync_req 3 5 [id_of o1] [] no_filter chain with Ret (Ok x) => Some x | _ => None end)
  = Some []) = true.
Proof. vm_compute. reflexivity. Qed.

Lemma sync_req_exact_witness :
  NoDup (answer [id_of o2] no_filter).1 ∧
  store_view (answer [id_of o2] no_filter).2 = store_view chain ∧
  (∀ j, j ∈ (answer [id_of o2] no_filter).1 ↔
  (∃ h, h ∈ [id_of o4] ∧ sync_walk 3 (store_view chain) [id_of o2] h j) ∧
  ¬ (∃ h, h ∈ [id_of o2] ∧ sync_walk 3 (store_view chain) [] h j) ∧
  bloom_keep (filter_from_u8_array (BloomFilter_f no_filter)
                (uint_wrap 64 (uint_N (BloomFilter_k no_filter)))) j = true) ∧
  ∀ j o, object_at 3 (store_view chain) j = Ret (Ok o) → Object_deps o = [] →
         j ∉ (answer [id_of o2] no_filter).1.
Proof.
  apply (sync_req_exact 3 chain 5 [id_of o4] [id_of o2] no_filter
           (answer [id_of o2] no_filter).1 (answer [id_of o2] no_filter).2).
  - apply chain_ok.
  - vm_compute. reflexivity.
Defined.

Lemma chain_ranked : ranked (store_view chain) (λ _, 0%nat).
Proof. apply flat_ranked. vm_compute. reflexivity. Qed.
Lemma sync_req_returns_witness : returns (sync_req 3 5 [id_of o4] [id_of o2] no_filter chain).
Proof.
  apply (sync_req_returns 3 chain (λ _, 0%nat) 5 [id_of o4] [id_of o2] no_filter).
  - apply chain_ok.
  - apply chain_ranked.
  - intros _. do 2 constructor.
  - vm_compute. do 2 constructor.
Defined.
End Examples.
