(* ===== verification/NetTypes.v ===== *)
(** * Protocol messages: [lofire-net/src/types.rs]

    One inductive or record per Rust type, named as in [Types], and the accessors of
    the messages. An accessor that panics on some messages answers an [outcome]. *)

From S2P Require Import Prelude Serde Types.
From stdpp Require Import vector.

(** ** Common types *)

Abbreviation PeerId := PubKey (only parsing).
Abbreviation OverlayId := Digest (only parsing).
Abbreviation SessionId := u64 (only parsing).
Abbreviation TopicId := PubKey (only parsing).
Abbreviation UserId := PubKey (only parsing).
Abbreviation ClientId := PubKey (only parsing).
Abbreviation IPv4 := (array 4) (only parsing).
Abbreviation IPv6 := (array 16) (only parsing).

Inductive IP : Type :=
  | IP_IPv4 (x : IPv4)
  | IP_IPv6 (x : IPv6).
Inductive IPTransportProtocol : Type :=
  | IPTransportProtocol_TLS
  | IPTransportProtocol_QUIC.
Record IPTransportAddr : Type := {
  IPTransportAddr_ip : IP;
  IPTransportAddr_port : u16;
  IPTransportAddr_protocol : IPTransportProtocol
}.
Inductive NetAddr : Type := NetAddr_IPTransport (x : IPTransportAddr).

(** ** Overlay messages *)

Inductive OverlayConnect : Type := OverlayConnect_V0.
Inductive OverlayDisconnect : Type := OverlayDisconnect_V0.
Record TopicAdvertContentV0 : Type := {
  TopicAdvertContentV0_topic : TopicId;
  TopicAdvertContentV0_peer : PeerId
}.
Record TopicAdvertV0 : Type := {
  TopicAdvertV0_content : TopicAdvertContentV0;
  TopicAdvertV0_sig : Sig
}.
Inductive TopicAdvert : Type := TopicAdvert_V0 (x : TopicAdvertV0).
Record SubReqV0 : Type := {
  SubReqV0_id : u64;
  SubReqV0_topic : TopicId
}.
Inductive SubReq : Type := SubReq_V0 (x : SubReqV0).
Record SubAckV0 : Type := {
  SubAckV0_id : u64
}.
Inductive SubAck : Type := SubAck_V0 (x : SubAckV0).
Record UnsubReqV0 : Type := {
  UnsubReqV0_topic : TopicId
}.
Inductive UnsubReq : Type := UnsubReq_V0 (x : UnsubReqV0).
Record UnsubAckV0 : Type := {
  UnsubAckV0_topic : TopicId
}.
Inductive UnsubAck : Type := UnsubAck_V0 (x : UnsubAckV0).
Record ChangeV0 : Type := {
  ChangeV0_content : Block;
  ChangeV0_key : option SymKey
}.
Inductive EventBodyV0 : Type :=
  | EventBodyV0_SubAck
  | EventBodyV0_Change.
Record EventContentV0 : Type := {
  EventContentV0_topic : TopicId;
  EventContentV0_publisher : array 32;
  EventContentV0_seq : u32;
  EventContentV0_body : EventBodyV0
}.
Record EventV0 : Type := {
  EventV0_content : EventContentV0;
  EventV0_sig : Sig
}.
Inductive Event : Type := Event_V0 (x : EventV0).
Record BlockSearchTopicV0 : Type := {
  BlockSearchTopicV0_topic : TopicId;
  BlockSearchTopicV0_ids : list ObjectId;
  BlockSearchTopicV0_include_children : bool;
  BlockSearchTopicV0_path : list PeerId
}.
Inductive BlockSearchTopic : Type := BlockSearchTopic_V0 (x : BlockSearchTopicV0).
Record BlockSearchRandomV0 : Type := {
  BlockSearchRandomV0_ids : list BlockId;
  BlockSearchRandomV0_include_children : bool;
  BlockSearchRandomV0_fanout : u8;
  BlockSearchRandomV0_path : list PeerId
}.
Inductive BlockSearchRandom : Type := BlockSearchRandom_V0 (x : BlockSearchRandomV0).
Record BlockResultV0 : Type := {
  BlockResultV0_path : list PeerId;
  BlockResultV0_payload : list Block
}.
Inductive BlockResult : Type := BlockResult_V0 (x : BlockResultV0).
Record BranchHeadsReqV0 : Type := {
  BranchHeadsReqV0_topic : TopicId;
  BranchHeadsReqV0_known_heads : list ObjectId
}.
Inductive BranchHeadsReq : Type := BranchHeadsReq_V0 (x : BranchHeadsReqV0).
Record BranchSyncReqV0 : Type := {
  BranchSyncReqV0_heads : list ObjectId;
  BranchSyncReqV0_known_heads : list ObjectId;
  BranchSyncReqV0_known_commits : BloomFilter
}.
Inductive BranchSyncReq : Type := BranchSyncReq_V0 (x : BranchSyncReqV0).
Record NeedEventsV0 : Type := {
  NeedEventsV0_publisher : Digest;
  NeedEventsV0_from : u32;
  NeedEventsV0_to : u32
}.
Record HaveEventsV0 : Type := {
  HaveEventsV0_publisher : Digest;
  HaveEventsV0_from : u32;
  HaveEventsV0_to : u32
}.
Record EventReqV0 : Type := {
  EventReqV0_topic : TopicId;
  EventReqV0_need : list NeedEventsV0
}.
Inductive EventReq : Type := EventReq_V0 (x : EventReqV0).
Record EventRespV0 : Type := {
  EventRespV0_have : list HaveEventsV0
}.
Inductive EventResp : Type := EventResp_V0 (x : EventRespV0).
Inductive OverlayRequestContentV0 : Type :=
  | OverlayRequestContentV0_EventReq (x : EventReq)
  | OverlayRequestContentV0_BranchHeadsReq (x : BranchHeadsReq)
  | OverlayRequestContentV0_BranchSyncReq (x : BranchSyncReq).
Record OverlayRequestV0 : Type := {
  OverlayRequestV0_id : u64;
  OverlayRequestV0_content : OverlayRequestContentV0
}.
Inductive OverlayRequest : Type := OverlayRequest_V0 (x : OverlayRequestV0).
Inductive OverlayResponseContentV0 : Type :=
  | OverlayResponseContentV0_Block (x : Block)
  | OverlayResponseContentV0_EventResp (x : EventResp)
  | OverlayResponseContentV0_Event (x : Event).
Record OverlayResponseV0 : Type := {
  OverlayResponseV0_id : u64;
  OverlayResponseV0_result : u8;
  OverlayResponseV0_content : option OverlayResponseContentV0
}.
Inductive OverlayResponse : Type := OverlayResponse_V0 (x : OverlayResponseV0).
Record PeerAdvertContentV0 : Type := {
  PeerAdvertContentV0_peer : PeerId;
  PeerAdvertContentV0_subs : vec (array 32) 4;
  PeerAdvertContentV0_address : list NetAddr;
  PeerAdvertContentV0_version : u32;
  PeerAdvertContentV0_metadata : bytes
}.
Record PeerAdvertV0 : Type := {
  PeerAdvertV0_content : PeerAdvertContentV0;
  PeerAdvertV0_sig : Sig;
  PeerAdvertV0_ttl : u8
}.
Inductive PeerAdvert : Type := PeerAdvert_V0 (x : PeerAdvertV0).
Inductive OverlayMessageContentV0 : Type :=
  | OverlayMessageContentV0_OverlayConnect (x : OverlayConnect)
  | OverlayMessageContentV0_OverlayDisconnect (x : OverlayDisconnect)
  | OverlayMessageContentV0_PeerAdvert (x : PeerAdvert)
  | OverlayMessageContentV0_TopicAdvert (x : TopicAdvert)
  | OverlayMessageContentV0_SubReq (x : SubReq)
  | OverlayMessageContentV0_SubAck (x : SubAck)
  | OverlayMessageContentV0_UnsubReq (x : UnsubReq)
  | OverlayMessageContentV0_UnsubAck (x : UnsubAck)
  | OverlayMessageContentV0_Event (x : Event)
  | OverlayMessageContentV0_BlockSearchTopic (x : BlockSearchTopic)
  | OverlayMessageContentV0_BlockSearchRandom (x : BlockSearchRandom)
  | OverlayMessageContentV0_BlockResult (x : BlockResult)
  | OverlayMessageContentV0_OverlayRequest (x : OverlayRequest)
  | OverlayMessageContentV0_OverlayResponse (x : OverlayResponse).
Record OverlayMessageContentPaddedV0 : Type := {
  OverlayMessageContentPaddedV0_content : OverlayMessageContentV0;
  OverlayMessageContentPaddedV0_padding : bytes
}.
Record OverlayMessageV0 : Type := {
  OverlayMessageV0_overlay : OverlayId;
  OverlayMessageV0_session : SessionId;
  OverlayMessageV0_content : OverlayMessageContentPaddedV0;
  OverlayMessageV0_mac : Digest
}.
Inductive OverlayMessage : Type := OverlayMessage_V0 (x : OverlayMessageV0).

(** ** The broker protocol *)

Record AddUserContentV0 : Type := {
  AddUserContentV0_user : PubKey
}.
Record AddUserV0 : Type := {
  AddUserV0_content : AddUserContentV0;
  AddUserV0_sig : Sig
}.
Inductive AddUser : Type := AddUser_V0 (x : AddUserV0).
Record DelUserContentV0 : Type := {
  DelUserContentV0_user : PubKey
}.
Record DelUserV0 : Type := {
  DelUserV0_content : DelUserContentV0;
  DelUserV0_sig : Sig
}.
Inductive DelUser : Type := DelUser_V0 (x : DelUserV0).
Record AddClientContentV0 : Type := {
  AddClientContentV0_client : PubKey
}.
Record AddClientV0 : Type := {
  AddClientV0_content : AddClientContentV0;
  AddClientV0_sig : Sig
}.
Inductive AddClient : Type := AddClient_V0 (x : AddClientV0).
Record DelClientContentV0 : Type := {
  DelClientContentV0_client : PubKey
}.
Record DelClientV0 : Type := {
  DelClientV0_content : DelClientContentV0;
  DelClientV0_sig : Sig
}.
Inductive DelClient : Type := DelClient_V0 (x : DelClientV0).
Inductive BrokerRequestContentV0 : Type :=
  | BrokerRequestContentV0_AddUser (x : AddUser)
  | BrokerRequestContentV0_DelUser (x : DelUser)
  | BrokerRequestContentV0_AddClient (x : AddClient)
  | BrokerRequestContentV0_DelClient (x : DelClient).
Record BrokerRequestV0 : Type := {
  BrokerRequestV0_id : u64;
  BrokerRequestV0_content : BrokerRequestContentV0
}.
Inductive BrokerRequest : Type := BrokerRequest_V0 (x : BrokerRequestV0).
Record BrokerResponseV0 : Type := {
  BrokerResponseV0_id : u64;
  BrokerResponseV0_result : u16
}.
Inductive BrokerResponse : Type := BrokerResponse_V0 (x : BrokerResponseV0).
Record OverlayJoinV0 : Type := {
  OverlayJoinV0_secret : SymKey;
  OverlayJoinV0_repo_pubkey : option PubKey;
  OverlayJoinV0_peers : list PeerAdvert
}.
Inductive OverlayJoin : Type := OverlayJoin_V0 (x : OverlayJoinV0).
Inductive OverlayLeave : Type := OverlayLeave_V0.
Inductive OverlayStatusReq : Type := OverlayStatusReq_V0.
Record OverlayStatusRespV0 : Type := {
  OverlayStatusRespV0_joined : bool;
  OverlayStatusRespV0_peers : list PeerAdvert
}.
Inductive OverlayStatusResp : Type := OverlayStatusResp_V0 (x : OverlayStatusRespV0).
Record BlockGetV0 : Type := {
  BlockGetV0_id : BlockId;
  BlockGetV0_include_children : bool;
  BlockGetV0_topic : option PubKey
}.
Inductive BlockGet : Type := BlockGet_V0 (x : BlockGetV0).
Inductive BlockPut : Type := BlockPut_V0 (x : Block).
Record ObjectPinV0 : Type := {
  ObjectPinV0_id : ObjectId
}.
Inductive ObjectPin : Type := ObjectPin_V0 (x : ObjectPinV0).
Record ObjectUnpinV0 : Type := {
  ObjectUnpinV0_id : ObjectId
}.
Inductive ObjectUnpin : Type := ObjectUnpin_V0 (x : ObjectUnpinV0).
Record ObjectCopyV0 : Type := {
  ObjectCopyV0_id : ObjectId;
  ObjectCopyV0_expiry : option Timestamp
}.
Inductive ObjectCopy : Type := ObjectCopy_V0 (x : ObjectCopyV0).
Record ObjectDelV0 : Type := {
  ObjectDelV0_id : ObjectId
}.
Inductive ObjectDel : Type := ObjectDel_V0 (x : ObjectDelV0).
Record TopicSubV0 : Type := {
  TopicSubV0_topic : PubKey;
  TopicSubV0_advert : option TopicAdvert
}.
Inductive TopicSub : Type := TopicSub_V0 (x : TopicSubV0).
Record TopicUnsubV0 : Type := {
  TopicUnsubV0_topic : PubKey
}.
Inductive TopicUnsub : Type := TopicUnsub_V0 (x : TopicUnsubV0).
Record TopicConnectV0 : Type := {
  TopicConnectV0_topic : PubKey
}.
Inductive TopicConnect : Type := TopicConnect_V0 (x : TopicConnectV0).
Record TopicDisconnectV0 : Type := {
  TopicDisconnectV0_topic : PubKey
}.
Inductive TopicDisconnect : Type := TopicDisconnect_V0 (x : TopicDisconnectV0).
Inductive BrokerOverlayRequestContentV0 : Type :=
  | BrokerOverlayRequestContentV0_OverlayConnect (x : OverlayConnect)
  | BrokerOverlayRequestContentV0_OverlayStatusReq (x : OverlayStatusReq)
  | BrokerOverlayRequestContentV0_OverlayJoin (x : OverlayJoin)
  | BrokerOverlayRequestContentV0_OverlayLeave (x : OverlayLeave)
  | BrokerOverlayRequestContentV0_TopicSub (x : TopicSub)
  | BrokerOverlayRequestContentV0_TopicUnsub (x : TopicUnsub)
  | BrokerOverlayRequestContentV0_TopicConnect (x : TopicConnect)
  | BrokerOverlayRequestContentV0_TopicDisconnect (x : TopicDisconnect)
  | BrokerOverlayRequestContentV0_Event (x : Event)
  | BrokerOverlayRequestContentV0_BlockGet (x : BlockGet)
  | BrokerOverlayRequestContentV0_BlockPut (x : BlockPut)
  | BrokerOverlayRequestContentV0_ObjectPin (x : ObjectPin)
  | BrokerOverlayRequestContentV0_ObjectUnpin (x : ObjectUnpin)
  | BrokerOverlayRequestContentV0_ObjectCopy (x : ObjectCopy)
  | BrokerOverlayRequestContentV0_ObjectDel (x : ObjectDel)
  | BrokerOverlayRequestContentV0_BranchHeadsReq (x : BranchHeadsReq)
  | BrokerOverlayRequestContentV0_BranchSyncReq (x : BranchSyncReq).
Record BrokerOverlayRequestV0 : Type := {
  BrokerOverlayRequestV0_id : u64;
  BrokerOverlayRequestV0_content : BrokerOverlayRequestContentV0
}.
Inductive BrokerOverlayRequest : Type := BrokerOverlayRequest_V0 (x : BrokerOverlayRequestV0).
Inductive BrokerOverlayResponseContentV0 : Type :=
  | BrokerOverlayResponseContentV0_Block (x : Block)
  | BrokerOverlayResponseContentV0_ObjectId (x : ObjectId)
  | BrokerOverlayResponseContentV0_OverlayStatusResp (x : OverlayStatusResp).
Record BrokerOverlayResponseV0 : Type := {
  BrokerOverlayResponseV0_id : u64;
  BrokerOverlayResponseV0_result : u16;
  BrokerOverlayResponseV0_content : option BrokerOverlayResponseContentV0
}.
Inductive BrokerOverlayResponse : Type := BrokerOverlayResponse_V0 (x : BrokerOverlayResponseV0).
Inductive BrokerOverlayMessageContentV0 : Type :=
  | BrokerOverlayMessageContentV0_BrokerOverlayRequest (x : BrokerOverlayRequest)
  | BrokerOverlayMessageContentV0_BrokerOverlayResponse (x : BrokerOverlayResponse)
  | BrokerOverlayMessageContentV0_Event (x : Event).
Record BrokerOverlayMessageV0 : Type := {
  BrokerOverlayMessageV0_overlay : OverlayId;
  BrokerOverlayMessageV0_content : BrokerOverlayMessageContentV0
}.
Inductive BrokerOverlayMessage : Type := BrokerOverlayMessage_V0 (x : BrokerOverlayMessageV0).
Inductive BrokerMessageContentV0 : Type :=
  | BrokerMessageContentV0_BrokerRequest (x : BrokerRequest)
  | BrokerMessageContentV0_BrokerResponse (x : BrokerResponse)
  | BrokerMessageContentV0_BrokerOverlayMessage (x : BrokerOverlayMessage).
Record BrokerMessageV0 : Type := {
  BrokerMessageV0_content : BrokerMessageContentV0;
  BrokerMessageV0_padding : bytes
}.
Inductive BrokerMessage : Type :=
  | BrokerMessage_V0 (x : BrokerMessageV0)
  | BrokerMessage_Close.

(** ** External requests *)

Record ExtObjectGetV0 : Type := {
  ExtObjectGetV0_repo : PubKey;
  ExtObjectGetV0_ids : list ObjectId;
  ExtObjectGetV0_include_children : bool;
  ExtObjectGetV0_expiry : option Timestamp
}.
Inductive ExtObjectGet : Type := ExtObjectGet_V0 (x : ExtObjectGetV0).
Inductive ExtRequestContentV0 : Type :=
  | ExtRequestContentV0_ExtObjectGet (x : ExtObjectGet)
  | ExtRequestContentV0_ExtBranchHeadsReq (x : BranchHeadsReq)
  | ExtRequestContentV0_ExtBranchSyncReq (x : BranchSyncReq).
Record ExtRequestV0 : Type := {
  ExtRequestV0_id : u64;
  ExtRequestV0_content : ExtRequestContentV0;
  ExtRequestV0_mac : Digest
}.
Inductive ExtRequest : Type := ExtRequest_V0 (x : ExtRequestV0).
Inductive ExtResponseContentV0 : Type :=
  | ExtResponseContentV0_Block (x : Block)
  | ExtResponseContentV0_EventResp (x : EventResp)
  | ExtResponseContentV0_Event (x : Event).
Record ExtResponseV0 : Type := {
  ExtResponseV0_id : u64;
  ExtResponseV0_result : u16;
  ExtResponseV0_content : option ExtResponseContentV0
}.
Inductive ExtResponse : Type := ExtResponse_V0 (x : ExtResponseV0).

(** ** Authentication messages *)

Inductive ClientHello : Type := ClientHello_V0.
Inductive StartProtocol : Type :=
  | StartProtocol_Auth (x : ClientHello)
  | StartProtocol_Ext (x : ExtRequest).
Record ServerHelloV0 : Type := {
  ServerHelloV0_nonce : bytes
}.
Inductive ServerHello : Type := ServerHello_V0 (x : ServerHelloV0).
Record ClientAuthContentV0 : Type := {
  ClientAuthContentV0_user : PubKey;
  ClientAuthContentV0_client : PubKey;
  ClientAuthContentV0_nonce : bytes
}.
Record ClientAuthV0 : Type := {
  ClientAuthV0_content : ClientAuthContentV0;
  ClientAuthV0_sig : Sig
}.
Inductive ClientAuth : Type := ClientAuth_V0 (x : ClientAuthV0).
Record AuthResultV0 : Type := {
  AuthResultV0_result : u16;
  AuthResultV0_metadata : bytes
}.
Inductive AuthResult : Type := AuthResult_V0 (x : AuthResultV0).

(** ** Links *)

Record RepoLinkV0 : Type := {
  RepoLinkV0_id : PubKey;
  RepoLinkV0_secret : SymKey;
  RepoLinkV0_peers : list PeerAdvert
}.
Inductive RepoLink : Type := RepoLink_V0 (x : RepoLinkV0).
Record ObjectLinkV0 : Type := {
  ObjectLinkV0_req : ExtRequest;
  ObjectLinkV0_keys : list ObjectRef
}.
Inductive ObjectLink : Type := ObjectLink_V0 (x : ObjectLinkV0).
Record RepoKeysV0 : Type := {
  RepoKeysV0_key : PrivKey;
  RepoKeysV0_secret : SymKey;
  RepoKeysV0_peers : list PeerAdvert
}.
Inductive RepoKeys : Type := RepoKeys_V0 (x : RepoKeysV0).

(** ** Accessors *)

Definition BranchSyncReq_heads (m : BranchSyncReq) : list ObjectId :=
  match m with BranchSyncReq_V0 o => BranchSyncReqV0_heads o end.
Definition BranchSyncReq_known_heads (m : BranchSyncReq) : list ObjectId :=
  match m with BranchSyncReq_V0 o => BranchSyncReqV0_known_heads o end.
Definition BranchSyncReq_known_commits (m : BranchSyncReq) : BloomFilter :=
  match m with BranchSyncReq_V0 o => BranchSyncReqV0_known_commits o end.
Definition PeerAdvert_version (m : PeerAdvert) : u32 :=
  match m with PeerAdvert_V0 o => PeerAdvertContentV0_version (PeerAdvertV0_content o) end.
Definition PeerAdvert_peer (m : PeerAdvert) : PeerId :=
  match m with PeerAdvert_V0 o => PeerAdvertContentV0_peer (PeerAdvertV0_content o) end.
Definition AddUser_content_v0 (m : AddUser) : AddUserContentV0 :=
  match m with AddUser_V0 o => AddUserV0_content o end.
Definition AddUser_sig (m : AddUser) : Sig :=
  match m with AddUser_V0 o => AddUserV0_sig o end.
Definition AddUser_user (m : AddUser) : PubKey :=
  match m with AddUser_V0 o => AddUserContentV0_user (AddUserV0_content o) end.
Definition DelUser_content_v0 (m : DelUser) : DelUserContentV0 :=
  match m with DelUser_V0 o => DelUserV0_content o end.
Definition DelUser_sig (m : DelUser) : Sig :=
  match m with DelUser_V0 o => DelUserV0_sig o end.
Definition DelUser_user (m : DelUser) : PubKey :=
  match m with DelUser_V0 o => DelUserContentV0_user (DelUserV0_content o) end.
Definition AddClient_content_v0 (m : AddClient) : AddClientContentV0 :=
  match m with AddClient_V0 o => AddClientV0_content o end.
Definition AddClient_sig (m : AddClient) : Sig :=
  match m with AddClient_V0 o => AddClientV0_sig o end.
Definition AddClient_client (m : AddClient) : PubKey :=
  match m with AddClient_V0 o => AddClientContentV0_client (AddClientV0_content o) end.
Definition DelClient_content_v0 (m : DelClient) : DelClientContentV0 :=
  match m with DelClient_V0 o => DelClientV0_content o end.
Definition DelClient_sig (m : DelClient) : Sig :=
  match m with DelClient_V0 o => DelClientV0_sig o end.
Definition DelClient_client (m : DelClient) : PubKey :=
  match m with DelClient_V0 o => DelClientContentV0_client (DelClientV0_content o) end.
Definition BrokerRequest_id (m : BrokerRequest) : u64 :=
  match m with BrokerRequest_V0 o => BrokerRequestV0_id o end.
Definition BrokerRequest_content_v0 (m : BrokerRequest) : BrokerRequestContentV0 :=
  match m with BrokerRequest_V0 o => BrokerRequestV0_content o end.
Definition BrokerResponse_id (m : BrokerResponse) : u64 :=
  match m with BrokerResponse_V0 o => BrokerResponseV0_id o end.
Definition BrokerResponse_result (m : BrokerResponse) : u16 :=
  match m with BrokerResponse_V0 o => BrokerResponseV0_result o end.
Definition OverlayJoin_repo_pubkey (m : OverlayJoin) : option PubKey :=
  match m with OverlayJoin_V0 o => OverlayJoinV0_repo_pubkey o end.
Definition OverlayJoin_secret (m : OverlayJoin) : SymKey :=
  match m with OverlayJoin_V0 o => OverlayJoinV0_secret o end.
Definition OverlayJoin_peers (m : OverlayJoin) : list PeerAdvert :=
  match m with OverlayJoin_V0 o => OverlayJoinV0_peers o end.
Definition BlockGet_id (m : BlockGet) : BlockId :=
  match m with BlockGet_V0 o => BlockGetV0_id o end.
Definition BlockGet_include_children (m : BlockGet) : bool :=
  match m with BlockGet_V0 o => BlockGetV0_include_children o end.
Definition BlockGet_topic (m : BlockGet) : option PubKey :=
  match m with BlockGet_V0 o => BlockGetV0_topic o end.
Definition BlockPut_block (m : BlockPut) : Block :=
  match m with BlockPut_V0 o => o end.
Definition ObjectPin_id (m : ObjectPin) : ObjectId :=
  match m with ObjectPin_V0 o => ObjectPinV0_id o end.
Definition ObjectUnpin_id (m : ObjectUnpin) : ObjectId :=
  match m with ObjectUnpin_V0 o => ObjectUnpinV0_id o end.
Definition ObjectCopy_id (m : ObjectCopy) : ObjectId :=
  match m with ObjectCopy_V0 o => ObjectCopyV0_id o end.
Definition ObjectCopy_expiry (m : ObjectCopy) : option Timestamp :=
  match m with ObjectCopy_V0 o => ObjectCopyV0_expiry o end.
Definition ObjectDel_id (m : ObjectDel) : ObjectId :=
  match m with ObjectDel_V0 o => ObjectDelV0_id o end.
Definition BrokerOverlayRequest_id (m : BrokerOverlayRequest) : u64 :=
  match m with BrokerOverlayRequest_V0 o => BrokerOverlayRequestV0_id o end.
Definition BrokerOverlayRequest_content_v0 (m : BrokerOverlayRequest) : BrokerOverlayRequestContentV0 :=
  match m with BrokerOverlayRequest_V0 o => BrokerOverlayRequestV0_content o end.
Definition BrokerOverlayResponse_id (m : BrokerOverlayResponse) : u64 :=
  match m with BrokerOverlayResponse_V0 o => BrokerOverlayResponseV0_id o end.
Definition BrokerOverlayResponse_result (m : BrokerOverlayResponse) : u16 :=
  match m with BrokerOverlayResponse_V0 o => BrokerOverlayResponseV0_result o end.
Definition BrokerOverlayMessage_content_v0 (m : BrokerOverlayMessage) : BrokerOverlayMessageContentV0 :=
  match m with BrokerOverlayMessage_V0 o => BrokerOverlayMessageV0_content o end.
Definition BrokerOverlayMessage_overlay_id (m : BrokerOverlayMessage) : OverlayId :=
  match m with BrokerOverlayMessage_V0 o => BrokerOverlayMessageV0_overlay o end.
Definition ServerHello_nonce (m : ServerHello) : bytes :=
  match m with ServerHello_V0 o => ServerHelloV0_nonce o end.
Definition ClientAuth_content_v0 (m : ClientAuth) : ClientAuthContentV0 :=
  match m with ClientAuth_V0 o => ClientAuthV0_content o end.
Definition ClientAuth_sig (m : ClientAuth) : Sig :=
  match m with ClientAuth_V0 o => ClientAuthV0_sig o end.
Definition ClientAuth_user (m : ClientAuth) : PubKey :=
  match m with ClientAuth_V0 o => ClientAuthContentV0_user (ClientAuthV0_content o) end.
Definition ClientAuth_client (m : ClientAuth) : PubKey :=
  match m with ClientAuth_V0 o => ClientAuthContentV0_client (ClientAuthV0_content o) end.
Definition ClientAuth_nonce (m : ClientAuth) : bytes :=
  match m with ClientAuth_V0 o => ClientAuthContentV0_nonce (ClientAuthV0_content o) end.
Definition AuthResult_result (m : AuthResult) : u16 :=
  match m with AuthResult_V0 o => AuthResultV0_result o end.
Definition AuthResult_metadata (m : AuthResult) : bytes :=
  match m with AuthResult_V0 o => AuthResultV0_metadata o end.
Definition RepoLink_id (m : RepoLink) : PubKey :=
  match m with RepoLink_V0 o => RepoLinkV0_id o end.
Definition RepoLink_secret (m : RepoLink) : SymKey :=
  match m with RepoLink_V0 o => RepoLinkV0_secret o end.
Definition RepoLink_peers (m : RepoLink) : list PeerAdvert :=
  match m with RepoLink_V0 o => RepoLinkV0_peers o end.

(** ** Accessors that may panic *)

Definition BrokerOverlayResponse_block (m : BrokerOverlayResponse) : outcome (option Block) :=
  match m with BrokerOverlayResponse_V0 o =>
    match BrokerOverlayResponseV0_content o with
    | Some (BrokerOverlayResponseContentV0_Block b) => Ret (Some b)
    | Some _ => Panic
    | None => Ret None
    end
  end.
Definition BrokerOverlayResponse_object_id (m : BrokerOverlayResponse) : outcome ObjectId :=
  match m with BrokerOverlayResponse_V0 o =>
    match BrokerOverlayResponseV0_content o with
    | Some (BrokerOverlayResponseContentV0_ObjectId id) => Ret id
    | Some _ => Panic
    | None => Panic
    end
  end.

Definition BrokerOverlayMessage_overlay_request (m : BrokerOverlayMessage)
    : outcome BrokerOverlayRequest :=
  match BrokerOverlayMessage_content_v0 m with
  | BrokerOverlayMessageContentV0_BrokerOverlayRequest r => Ret r
  | _ => Panic
  end.
Definition BrokerOverlayMessage_is_request (m : BrokerOverlayMessage) : bool :=
  match BrokerOverlayMessage_content_v0 m with
  | BrokerOverlayMessageContentV0_BrokerOverlayRequest _ => true
  | _ => false
  end.
Definition BrokerOverlayMessage_is_response (m : BrokerOverlayMessage) : bool :=
  match BrokerOverlayMessage_content_v0 m with
  | BrokerOverlayMessageContentV0_BrokerOverlayResponse _ => true
  | _ => false
  end.
Definition BrokerOverlayMessage_id (m : BrokerOverlayMessage) : outcome u64 :=
  match BrokerOverlayMessage_content_v0 m with
  | BrokerOverlayMessageContentV0_BrokerOverlayResponse r => Ret (BrokerOverlayResponse_id r)
  | BrokerOverlayMessageContentV0_BrokerOverlayRequest r => Ret (BrokerOverlayRequest_id r)
  | BrokerOverlayMessageContentV0_Event _ => Panic
  end.
Definition BrokerOverlayMessage_result (m : BrokerOverlayMessage) : outcome u16 :=
  match BrokerOverlayMessage_content_v0 m with
  | BrokerOverlayMessageContentV0_BrokerOverlayResponse r => Ret (BrokerOverlayResponse_result r)
  | _ => Panic
  end.
Definition BrokerOverlayMessage_block (m : BrokerOverlayMessage) : outcome (option Block) :=
  match BrokerOverlayMessage_content_v0 m with
  | BrokerOverlayMessageContentV0_BrokerOverlayResponse r => BrokerOverlayResponse_block r
  | _ => Panic
  end.
Definition BrokerOverlayMessage_object_id (m : BrokerOverlayMessage) : outcome ObjectId :=
  match BrokerOverlayMessage_content_v0 m with
  | BrokerOverlayMessageContentV0_BrokerOverlayResponse r => BrokerOverlayResponse_object_id r
  | _ => Panic
  end.

Definition BrokerMessage_is_close (m : BrokerMessage) : bool :=
  match m with BrokerMessage_V0 _ => false | BrokerMessage_Close => true end.
Definition BrokerMessage_content (m : BrokerMessage) : outcome BrokerMessageContentV0 :=
  match m with
  | BrokerMessage_V0 o => Ret (BrokerMessageV0_content o)
  | BrokerMessage_Close => Panic
  end.
Definition BrokerMessage_is_request (m : BrokerMessage) : outcome bool :=
  match m with
  | BrokerMessage_V0 o =>
      match BrokerMessageV0_content o with
      | BrokerMessageContentV0_BrokerOverlayMessage p => Ret (BrokerOverlayMessage_is_request p)
      | BrokerMessageContentV0_BrokerResponse _ => Ret false
      | BrokerMessageContentV0_BrokerRequest _ => Ret true
      end
  | BrokerMessage_Close => Panic
  end.
Definition BrokerMessage_is_response (m : BrokerMessage) : outcome bool :=
  match m with
  | BrokerMessage_V0 o =>
      match BrokerMessageV0_content o with
      | BrokerMessageContentV0_BrokerOverlayMessage p => Ret (BrokerOverlayMessage_is_response p)
      | BrokerMessageContentV0_BrokerResponse _ => Ret true
      | BrokerMessageContentV0_BrokerRequest _ => Ret false
      end
  | BrokerMessage_Close => Panic
  end.
Definition BrokerMessage_id (m : BrokerMessage) : outcome u64 :=
  match m with
  | BrokerMessage_V0 o =>
      match BrokerMessageV0_content o with
      | BrokerMessageContentV0_BrokerOverlayMessage p => BrokerOverlayMessage_id p
      | BrokerMessageContentV0_BrokerResponse r => Ret (BrokerResponse_id r)
      | BrokerMessageContentV0_BrokerRequest r => Ret (BrokerRequest_id r)
      end
  | BrokerMessage_Close => Panic
  end.
Definition BrokerMessage_result (m : BrokerMessage) : outcome u16 :=
  match m with
  | BrokerMessage_V0 o =>
      match BrokerMessageV0_content o with
      | BrokerMessageContentV0_BrokerOverlayMessage p => BrokerOverlayMessage_result p
      | BrokerMessageContentV0_BrokerResponse r => Ret (BrokerResponse_result r)
      | BrokerMessageContentV0_BrokerRequest _ => Panic
      end
  | BrokerMessage_Close => Panic
  end.
Definition BrokerMessage_is_overlay (m : BrokerMessage) : outcome bool :=
  match m with
  | BrokerMessage_V0 o =>
      match BrokerMessageV0_content o with
      | BrokerMessageContentV0_BrokerOverlayMessage _ => Ret true
      | BrokerMessageContentV0_BrokerResponse _ => Ret false
      | BrokerMessageContentV0_BrokerRequest _ => Ret false
      end
  | BrokerMessage_Close => Panic
  end.
Definition BrokerMessage_response_block (m : BrokerMessage) : outcome (option Block) :=
  match m with
  | BrokerMessage_V0 o =>
      match BrokerMessageV0_content o with
      | BrokerMessageContentV0_BrokerOverlayMessage p => BrokerOverlayMessage_block p
      | BrokerMessageContentV0_BrokerResponse _ => Panic
      | BrokerMessageContentV0_BrokerRequest _ => Panic
      end
  | BrokerMessage_Close => Panic
  end.
Definition BrokerMessage_response_object_id (m : BrokerMessage) : outcome ObjectId :=
  match m with
  | BrokerMessage_V0 o =>
      match BrokerMessageV0_content o with
      | BrokerMessageContentV0_BrokerOverlayMessage p => BrokerOverlayMessage_object_id p
      | BrokerMessageContentV0_BrokerResponse _ => Panic
      | BrokerMessageContentV0_BrokerRequest _ => Panic
      end
  | BrokerMessage_Close => Panic
  end.

(** ** Skipped fields *)

(** A block is the only part of a message that has fields with [#[serde(skip)]]; they are lost
    on the way. *)
Definition request_skip (r : BrokerOverlayRequestContentV0) : BrokerOverlayRequestContentV0 :=
  match r with
  | BrokerOverlayRequestContentV0_BlockPut (BlockPut_V0 b) =>
      BrokerOverlayRequestContentV0_BlockPut (BlockPut_V0 (serde_skip b))
  | r => r
  end.
Definition response_skip (r : BrokerOverlayResponseContentV0) : BrokerOverlayResponseContentV0 :=
  match r with
  | BrokerOverlayResponseContentV0_Block b => BrokerOverlayResponseContentV0_Block (serde_skip b)
  | r => r
  end.
Definition overlay_skip (c : BrokerOverlayMessageContentV0) : BrokerOverlayMessageContentV0 :=
  match c with
  | BrokerOverlayMessageContentV0_BrokerOverlayRequest (BrokerOverlayRequest_V0 r) =>
      BrokerOverlayMessageContentV0_BrokerOverlayRequest (BrokerOverlayRequest_V0 {|
        BrokerOverlayRequestV0_id := BrokerOverlayRequestV0_id r;
        BrokerOverlayRequestV0_content := request_skip (BrokerOverlayRequestV0_content r) |})
  | BrokerOverlayMessageContentV0_BrokerOverlayResponse (BrokerOverlayResponse_V0 r) =>
      BrokerOverlayMessageContentV0_BrokerOverlayResponse (BrokerOverlayResponse_V0 {|
        BrokerOverlayResponseV0_id := BrokerOverlayResponseV0_id r;
        BrokerOverlayResponseV0_result := BrokerOverlayResponseV0_result r;
        BrokerOverlayResponseV0_content := response_skip <$> BrokerOverlayResponseV0_content r |})
  | c => c
  end.
#[export] Instance BrokerMessage_serde_skip : SerdeSkip BrokerMessage := λ m,
  match m with
  | BrokerMessage_V0 {| BrokerMessageV0_content :=
      BrokerMessageContentV0_BrokerOverlayMessage (BrokerOverlayMessage_V0 o);
      BrokerMessageV0_padding := p |} =>
      BrokerMessage_V0 {| BrokerMessageV0_content :=
        BrokerMessageContentV0_BrokerOverlayMessage (BrokerOverlayMessage_V0 {|
          BrokerOverlayMessageV0_overlay := BrokerOverlayMessageV0_overlay o;
          BrokerOverlayMessageV0_content := overlay_skip (BrokerOverlayMessageV0_content o) |});
        BrokerMessageV0_padding := p |}
  | m => m
  end.
