(* ===== verification/NetErrors.v ===== *)
(** * Protocol errors: [lofire-net/src/errors.rs]

    Errors travel as the 16-bit result code of a response, 0 standing for success.
    The conversions of a response message into a [Result] are given with what they
    do on every message. *)

From S2P Require Import Prelude Serde Types Utils Store Object NetTypes.

(** [#[repr(u16)]], numbered from 1 *)
Inductive ProtocolError : Type :=
  | WriteError
  | ActorError
  | InvalidState
  | SignatureError
  | InvalidSignature
  | SerializationError
  | PartialContent
  | AccessDenied
  | OverlayNotJoined
  | OverlayNotFound
  | BrokerError
  | NotFound
  | EndOfStream
  | StoreError
  | MissingBlocks
  | ObjectParseError
  | InvalidValue
  | UserAlreadyExists
  | RepoIdRequired
  | Closing.

#[export] Instance ProtocolError_eq_dec : EqDecision ProtocolError.
Proof. solve_decision. Defined.

(** [IntoPrimitive] *)
Definition ProtocolError_code (e : ProtocolError) : N :=
  match e with
  | WriteError => 1
  | ActorError => 2
  | InvalidState => 3
  | SignatureError => 4
  | InvalidSignature => 5
  | SerializationError => 6
  | PartialContent => 7
  | AccessDenied => 8
  | OverlayNotJoined => 9
  | OverlayNotFound => 10
  | BrokerError => 11
  | NotFound => 12
  | EndOfStream => 13
  | StoreError => 14
  | MissingBlocks => 15
  | ObjectParseError => 16
  | InvalidValue => 17
  | UserAlreadyExists => 18
  | RepoIdRequired => 19
  | Closing => 20
  end.
Definition ProtocolError_into (e : ProtocolError) : u16 := uint_wrap 16 (ProtocolError_code e).

(** [TryFromPrimitive] *)
Definition ProtocolError_all : list ProtocolError :=
  [WriteError; ActorError; InvalidState; SignatureError; InvalidSignature; SerializationError;
   PartialContent; AccessDenied; OverlayNotJoined; OverlayNotFound; BrokerError; NotFound;
   EndOfStream; StoreError; MissingBlocks; ObjectParseError; InvalidValue; UserAlreadyExists;
   RepoIdRequired; Closing].
Definition ProtocolError_try_from (code : u16) : option ProtocolError :=
  if (uint_N code =? 0)%N then None
  else ProtocolError_all !! (N.to_nat (uint_N code) - 1)%nat.

(** [ProtocolError::is_stream] *)
Definition ProtocolError_is_stream (e : ProtocolError) : bool :=
  bool_decide (e = PartialContent) || bool_decide (e = EndOfStream).

(** The [From] implementations *)
Definition ProtocolError_of_LofireError (e : LofireError) : ProtocolError :=
  match e with
  | LofireError_InvalidSignature => InvalidSignature
  | LofireError_SerializationError => SerializationError
  end.
Definition ProtocolError_of_ObjectParseError (e : Object.ObjectParseError) : ProtocolError :=
  ObjectParseError.
Definition ProtocolError_of_StorageError (e : StorageError) : ProtocolError :=
  match e with
  | StorageError_NotFound => NotFound
  | StorageError_InvalidValue => InvalidValue
  | _ => StoreError
  end.
Definition ProtocolError_of_serde_bare (e : unit) : ProtocolError := SerializationError.

(** ** Responses as results *)

(** [if !msg.is_response() { panic!(..) }] and the result code *)
Definition response_code (msg : BrokerMessage) : outcome u16 :=
  is_response ← BrokerMessage_is_response msg;
  if negb is_response then Panic else BrokerMessage_result msg.

(** [From<BrokerMessage> for Result<(), ProtocolError>] *)
Definition result_unit (msg : BrokerMessage) : outcome (result unit ProtocolError) :=
  res ← response_code msg;
  if (uint_N res =? 0)%N then Ret (Ok tt)
  else err ← unwrap (ProtocolError_try_from res); Ret (Err err).

(** [From<BrokerMessage> for Result<ObjectId, ProtocolError>] *)
Definition result_object_id (msg : BrokerMessage) : outcome (result ObjectId ProtocolError) :=
  res ← response_code msg;
  if (uint_N res =? 0)%N then id ← BrokerMessage_response_object_id msg; Ret (Ok id)
  else err ← unwrap (ProtocolError_try_from res); Ret (Err err).

(** [res == 0 || ProtocolError::try_from(res).unwrap().is_stream()] *)
Definition code_has_content (res : u16) : outcome bool :=
  if (uint_N res =? 0)%N then Ret true
  else err ← unwrap (ProtocolError_try_from res); Ret (ProtocolError_is_stream err).

(** [From<BrokerMessage> for Result<Option<u16>, ProtocolError>] *)
Definition result_option_u16 (msg : BrokerMessage)
    : outcome (result (option u16) ProtocolError) :=
  res ← response_code msg;
  has_content ← code_has_content res;
  if (has_content : bool) then
    is_overlay ← BrokerMessage_is_overlay msg;
    if (is_overlay : bool) then
      block ← BrokerMessage_response_block msg;
      Ret (Ok (match block with Some _ => Some res | None => None end))
    else Ret (Ok None)
  else err ← unwrap (ProtocolError_try_from res); Ret (Err err).

(** [From<BrokerMessage> for Result<Option<Block>, ProtocolError>] *)
Definition result_option_block (msg : BrokerMessage)
    : outcome (result (option Block) ProtocolError) :=
  res ← response_code msg;
  has_content ← code_has_content res;
  if (has_content : bool) then
    is_overlay ← BrokerMessage_is_overlay msg;
    if (is_overlay : bool) then
      block ← BrokerMessage_response_block msg;
      Ret (Ok (match block with Some b => Some b | None => None end))
    else Ret (Ok None)
  else err ← unwrap (ProtocolError_try_from res); Ret (Err err).

(** ** Lemmas *)

Lemma try_from_into e : ProtocolError_try_from (ProtocolError_into e) = Some e.
Proof. destruct e; reflexivity. Qed.

Lemma into_try_from c e :
  ProtocolError_try_from c = Some e → ProtocolError_into e = c.
Proof.
  unfold ProtocolError_try_from. destruct (N.eqb_spec (uint_N c) 0) as [|Hz]; [done|].
  intros He. apply uint_eq. set (k := (N.to_nat (uint_N c) - 1)%nat) in He.
  assert (Hc : uint_N c = (N.of_nat k + 1)%N) by lia. rewrite Hc. clearbody k. clear Hz Hc.
  do 20 (destruct k as [|k]; [injection He as <-; reflexivity|]). done.
Qed.

(** The codes that stand for an error. *)
Lemma try_from_range c :
  is_Some (ProtocolError_try_from c) ↔ (1 <= uint_N c <= 20)%N.
Proof.
  unfold ProtocolError_try_from. destruct (N.eqb_spec (uint_N c) 0) as [Hz|Hz].
  - split; [by intros []|lia].
  - rewrite lookup_lt_is_Some. cbn [length ProtocolError_all]. lia.
Qed.

(** The response codes: success, or the code of an error. *)
Definition code_result (c : u16) : outcome (result unit ProtocolError) :=
  if (uint_N c =? 0)%N then Ret (Ok tt)
  else err ← unwrap (ProtocolError_try_from c); Ret (Err err).

Lemma code_result_spec c :
  code_result c = match uint_N c with
                  | 0%N => Ret (Ok tt)
                  | _ => match ProtocolError_try_from c with
                         | Some e => Ret (Err e)
                         | None => Panic
                         end
                  end.
Proof. unfold code_result. destruct (uint_N c); [done|]. cbn. by destruct (ProtocolError_try_from c). Qed.

(** Messages: a response to a broker request, a response in an overlay with its
    content, or neither. *)
Inductive response_kind : Type :=
  | DirectResponse (code : u16)
  | OverlayResponseWith (code : u16) (content : option BrokerOverlayResponseContentV0)
  | NotAResponse.
Definition message_kind (msg : BrokerMessage) : response_kind :=
  match msg with
  | BrokerMessage_V0 o =>
      match BrokerMessageV0_content o with
      | BrokerMessageContentV0_BrokerResponse r => DirectResponse (BrokerResponse_result r)
      | BrokerMessageContentV0_BrokerOverlayMessage p =>
          match BrokerOverlayMessage_content_v0 p with
          | BrokerOverlayMessageContentV0_BrokerOverlayResponse (BrokerOverlayResponse_V0 r) =>
              OverlayResponseWith (BrokerOverlayResponseV0_result r)
                (BrokerOverlayResponseV0_content r)
          | _ => NotAResponse
          end
      | BrokerMessageContentV0_BrokerRequest _ => NotAResponse
      end
  | BrokerMessage_Close => NotAResponse
  end.

(** What every accessor answers, by kind of message. *)
Lemma response_code_kind msg :
  response_code msg = match message_kind msg with
                      | DirectResponse c => Ret c
                      | OverlayResponseWith c _ => Ret c
                      | NotAResponse => Panic
                      end.
Proof.
  destruct msg as [[[|[]|[[ov [|[]|]]]] pad]|]; reflexivity.
Qed.
Lemma response_block_kind msg :
  BrokerMessage_response_block msg =
  match message_kind msg with
  | OverlayResponseWith _ (Some (BrokerOverlayResponseContentV0_Block b)) => Ret (Some b)
  | OverlayResponseWith _ None => Ret None
  | _ => Panic
  end.
Proof.
  destruct msg as [[[|[]|[[ov [|[[id res [[]|]]]|]]]] pad]|]; reflexivity.
Qed.
Lemma response_object_id_kind msg :
  BrokerMessage_response_object_id msg =
  match message_kind msg with
  | OverlayResponseWith _ (Some (BrokerOverlayResponseContentV0_ObjectId id)) => Ret id
  | _ => Panic
  end.
Proof.
  destruct msg as [[[|[]|[[ov [|[[id res [[]|]]]|]]]] pad]|]; reflexivity.
Qed.
Lemma is_overlay_kind msg :
  match message_kind msg with
  | DirectResponse _ => BrokerMessage_is_overlay msg = Ret false
  | OverlayResponseWith _ _ => BrokerMessage_is_overlay msg = Ret true
  | NotAResponse => True
  end.
Proof. by destruct msg as [[[|[]|[[ov [|[]|]]]] pad]|]. Qed.

(** Success, or a stream of content. *)
Lemma code_has_content_spec c :
  code_has_content c = match uint_N c with
                       | 0%N => Ret true
                       | _ => match ProtocolError_try_from c with
                              | Some e => Ret (ProtocolError_is_stream e)
                              | None => Panic
                              end
                       end.
Proof.
  unfold code_has_content. destruct (uint_N c); [done|]. cbn.
  by destruct (ProtocolError_try_from c).
Qed.

(** ** Properties *)

(** The 16-bit codes and the errors correspond one to one: every error has a code,
    from 1 to 20, that is read back as that error, and no other code is read as an
    error. *)
Theorem ProtocolError_codes :
  (∀ e, ProtocolError_try_from (ProtocolError_into e) = Some e ∧
        (1 <= uint_N (ProtocolError_into e) <= 20)%N) ∧
  (∀ c e, ProtocolError_try_from c = Some e ↔ ProtocolError_into e = c) ∧
  (∀ c, ProtocolError_try_from c = None ↔ (uint_N c = 0 ∨ 20 < uint_N c)%N).
Proof.
  split_and!.
  - intros e. split; [apply try_from_into|]. apply try_from_range. by rewrite try_from_into.
  - intros c e. split; [apply into_try_from|]. intros <-. apply try_from_into.
  - intros c. rewrite eq_None_not_Some, try_from_range. lia.
Qed.

(** The block in the content of a response, if there is content. *)
Definition content_block (k : response_kind) : outcome (result (option Block) ProtocolError) :=
  match k with
  | DirectResponse _ => Ret (Ok None)
  | OverlayResponseWith _ (Some (BrokerOverlayResponseContentV0_Block b)) => Ret (Ok (Some b))
  | OverlayResponseWith _ None => Ret (Ok None)
  | _ => Panic
  end.

(** What the conversions of a message into a result make of it, on every message.
    They panic exactly on what is not a response, on a code that is no error's, and on
    content of another kind than the one asked for; otherwise code 0 is success, an
    error's code is that error, and the two codes of a stream come with the block, as
    success does. *)
Theorem message_results msg :
  match message_kind msg with
  | NotAResponse =>
      result_unit msg = Panic ∧ result_object_id msg = Panic ∧ result_option_block msg = Panic
  | DirectResponse c | OverlayResponseWith c _ =>
      match uint_N c, ProtocolError_try_from c with
      | 0%N, _ =>
          result_unit msg = Ret (Ok tt) ∧
          result_object_id msg =
            match message_kind msg with
            | OverlayResponseWith _ (Some (BrokerOverlayResponseContentV0_ObjectId id)) => Ret (Ok id)
            | _ => Panic
            end ∧
          result_option_block msg = content_block (message_kind msg)
      | _, Some e =>
          result_unit msg = Ret (Err e) ∧ result_object_id msg = Ret (Err e) ∧
          result_option_block msg =
            if ProtocolError_is_stream e then content_block (message_kind msg) else Ret (Err e)
      | _, None =>
          result_unit msg = Panic ∧ result_object_id msg = Panic ∧ result_option_block msg = Panic
      end
  end.
Proof.
  pose proof (is_overlay_kind msg) as Hov. pose proof (response_block_kind msg) as Hblock.
  pose proof (response_object_id_kind msg) as Hid. pose proof (response_code_kind msg) as Hcode.
  unfold result_unit, result_object_id, result_option_block. rewrite Hcode, Hid.
  destruct (message_kind msg) as [c|c content|]; [| |done]; cbn [mbind outcome_bind];
    rewrite code_has_content_spec, Hov, Hblock;
    destruct (uint_N c); cbn [N.eqb mbind outcome_bind];
    try (destruct (ProtocolError_try_from c) as [e|]; cbn [unwrap mbind outcome_bind]; [|done];
         destruct (ProtocolError_is_stream e));
    split_and!; try reflexivity; by destruct content as [[]|].
Qed.
