(* ===== verification/BrokerStore.v ===== *)
(** * The broker's property store: [lofire/src/brokerstore.rs] and
    [lofire-store-lmdb/src/brokerstore.rs]

    A property is a key made of a prefix, the bytes of an identifier and a suffix; it
    has a set of values. The trait is a class with its contract, and the LMDB store an
    instance over the [MultiStore] of [rkv], which is not part of the repository and is
    given by its interface. *)

From stdpp Require Import functions.
From S2P Require Import Prelude Serde Types Store.

(** The view of a store: the values of every property, by key. *)
Abbreviation properties := (bytes → gset bytes) (only parsing).

(** [LmdbBrokerStore::compute_property] *)
Definition compute_property (prefix : u8) (key : bytes) (suffix : option u8) : bytes :=
  prefix :: key ++ match suffix with Some x => [x] | None => [] end.

(** ** Code that uses a store *)

(** A function that takes [&dyn BrokerStore] and answers a [Result]: the store is
    threaded through it. *)
Definition io (S A : Type) : Type := S → outcome (result A StorageError * S).
(** A function that does not write. *)
Definition reads (S A : Type) : Type := S → outcome (result A StorageError).

Definition io_ok {S A} (a : A) : io S A := λ s, Ret (Ok a, s).
Definition io_err {S A} (e : StorageError) : io S A := λ s, Ret (Err e, s).
Definition io_read {S A} (m : reads S A) : io S A := λ s, r ← m s; Ret (r, s).
(** The [?] operator *)
Definition io_try {S A B} (m : io S A) (k : A → io S B) : io S B := λ s,
  '(r, s) ← m s;
  match r with Ok a => k a s | Err e => Ret (Err e, s) end.
(** The result as a value *)
Definition io_match {S A B} (m : io S A) (k : result A StorageError → io S B) : io S B := λ s,
  '(r, s) ← m s; k r s.
(** A condition on the store *)
Definition io_if {S A} (b : S → outcome bool) (m1 m2 : io S A) : io S A := λ s,
  c ← b s; if (c : bool) then m1 s else m2 s.

Notation "x ←$ m ; k" := (io_try m (λ x, k))
  (at level 20, m at level 100, k at level 200,
   format "x  ←$  m ;  '/' k") : rust_scope.

(** ** The trait *)

Class BrokerStore (S : Type) : Type := {
  bs_get : u8 → bytes → option u8 → reads S bytes;
  bs_get_all : u8 → bytes → option u8 → reads S (list bytes);
  bs_has_property_value : u8 → bytes → option u8 → bytes → reads S unit;
  bs_put : u8 → bytes → option u8 → bytes → io S unit;
  bs_replace : u8 → bytes → option u8 → bytes → io S unit;
  bs_del : u8 → bytes → option u8 → io S unit;
  bs_del_all : u8 → bytes → list u8 → io S unit;
  bs_del_property_value : u8 → bytes → option u8 → bytes → io S unit
}.

(** Deleting properties one after the other, up to the first that has no value. *)
Fixpoint del_props (keys : list bytes) (m : properties) : result unit StorageError * properties :=
  match keys with
  | [] => (Ok tt, m)
  | k :: keys =>
      if decide (m k = ∅) then (Err StorageError_BackendError, m)
      else del_props keys (<[k := (∅ : gset bytes)]> m)
  end.
Definition all_props (prefix : u8) (key : bytes) (suffixes : list u8) : list bytes :=
  match suffixes with
  | [] => [compute_property prefix key None]
  | _ => (λ x, compute_property prefix key (Some x)) <$> suffixes
  end.

(** The contract. [bs_fits] is the limit the backend puts on the size of a property's
    key and value. *)
Class BrokerStoreSpec (S : Type) `{!BrokerStore S} : Type := {
  bs_inv : S → Prop;
  bs_view : S → properties;
  bs_fits : bytes → bytes → Prop;
  bs_get_spec s p k x :
    bs_inv s → ∃ r, bs_get p k x s = Ret r ∧
    match r with
    | Ok v => v ∈ bs_view s (compute_property p k x)
    | Err e => e = StorageError_NotFound ∧ bs_view s (compute_property p k x) = ∅
    end;
  bs_get_all_spec s p k x :
    bs_inv s → ∃ l, bs_get_all p k x s = Ret (Ok l) ∧ NoDup l ∧
    list_to_set l = bs_view s (compute_property p k x);
  bs_has_spec s p k x v :
    bs_inv s → bs_has_property_value p k x v s =
    Ret (if decide (v ∈ bs_view s (compute_property p k x)) then Ok tt
         else Err StorageError_NotFound);
  bs_put_spec s p k x v :
    bs_inv s → bs_fits (compute_property p k x) v → ∃ s',
    bs_put p k x v s = Ret (Ok tt, s') ∧ bs_inv s' ∧
    ∀ i, bs_view s' i = <[compute_property p k x :=
                          {[v]} ∪ bs_view s (compute_property p k x)]> (bs_view s) i;
  bs_replace_spec s p k x v :
    bs_inv s → bs_fits (compute_property p k x) v → ∃ r s',
    bs_replace p k x v s = Ret (r, s') ∧ bs_inv s' ∧
    if decide (bs_view s (compute_property p k x) = ∅)
    then r = Err StorageError_BackendError ∧ ∀ i, bs_view s' i = bs_view s i
    else r = Ok tt ∧ ∀ i, bs_view s' i = <[compute_property p k x := {[v]}]> (bs_view s) i;
  bs_del_spec s p k x :
    bs_inv s → ∃ s',
    bs_del p k x s = Ret ((del_props [compute_property p k x] (bs_view s)).1, s') ∧ bs_inv s' ∧
    ∀ i, bs_view s' i = (del_props [compute_property p k x] (bs_view s)).2 i;
  bs_del_all_spec s p k xs :
    bs_inv s → ∃ s',
    bs_del_all p k xs s = Ret ((del_props (all_props p k xs) (bs_view s)).1, s') ∧ bs_inv s' ∧
    ∀ i, bs_view s' i = (del_props (all_props p k xs) (bs_view s)).2 i;
  bs_del_value_spec s p k x v :
    bs_inv s → ∃ r s',
    bs_del_property_value p k x v s = Ret (r, s') ∧ bs_inv s' ∧
    if decide (v ∈ bs_view s (compute_property p k x))
    then r = Ok tt ∧ ∀ i, bs_view s' i = <[compute_property p k x :=
                            bs_view s (compute_property p k x) ∖ {[v]}]> (bs_view s) i
    else r = Err StorageError_BackendError ∧ ∀ i, bs_view s' i = bs_view s i
}.

(** ** [rkv::MultiStore]

    A database with sorted duplicates: a key has several values, no value twice. An
    operation answers [None] where the library answers [Err]; those that write work in
    a transaction, which is dropped unless it is committed. *)
Class MultiStore : Type := {
  ms_db : Type;
  (** The iterator over the values of a key, each of which may be an error. *)
  ms_get : ms_db → bytes → option (list (option bytes));
  ms_get_key_value : ms_db → bytes → bytes → option bool;
  ms_put : ms_db → bytes → bytes → option ms_db;
  ms_delete_all : ms_db → bytes → option ms_db;
  ms_delete : ms_db → bytes → bytes → option ms_db;
  ms_commit : ms_db → option ms_db
}.

(** What LMDB documents: reads do not fail on an open database; a write within the size
    limits succeeds; deleting what is not there is an error. *)
Class MultiStoreLaws `{!MultiStore} : Type := {
  ms_view : ms_db → properties;
  ms_fits : bytes → bytes → Prop;
  ms_get_law db k : ∃ l, ms_get db k = Some (Some <$> l) ∧ NoDup l ∧
                         list_to_set l = ms_view db k;
  ms_get_key_value_law db k v : ms_get_key_value db k v = Some (bool_decide (v ∈ ms_view db k));
  ms_put_law db k v : ms_fits k v → ∃ db', ms_put db k v = Some db' ∧
    ∀ i, ms_view db' i = <[k := {[v]} ∪ ms_view db k]> (ms_view db) i;
  ms_delete_all_law db k :
    if decide (ms_view db k = ∅) then ms_delete_all db k = None
    else ∃ db', ms_delete_all db k = Some db' ∧ ∀ i, ms_view db' i = <[k := ∅]> (ms_view db) i;
  ms_delete_law db k v :
    if decide (v ∈ ms_view db k)
    then ∃ db', ms_delete db k v = Some db' ∧
         ∀ i, ms_view db' i = <[k := ms_view db k ∖ {[v]}]> (ms_view db) i
    else ms_delete db k v = None;
  ms_commit_law db : ms_commit db = Some db
}.

(** ** [LmdbBrokerStore] *)

Module LmdbBrokerStore.
Section Ops.
Context `{!MultiStore}.

(** The state is the database; the environment and the locks around it are not. *)
Definition get (prefix : u8) (key : bytes) (suffix : option u8) (db : ms_db)
    : outcome (result bytes StorageError) :=
  let property := compute_property prefix key suffix in
  match ms_get db property with
  | None => Ret (Err StorageError_BackendError)
  | Some iter =>
      match iter with
      | Some val :: _ => Ret (Ok val)
      | None :: _ => Ret (Err StorageError_BackendError)
      | [] => Ret (Err StorageError_NotFound)
      end
  end.

(** The loop of [get_all] *)
Fixpoint collect (iter : list (option bytes)) (vector : list bytes)
    : result (list bytes) StorageError :=
  match iter with
  | Some val :: iter => collect iter (vector ++ [val])
  | None :: _ => Err StorageError_BackendError
  | [] => Ok vector
  end.
Definition get_all (prefix : u8) (key : bytes) (suffix : option u8) (db : ms_db)
    : outcome (result (list bytes) StorageError) :=
  let property := compute_property prefix key suffix in
  match ms_get db property with
  | None => Ret (Err StorageError_BackendError)
  | Some iter => Ret (collect iter [])
  end.

Definition has_property_value (prefix : u8) (key : bytes) (suffix : option u8) (value : bytes)
    (db : ms_db) : outcome (result unit StorageError) :=
  let property := compute_property prefix key suffix in
  match ms_get_key_value db property value with
  | None => Ret (Err StorageError_BackendError)
  | Some found => Ret (if found then Ok tt else Err StorageError_NotFound)
  end.

(** The end of a writing method: [None] is an error, which leaves the transaction
    uncommitted; [writer.commit().unwrap()] otherwise. *)
Definition finish (writer : option ms_db) (db : ms_db)
    : outcome (result unit StorageError * ms_db) :=
  match writer with
  | None => Ret (Err StorageError_BackendError, db)
  | Some writer => db ← unwrap (ms_commit writer); Ret (Ok tt, db)
  end.

Definition put (prefix : u8) (key : bytes) (suffix : option u8) (value : bytes) (db : ms_db)
    : outcome (result unit StorageError * ms_db) :=
  let property := compute_property prefix key suffix in
  finish (ms_put db property value) db.

Definition replace (prefix : u8) (key : bytes) (suffix : option u8) (value : bytes) (db : ms_db)
    : outcome (result unit StorageError * ms_db) :=
  let property := compute_property prefix key suffix in
  finish (writer ← ms_delete_all db property; ms_put writer property value) db.

Definition del (prefix : u8) (key : bytes) (suffix : option u8) (db : ms_db)
    : outcome (result unit StorageError * ms_db) :=
  let property := compute_property prefix key suffix in
  finish (ms_delete_all db property) db.

Definition del_property_value (prefix : u8) (key : bytes) (suffix : option u8) (value : bytes)
    (db : ms_db) : outcome (result unit StorageError * ms_db) :=
  let property := compute_property prefix key suffix in
  finish (ms_delete db property value) db.

(** The loop of [del_all] *)
Fixpoint del_suffixes (prefix : u8) (key : bytes) (suffixes : list u8) (db : ms_db)
    : outcome (result unit StorageError * ms_db) :=
  match suffixes with
  | [] => Ret (Ok tt, db)
  | suffix :: suffixes =>
      '(r, db) ← del prefix key (Some suffix) db;
      match r with
      | Ok _ => del_suffixes prefix key suffixes db
      | Err e => Ret (Err e, db)
      end
  end.
Definition del_all (prefix : u8) (key : bytes) (all_suffixes : list u8) (db : ms_db)
    : outcome (result unit StorageError * ms_db) :=
  '(r, db) ← del_suffixes prefix key all_suffixes db;
  match r with
  | Ok _ => match all_suffixes with [] => del prefix key None db | _ => Ret (Ok tt, db) end
  | Err e => Ret (Err e, db)
  end.
End Ops.
End LmdbBrokerStore.

Section LmdbSpec.
Context `{!MultiStore}.

#[export] Instance LmdbBrokerStore_BrokerStore : BrokerStore ms_db := {
  bs_get := LmdbBrokerStore.get;
  bs_get_all := LmdbBrokerStore.get_all;
  bs_has_property_value := LmdbBrokerStore.has_property_value;
  bs_put := LmdbBrokerStore.put;
  bs_replace := LmdbBrokerStore.replace;
  bs_del := LmdbBrokerStore.del;
  bs_del_all := LmdbBrokerStore.del_all;
  bs_del_property_value := LmdbBrokerStore.del_property_value
}.

Context `{!MultiStoreLaws}.

Lemma del_props_ext keys m1 m2 :
  (∀ i, m1 i = m2 i) →
  (del_props keys m1).1 = (del_props keys m2).1 ∧ ∀ i, (del_props keys m1).2 i = (del_props keys m2).2 i.
Proof.
  revert m1 m2. induction keys as [|k keys IH]; intros m1 m2 Hm; [done|]. cbn [del_props].
  rewrite <- (Hm k). destruct (decide _); [done|]. apply IH. intros i.
  destruct (decide (k = i)) as [->|]; [by rewrite !fn_lookup_insert|by rewrite !fn_lookup_insert_ne].
Qed.

Lemma collect_ok l acc : LmdbBrokerStore.collect (Some <$> l) acc = Ok (acc ++ l).
Proof.
  revert acc. induction l as [|v l IH]; intros acc; csimpl; [by rewrite app_nil_r|].
  by rewrite IH, <- app_assoc.
Qed.

Lemma lmdb_del_spec db p k x :
  ∃ db', LmdbBrokerStore.del p k x db
         = Ret ((del_props [compute_property p k x] (ms_view db)).1, db') ∧
  ∀ i, ms_view db' i = (del_props [compute_property p k x] (ms_view db)).2 i.
Proof.
  unfold LmdbBrokerStore.del, LmdbBrokerStore.finish. cbn [del_props].
  pose proof (ms_delete_all_law db (compute_property p k x)) as Hlaw.
  destruct (decide (ms_view db (compute_property p k x) = ∅)).
  - rewrite Hlaw. by exists db.
  - destruct Hlaw as (db' & -> & Hv). rewrite ms_commit_law. by exists db'.
Qed.

Lemma lmdb_del_suffixes_spec db p k xs :
  ∃ db', LmdbBrokerStore.del_suffixes p k xs db
  = Ret ((del_props ((λ x, compute_property p k (Some x)) <$> xs) (ms_view db)).1, db') ∧
  ∀ i, ms_view db' i = (del_props ((λ x, compute_property p k (Some x)) <$> xs) (ms_view db)).2 i.
Proof.
  revert db. induction xs as [|x xs IH]; intros db; [by exists db|].
  cbn [LmdbBrokerStore.del_suffixes]. destruct (lmdb_del_spec db p k (Some x)) as (db' & -> & Hv).
  rewrite fmap_cons. cbn [del_props] in *. cbn [mbind outcome_bind].
  destruct (decide (ms_view db (compute_property p k (Some x)) = ∅)); cbn [fst snd] in *; [by exists db'|].
  destruct (IH db') as (db2 & -> & Hv2). exists db2.
  destruct (del_props_ext ((λ x, compute_property p k (Some x)) <$> xs) _ _ Hv) as [Hr Hm].
  split; [by rewrite Hr|]. intros i. by rewrite Hv2, Hm.
Qed.

#[export, refine] Instance LmdbBrokerStore_BrokerStoreSpec : BrokerStoreSpec ms_db := {
  bs_inv _ := True;
  bs_view := ms_view;
  bs_fits := ms_fits
}.
Proof.
  - intros db p k x _. cbn. unfold LmdbBrokerStore.get.
    destruct (ms_get_law db (compute_property p k x)) as (l & -> & _ & Hl).
    destruct l as [|v l]; cbn; eexists; (split; [reflexivity|]); cbn in *; set_solver.
  - intros db p k x _. cbn. unfold LmdbBrokerStore.get_all.
    destruct (ms_get_law db (compute_property p k x)) as (l & -> & ? & ?).
    exists l. by rewrite collect_ok.
  - intros db p k x v _. cbn. unfold LmdbBrokerStore.has_property_value.
    rewrite ms_get_key_value_law. case_bool_decide; by case_decide.
  - intros db p k x v _ Hf. cbn. unfold LmdbBrokerStore.put, LmdbBrokerStore.finish.
    destruct (ms_put_law db _ v Hf) as (db' & -> & Hv). rewrite ms_commit_law. by exists db'.
  - intros db p k x v _ Hf. cbn. unfold LmdbBrokerStore.replace, LmdbBrokerStore.finish.
    pose proof (ms_delete_all_law db (compute_property p k x)) as Hlaw.
    destruct (decide (ms_view db (compute_property p k x) = ∅)).
    + rewrite Hlaw. by eexists _, db.
    + destruct Hlaw as (db1 & -> & Hv1). cbn [mbind option_bind].
      destruct (ms_put_law db1 _ v Hf) as (db' & -> & Hv). rewrite ms_commit_law.
      eexists _, db'. split_and!; [done..|]. intros i. rewrite Hv.
      destruct (decide (compute_property p k x = i)) as [<-|].
      * rewrite !fn_lookup_insert, Hv1, fn_lookup_insert. apply (right_id_L ∅ (∪)).
      * by rewrite !fn_lookup_insert_ne, Hv1, fn_lookup_insert_ne.
  - intros db p k x _. destruct (lmdb_del_spec db p k x) as (db' & ? & ?). by exists db'.
  - intros db p k xs _. cbn. unfold LmdbBrokerStore.del_all.
    destruct (lmdb_del_suffixes_spec db p k xs) as (db' & -> & Hv). cbn [mbind outcome_bind].
    destruct xs as [|x xs].
    + destruct (lmdb_del_spec db' p k None) as (db2 & -> & Hv2). exists db2. cbn [all_props].
      destruct (del_props_ext [compute_property p k None] _ _ Hv) as [Hr Hm].
      split_and!; [by rewrite Hr|done|]. intros i. by rewrite Hv2, Hm.
    + exists db'. cbn [all_props]. split_and!; [|done|done].
      destruct (del_props _ _) as [[[]|] ?]; done.
  - intros db p k x v _. cbn. unfold LmdbBrokerStore.del_property_value, LmdbBrokerStore.finish.
    pose proof (ms_delete_law db (compute_property p k x) v) as Hlaw.
    destruct (decide (v ∈ ms_view db (compute_property p k x))).
    + destruct Hlaw as (db' & -> & Hv). rewrite ms_commit_law. by eexists _, db'.
    + rewrite Hlaw. by eexists _, db.
Defined.
End LmdbSpec.
