(* ===== verification/BrokerRows.v ===== *)
(** * Reasoning about tables

    A table's properties are keyed by its prefix, an identifier and a suffix: the rows of
    the store. The lemmas give what each method of the trait does to the rows, for any
    store that keeps the contract; [Module MemStore] is a store in memory, on which the
    theorems can be instantiated. *)

From stdpp Require Import functions.
From S2P Require Import Prelude Serde Types Store BrokerStore.

Lemma compute_property_inj p k x p' k' x' :
  compute_property p k (Some x) = compute_property p' k' (Some x') →
  (p, k, x) = (p', k', x').
Proof.
  unfold compute_property. intros [= -> Happ].
  apply app_inj_tail_iff in Happ as [-> ->]. done.
Qed.

(** Where a run of deletions gets to, and what it leaves. *)
Lemma del_props_rows (f : u8 → bytes) (l : list u8) (m : properties) :
  (∀ x y, f x = f y → x = y) →
  (∀ i, (∀ x, i ≠ f x) → (del_props (f <$> l) m).2 i = m i) ∧
  (∀ n, (∀ x, x ∈ take n l → m (f x) ≠ ∅) → NoDup l →
    match l !! n with
    | Some x => m (f x) = ∅ → (del_props (f <$> l) m).1 = Err StorageError_BackendError ∧
       ∀ x', (del_props (f <$> l) m).2 (f x') = if decide (x' ∈ take n l) then ∅ else m (f x')
    | None => (del_props (f <$> l) m).1 = Ok tt ∧
       ∀ x', (del_props (f <$> l) m).2 (f x') = if decide (x' ∈ l) then ∅ else m (f x')
    end).
Proof.
  intros Hf. revert m. induction l as [|x l IH]; intros m; [split; [done|]; intros n; cbn; by destruct n|].
  rewrite fmap_cons. cbn [del_props]. split.
  - intros i Hne. destruct (decide _); [done|]. cbn. rewrite (proj1 (IH _)) by done.
    apply fn_lookup_insert_ne. intros ?; by apply (Hne x).
  - intros [|n] Hn Hnd; cbn [take lookup list_lookup] in *.
    + intros He. destruct (decide _); [|done]. split; [done|]. intros x'.
      destruct (decide _) as [Hin|]; [by apply elem_of_nil in Hin|done].
    + apply NoDup_cons in Hnd as [Hnin Hnd].
      destruct (decide (m (f x) = ∅)) as [He|Hne]; [exfalso; apply (Hn x); [left|done]|].
      cbn [fst snd].
      assert (Hother : ∀ y, y ∈ l → <[f x := (∅ : gset bytes)]> m (f y) = m (f y)).
      { intros y Hy. apply fn_lookup_insert_ne. intros ->%Hf. done. }
      pose proof (proj2 (IH (<[f x := ∅]> m)) n) as Hm.
      assert (Hpre : ∀ y, y ∈ take n l → <[f x := (∅ : gset bytes)]> m (f y) ≠ ∅).
      { intros y Hy. rewrite Hother by (by eapply subseteq_take).
        apply Hn. by right. }
      specialize (Hm Hpre Hnd).
      assert (Hval : ∀ (L : list u8) x', (x ∉ L) →
         (if decide (x' ∈ L) then ∅ else <[f x := (∅ : gset bytes)]> m (f x')) =
         (if decide (x' ∈ x :: L) then ∅ else m (f x'))).
      { intros L x' HL. destruct (decide (x' = x)) as [->|Hx].
        - rewrite fn_lookup_insert. rewrite (decide_False (P := x ∈ L)) by done.
          by rewrite decide_True by left.
        - rewrite fn_lookup_insert_ne by (intros Hxx%Hf; done).
          apply decide_ext. set_solver. }
      destruct (l !! n) as [y|] eqn:Hy.
      * intros Hye. destruct Hm as [Hm1 Hm2]; [by rewrite Hother by (by eapply list_elem_of_lookup_2)|].
        split; [done|]. intros x'. rewrite Hm2. apply Hval.
        intros Hin. apply Hnin. by eapply subseteq_take.
      * destruct Hm as [Hm1 Hm2]. split; [done|]. intros x'. rewrite Hm2. by apply Hval.
Qed.

Section Rows.
Context {S : Type} `{!BrokerStore S, !BrokerStoreSpec S}.

Definition row (s : S) (p : u8) (k : bytes) (x : u8) : gset bytes :=
  bs_view s (compute_property p k (Some x)).

(** The rows of a state are those of another one with one of them changed. *)
Definition row_set (s s' : S) (p : u8) (k : bytes) (x : u8) (vs : gset bytes) : Prop :=
  bs_inv s' ∧ ∀ i, bs_view s' i = <[compute_property p k (Some x) := vs]> (bs_view s) i.

(** Nothing is changed outside of the properties with prefix [p]. *)
Definition frame (p : u8) (s s' : S) : Prop :=
  bs_inv s' ∧ ∀ i, head i ≠ Some p → bs_view s' i = bs_view s i.

Lemma row_set_eq s s' p k x vs : row_set s s' p k x vs → row s' p k x = vs.
Proof. intros [_ Hv]. unfold row. by rewrite Hv, fn_lookup_insert. Qed.

Lemma row_set_ne s s' p k x vs p' k' x' :
  row_set s s' p k x vs → (p, k, x) ≠ (p', k', x') → row s' p' k' x' = row s p' k' x'.
Proof.
  intros [_ Hv] Hne. unfold row. rewrite Hv, fn_lookup_insert_ne; [done|].
  intros Heq%compute_property_inj. done.
Qed.

Lemma frame_refl p s : bs_inv s → frame p s s.
Proof. by split. Qed.
Lemma frame_trans p s1 s2 s3 : frame p s1 s2 → frame p s2 s3 → frame p s1 s3.
Proof. intros [? H1] [? H2]. split; [done|]. intros i Hi. by rewrite H2, H1. Qed.
Lemma row_set_frame s s' p k x vs : row_set s s' p k x vs → frame p s s'.
Proof.
  intros [Hi Hv]. split; [done|]. intros i Hne. rewrite Hv, fn_lookup_insert_ne; [done|].
  intros <-. done.
Qed.

(** The methods on a row *)

Lemma get_row s p k x :
  bs_inv s → ∃ r, bs_get p k (Some x) s = Ret r ∧
  match r with
  | Ok v => v ∈ row s p k x
  | Err e => e = StorageError_NotFound ∧ row s p k x = ∅
  end.
Proof. apply bs_get_spec. Qed.

Lemma get_row_one s p k x v :
  bs_inv s → row s p k x = {[v]} → bs_get p k (Some x) s = Ret (Ok v).
Proof.
  intros Hi Hrow. destruct (get_row s p k x Hi) as ([w|e] & -> & Hr); rewrite Hrow in Hr.
  - by apply elem_of_singleton in Hr as ->.
  - destruct Hr as [_ Hr]. exfalso. clear -Hr. set_solver.
Qed.

Lemma get_row_none s p k x :
  bs_inv s → row s p k x = ∅ → bs_get p k (Some x) s = Ret (Err StorageError_NotFound).
Proof.
  intros Hi Hrow. destruct (get_row s p k x Hi) as ([w|e] & -> & Hr); rewrite Hrow in Hr.
  - by apply not_elem_of_empty in Hr.
  - by destruct Hr as [-> _].
Qed.

Lemma put_row s p k x v :
  bs_inv s → bs_fits (compute_property p k (Some x)) v →
  ∃ s', bs_put p k (Some x) v s = Ret (Ok tt, s') ∧ row_set s s' p k x ({[v]} ∪ row s p k x).
Proof.
  intros Hi Hf. destruct (bs_put_spec s p k (Some x) v Hi Hf) as (s' & ? & ? & ?). by exists s'.
Qed.

Lemma replace_row s p k x v :
  bs_inv s → bs_fits (compute_property p k (Some x)) v → row s p k x ≠ ∅ →
  ∃ s', bs_replace p k (Some x) v s = Ret (Ok tt, s') ∧ row_set s s' p k x {[v]}.
Proof.
  intros Hi Hf Hne. destruct (bs_replace_spec s p k (Some x) v Hi Hf) as (r & s' & -> & ? & Hr).
  destruct (decide _); [done|]. destruct Hr as [-> Hv]. by exists s'.
Qed.

Lemma has_row s p k x v :
  bs_inv s → bs_has_property_value p k (Some x) v s =
  Ret (if decide (v ∈ row s p k x) then Ok tt else Err StorageError_NotFound).
Proof. apply bs_has_spec. Qed.

(** A method that leaves every row as it is may still move the state. *)
Definition row_same (s s' : S) : Prop := bs_inv s' ∧ ∀ i, bs_view s' i = bs_view s i.
Lemma row_same_frame p s s' : row_same s s' → frame p s s'.
Proof. intros [? Hv]. by split; [|intros i _]. Qed.
Lemma row_same_row s s' p k x : row_same s s' → row s' p k x = row s p k x.
Proof. intros [_ Hv]. apply Hv. Qed.

Lemma del_value_row s p k x v :
  bs_inv s → ∃ r s', bs_del_property_value p k (Some x) v s = Ret (r, s') ∧
  if decide (v ∈ row s p k x) then r = Ok tt ∧ row_set s s' p k x (row s p k x ∖ {[v]})
  else r = Err StorageError_BackendError ∧ row_same s s'.
Proof.
  intros Hi. destruct (bs_del_value_spec s p k (Some x) v Hi) as (r & s' & -> & Hi' & Hr).
  exists r, s'. split; [done|]. unfold row in *. destruct (decide _); by destruct Hr.
Qed.

(** [del_all] row by row, up to the first that is empty. *)
Lemma del_all_rows s p k xs :
  bs_inv s → xs ≠ [] → ∃ r s', bs_del_all p k xs s = Ret (r, s') ∧ frame p s s' ∧
  (∀ k' x', k' ≠ k → row s' p k' x' = row s p k' x') ∧
  (∀ n, (∀ x, x ∈ take n xs → row s p k x ≠ ∅) → NoDup xs →
     match xs !! n with
     | Some x => row s p k x = ∅ →
         r = Err StorageError_BackendError ∧
         ∀ x', row s' p k x' = if decide (x' ∈ take n xs) then ∅ else row s p k x'
     | None => r = Ok tt ∧ ∀ x', row s' p k x' = if decide (x' ∈ xs) then ∅ else row s p k x'
     end).
Proof.
  intros Hi Hxs. destruct (bs_del_all_spec s p k xs Hi) as (s' & -> & Hi' & Hv).
  destruct xs as [|x0 xs0]; [done|]. clear Hxs. cbn [all_props] in *. revert Hv.
  set (l := x0 :: xs0). clearbody l. set (f := λ x, compute_property p k (Some x)). intros Hv.
  destruct (del_props_rows f l (bs_view s)) as [Hg1 Hg2];
    [by intros x y [=]%compute_property_inj|].
  eexists _, s'. split_and!; [done|split; [done|]| |].
  - intros i Hne. rewrite Hv. apply Hg1. intros x ->. done.
  - intros k' x' Hk. unfold row. rewrite Hv. apply Hg1. intros x Heq%compute_property_inj. congruence.
  - intros n Hn Hnd. specialize (Hg2 n Hn Hnd). destruct (l !! n).
    + intros He. destruct (Hg2 He) as [Hr Hrows]. split; [exact Hr|]. intros x'.
      unfold row. rewrite Hv. apply Hrows.
    + destruct Hg2 as [Hr Hrows]. split; [exact Hr|]. intros x'.
      unfold row. rewrite Hv. apply Hrows.
Qed.
End Rows.

(** ** Rows that hold values of a type *)

#[export] Instance to_vec_inj `{!Serde X, !SerdeLaws (SerdeSkip0 := serde_skip_default X) X} :
  Inj (=) (=) (to_vec (A := X)) | 100.
Proof. intros x y Hxy%to_vec_inj_skip. apply Hxy. Qed.

Section TypedRows.
Context {S : Type} `{!BrokerStore S, !BrokerStoreSpec S}.

(** One value *)
Section One.
Context {X : Type} `{!Serde X, !SerdeLaws (SerdeSkip0 := serde_skip_default X) X}.
Implicit Types (x : X) (s : S).

Definition one_row (o : option X) : gset bytes := from_option (λ x, {[to_vec x]}) ∅ o.

(** The test of [exists] *)
Lemma exists_row s p k sx (o : option X) :
  bs_inv s → row s p k sx = one_row o →
  (r ← bs_get p k (Some sx) s; Ret (is_ok r)) = Ret (bool_decide (is_Some o)).
Proof.
  intros Hi Hrow. destruct o as [x|]; cbn [one_row from_option] in Hrow.
  - by rewrite (get_row_one _ _ _ _ _ Hi Hrow).
  - by rewrite (get_row_none _ _ _ _ Hi Hrow).
Qed.

(** A property that is read *)
Lemma read_row s p k sx (o : option X) :
  bs_inv s → row s p k sx = one_row o →
  (r ← bs_get p k (Some sx) s; Ret (v ←? r; from_slice_se v)) =
  Ret (match o with Some x => Ok x | None => Err StorageError_NotFound end).
Proof.
  intros Hi Hrow. destruct o as [x|]; cbn [one_row from_option] in Hrow.
  - rewrite (get_row_one _ _ _ _ _ Hi Hrow). cbn. unfold from_slice_se.
    by rewrite from_slice_to_vec.
  - by rewrite (get_row_none _ _ _ _ Hi Hrow).
Qed.

Lemma put_one_row s p k sx x :
  bs_inv s → row s p k sx = one_row (None : option X) →
  bs_fits (compute_property p k (Some sx)) (to_vec x) →
  ∃ s', bs_put p k (Some sx) (to_vec x) s = Ret (Ok tt, s') ∧ row_set s s' p k sx (one_row (Some x)).
Proof.
  intros Hi Hrow Hf. destruct (put_row s p k sx (to_vec x) Hi Hf) as (s' & ? & Hs).
  exists s'. split; [done|]. rewrite Hrow in Hs. cbn in *. by rewrite (right_id_L ∅ (∪)) in Hs.
Qed.

Lemma replace_one_row s p k sx x y :
  bs_inv s → row s p k sx = one_row (Some x) →
  bs_fits (compute_property p k (Some sx)) (to_vec y) →
  ∃ s', bs_replace p k (Some sx) (to_vec y) s = Ret (Ok tt, s') ∧
        row_set s s' p k sx (one_row (Some y)).
Proof.
  intros Hi Hrow Hf. apply replace_row; [done..|]. rewrite Hrow. cbn. clear. set_solver.
Qed.
End One.

(** A set of values *)
Section Many.
Context {X : Type} `{Countable X} `{!Serde X, !SerdeLaws (SerdeSkip0 := serde_skip_default X) X}.
Implicit Types (x : X) (xs : gset X) (s : S).

Definition set_row (xs : gset X) : gset bytes := set_map to_vec xs.

Lemma in_set_row x xs : to_vec x ∈ set_row xs ↔ x ∈ xs.
Proof.
  unfold set_row. rewrite elem_of_map. split; [intros (y & Hy%(inj to_vec) & ?); by subst|by eauto].
Qed.
Lemma set_row_empty : set_row ∅ = ∅.
Proof. apply set_map_empty. Qed.
Lemma set_row_empty_iff xs : set_row xs = ∅ ↔ xs = ∅.
Proof.
  split; [|intros ->; apply set_row_empty]. intros He. apply leibniz_equiv_iff, elem_of_equiv_empty.
  intros x Hx%in_set_row. rewrite He in Hx. by apply not_elem_of_empty in Hx.
Qed.

Lemma add_set_row s p k sx x xs :
  bs_inv s → row s p k sx = set_row xs → bs_fits (compute_property p k (Some sx)) (to_vec x) →
  ∃ s', bs_put p k (Some sx) (to_vec x) s = Ret (Ok tt, s') ∧
        row_set s s' p k sx (set_row ({[x]} ∪ xs)).
Proof.
  intros Hi Hrow Hf. destruct (put_row s p k sx (to_vec x) Hi Hf) as (s' & ? & Hs).
  exists s'. split; [done|]. unfold set_row in *. rewrite Hrow in Hs.
  by rewrite set_map_union_L, set_map_singleton_L.
Qed.

Lemma has_set_row s p k sx x xs :
  bs_inv s → row s p k sx = set_row xs →
  bs_has_property_value p k (Some sx) (to_vec x) s =
  Ret (if decide (x ∈ xs) then Ok tt else Err StorageError_NotFound).
Proof.
  intros Hi Hrow. rewrite has_row, Hrow by done. by rewrite (decide_ext _ _ _ _ (in_set_row x xs)).
Qed.

Lemma remove_set_row s p k sx x xs :
  bs_inv s → row s p k sx = set_row xs →
  ∃ r s', bs_del_property_value p k (Some sx) (to_vec x) s = Ret (r, s') ∧
  if decide (x ∈ xs) then r = Ok tt ∧ row_set s s' p k sx (set_row (xs ∖ {[x]}))
  else r = Err StorageError_BackendError ∧ row_same s s'.
Proof.
  intros Hi Hrow. destruct (del_value_row s p k sx (to_vec x) Hi) as (r & s' & ? & Hr).
  exists r, s'. split; [done|]. rewrite Hrow, (decide_ext _ _ _ _ (in_set_row x xs)) in Hr.
  unfold set_row. by rewrite set_map_difference_L, set_map_singleton_L by apply _.
Qed.
End Many.
End TypedRows.

(** The steps of the [io] monad, once the part they run first is known. *)
Section Io.
Context {S : Type}.
Lemma io_if_eq {A} (b : S → outcome bool) (m1 m2 : io S A) s c :
  b s = Ret c → io_if b m1 m2 s = if c then m1 s else m2 s.
Proof. unfold io_if. by intros ->. Qed.
Lemma io_try_ok {A B} (m : io S A) (k : A → io S B) s a s' :
  m s = Ret (Ok a, s') → io_try m k s = k a s'.
Proof. unfold io_try. by intros ->. Qed.
Lemma io_try_err {A B} (m : io S A) (k : A → io S B) s e s' :
  m s = Ret (Err e, s') → io_try m k s = Ret (Err e, s').
Proof. unfold io_try. by intros ->. Qed.
Lemma io_match_eq {A B} (m : io S A) (k : result A StorageError → io S B) s r s' :
  m s = Ret (r, s') → io_match m k s = k r s'.
Proof. unfold io_match. by intros ->. Qed.
Lemma io_read_eq {A} (m : reads S A) s r : m s = Ret r → io_read m s = Ret (r, s).
Proof. unfold io_read. by intros ->. Qed.
End Io.

(** ** A store in memory *)

Module MemStore.
#[export] Instance mem_multi_store : MultiStore := {
  ms_db := gmap bytes (gset bytes);
  ms_get db k := Some (Some <$> elements (default ∅ (db !! k)));
  ms_get_key_value db k v := Some (bool_decide (v ∈ default ∅ (db !! k)));
  ms_put db k v := Some (<[k := {[v]} ∪ default ∅ (db !! k)]> db);
  ms_delete_all db k := if decide (default ∅ (db !! k) = ∅) then None else Some (delete k db);
  ms_delete db k v :=
    if decide (v ∈ default ∅ (db !! k)) then Some (<[k := default ∅ (db !! k) ∖ {[v]}]> db) else None;
  ms_commit db := Some db
}.

#[export, refine] Instance mem_multi_store_laws : MultiStoreLaws := {
  ms_view (db : gmap bytes (gset bytes)) k := default ∅ (db !! k);
  ms_fits _ _ := True
}.
Proof.
  - intros db k. eexists. split; [reflexivity|]. split; [apply NoDup_elements|].
    apply list_to_set_elements_L.
  - done.
  - intros db k v _. eexists. split; [reflexivity|]. intros i.
    destruct (decide (k = i)) as [<-|].
    + by rewrite lookup_insert_eq, fn_lookup_insert.
    + by rewrite lookup_insert_ne, fn_lookup_insert_ne.
  - intros db k. cbn. destruct (decide _); [done|]. eexists. split; [reflexivity|]. intros i.
    destruct (decide (k = i)) as [<-|].
    + by rewrite lookup_delete_eq, fn_lookup_insert.
    + by rewrite lookup_delete_ne, fn_lookup_insert_ne.
  - intros db k v. cbn. destruct (decide _); [|done]. eexists. split; [reflexivity|]. intros i.
    destruct (decide (k = i)) as [<-|].
    + by rewrite lookup_insert_eq, fn_lookup_insert.
    + by rewrite lookup_insert_ne, fn_lookup_insert_ne.
  - done.
Defined.
End MemStore.
