(* ===== verification/BrokerTables.v ===== *)
(** * The broker's tables: [lofire-broker/src/{account,overlay,topic,peer,repostoreinfo,config}.rs]

    A module per file. The struct of a table is the identifier it holds, its reference to
    the store the state threaded through [io]; the module's constants are the bytes of
    the table's prefix and suffixes. *)

From S2P Require Import Prelude Serde Types Store Utils NetTypes BrokerStore.

(** [b"x"[0]] *)
Definition byte_of (c : string) : u8 :=
  match c with String a _ => Ascii.byte_of_ascii a | EmptyString => x00 end.

Record OverlayMeta : Type := { OverlayMeta_users : u32; OverlayMeta_last_used : Timestamp }.
Record TopicMeta : Type := { TopicMeta_users : u32 }.
Inductive RepoStoreId : Type :=
  | RepoStoreId_Overlay (x : OverlayId)
  | RepoStoreId_Repo (x : PubKey).
Inductive ConfigMode : Type := ConfigMode_Local | ConfigMode_Core.

#[export] Instance OverlayMeta_eq_dec : EqDecision OverlayMeta.
Proof. solve_decision. Defined.
#[export] Instance TopicMeta_eq_dec : EqDecision TopicMeta.
Proof. solve_decision. Defined.
#[export] Instance RepoStoreId_eq_dec : EqDecision RepoStoreId.
Proof. solve_decision. Defined.
#[export] Program Instance RepoStoreId_countable : Countable RepoStoreId :=
  inj_countable' (λ x, match x with RepoStoreId_Overlay a => inl a | RepoStoreId_Repo b => inr b end)
                 (λ x, match x with inl a => RepoStoreId_Overlay a | inr b => RepoStoreId_Repo b end) _.
Next Obligation. by intros []. Qed.
#[export] Instance ConfigMode_eq_dec : EqDecision ConfigMode.
Proof. solve_decision. Defined.

Module Account.
Record Account : Type := { id : UserId }.

Definition PREFIX : u8 := byte_of "u".
Definition CLIENT : u8 := byte_of "c".
Definition ADMIN : u8 := byte_of "a".
Definition OVERLAY : u8 := byte_of "o".
Definition ALL_PROPERTIES : list u8 := [CLIENT; ADMIN; OVERLAY].
Definition SUFFIX_FOR_EXIST_CHECK : u8 := ADMIN.

Section Ops.
Context {S : Type} `{!BrokerStore S}.
Context `{!Serde PubKey, !Serde Digest, !Serde bool}.

Definition exists_ (self : Account) (s : S) : outcome bool :=
  r ← bs_get PREFIX (to_vec (id self)) (Some SUFFIX_FOR_EXIST_CHECK) s; Ret (is_ok r).
Definition open (i : UserId) : io S Account :=
  let opening := {| id := i |} in
  io_if (exists_ opening) (io_ok opening) (io_err StorageError_NotFound).
Definition create (i : UserId) (admin : bool) : io S Account :=
  let acc := {| id := i |} in
  io_if (exists_ acc) (io_err StorageError_BackendError) (
  _ ←$ bs_put PREFIX (to_vec i) (Some ADMIN) (to_vec admin);
  io_ok acc).
Definition add_client (client : ClientId) (self : Account) : io S unit :=
  io_if (exists_ self)
    (bs_put PREFIX (to_vec (id self)) (Some CLIENT) (to_vec client))
    (io_err StorageError_BackendError).
Definition remove_client (client : ClientId) (self : Account) : io S unit :=
  bs_del_property_value PREFIX (to_vec (id self)) (Some CLIENT) (to_vec client).
Definition has_client (client : ClientId) (self : Account) : reads S unit :=
  bs_has_property_value PREFIX (to_vec (id self)) (Some CLIENT) (to_vec client).
Definition add_overlay (overlay : OverlayId) (self : Account) : io S unit :=
  io_if (exists_ self)
    (bs_put PREFIX (to_vec (id self)) (Some OVERLAY) (to_vec overlay))
    (io_err StorageError_BackendError).
Definition remove_overlay (overlay : OverlayId) (self : Account) : io S unit :=
  bs_del_property_value PREFIX (to_vec (id self)) (Some OVERLAY) (to_vec overlay).
Definition has_overlay (overlay : OverlayId) (self : Account) : reads S unit :=
  bs_has_property_value PREFIX (to_vec (id self)) (Some OVERLAY) (to_vec overlay).
Definition is_admin (self : Account) : reads S bool := λ s,
  r ← bs_has_property_value PREFIX (to_vec (id self)) (Some ADMIN) (to_vec true) s;
  Ret (Ok (is_ok r)).
Definition del (self : Account) : io S unit :=
  bs_del_all PREFIX (to_vec (id self)) ALL_PROPERTIES.
End Ops.
End Account.

Module Overlay.
Record Overlay : Type := { id : OverlayId }.

Definition PREFIX : u8 := byte_of "o".
Definition SECRET : u8 := byte_of "s".
Definition PEER : u8 := byte_of "p".
Definition TOPIC : u8 := byte_of "t".
Definition META : u8 := byte_of "m".
Definition REPO : u8 := byte_of "r".
Definition ALL_PROPERTIES : list u8 := [SECRET; PEER; TOPIC; META; REPO].
Definition SUFFIX_FOR_EXIST_CHECK : u8 := SECRET.

Section Ops.
Context {S : Type} `{!BrokerStore S}.
Context `{!Serde Digest, !Serde SymKey, !Serde PubKey, !Serde OverlayMeta}.

Definition exists_ (self : Overlay) (s : S) : outcome bool :=
  r ← bs_get PREFIX (to_vec (id self)) (Some SUFFIX_FOR_EXIST_CHECK) s; Ret (is_ok r).
Definition open (i : OverlayId) : io S Overlay :=
  let opening := {| id := i |} in
  io_if (exists_ opening) (io_ok opening) (io_err StorageError_NotFound).
(** At [secs] seconds since the Unix epoch *)
Definition create (i : OverlayId) (secret : SymKey) (repo : option PubKey) (secs : u64)
    : io S Overlay :=
  let acc := {| id := i |} in
  io_if (exists_ acc) (io_err StorageError_BackendError) (
  _ ←$ bs_put PREFIX (to_vec i) (Some SECRET) (to_vec secret);
  _ ←$ match repo with
       | Some repo => bs_put PREFIX (to_vec i) (Some REPO) (to_vec repo)
       | None => io_ok tt
       end;
  last_used ←$ io_read (λ _, t ← now_timestamp secs; Ret (Ok t));
  let meta := {| OverlayMeta_users := uint_wrap 32 1; OverlayMeta_last_used := last_used |} in
  _ ←$ bs_put PREFIX (to_vec i) (Some META) (to_vec meta);
  io_ok acc).
Definition add_peer (peer : PeerId) (self : Overlay) : io S unit :=
  io_if (exists_ self)
    (bs_put PREFIX (to_vec (id self)) (Some PEER) (to_vec peer))
    (io_err StorageError_BackendError).
Definition remove_peer (peer : PeerId) (self : Overlay) : io S unit :=
  bs_del_property_value PREFIX (to_vec (id self)) (Some PEER) (to_vec peer).
Definition has_peer (peer : PeerId) (self : Overlay) : reads S unit :=
  bs_has_property_value PREFIX (to_vec (id self)) (Some PEER) (to_vec peer).
Definition add_topic (topic : TopicId) (self : Overlay) : io S unit :=
  io_if (exists_ self)
    (bs_put PREFIX (to_vec (id self)) (Some TOPIC) (to_vec topic))
    (io_err StorageError_BackendError).
Definition remove_topic (topic : TopicId) (self : Overlay) : io S unit :=
  bs_del_property_value PREFIX (to_vec (id self)) (Some TOPIC) (to_vec topic).
Definition has_topic (topic : TopicId) (self : Overlay) : reads S unit :=
  bs_has_property_value PREFIX (to_vec (id self)) (Some TOPIC) (to_vec topic).
Definition secret (self : Overlay) : reads S SymKey := λ s,
  r ← bs_get PREFIX (to_vec (id self)) (Some SECRET) s;
  Ret (v ←? r; from_slice_se v).
Definition metadata (self : Overlay) : reads S OverlayMeta := λ s,
  r ← bs_get PREFIX (to_vec (id self)) (Some META) s;
  Ret (v ←? r; from_slice_se v).
Definition set_metadata (meta : OverlayMeta) (self : Overlay) : io S unit :=
  io_if (exists_ self)
    (bs_replace PREFIX (to_vec (id self)) (Some META) (to_vec meta))
    (io_err StorageError_BackendError).
Definition repo (self : Overlay) : reads S PubKey := λ s,
  r ← bs_get PREFIX (to_vec (id self)) (Some REPO) s;
  Ret (v ←? r; from_slice_se v).
Definition del (self : Overlay) : io S unit :=
  bs_del_all PREFIX (to_vec (id self)) ALL_PROPERTIES.
End Ops.
End Overlay.

Module Topic.
Record Topic : Type := { id : TopicId }.

Definition PREFIX : u8 := byte_of "t".
Definition ADVERT : u8 := byte_of "a".
Definition HEAD : u8 := byte_of "h".
Definition META : u8 := byte_of "m".
Definition ALL_PROPERTIES : list u8 := [ADVERT; HEAD; META].
Definition SUFFIX_FOR_EXIST_CHECK : u8 := META.

Section Ops.
Context {S : Type} `{!BrokerStore S}.
Context `{!Serde PubKey, !Serde Digest, !Serde TopicMeta}.

Definition exists_ (self : Topic) (s : S) : outcome bool :=
  r ← bs_get PREFIX (to_vec (id self)) (Some SUFFIX_FOR_EXIST_CHECK) s; Ret (is_ok r).
Definition open (i : TopicId) : io S Topic :=
  let opening := {| id := i |} in
  io_if (exists_ opening) (io_ok opening) (io_err StorageError_NotFound).
Definition create (i : TopicId) : io S Topic :=
  let acc := {| id := i |} in
  io_if (exists_ acc) (io_err StorageError_BackendError) (
  let meta := {| TopicMeta_users := uint_wrap 32 0 |} in
  _ ←$ bs_put PREFIX (to_vec i) (Some META) (to_vec meta);
  io_ok acc).
Definition add_head (head : ObjectId) (self : Topic) : io S unit :=
  io_if (exists_ self)
    (bs_put PREFIX (to_vec (id self)) (Some HEAD) (to_vec head))
    (io_err StorageError_BackendError).
Definition remove_head (head : ObjectId) (self : Topic) : io S unit :=
  bs_del_property_value PREFIX (to_vec (id self)) (Some HEAD) (to_vec head).
Definition has_head (head : ObjectId) (self : Topic) : reads S unit :=
  bs_has_property_value PREFIX (to_vec (id self)) (Some HEAD) (to_vec head).
Definition metadata (self : Topic) : reads S TopicMeta := λ s,
  r ← bs_get PREFIX (to_vec (id self)) (Some META) s;
  Ret (v ←? r; from_slice_se v).
Definition set_metadata (meta : TopicMeta) (self : Topic) : io S unit :=
  io_if (exists_ self)
    (bs_replace PREFIX (to_vec (id self)) (Some META) (to_vec meta))
    (io_err StorageError_BackendError).
Definition del (self : Topic) : io S unit :=
  bs_del_all PREFIX (to_vec (id self)) ALL_PROPERTIES.
End Ops.
End Topic.

Module Peer.
Record Peer : Type := { id : PeerId }.

Definition PREFIX : u8 := byte_of "p".
Definition VERSION : u8 := byte_of "v".
Definition ADVERT : u8 := byte_of "a".
Definition ALL_PROPERTIES : list u8 := [VERSION; ADVERT].
Definition SUFFIX_FOR_EXIST_CHECK : u8 := VERSION.

Section Ops.
Context {S : Type} `{!BrokerStore S}.
Context `{!Serde PubKey, !Serde u32, !Serde PeerAdvert}.

Definition exists_ (self : Peer) (s : S) : outcome bool :=
  r ← bs_get PREFIX (to_vec (id self)) (Some SUFFIX_FOR_EXIST_CHECK) s; Ret (is_ok r).
Definition open (i : PeerId) : io S Peer :=
  let opening := {| id := i |} in
  io_if (exists_ opening) (io_ok opening) (io_err StorageError_NotFound).
Definition create (advert : PeerAdvert) : io S Peer :=
  let i := PeerAdvert_peer advert in
  let acc := {| id := i |} in
  io_if (exists_ acc) (io_err StorageError_BackendError) (
  _ ←$ bs_put PREFIX (to_vec i) (Some VERSION) (to_vec (PeerAdvert_version advert));
  _ ←$ bs_put PREFIX (to_vec i) (Some ADVERT) (to_vec advert);
  io_ok acc).
Definition version (self : Peer) : reads S u32 := λ s,
  r ← bs_get PREFIX (to_vec (id self)) (Some VERSION) s;
  Ret (v ←? r; from_slice_se v).
Definition set_version (version : u32) (self : Peer) : io S unit :=
  io_if (exists_ self)
    (bs_replace PREFIX (to_vec (id self)) (Some VERSION) (to_vec version))
    (io_err StorageError_BackendError).
Definition advert (self : Peer) : reads S PeerAdvert := λ s,
  r ← bs_get PREFIX (to_vec (id self)) (Some ADVERT) s;
  Ret (v ←? r; from_slice_se v).
Definition set_advert (advert : PeerAdvert) (self : Peer) : io S unit :=
  io_if (exists_ self)
    (bs_replace PREFIX (to_vec (id self)) (Some ADVERT) (to_vec advert))
    (io_err StorageError_BackendError).
Definition update_advert (a : PeerAdvert) (self : Peer) : io S unit :=
  if decide (PeerAdvert_peer a ≠ id self) then io_err StorageError_InvalidValue else
  current_advert ←$ io_read (λ s, r ← advert self s;
                              Ret (map_err (λ _, StorageError_BackendError) r));
  if (uint_N (PeerAdvert_version a) <=? uint_N (PeerAdvert_version current_advert))%N
  then io_ok tt
  else bs_replace PREFIX (to_vec (id self)) (Some ADVERT) (to_vec a).
Definition update_or_create (a : PeerAdvert) : io S Peer :=
  let i := PeerAdvert_peer a in
  io_match (open i) (λ r,
    match r with
    | Err e =>
        if decide (e = StorageError_NotFound) then create a
        else io_err StorageError_BackendError
    | Ok p => _ ←$ update_advert a p; io_ok p
    end).
Definition del (self : Peer) : io S unit :=
  bs_del_all PREFIX (to_vec (id self)) ALL_PROPERTIES.
End Ops.
End Peer.

Module RepoStoreInfo.
Record RepoStoreInfo : Type := { id : RepoStoreId }.

Definition PREFIX : u8 := byte_of "r".
Definition KEY : u8 := byte_of "k".
Definition ALL_PROPERTIES : list u8 := [KEY].
Definition SUFFIX_FOR_EXIST_CHECK : u8 := KEY.

Section Ops.
Context {S : Type} `{!BrokerStore S}.
Context `{!Serde RepoStoreId, !Serde SymKey}.

Definition exists_ (self : RepoStoreInfo) (s : S) : outcome bool :=
  r ← bs_get PREFIX (to_vec (id self)) (Some SUFFIX_FOR_EXIST_CHECK) s; Ret (is_ok r).
Definition open (i : RepoStoreId) : io S RepoStoreInfo :=
  let opening := {| id := i |} in
  io_if (exists_ opening) (io_ok opening) (io_err StorageError_NotFound).
Definition create (i : RepoStoreId) (key : SymKey) : io S RepoStoreInfo :=
  let acc := {| id := i |} in
  io_if (exists_ acc) (io_err StorageError_BackendError) (
  _ ←$ bs_put PREFIX (to_vec i) (Some KEY) (to_vec key);
  io_ok acc).
Definition key (self : RepoStoreInfo) : reads S SymKey := λ s,
  r ← bs_get PREFIX (to_vec (id self)) (Some KEY) s;
  Ret (v ←? r; from_slice_se v).
Definition del (self : RepoStoreInfo) : io S unit :=
  bs_del_all PREFIX (to_vec (id self)) ALL_PROPERTIES.
End Ops.
End RepoStoreInfo.

Module Config.
Inductive Config : Type := Config_new.

Definition PREFIX : u8 := byte_of "c".
(** [*b"onfig"] *)
Definition KEY : array 5 := to_array 5 (byte_of <$> ["o"; "n"; "f"; "i"; "g"]%string).
Definition MODE : u8 := byte_of "m".
Definition ALL_PROPERTIES : list u8 := [MODE].
Definition SUFFIX_FOR_EXIST_CHECK : u8 := MODE.

Section Ops.
Context {S : Type} `{!BrokerStore S}.
Context `{!Serde (array 5), !Serde ConfigMode}.

Definition exists_ (self : Config) (s : S) : outcome bool :=
  r ← bs_get PREFIX (to_vec KEY) (Some SUFFIX_FOR_EXIST_CHECK) s; Ret (is_ok r).
Definition open : io S Config :=
  let opening := Config_new in
  io_if (exists_ opening) (io_ok opening) (io_err StorageError_NotFound).
Definition create (mode : ConfigMode) : io S Config :=
  let acc := Config_new in
  io_if (exists_ acc) (io_err StorageError_BackendError) (
  _ ←$ bs_put PREFIX (to_vec KEY) (Some MODE) (to_vec mode);
  io_ok acc).
Definition mode (self : Config) : reads S ConfigMode := λ s,
  r ← bs_get PREFIX (to_vec KEY) (Some MODE) s;
  Ret (v ←? r; from_slice_se v).
Definition get_or_create (m : ConfigMode) : io S Config :=
  io_match (open) (λ r,
    match r with
    | Err e =>
        if decide (e = StorageError_NotFound) then create m
        else io_err StorageError_BackendError
    | Ok p => λ s,
        r ← mode p s;
        match r with
        | Ok m' => if decide (m' ≠ m) then Ret (Err StorageError_InvalidValue, s) else Ret (Ok p, s)
        | Err _ => Panic
        end
    end).
End Ops.
End Config.
