(* ===== verification/NetBare.v ===== *)
(** * The serializer at the broker's types

    As [BareTypes], for the rows of the broker's tables and the messages of the
    authentication protocol: instances that compute, for the worked examples. *)

From stdpp Require Import vector.
From S2P Require Import Prelude Serde Types Bare BareTypes NetTypes BrokerTables.

#[export] Instance vec_bare {A n} `{!Bare A} `{!Inhabited A} : Bare (vec A n) := {
  bare_enc v := foldr (λ a b, bare_enc a ++ b) [] (vec_to_list v);
  bare_dec l := (fix go n l : option (vec A n * bytes) := match n with
    | O => Some ([#], l)
    | S n => '(a, l) ← bare_dec l; '(v, l) ← go n l; Some (a ::: v, l)
    end) n l
}.
#[export] Instance vec_bare_ok {A n} `{!Bare A, !Inhabited A, !BareOk A} : BareOk (vec A n).
Proof.
  intros v r. cbn. induction v as [|a n v IH]; [done|]. cbn in *.
  rewrite <- app_assoc, bare_ok. cbn. by rewrite IH.
Qed.
#[export] Instance array_inhabited n : Inhabited (array n) := populate (to_array n []).

(** An enum without fields, by its number. *)
#[export] Instance IPTransportProtocol_bare : Bare IPTransportProtocol := {
  bare_enc x := match x with IPTransportProtocol_TLS => [x00] | IPTransportProtocol_QUIC => [x01] end;
  bare_dec l := match l with
    | x00 :: l => Some (IPTransportProtocol_TLS, l)
    | x01 :: l => Some (IPTransportProtocol_QUIC, l)
    | _ => None
    end
}.
#[export] Instance IPTransportProtocol_bare_ok : BareOk IPTransportProtocol.
Proof. solve_enum. Qed.
#[export] Instance IP_bare : Bare IP := {
  bare_enc x := match x with IP_IPv4 a => x00 :: bare_enc a | IP_IPv6 a => x01 :: bare_enc a end;
  bare_dec l := match l with
    | x00 :: l => '(a, l) ← bare_dec l; Some (IP_IPv4 a, l)
    | x01 :: l => '(a, l) ← bare_dec l; Some (IP_IPv6 a, l)
    | _ => None
    end
}.
#[export] Instance IP_bare_ok : BareOk IP.
Proof. intros [a|a] r; cbn [bare_enc bare_dec IP_bare app]; by rewrite bare_ok. Qed.
#[export] Instance IPTransportAddr_bare : Bare IPTransportAddr :=
  iso_bare (λ '(Build_IPTransportAddr a b c), (a, b, c)) (λ '(a, b, c), Build_IPTransportAddr a b c).
#[export] Instance IPTransportAddr_bare_ok : BareOk IPTransportAddr.
Proof. solve_record. Qed.
#[export] Instance NetAddr_bare : Bare NetAddr :=
  variant_bare (λ '(NetAddr_IPTransport a), a) NetAddr_IPTransport.
#[export] Instance NetAddr_bare_ok : BareOk NetAddr.
Proof. solve_variant. Qed.
#[export] Instance PeerAdvertContentV0_bare : Bare PeerAdvertContentV0 :=
  iso_bare (λ '(Build_PeerAdvertContentV0 a b c d e), (a, b, c, d, e))
           (λ '(a, b, c, d, e), Build_PeerAdvertContentV0 a b c d e).
#[export] Instance PeerAdvertContentV0_bare_ok : BareOk PeerAdvertContentV0.
Proof. solve_record. Qed.
#[export] Instance PeerAdvertV0_bare : Bare PeerAdvertV0 :=
  iso_bare (λ '(Build_PeerAdvertV0 a b c), (a, b, c)) (λ '(a, b, c), Build_PeerAdvertV0 a b c).
#[export] Instance PeerAdvertV0_bare_ok : BareOk PeerAdvertV0.
Proof. solve_record. Qed.
#[export] Instance PeerAdvert_bare : Bare PeerAdvert :=
  variant_bare (λ '(PeerAdvert_V0 a), a) PeerAdvert_V0.
#[export] Instance PeerAdvert_bare_ok : BareOk PeerAdvert.
Proof. solve_variant. Qed.

(** ** The rows *)

#[export] Instance OverlayMeta_bare : Bare OverlayMeta :=
  iso_bare (λ '(Build_OverlayMeta a b), (a, b)) (λ '(a, b), Build_OverlayMeta a b).
#[export] Instance OverlayMeta_bare_ok : BareOk OverlayMeta.
Proof. solve_record. Qed.
#[export] Instance TopicMeta_bare : Bare TopicMeta :=
  iso_bare TopicMeta_users Build_TopicMeta.
#[export] Instance TopicMeta_bare_ok : BareOk TopicMeta.
Proof. solve_record. Qed.
#[export] Instance RepoStoreId_bare : Bare RepoStoreId := {
  bare_enc x := match x with
    | RepoStoreId_Overlay a => x00 :: bare_enc a
    | RepoStoreId_Repo a => x01 :: bare_enc a
    end;
  bare_dec l := match l with
    | x00 :: l => '(a, l) ← bare_dec l; Some (RepoStoreId_Overlay a, l)
    | x01 :: l => '(a, l) ← bare_dec l; Some (RepoStoreId_Repo a, l)
    | _ => None
    end
}.
#[export] Instance RepoStoreId_bare_ok : BareOk RepoStoreId.
Proof. intros [a|a] r; cbn [bare_enc bare_dec RepoStoreId_bare app]; by rewrite bare_ok. Qed.
#[export] Instance ConfigMode_bare : Bare ConfigMode := {
  bare_enc x := match x with ConfigMode_Local => [x00] | ConfigMode_Core => [x01] end;
  bare_dec l := match l with
    | x00 :: l => Some (ConfigMode_Local, l)
    | x01 :: l => Some (ConfigMode_Core, l)
    | _ => None
    end
}.
#[export] Instance ConfigMode_bare_ok : BareOk ConfigMode.
Proof. solve_enum. Qed.

(** ** Authentication *)

#[export] Instance ServerHello_bare : Bare ServerHello :=
  variant_bare (λ '(ServerHello_V0 o), ServerHelloV0_nonce o)
               (λ n, ServerHello_V0 (Build_ServerHelloV0 n)).
#[export] Instance ServerHello_bare_ok : BareOk ServerHello.
Proof. apply variant_bare_ok; by intros [[]]. Qed.
#[export] Instance ClientAuthContentV0_bare : Bare ClientAuthContentV0 :=
  iso_bare (λ '(Build_ClientAuthContentV0 a b c), (a, b, c))
           (λ '(a, b, c), Build_ClientAuthContentV0 a b c).
#[export] Instance ClientAuthContentV0_bare_ok : BareOk ClientAuthContentV0.
Proof. solve_record. Qed.
#[export] Instance ClientAuth_bare : Bare ClientAuth :=
  variant_bare (λ '(ClientAuth_V0 (Build_ClientAuthV0 a b)), (a, b))
               (λ '(a, b), ClientAuth_V0 (Build_ClientAuthV0 a b)).
#[export] Instance ClientAuth_bare_ok : BareOk ClientAuth.
Proof. apply variant_bare_ok; by intros [[]]. Qed.
#[export] Instance AuthResult_bare : Bare AuthResult :=
  variant_bare (λ '(AuthResult_V0 (Build_AuthResultV0 a b)), (a, b))
               (λ '(a, b), AuthResult_V0 (Build_AuthResultV0 a b)).
#[export] Instance AuthResult_bare_ok : BareOk AuthResult.
Proof. apply variant_bare_ok; by intros [[]]. Qed.

(** Any type with an encoding, as the library has it. *)
Module NetInstances.
#[export] Instance bare_serde_of `{!Bare A} : Serde A | 20 := bare_serde A.
#[export] Instance bare_serde_of_laws `{!Bare A, !BareOk A} : SerdeLaws A | 20.
Proof. apply bare_serde_laws, _. Qed.
End NetInstances.
