(* ===== verification/MessageBare.v ===== *)
(** * The serializer at the messages

    As [NetBare], for the messages of the broker protocol: instances that compute, for the
    worked examples. A block loses its skipped fields on the way, and with it the messages
    that carry one. *)

From S2P Require Import Prelude Serde Types Bare BareTypes Block NetTypes BrokerTables NetBare.

(** Proves the law of an enum whose variants have one field or none. *)
Ltac solve_cases inst :=
  let x := fresh "x" in let r := fresh "r" in
  intros x r; destruct x; cbn [bare_enc bare_dec inst app]; rewrite ?bare_ok; reflexivity.

#[export] Instance BloomFilter_bare : Bare BloomFilter :=
  iso_bare (λ '(Build_BloomFilter a b), (a, b)) (λ '(a, b), Build_BloomFilter a b).
#[export] Instance BloomFilter_bare_ok : BareOk BloomFilter.
Proof. solve_record. Qed.

(** ** Events and branches *)

#[export] Instance EventBodyV0_bare : Bare EventBodyV0 := {
  bare_enc x := match x with
    | EventBodyV0_SubAck => [x00]
    | EventBodyV0_Change => [x01]
    end;
  bare_dec l := match l with
    | x00 :: l => Some (EventBodyV0_SubAck, l)
    | x01 :: l => Some (EventBodyV0_Change, l)
    | _ => None
    end
}.
#[export] Instance EventBodyV0_bare_ok : BareOk EventBodyV0.
Proof. solve_cases EventBodyV0_bare. Qed.
#[export] Instance EventContentV0_bare : Bare EventContentV0 :=
  iso_bare (λ '(Build_EventContentV0 a b c d), (a, b, c, d)) (λ '(a, b, c, d), Build_EventContentV0 a b c d).
#[export] Instance EventContentV0_bare_ok : BareOk EventContentV0.
Proof. solve_record. Qed.
#[export] Instance EventV0_bare : Bare EventV0 :=
  iso_bare (λ '(Build_EventV0 a b), (a, b)) (λ '(a, b), Build_EventV0 a b).
#[export] Instance EventV0_bare_ok : BareOk EventV0.
Proof. solve_record. Qed.
#[export] Instance Event_bare : Bare Event := {
  bare_enc x := match x with
    | Event_V0 a => x00 :: bare_enc a
    end;
  bare_dec l := match l with
    | x00 :: l => '(a, l) ← bare_dec l; Some (Event_V0 a, l)
    | _ => None
    end
}.
#[export] Instance Event_bare_ok : BareOk Event.
Proof. solve_cases Event_bare. Qed.
#[export] Instance TopicAdvertContentV0_bare : Bare TopicAdvertContentV0 :=
  iso_bare (λ '(Build_TopicAdvertContentV0 a b), (a, b)) (λ '(a, b), Build_TopicAdvertContentV0 a b).
#[export] Instance TopicAdvertContentV0_bare_ok : BareOk TopicAdvertContentV0.
Proof. solve_record. Qed.
#[export] Instance TopicAdvertV0_bare : Bare TopicAdvertV0 :=
  iso_bare (λ '(Build_TopicAdvertV0 a b), (a, b)) (λ '(a, b), Build_TopicAdvertV0 a b).
#[export] Instance TopicAdvertV0_bare_ok : BareOk TopicAdvertV0.
Proof. solve_record. Qed.
#[export] Instance TopicAdvert_bare : Bare TopicAdvert := {
  bare_enc x := match x with
    | TopicAdvert_V0 a => x00 :: bare_enc a
    end;
  bare_dec l := match l with
    | x00 :: l => '(a, l) ← bare_dec l; Some (TopicAdvert_V0 a, l)
    | _ => None
    end
}.
#[export] Instance TopicAdvert_bare_ok : BareOk TopicAdvert.
Proof. solve_cases TopicAdvert_bare. Qed.
#[export] Instance BranchHeadsReqV0_bare : Bare BranchHeadsReqV0 :=
  iso_bare (λ '(Build_BranchHeadsReqV0 a b), (a, b)) (λ '(a, b), Build_BranchHeadsReqV0 a b).
#[export] Instance BranchHeadsReqV0_bare_ok : BareOk BranchHeadsReqV0.
Proof. solve_record. Qed.
#[export] Instance BranchHeadsReq_bare : Bare BranchHeadsReq := {
  bare_enc x := match x with
    | BranchHeadsReq_V0 a => x00 :: bare_enc a
    end;
  bare_dec l := match l with
    | x00 :: l => '(a, l) ← bare_dec l; Some (BranchHeadsReq_V0 a, l)
    | _ => None
    end
}.
#[export] Instance BranchHeadsReq_bare_ok : BareOk BranchHeadsReq.
Proof. solve_cases BranchHeadsReq_bare. Qed.
#[export] Instance BranchSyncReqV0_bare : Bare BranchSyncReqV0 :=
  iso_bare (λ '(Build_BranchSyncReqV0 a b c), (a, b, c)) (λ '(a, b, c), Build_BranchSyncReqV0 a b c).
#[export] Instance BranchSyncReqV0_bare_ok : BareOk BranchSyncReqV0.
Proof. solve_record. Qed.
#[export] Instance BranchSyncReq_bare : Bare BranchSyncReq := {
  bare_enc x := match x with
    | BranchSyncReq_V0 a => x00 :: bare_enc a
    end;
  bare_dec l := match l with
    | x00 :: l => '(a, l) ← bare_dec l; Some (BranchSyncReq_V0 a, l)
    | _ => None
    end
}.
#[export] Instance BranchSyncReq_bare_ok : BareOk BranchSyncReq.
Proof. solve_cases BranchSyncReq_bare. Qed.

(** ** Requests to the broker *)

#[export] Instance AddUserContentV0_bare : Bare AddUserContentV0 := iso_bare AddUserContentV0_user Build_AddUserContentV0.
#[export] Instance AddUserContentV0_bare_ok : BareOk AddUserContentV0.
Proof. solve_record. Qed.
#[export] Instance AddUserV0_bare : Bare AddUserV0 :=
  iso_bare (λ '(Build_AddUserV0 a b), (a, b)) (λ '(a, b), Build_AddUserV0 a b).
#[export] Instance AddUserV0_bare_ok : BareOk AddUserV0.
Proof. solve_record. Qed.
#[export] Instance AddUser_bare : Bare AddUser := {
  bare_enc x := match x with
    | AddUser_V0 a => x00 :: bare_enc a
    end;
  bare_dec l := match l with
    | x00 :: l => '(a, l) ← bare_dec l; Some (AddUser_V0 a, l)
    | _ => None
    end
}.
#[export] Instance AddUser_bare_ok : BareOk AddUser.
Proof. solve_cases AddUser_bare. Qed.
#[export] Instance DelUserContentV0_bare : Bare DelUserContentV0 := iso_bare DelUserContentV0_user Build_DelUserContentV0.
#[export] Instance DelUserContentV0_bare_ok : BareOk DelUserContentV0.
Proof. solve_record. Qed.
#[export] Instance DelUserV0_bare : Bare DelUserV0 :=
  iso_bare (λ '(Build_DelUserV0 a b), (a, b)) (λ '(a, b), Build_DelUserV0 a b).
#[export] Instance DelUserV0_bare_ok : BareOk DelUserV0.
Proof. solve_record. Qed.
#[export] Instance DelUser_bare : Bare DelUser := {
  bare_enc x := match x with
    | DelUser_V0 a => x00 :: bare_enc a
    end;
  bare_dec l := match l with
    | x00 :: l => '(a, l) ← bare_dec l; Some (DelUser_V0 a, l)
    | _ => None
    end
}.
#[export] Instance DelUser_bare_ok : BareOk DelUser.
Proof. solve_cases DelUser_bare. Qed.
#[export] Instance AddClientContentV0_bare : Bare AddClientContentV0 := iso_bare AddClientContentV0_client Build_AddClientContentV0.
#[export] Instance AddClientContentV0_bare_ok : BareOk AddClientContentV0.
Proof. solve_record. Qed.
#[export] Instance AddClientV0_bare : Bare AddClientV0 :=
  iso_bare (λ '(Build_AddClientV0 a b), (a, b)) (λ '(a, b), Build_AddClientV0 a b).
#[export] Instance AddClientV0_bare_ok : BareOk AddClientV0.
Proof. solve_record. Qed.
#[export] Instance AddClient_bare : Bare AddClient := {
  bare_enc x := match x with
    | AddClient_V0 a => x00 :: bare_enc a
    end;
  bare_dec l := match l with
    | x00 :: l => '(a, l) ← bare_dec l; Some (AddClient_V0 a, l)
    | _ => None
    end
}.
#[export] Instance AddClient_bare_ok : BareOk AddClient.
Proof. solve_cases AddClient_bare. Qed.
#[export] Instance DelClientContentV0_bare : Bare DelClientContentV0 := iso_bare DelClientContentV0_client Build_DelClientContentV0.
#[export] Instance DelClientContentV0_bare_ok : BareOk DelClientContentV0.
Proof. solve_record. Qed.
#[export] Instance DelClientV0_bare : Bare DelClientV0 :=
  iso_bare (λ '(Build_DelClientV0 a b), (a, b)) (λ '(a, b), Build_DelClientV0 a b).
#[export] Instance DelClientV0_bare_ok : BareOk DelClientV0.
Proof. solve_record. Qed.
#[export] Instance DelClient_bare : Bare DelClient := {
  bare_enc x := match x with
    | DelClient_V0 a => x00 :: bare_enc a
    end;
  bare_dec l := match l with
    | x00 :: l => '(a, l) ← bare_dec l; Some (DelClient_V0 a, l)
    | _ => None
    end
}.
#[export] Instance DelClient_bare_ok : BareOk DelClient.
Proof. solve_cases DelClient_bare. Qed.
#[export] Instance BrokerRequestContentV0_bare : Bare BrokerRequestContentV0 := {
  bare_enc x := match x with
    | BrokerRequestContentV0_AddUser a => x00 :: bare_enc a
    | BrokerRequestContentV0_DelUser a => x01 :: bare_enc a
    | BrokerRequestContentV0_AddClient a => x02 :: bare_enc a
    | BrokerRequestContentV0_DelClient a => x03 :: bare_enc a
    end;
  bare_dec l := match l with
    | x00 :: l => '(a, l) ← bare_dec l; Some (BrokerRequestContentV0_AddUser a, l)
    | x01 :: l => '(a, l) ← bare_dec l; Some (BrokerRequestContentV0_DelUser a, l)
    | x02 :: l => '(a, l) ← bare_dec l; Some (BrokerRequestContentV0_AddClient a, l)
    | x03 :: l => '(a, l) ← bare_dec l; Some (BrokerRequestContentV0_DelClient a, l)
    | _ => None
    end
}.
#[export] Instance BrokerRequestContentV0_bare_ok : BareOk BrokerRequestContentV0.
Proof. solve_cases BrokerRequestContentV0_bare. Qed.
#[export] Instance BrokerRequestV0_bare : Bare BrokerRequestV0 :=
  iso_bare (λ '(Build_BrokerRequestV0 a b), (a, b)) (λ '(a, b), Build_BrokerRequestV0 a b).
#[export] Instance BrokerRequestV0_bare_ok : BareOk BrokerRequestV0.
Proof. solve_record. Qed.
#[export] Instance BrokerRequest_bare : Bare BrokerRequest := {
  bare_enc x := match x with
    | BrokerRequest_V0 a => x00 :: bare_enc a
    end;
  bare_dec l := match l with
    | x00 :: l => '(a, l) ← bare_dec l; Some (BrokerRequest_V0 a, l)
    | _ => None
    end
}.
#[export] Instance BrokerRequest_bare_ok : BareOk BrokerRequest.
Proof. solve_cases BrokerRequest_bare. Qed.
#[export] Instance BrokerResponseV0_bare : Bare BrokerResponseV0 :=
  iso_bare (λ '(Build_BrokerResponseV0 a b), (a, b)) (λ '(a, b), Build_BrokerResponseV0 a b).
#[export] Instance BrokerResponseV0_bare_ok : BareOk BrokerResponseV0.
Proof. solve_record. Qed.
#[export] Instance BrokerResponse_bare : Bare BrokerResponse := {
  bare_enc x := match x with
    | BrokerResponse_V0 a => x00 :: bare_enc a
    end;
  bare_dec l := match l with
    | x00 :: l => '(a, l) ← bare_dec l; Some (BrokerResponse_V0 a, l)
    | _ => None
    end
}.
#[export] Instance BrokerResponse_bare_ok : BareOk BrokerResponse.
Proof. solve_cases BrokerResponse_bare. Qed.

(** ** Requests in an overlay *)

#[export] Instance OverlayConnect_bare : Bare OverlayConnect := {
  bare_enc x := match x with
    | OverlayConnect_V0 => [x00]
    end;
  bare_dec l := match l with
    | x00 :: l => Some (OverlayConnect_V0, l)
    | _ => None
    end
}.
#[export] Instance OverlayConnect_bare_ok : BareOk OverlayConnect.
Proof. solve_cases OverlayConnect_bare. Qed.
#[export] Instance OverlayJoinV0_bare : Bare OverlayJoinV0 :=
  iso_bare (λ '(Build_OverlayJoinV0 a b c), (a, b, c)) (λ '(a, b, c), Build_OverlayJoinV0 a b c).
#[export] Instance OverlayJoinV0_bare_ok : BareOk OverlayJoinV0.
Proof. solve_record. Qed.
#[export] Instance OverlayJoin_bare : Bare OverlayJoin := {
  bare_enc x := match x with
    | OverlayJoin_V0 a => x00 :: bare_enc a
    end;
  bare_dec l := match l with
    | x00 :: l => '(a, l) ← bare_dec l; Some (OverlayJoin_V0 a, l)
    | _ => None
    end
}.
#[export] Instance OverlayJoin_bare_ok : BareOk OverlayJoin.
Proof. solve_cases OverlayJoin_bare. Qed.
#[export] Instance OverlayLeave_bare : Bare OverlayLeave := {
  bare_enc x := match x with
    | OverlayLeave_V0 => [x00]
    end;
  bare_dec l := match l with
    | x00 :: l => Some (OverlayLeave_V0, l)
    | _ => None
    end
}.
#[export] Instance OverlayLeave_bare_ok : BareOk OverlayLeave.
Proof. solve_cases OverlayLeave_bare. Qed.
#[export] Instance OverlayStatusReq_bare : Bare OverlayStatusReq := {
  bare_enc x := match x with
    | OverlayStatusReq_V0 => [x00]
    end;
  bare_dec l := match l with
    | x00 :: l => Some (OverlayStatusReq_V0, l)
    | _ => None
    end
}.
#[export] Instance OverlayStatusReq_bare_ok : BareOk OverlayStatusReq.
Proof. solve_cases OverlayStatusReq_bare. Qed.
#[export] Instance OverlayStatusRespV0_bare : Bare OverlayStatusRespV0 :=
  iso_bare (λ '(Build_OverlayStatusRespV0 a b), (a, b)) (λ '(a, b), Build_OverlayStatusRespV0 a b).
#[export] Instance OverlayStatusRespV0_bare_ok : BareOk OverlayStatusRespV0.
Proof. solve_record. Qed.
#[export] Instance OverlayStatusResp_bare : Bare OverlayStatusResp := {
  bare_enc x := match x with
    | OverlayStatusResp_V0 a => x00 :: bare_enc a
    end;
  bare_dec l := match l with
    | x00 :: l => '(a, l) ← bare_dec l; Some (OverlayStatusResp_V0 a, l)
    | _ => None
    end
}.
#[export] Instance OverlayStatusResp_bare_ok : BareOk OverlayStatusResp.
Proof. solve_cases OverlayStatusResp_bare. Qed.
#[export] Instance BlockGetV0_bare : Bare BlockGetV0 :=
  iso_bare (λ '(Build_BlockGetV0 a b c), (a, b, c)) (λ '(a, b, c), Build_BlockGetV0 a b c).
#[export] Instance BlockGetV0_bare_ok : BareOk BlockGetV0.
Proof. solve_record. Qed.
#[export] Instance BlockGet_bare : Bare BlockGet := {
  bare_enc x := match x with
    | BlockGet_V0 a => x00 :: bare_enc a
    end;
  bare_dec l := match l with
    | x00 :: l => '(a, l) ← bare_dec l; Some (BlockGet_V0 a, l)
    | _ => None
    end
}.
#[export] Instance BlockGet_bare_ok : BareOk BlockGet.
Proof. solve_cases BlockGet_bare. Qed.
#[export] Instance ObjectPinV0_bare : Bare ObjectPinV0 := iso_bare ObjectPinV0_id Build_ObjectPinV0.
#[export] Instance ObjectPinV0_bare_ok : BareOk ObjectPinV0.
Proof. solve_record. Qed.
#[export] Instance ObjectPin_bare : Bare ObjectPin := {
  bare_enc x := match x with
    | ObjectPin_V0 a => x00 :: bare_enc a
    end;
  bare_dec l := match l with
    | x00 :: l => '(a, l) ← bare_dec l; Some (ObjectPin_V0 a, l)
    | _ => None
    end
}.
#[export] Instance ObjectPin_bare_ok : BareOk ObjectPin.
Proof. solve_cases ObjectPin_bare. Qed.
#[export] Instance ObjectUnpinV0_bare : Bare ObjectUnpinV0 := iso_bare ObjectUnpinV0_id Build_ObjectUnpinV0.
#[export] Instance ObjectUnpinV0_bare_ok : BareOk ObjectUnpinV0.
Proof. solve_record. Qed.
#[export] Instance ObjectUnpin_bare : Bare ObjectUnpin := {
  bare_enc x := match x with
    | ObjectUnpin_V0 a => x00 :: bare_enc a
    end;
  bare_dec l := match l with
    | x00 :: l => '(a, l) ← bare_dec l; Some (ObjectUnpin_V0 a, l)
    | _ => None
    end
}.
#[export] Instance ObjectUnpin_bare_ok : BareOk ObjectUnpin.
Proof. solve_cases ObjectUnpin_bare. Qed.
#[export] Instance ObjectCopyV0_bare : Bare ObjectCopyV0 :=
  iso_bare (λ '(Build_ObjectCopyV0 a b), (a, b)) (λ '(a, b), Build_ObjectCopyV0 a b).
#[export] Instance ObjectCopyV0_bare_ok : BareOk ObjectCopyV0.
Proof. solve_record. Qed.
#[export] Instance ObjectCopy_bare : Bare ObjectCopy := {
  bare_enc x := match x with
    | ObjectCopy_V0 a => x00 :: bare_enc a
    end;
  bare_dec l := match l with
    | x00 :: l => '(a, l) ← bare_dec l; Some (ObjectCopy_V0 a, l)
    | _ => None
    end
}.
#[export] Instance ObjectCopy_bare_ok : BareOk ObjectCopy.
Proof. solve_cases ObjectCopy_bare. Qed.
#[export] Instance ObjectDelV0_bare : Bare ObjectDelV0 := iso_bare ObjectDelV0_id Build_ObjectDelV0.
#[export] Instance ObjectDelV0_bare_ok : BareOk ObjectDelV0.
Proof. solve_record. Qed.
#[export] Instance ObjectDel_bare : Bare ObjectDel := {
  bare_enc x := match x with
    | ObjectDel_V0 a => x00 :: bare_enc a
    end;
  bare_dec l := match l with
    | x00 :: l => '(a, l) ← bare_dec l; Some (ObjectDel_V0 a, l)
    | _ => None
    end
}.
#[export] Instance ObjectDel_bare_ok : BareOk ObjectDel.
Proof. solve_cases ObjectDel_bare. Qed.
#[export] Instance TopicSubV0_bare : Bare TopicSubV0 :=
  iso_bare (λ '(Build_TopicSubV0 a b), (a, b)) (λ '(a, b), Build_TopicSubV0 a b).
#[export] Instance TopicSubV0_bare_ok : BareOk TopicSubV0.
Proof. solve_record. Qed.
#[export] Instance TopicSub_bare : Bare TopicSub := {
  bare_enc x := match x with
    | TopicSub_V0 a => x00 :: bare_enc a
    end;
  bare_dec l := match l with
    | x00 :: l => '(a, l) ← bare_dec l; Some (TopicSub_V0 a, l)
    | _ => None
    end
}.
#[export] Instance TopicSub_bare_ok : BareOk TopicSub.
Proof. solve_cases TopicSub_bare. Qed.
#[export] Instance TopicUnsubV0_bare : Bare TopicUnsubV0 := iso_bare TopicUnsubV0_topic Build_TopicUnsubV0.
#[export] Instance TopicUnsubV0_bare_ok : BareOk TopicUnsubV0.
Proof. solve_record. Qed.
#[export] Instance TopicUnsub_bare : Bare TopicUnsub := {
  bare_enc x := match x with
    | TopicUnsub_V0 a => x00 :: bare_enc a
    end;
  bare_dec l := match l with
    | x00 :: l => '(a, l) ← bare_dec l; Some (TopicUnsub_V0 a, l)
    | _ => None
    end
}.
#[export] Instance TopicUnsub_bare_ok : BareOk TopicUnsub.
Proof. solve_cases TopicUnsub_bare. Qed.
#[export] Instance TopicConnectV0_bare : Bare TopicConnectV0 := iso_bare TopicConnectV0_topic Build_TopicConnectV0.
#[export] Instance TopicConnectV0_bare_ok : BareOk TopicConnectV0.
Proof. solve_record. Qed.
#[export] Instance TopicConnect_bare : Bare TopicConnect := {
  bare_enc x := match x with
    | TopicConnect_V0 a => x00 :: bare_enc a
    end;
  bare_dec l := match l with
    | x00 :: l => '(a, l) ← bare_dec l; Some (TopicConnect_V0 a, l)
    | _ => None
    end
}.
#[export] Instance TopicConnect_bare_ok : BareOk TopicConnect.
Proof. solve_cases TopicConnect_bare. Qed.
#[export] Instance TopicDisconnectV0_bare : Bare TopicDisconnectV0 := iso_bare TopicDisconnectV0_topic Build_TopicDisconnectV0.
#[export] Instance TopicDisconnectV0_bare_ok : BareOk TopicDisconnectV0.
Proof. solve_record. Qed.
#[export] Instance TopicDisconnect_bare : Bare TopicDisconnect := {
  bare_enc x := match x with
    | TopicDisconnect_V0 a => x00 :: bare_enc a
    end;
  bare_dec l := match l with
    | x00 :: l => '(a, l) ← bare_dec l; Some (TopicDisconnect_V0 a, l)
    | _ => None
    end
}.
#[export] Instance TopicDisconnect_bare_ok : BareOk TopicDisconnect.
Proof. solve_cases TopicDisconnect_bare. Qed.

(** ** The first message of a connection *)

#[export] Instance ClientHello_bare : Bare ClientHello := {
  bare_enc x := match x with
    | ClientHello_V0 => [x00]
    end;
  bare_dec l := match l with
    | x00 :: l => Some (ClientHello_V0, l)
    | _ => None
    end
}.
#[export] Instance ClientHello_bare_ok : BareOk ClientHello.
Proof. solve_cases ClientHello_bare. Qed.
#[export] Instance ExtObjectGetV0_bare : Bare ExtObjectGetV0 :=
  iso_bare (λ '(Build_ExtObjectGetV0 a b c d), (a, b, c, d)) (λ '(a, b, c, d), Build_ExtObjectGetV0 a b c d).
#[export] Instance ExtObjectGetV0_bare_ok : BareOk ExtObjectGetV0.
Proof. solve_record. Qed.
#[export] Instance ExtObjectGet_bare : Bare ExtObjectGet := {
  bare_enc x := match x with
    | ExtObjectGet_V0 a => x00 :: bare_enc a
    end;
  bare_dec l := match l with
    | x00 :: l => '(a, l) ← bare_dec l; Some (ExtObjectGet_V0 a, l)
    | _ => None
    end
}.
#[export] Instance ExtObjectGet_bare_ok : BareOk ExtObjectGet.
Proof. solve_cases ExtObjectGet_bare. Qed.
#[export] Instance ExtRequestContentV0_bare : Bare ExtRequestContentV0 := {
  bare_enc x := match x with
    | ExtRequestContentV0_ExtObjectGet a => x00 :: bare_enc a
    | ExtRequestContentV0_ExtBranchHeadsReq a => x01 :: bare_enc a
    | ExtRequestContentV0_ExtBranchSyncReq a => x02 :: bare_enc a
    end;
  bare_dec l := match l with
    | x00 :: l => '(a, l) ← bare_dec l; Some (ExtRequestContentV0_ExtObjectGet a, l)
    | x01 :: l => '(a, l) ← bare_dec l; Some (ExtRequestContentV0_ExtBranchHeadsReq a, l)
    | x02 :: l => '(a, l) ← bare_dec l; Some (ExtRequestContentV0_ExtBranchSyncReq a, l)
    | _ => None
    end
}.
#[export] Instance ExtRequestContentV0_bare_ok : BareOk ExtRequestContentV0.
Proof. solve_cases ExtRequestContentV0_bare. Qed.
#[export] Instance ExtRequestV0_bare : Bare ExtRequestV0 :=
  iso_bare (λ '(Build_ExtRequestV0 a b c), (a, b, c)) (λ '(a, b, c), Build_ExtRequestV0 a b c).
#[export] Instance ExtRequestV0_bare_ok : BareOk ExtRequestV0.
Proof. solve_record. Qed.
#[export] Instance ExtRequest_bare : Bare ExtRequest := {
  bare_enc x := match x with
    | ExtRequest_V0 a => x00 :: bare_enc a
    end;
  bare_dec l := match l with
    | x00 :: l => '(a, l) ← bare_dec l; Some (ExtRequest_V0 a, l)
    | _ => None
    end
}.
#[export] Instance ExtRequest_bare_ok : BareOk ExtRequest.
Proof. solve_cases ExtRequest_bare. Qed.
#[export] Instance StartProtocol_bare : Bare StartProtocol := {
  bare_enc x := match x with
    | StartProtocol_Auth a => x00 :: bare_enc a
    | StartProtocol_Ext a => x01 :: bare_enc a
    end;
  bare_dec l := match l with
    | x00 :: l => '(a, l) ← bare_dec l; Some (StartProtocol_Auth a, l)
    | x01 :: l => '(a, l) ← bare_dec l; Some (StartProtocol_Ext a, l)
    | _ => None
    end
}.
#[export] Instance StartProtocol_bare_ok : BareOk StartProtocol.
Proof. solve_cases StartProtocol_bare. Qed.

(** ** Messages that carry a block *)

(** An encoding that loses something. *)
Definition bare_loses {A} `{!Bare A} (f : A → A) : Prop :=
  ∀ a r, bare_dec (bare_enc a ++ r) = Some (f a, r).

#[export] Instance Block_bare : Bare Block := variant_bare block_wire block_unwire.
Lemma Block_bare_loses : bare_loses (A := Block) serde_skip.
Proof. intros [b] r. cbn [bare_enc bare_dec Block_bare variant_bare app]. by rewrite bare_ok. Qed.

Definition put_skip (x : BlockPut) : BlockPut := match x with BlockPut_V0 b => BlockPut_V0 (serde_skip b) end.
#[export] Instance BlockPut_bare : Bare BlockPut := variant_bare (λ '(BlockPut_V0 b), b) BlockPut_V0.
Lemma BlockPut_bare_loses : bare_loses put_skip.
Proof. intros [b] r. cbn [bare_enc bare_dec BlockPut_bare variant_bare app]. by rewrite Block_bare_loses. Qed.

#[export] Instance BrokerOverlayRequestContentV0_bare : Bare BrokerOverlayRequestContentV0 := {
  bare_enc x := match x with
    | BrokerOverlayRequestContentV0_OverlayConnect a => x00 :: bare_enc a
    | BrokerOverlayRequestContentV0_OverlayStatusReq a => x01 :: bare_enc a
    | BrokerOverlayRequestContentV0_OverlayJoin a => x02 :: bare_enc a
    | BrokerOverlayRequestContentV0_OverlayLeave a => x03 :: bare_enc a
    | BrokerOverlayRequestContentV0_TopicSub a => x04 :: bare_enc a
    | BrokerOverlayRequestContentV0_TopicUnsub a => x05 :: bare_enc a
    | BrokerOverlayRequestContentV0_TopicConnect a => x06 :: bare_enc a
    | BrokerOverlayRequestContentV0_TopicDisconnect a => x07 :: bare_enc a
    | BrokerOverlayRequestContentV0_Event a => x08 :: bare_enc a
    | BrokerOverlayRequestContentV0_BlockGet a => x09 :: bare_enc a
    | BrokerOverlayRequestContentV0_BlockPut a => x0a :: bare_enc a
    | BrokerOverlayRequestContentV0_ObjectPin a => x0b :: bare_enc a
    | BrokerOverlayRequestContentV0_ObjectUnpin a => x0c :: bare_enc a
    | BrokerOverlayRequestContentV0_ObjectCopy a => x0d :: bare_enc a
    | BrokerOverlayRequestContentV0_ObjectDel a => x0e :: bare_enc a
    | BrokerOverlayRequestContentV0_BranchHeadsReq a => x0f :: bare_enc a
    | BrokerOverlayRequestContentV0_BranchSyncReq a => x10 :: bare_enc a
    end;
  bare_dec l := match l with
    | x00 :: l => '(a, l) ← bare_dec l; Some (BrokerOverlayRequestContentV0_OverlayConnect a, l)
    | x01 :: l => '(a, l) ← bare_dec l; Some (BrokerOverlayRequestContentV0_OverlayStatusReq a, l)
    | x02 :: l => '(a, l) ← bare_dec l; Some (BrokerOverlayRequestContentV0_OverlayJoin a, l)
    | x03 :: l => '(a, l) ← bare_dec l; Some (BrokerOverlayRequestContentV0_OverlayLeave a, l)
    | x04 :: l => '(a, l) ← bare_dec l; Some (BrokerOverlayRequestContentV0_TopicSub a, l)
    | x05 :: l => '(a, l) ← bare_dec l; Some (BrokerOverlayRequestContentV0_TopicUnsub a, l)
    | x06 :: l => '(a, l) ← bare_dec l; Some (BrokerOverlayRequestContentV0_TopicConnect a, l)
    | x07 :: l => '(a, l) ← bare_dec l; Some (BrokerOverlayRequestContentV0_TopicDisconnect a, l)
    | x08 :: l => '(a, l) ← bare_dec l; Some (BrokerOverlayRequestContentV0_Event a, l)
    | x09 :: l => '(a, l) ← bare_dec l; Some (BrokerOverlayRequestContentV0_BlockGet a, l)
    | x0a :: l => '(a, l) ← bare_dec l; Some (BrokerOverlayRequestContentV0_BlockPut a, l)
    | x0b :: l => '(a, l) ← bare_dec l; Some (BrokerOverlayRequestContentV0_ObjectPin a, l)
    | x0c :: l => '(a, l) ← bare_dec l; Some (BrokerOverlayRequestContentV0_ObjectUnpin a, l)
    | x0d :: l => '(a, l) ← bare_dec l; Some (BrokerOverlayRequestContentV0_ObjectCopy a, l)
    | x0e :: l => '(a, l) ← bare_dec l; Some (BrokerOverlayRequestContentV0_ObjectDel a, l)
    | x0f :: l => '(a, l) ← bare_dec l; Some (BrokerOverlayRequestContentV0_BranchHeadsReq a, l)
    | x10 :: l => '(a, l) ← bare_dec l; Some (BrokerOverlayRequestContentV0_BranchSyncReq a, l)
    | _ => None
    end
}.
Lemma BrokerOverlayRequestContentV0_bare_loses : bare_loses request_skip.
Proof.
  intros x r. destruct x; cbn [bare_enc bare_dec BrokerOverlayRequestContentV0_bare app]; rewrite ?bare_ok, ?BlockPut_bare_loses;
    try reflexivity; by destruct x.
Qed.
#[export] Instance BrokerOverlayResponseContentV0_bare : Bare BrokerOverlayResponseContentV0 := {
  bare_enc x := match x with
    | BrokerOverlayResponseContentV0_Block a => x00 :: bare_enc a
    | BrokerOverlayResponseContentV0_ObjectId a => x01 :: bare_enc a
    | BrokerOverlayResponseContentV0_OverlayStatusResp a => x02 :: bare_enc a
    end;
  bare_dec l := match l with
    | x00 :: l => '(a, l) ← bare_dec l; Some (BrokerOverlayResponseContentV0_Block a, l)
    | x01 :: l => '(a, l) ← bare_dec l; Some (BrokerOverlayResponseContentV0_ObjectId a, l)
    | x02 :: l => '(a, l) ← bare_dec l; Some (BrokerOverlayResponseContentV0_OverlayStatusResp a, l)
    | _ => None
    end
}.
Lemma BrokerOverlayResponseContentV0_bare_loses : bare_loses response_skip.
Proof.
  intros x r. destruct x; cbn [bare_enc bare_dec BrokerOverlayResponseContentV0_bare app]; rewrite ?bare_ok, ?Block_bare_loses;
    try reflexivity; by destruct x.
Qed.

(** The messages in an overlay: their tags, and the fields of what they carry. *)
#[export] Instance BrokerOverlayMessageContentV0_bare : Bare BrokerOverlayMessageContentV0 := {
  bare_enc x := match x with
    | BrokerOverlayMessageContentV0_BrokerOverlayRequest (BrokerOverlayRequest_V0 r) =>
        x00 :: x00 :: bare_enc (BrokerOverlayRequestV0_id r) ++ bare_enc (BrokerOverlayRequestV0_content r)
    | BrokerOverlayMessageContentV0_BrokerOverlayResponse (BrokerOverlayResponse_V0 r) =>
        x01 :: x00 :: bare_enc (BrokerOverlayResponseV0_id r) ++ bare_enc (BrokerOverlayResponseV0_result r) ++
        bare_enc (BrokerOverlayResponseV0_content r)
    | BrokerOverlayMessageContentV0_Event e => x02 :: bare_enc e
    end;
  bare_dec l := match l with
    | x00 :: x00 :: l =>
        '(id, l) ← bare_dec l; '(c, l) ← bare_dec l;
        Some (BrokerOverlayMessageContentV0_BrokerOverlayRequest (BrokerOverlayRequest_V0 {|
          BrokerOverlayRequestV0_id := id; BrokerOverlayRequestV0_content := c |}), l)
    | x01 :: x00 :: l =>
        '(id, l) ← bare_dec l; '(res, l) ← bare_dec l; '(c, l) ← bare_dec l;
        Some (BrokerOverlayMessageContentV0_BrokerOverlayResponse (BrokerOverlayResponse_V0 {|
          BrokerOverlayResponseV0_id := id; BrokerOverlayResponseV0_result := res;
          BrokerOverlayResponseV0_content := c |}), l)
    | x02 :: l => '(e, l) ← bare_dec l; Some (BrokerOverlayMessageContentV0_Event e, l)
    | _ => None
    end
}.
Lemma option_bare_loses {A} `{!Bare A} (f : A → A) : bare_loses f → bare_loses (fmap (M := option) f).
Proof. intros Hf [a|] r; [|done]. cbn [bare_enc bare_dec option_bare app]. by rewrite Hf. Qed.
Lemma overlay_content_bare_loses : bare_loses overlay_skip.
Proof.
  intros [[[id c]]|[[id res c]]|e] r;
    cbn -[bare_enc bare_dec overlay_skip app]; cbn [bare_enc bare_dec BrokerOverlayMessageContentV0_bare app
      BrokerOverlayRequestV0_id BrokerOverlayRequestV0_content BrokerOverlayResponseV0_id
      BrokerOverlayResponseV0_result BrokerOverlayResponseV0_content].
  - rewrite <- app_assoc, bare_ok. cbn [mbind option_bind].
    by rewrite BrokerOverlayRequestContentV0_bare_loses.
  - rewrite <- !app_assoc, bare_ok. cbn [mbind option_bind]. rewrite bare_ok. cbn [mbind option_bind].
    by rewrite (option_bare_loses _ BrokerOverlayResponseContentV0_bare_loses).
  - by rewrite bare_ok.
Qed.

#[export] Instance BrokerMessage_bare : Bare BrokerMessage := {
  bare_enc x := match x with
    | BrokerMessage_V0 m =>
        x00 :: match BrokerMessageV0_content m with
               | BrokerMessageContentV0_BrokerRequest r => x00 :: bare_enc r
               | BrokerMessageContentV0_BrokerResponse r => x01 :: bare_enc r
               | BrokerMessageContentV0_BrokerOverlayMessage (BrokerOverlayMessage_V0 o) =>
                   x02 :: x00 :: bare_enc (BrokerOverlayMessageV0_overlay o) ++
                   bare_enc (BrokerOverlayMessageV0_content o)
               end ++ bare_enc (BrokerMessageV0_padding m)
    | BrokerMessage_Close => [x01]
    end;
  bare_dec l := match l with
    | x00 :: l =>
        '(c, l) ← match l with
                  | x00 :: l => '(r, l) ← bare_dec l; Some (BrokerMessageContentV0_BrokerRequest r, l)
                  | x01 :: l => '(r, l) ← bare_dec l; Some (BrokerMessageContentV0_BrokerResponse r, l)
                  | x02 :: x00 :: l =>
                      '(o, l) ← bare_dec l; '(c, l) ← bare_dec l;
                      Some (BrokerMessageContentV0_BrokerOverlayMessage (BrokerOverlayMessage_V0 {|
                        BrokerOverlayMessageV0_overlay := o; BrokerOverlayMessageV0_content := c |}), l)
                  | _ => None
                  end;
        '(p, l) ← bare_dec l;
        Some (BrokerMessage_V0 {| BrokerMessageV0_content := c; BrokerMessageV0_padding := p |}, l)
    | x01 :: l => Some (BrokerMessage_Close, l)
    | _ => None
    end
}.
Lemma BrokerMessage_bare_loses : bare_loses (A := BrokerMessage) serde_skip.
Proof.
  intros [[[req|resp|[[o c]]] p]|] r; [| | |done];
    cbn [bare_enc bare_dec BrokerMessage_bare app BrokerMessageV0_content BrokerMessageV0_padding
      BrokerOverlayMessageV0_overlay BrokerOverlayMessageV0_content];
    rewrite <- ?app_assoc, ?bare_ok; cbn [mbind option_bind]; rewrite ?bare_ok; try reflexivity.
  rewrite overlay_content_bare_loses. cbn [mbind option_bind]. by rewrite bare_ok.
Qed.

Module MessageInstances.
#[export] Instance BrokerMessage_serde : Serde BrokerMessage := bare_serde BrokerMessage.
#[export] Instance BrokerMessage_serde_laws : SerdeLaws BrokerMessage.
Proof.
  split.
  - intros m. cbn [from_slice to_vec BrokerMessage_serde bare_serde].
    by rewrite <- (app_nil_r (bare_enc m)), BrokerMessage_bare_loses.
  - intros [[[req|resp|[[o [[[id req]]|[[id res [[]|]]]|e]]]] p]|]; try reflexivity; [|by destruct x].
    destruct req; try reflexivity. by destruct x as [[]].
Qed.
#[export] Instance BrokerMessage_serde_tagged : SerdeTagged BrokerMessage.
Proof. split; [by intros []|done]. Qed.
(** Nothing of this type is ever sent. *)
#[export] Instance ExtResponse_serde : Serde ExtResponse := { to_vec _ := []; from_slice _ := None }.
End MessageInstances.
