(* ===== verification/AccountProps.v ===== *)
(** * The accounts of a broker, refined

    [lofire-broker/src/account.rs] over any store that keeps the contract of the trait
    implements a finite map from users to accounts: what each operation answers, errors
    included, and what it leaves behind are those of [spec]. A handle of an account that
    was deleted stays usable, so the operations are run on handles of any identifier. *)

From S2P Require Import Prelude Serde Types Store NetTypes BrokerStore BrokerRows BrokerTables.
From S2P Require Import Bare BareTypes NetBare.
Import Account.

(** ** The specification *)

Record account : Type := {
  acc_admin : bool;
  acc_clients : gset PubKey;
  acc_overlays : gset Digest
}.
Abbreviation accounts := (gmap PubKey account) (only parsing).

Inductive account_op : Type :=
  | OpOpen (i : UserId)
  | OpCreate (i : UserId) (admin : bool)
  | OpAddClient (i : UserId) (c : ClientId)
  | OpRemoveClient (i : UserId) (c : ClientId)
  | OpHasClient (i : UserId) (c : ClientId)
  | OpAddOverlay (i : UserId) (o : OverlayId)
  | OpRemoveOverlay (i : UserId) (o : OverlayId)
  | OpHasOverlay (i : UserId) (o : OverlayId)
  | OpIsAdmin (i : UserId)
  | OpDel (i : UserId).

Definition with_clients (a : account) (cs : gset PubKey) : account :=
  {| acc_admin := acc_admin a; acc_clients := cs; acc_overlays := acc_overlays a |}.
Definition with_overlays (a : account) (os : gset Digest) : account :=
  {| acc_admin := acc_admin a; acc_clients := acc_clients a; acc_overlays := os |}.

(** What an operation answers, and the accounts after it. Deleting goes through the
    clients, the administrator's flag and the overlays, and stops at the first of the
    three that has no value: an account without clients is not deleted, one without
    overlays is deleted with an error. *)
Definition spec (op : account_op) (A : accounts)
    : result (option bool) StorageError * accounts :=
  match op with
  | OpOpen i =>
      (match A !! i with Some _ => Ok None | None => Err StorageError_NotFound end, A)
  | OpCreate i admin =>
      match A !! i with
      | Some _ => (Err StorageError_BackendError, A)
      | None => (Ok None, <[i := {| acc_admin := admin; acc_clients := ∅; acc_overlays := ∅ |}]> A)
      end
  | OpAddClient i c =>
      match A !! i with
      | Some a => (Ok None, <[i := with_clients a ({[c]} ∪ acc_clients a)]> A)
      | None => (Err StorageError_BackendError, A)
      end
  | OpRemoveClient i c =>
      match A !! i with
      | Some a => if decide (c ∈ acc_clients a)
                  then (Ok None, <[i := with_clients a (acc_clients a ∖ {[c]})]> A)
                  else (Err StorageError_BackendError, A)
      | None => (Err StorageError_BackendError, A)
      end
  | OpHasClient i c =>
      (if decide (c ∈ from_option acc_clients ∅ (A !! i)) then Ok None
       else Err StorageError_NotFound, A)
  | OpAddOverlay i o =>
      match A !! i with
      | Some a => (Ok None, <[i := with_overlays a ({[o]} ∪ acc_overlays a)]> A)
      | None => (Err StorageError_BackendError, A)
      end
  | OpRemoveOverlay i o =>
      match A !! i with
      | Some a => if decide (o ∈ acc_overlays a)
                  then (Ok None, <[i := with_overlays a (acc_overlays a ∖ {[o]})]> A)
                  else (Err StorageError_BackendError, A)
      | None => (Err StorageError_BackendError, A)
      end
  | OpHasOverlay i o =>
      (if decide (o ∈ from_option acc_overlays ∅ (A !! i)) then Ok None
       else Err StorageError_NotFound, A)
  | OpIsAdmin i => (Ok (Some (from_option acc_admin false (A !! i))), A)
  | OpDel i =>
      match A !! i with
      | Some a => if decide (acc_clients a = ∅) then (Err StorageError_BackendError, A)
                  else (if decide (acc_overlays a = ∅) then Err StorageError_BackendError
                        else Ok None, delete i A)
      | None => (Err StorageError_BackendError, A)
      end
  end.

Section Refinement.
Context {S : Type} `{!BrokerStore S, !BrokerStoreSpec S}.
Context `{!Serde PubKey, !Serde Digest, !Serde bool}.

(** ** The operations of the code *)

Definition run (op : account_op) : io S (option bool) :=
  match op with
  | OpOpen i => _ ←$ open i; io_ok None
  | OpCreate i admin => _ ←$ create i admin; io_ok None
  | OpAddClient i c => _ ←$ add_client c {| id := i |}; io_ok None
  | OpRemoveClient i c => _ ←$ remove_client c {| id := i |}; io_ok None
  | OpHasClient i c => _ ←$ io_read (has_client c {| id := i |}); io_ok None
  | OpAddOverlay i o => _ ←$ add_overlay o {| id := i |}; io_ok None
  | OpRemoveOverlay i o => _ ←$ remove_overlay o {| id := i |}; io_ok None
  | OpHasOverlay i o => _ ←$ io_read (has_overlay o {| id := i |}); io_ok None
  | OpIsAdmin i => b ←$ io_read (is_admin {| id := i |}); io_ok (Some b)
  | OpDel i => _ ←$ del {| id := i |}; io_ok None
  end.

(** A sequence of operations, each with its answer: the code goes on after an error. *)
Fixpoint run_all (ops : list account_op) (s : S)
    : outcome (list (result (option bool) StorageError) * S) :=
  match ops with
  | [] => Ret ([], s)
  | op :: ops => '(r, s) ← run op s; '(rs, s) ← run_all ops s; Ret (r :: rs, s)
  end.
Fixpoint spec_all (ops : list account_op) (A : accounts)
    : list (result (option bool) StorageError) * accounts :=
  match ops with
  | [] => ([], A)
  | op :: ops => let '(r, A) := spec op A in let '(rs, A) := spec_all ops A in (r :: rs, A)
  end.

(** ** The relation *)

Definition account_rows (s : S) (i : UserId) (o : option account) : Prop :=
  row s PREFIX (to_vec i) ADMIN = one_row (acc_admin <$> o) ∧
  row s PREFIX (to_vec i) CLIENT = set_row (from_option acc_clients ∅ o) ∧
  row s PREFIX (to_vec i) OVERLAY = set_row (from_option acc_overlays ∅ o).

(** A store that holds the accounts [A]. *)
Definition accounts_ok (s : S) (A : accounts) : Prop :=
  bs_inv s ∧ ∀ i, account_rows s i (A !! i).

(** The backend's limits leave room for the rows of an account. *)
Definition account_fits : Prop :=
  ∀ i : UserId,
  (∀ b : bool, bs_fits (compute_property PREFIX (to_vec i) (Some ADMIN)) (to_vec b)) ∧
  (∀ c : ClientId, bs_fits (compute_property PREFIX (to_vec i) (Some CLIENT)) (to_vec c)) ∧
  (∀ o : OverlayId, bs_fits (compute_property PREFIX (to_vec i) (Some OVERLAY)) (to_vec o)).

Context `{!SerdeLaws PubKey, !SerdeLaws Digest, !SerdeLaws bool}.

Implicit Types (s : S) (A : accounts).

Lemma account_exists_ok s A i :
  accounts_ok s A → exists_ {| id := i |} s = Ret (bool_decide (is_Some (A !! i))).
Proof.
  intros [Hi Hrows]. destruct (Hrows i) as (Hadmin & _ & _).
  unfold exists_, SUFFIX_FOR_EXIST_CHECK. cbn [id]. rewrite (exists_row _ _ _ _ _ Hi Hadmin). by destruct (A !! i).
Qed.

(** After a change of the rows of one user. *)
Lemma accounts_ok_change s s' A A' i :
  accounts_ok s A → bs_inv s' →
  (∀ k x, k ≠ to_vec i → row s' PREFIX k x = row s PREFIX k x) →
  (∀ j, j ≠ i → A' !! j = A !! j) → account_rows s' i (A' !! i) → accounts_ok s' A'.
Proof.
  intros [_ Hrows] Hi Hother HA Hrow. split; [done|]. intros j.
  destruct (decide (j = i)) as [->|Hne]; [done|].
  assert (to_vec j ≠ to_vec i) as Hk by (by intros ?%(inj to_vec)).
  destruct (Hrows j) as (H1 & H2 & H3). unfold account_rows. by rewrite HA, !Hother.
Qed.
Lemma accounts_ok_row_set s s' A A' i x vs :
  accounts_ok s A → row_set s s' PREFIX (to_vec i) x vs →
  (∀ j, j ≠ i → A' !! j = A !! j) → account_rows s' i (A' !! i) → accounts_ok s' A'.
Proof.
  intros Hok Hs. eapply accounts_ok_change; [done|apply Hs|]. intros k y Hk.
  apply (row_set_ne _ _ _ _ _ _ _ _ _ Hs). congruence.
Qed.
Lemma accounts_ok_same s s' A : accounts_ok s A → row_same s s' → accounts_ok s' A.
Proof.
  intros [_ Hrows] Hs. split; [apply Hs|]. intros i. unfold account_rows.
  rewrite !(row_same_row _ _ _ _ _ Hs). apply Hrows.
Qed.

(** ** The operations, one by one *)

Definition refines (op : account_op) : Prop := ∀ s A, accounts_ok s A → ∃ s',
  run op s = Ret ((spec op A).1, s') ∧ accounts_ok s' (spec op A).2 ∧ frame PREFIX s s'.

(** The rows of the user whose row was set by [Hs]. *)
Ltac rows_of Hok Hs i Ha :=
  let R := fresh in
  rewrite lookup_insert_eq; destruct Hok as [_ R]; specialize (R i);
  unfold account_rows in *; rewrite Ha in R;
  rewrite ?(row_set_eq _ _ _ _ _ _ Hs), ?(row_set_ne _ _ _ _ _ _ _ _ _ Hs) by done;
  cbn [fmap option_fmap option_map from_option acc_admin acc_clients acc_overlays
       with_clients with_overlays] in *;
  by destruct_and! R.
(** An operation that sets one row of the user [i]. *)
Ltac by_row Hok Hs i Ha :=
  split_and!; [first [done|by rewrite bool_decide_eq_true_2 by eauto]
    |apply (accounts_ok_row_set _ _ _ _ i _ _ Hok Hs);
       [intros; by rewrite lookup_insert_ne|rows_of Hok Hs i Ha]
    |by apply row_set_frame in Hs].
(** An operation that leaves the accounts. *)
Ltac by_no_change Hok := split_and!; [by auto|done|apply frame_refl, Hok].

Lemma account_open_refines i : refines (OpOpen i).
Proof.
  intros s A Hok. exists s. split_and!; [|done|apply frame_refl, Hok].
  cbn [run spec fst]. unfold open, io_try. erewrite io_if_eq by (by apply account_exists_ok).
  by destruct (A !! i).
Qed.

Lemma is_admin_refines i : refines (OpIsAdmin i).
Proof.
  intros s A Hok. exists s. split_and!; [|done|apply frame_refl, Hok].
  cbn [run spec fst]. unfold is_admin, io_try, io_read.
  destruct Hok as [Hi Hrows]. destruct (Hrows i) as (Hadmin & _ & _).
  rewrite has_row by done. cbn [id mbind outcome_bind]. rewrite Hadmin.
  destruct (A !! i) as [[[] ? ?]|]; cbn; destruct (decide _) as [He|He];
    try done; try by rewrite elem_of_singleton in He.
  all: first [by apply not_elem_of_empty in He | apply elem_of_singleton in He].
  by apply (inj to_vec) in He.
Qed.

Lemma has_client_refines i c : refines (OpHasClient i c).
Proof.
  intros s A Hok. exists s. split_and!; [|done|apply frame_refl, Hok].
  cbn [run spec fst]. unfold has_client, io_try, io_read. cbn [id].
  rewrite (has_set_row _ _ _ _ _ _ (proj1 Hok) (proj1 (proj2 (proj2 Hok i)))).
  by destruct (decide _).
Qed.
Lemma has_overlay_refines i o : refines (OpHasOverlay i o).
Proof.
  intros s A Hok. exists s. split_and!; [|done|apply frame_refl, Hok].
  cbn [run spec fst]. unfold has_overlay, io_try, io_read. cbn [id].
  rewrite (has_set_row _ _ _ _ _ _ (proj1 Hok) (proj2 (proj2 (proj2 Hok i)))).
  by destruct (decide _).
Qed.

Context (Hfits : account_fits).

Lemma account_create_refines i admin : refines (OpCreate i admin).
Proof.
  intros s A Hok. cbn [run spec]. unfold create, io_try at 1.
  rewrite (io_if_eq _ _ _ _ _ (account_exists_ok s A i Hok)).
  destruct (A !! i) as [a|] eqn:Ha; cbn [fst snd].
  { exists s. by_no_change Hok. }
  rewrite bool_decide_eq_false_2 by (intros [? ?]; done).
  destruct (put_one_row s PREFIX (to_vec i) ADMIN admin (proj1 Hok)) as (s' & Hput & Hs);
    [by rewrite (proj1 (proj2 Hok i)), Ha|apply Hfits|].
  rewrite (io_try_ok _ _ _ _ _ Hput). exists s'. by_row Hok Hs i Ha.
Qed.

Lemma add_client_refines i c : refines (OpAddClient i c).
Proof.
  intros s A Hok. cbn [run spec]. unfold add_client, io_try at 1.
  rewrite (io_if_eq _ _ _ _ _ (account_exists_ok s A i Hok)).
  destruct (A !! i) as [a|] eqn:Ha; cbn [fst snd].
  - destruct (add_set_row s PREFIX (to_vec i) CLIENT c (acc_clients a) (proj1 Hok))
      as (s' & Hput & Hs); [by rewrite (proj1 (proj2 (proj2 Hok i))), Ha|apply Hfits|].
    rewrite bool_decide_eq_true_2 by eauto. cbn [id]. rewrite Hput. exists s'. by_row Hok Hs i Ha.
  - rewrite bool_decide_eq_false_2 by (intros [? ?]; done). exists s. by_no_change Hok.
Qed.
Lemma add_overlay_refines i o : refines (OpAddOverlay i o).
Proof.
  intros s A Hok. cbn [run spec]. unfold add_overlay, io_try at 1.
  rewrite (io_if_eq _ _ _ _ _ (account_exists_ok s A i Hok)).
  destruct (A !! i) as [a|] eqn:Ha; cbn [fst snd].
  - destruct (add_set_row s PREFIX (to_vec i) OVERLAY o (acc_overlays a) (proj1 Hok))
      as (s' & Hput & Hs); [by rewrite (proj2 (proj2 (proj2 Hok i))), Ha|apply Hfits|].
    rewrite bool_decide_eq_true_2 by eauto. cbn [id]. rewrite Hput. exists s'. by_row Hok Hs i Ha.
  - rewrite bool_decide_eq_false_2 by (intros [? ?]; done). exists s. by_no_change Hok.
Qed.

Lemma remove_client_refines i c : refines (OpRemoveClient i c).
Proof.
  intros s A Hok. cbn [run spec]. unfold remove_client, io_try. cbn [id].
  destruct (remove_set_row s PREFIX (to_vec i) CLIENT c _ (proj1 Hok)
    (proj1 (proj2 (proj2 Hok i)))) as (r & s' & -> & Hr). exists s'.
  destruct (A !! i) as [a|] eqn:Ha; cbn [from_option] in Hr.
  - destruct (decide _); destruct Hr as [-> Hs]; cbn [fst snd]; [by_row Hok Hs i Ha|].
    split_and!; [done|by eapply accounts_ok_same|by apply row_same_frame].
  - rewrite decide_False in Hr by apply not_elem_of_empty. destruct Hr as [-> Hs].
    split_and!; [done|by eapply accounts_ok_same|by apply row_same_frame].
Qed.
Lemma remove_overlay_refines i o : refines (OpRemoveOverlay i o).
Proof.
  intros s A Hok. cbn [run spec]. unfold remove_overlay, io_try. cbn [id].
  destruct (remove_set_row s PREFIX (to_vec i) OVERLAY o _ (proj1 Hok)
    (proj2 (proj2 (proj2 Hok i)))) as (r & s' & -> & Hr). exists s'.
  destruct (A !! i) as [a|] eqn:Ha; cbn [from_option] in Hr.
  - destruct (decide _); destruct Hr as [-> Hs]; cbn [fst snd]; [by_row Hok Hs i Ha|].
    split_and!; [done|by eapply accounts_ok_same|by apply row_same_frame].
  - rewrite decide_False in Hr by apply not_elem_of_empty. destruct Hr as [-> Hs].
    split_and!; [done|by eapply accounts_ok_same|by apply row_same_frame].
Qed.

(** The account is gone once its first two rows are, and the third one if there was one. *)
Lemma deleted_rows s s' A i a (L : list u8) :
  accounts_ok s A → A !! i = Some a → frame PREFIX s s' →
  (∀ k x, k ≠ to_vec i → row s' PREFIX k x = row s PREFIX k x) →
  (∀ x, row s' PREFIX (to_vec i) x = if decide (x ∈ L) then ∅ else row s PREFIX (to_vec i) x) →
  ADMIN ∈ L → CLIENT ∈ L → (acc_overlays a ≠ ∅ → OVERLAY ∈ L) → accounts_ok s' (delete i A).
Proof.
  intros Hok Ha Hf Hother HL HLa HLc HLo.
  apply (accounts_ok_change s s' A _ i Hok (proj1 Hf) Hother);
    [intros; by rewrite lookup_delete_ne|].
  rewrite lookup_delete_eq. unfold account_rows. rewrite !HL.
  rewrite (decide_True _ _ HLa), (decide_True _ _ HLc). cbn [fmap option_fmap option_map from_option].
  split_and!; [done|symmetry; apply set_row_empty|].
  transitivity (∅ : gset bytes); [|symmetry; apply set_row_empty].
  destruct (decide _) as [|Hnin]; [done|].
  rewrite (proj2 (proj2 (proj2 Hok i))), Ha. apply set_row_empty_iff. cbn.
  destruct (decide (acc_overlays a = ∅)); [done|]. exfalso. auto.
Qed.

Lemma account_del_refines i : refines (OpDel i).
Proof.
  intros s A Hok. cbn [run spec]. unfold del, io_try. cbn [id].
  destruct (del_all_rows s PREFIX (to_vec i) ALL_PROPERTIES (proj1 Hok)) as
    (r & s' & -> & Hf & Hother & Hn); [done|].
  assert (NoDup ALL_PROPERTIES) as Hnd by (by apply (bool_decide_unpack _)).
  destruct (proj2 Hok i) as (HA & HC & HO). exists s'.
  destruct (decide (from_option acc_clients ∅ (A !! i) = ∅)) as [Hc|Hc].
  - destruct (Hn 0 ltac:(by intros x ?%elem_of_nil) Hnd) as [-> Hs].
    { by rewrite HC, Hc, set_row_empty. }
    assert (accounts_ok s' A).
    { apply (accounts_ok_change s s' A A i Hok (proj1 Hf) (λ k x, Hother k x)); [done|].
      unfold account_rows. by rewrite !Hs. }
    destruct (A !! i) as [a|]; [|done]. cbn in Hc. by rewrite Hc.
  - destruct (A !! i) as [a|] eqn:Ha; [|done]. cbn [from_option] in Hc, HC, HO.
    assert (Hne : ∀ x, x ∈ [CLIENT; ADMIN] → row s PREFIX (to_vec i) x ≠ ∅).
    { intros x [->|[->|[]%elem_of_nil]%elem_of_cons]%elem_of_cons.
      - by rewrite HC, set_row_empty_iff.
      - rewrite HA. cbn. clear. set_solver. }
    rewrite (decide_False (P := acc_clients a = ∅)) by done.
    destruct (decide (acc_overlays a = ∅)) as [Ho|Ho].
    + destruct (Hn 2 Hne Hnd) as [-> Hs]; [by rewrite HO, Ho, set_row_empty|].
      split_and!; [done| |done]. by eapply (deleted_rows s s' A i a _ Hok Ha Hf Hother Hs);
        [right; left|left|].
    + destruct (Hn 3) as [-> Hs]; [|done|].
      { intros x [->|[->|[->|[]%elem_of_nil]%elem_of_cons]%elem_of_cons]%elem_of_cons;
          [apply Hne; left|apply Hne; right; left|by rewrite HO, set_row_empty_iff]. }
      split_and!; [done| |done]. eapply (deleted_rows s s' A i a _ Hok Ha Hf Hother Hs);
        [right; left|left|right; right; left].
Qed.

Lemma account_run_refines op : refines op.
Proof.
  destruct op; auto using account_open_refines, account_create_refines, add_client_refines,
    remove_client_refines, has_client_refines, add_overlay_refines, remove_overlay_refines,
    has_overlay_refines, is_admin_refines, account_del_refines.
Qed.

(** C22: a store that holds the accounts [A] answers any sequence of account operations,
    failed ones included, as the map of accounts does, never panics, then holds the
    accounts of the map after the sequence, and no property of another table moved. *)
Theorem Account_refinement (ops : list account_op) s A :
  accounts_ok s A →
  ∃ s', run_all ops s = Ret ((spec_all ops A).1, s') ∧
        accounts_ok s' (spec_all ops A).2 ∧ frame PREFIX s s'.
Proof.
  revert s A. induction ops as [|op ops IH]; intros s A Hok.
  { exists s. split_and!; [done..|apply frame_refl, Hok]. }
  cbn [run_all spec_all]. destruct (account_run_refines op s A Hok) as (s1 & -> & Hok1 & Hf1).
  destruct (spec op A) as [r A1]. cbn [fst snd mbind outcome_bind] in *.
  destruct (IH s1 A1 Hok1) as (s2 & -> & Hok2 & Hf2).
  destruct (spec_all ops A1) as [rs A2]. exists s2. cbn in *. split_and!; [done..|].
  by eapply frame_trans.
Qed.
End Refinement.

Module Examples.
Import MemStore NetInstances.

Definition user : UserId := Ed25519PubKey (to_array 32 [x01]).
Definition client : ClientId := Ed25519PubKey (to_array 32 [x38]).
Definition overlay : OverlayId := Blake3Digest32 (to_array 32 [x02]).

Lemma accounts_ok_empty : accounts_ok (∅ : ms_db) ∅.
Proof.
  split; [done|]. intros i. unfold account_rows, row. cbn -[compute_property].
  by rewrite !lookup_empty.
Qed.
Lemma mem_account_fits : account_fits (S := ms_db).
Proof. done. Qed.

(** An account without clients is not deleted; one without overlays is, with an error. *)
Lemma Account_refinement_witness : ∃ s',
  run_all [OpCreate user true; OpCreate user false; OpDel user; OpIsAdmin user;
           OpAddClient user client; OpHasClient user client; OpDel user; OpOpen user;
           OpAddOverlay user overlay] (∅ : ms_db) =
  Ret ([Ok None; Err StorageError_BackendError; Err StorageError_BackendError; Ok (Some true);
        Ok None; Ok None; Err StorageError_BackendError; Err StorageError_NotFound;
        Err StorageError_BackendError], s') ∧ accounts_ok s' ∅.
Proof.
  destruct (Account_refinement mem_account_fits
    [OpCreate user true; OpCreate user false; OpDel user; OpIsAdmin user;
     OpAddClient user client; OpHasClient user client; OpDel user; OpOpen user;
     OpAddOverlay user overlay] (∅ : ms_db) ∅ accounts_ok_empty) as (s' & Hrun & Hok & _).
  exists s'. split.
  - rewrite Hrun. reflexivity.
  - assert (He : (spec_all [OpCreate user true; OpCreate user false; OpDel user; OpIsAdmin user;
     OpAddClient user client; OpHasClient user client; OpDel user; OpOpen user;
     OpAddOverlay user overlay] ∅).2 = ∅) by (apply map_eq; intros j; reflexivity).
    rewrite He in Hok. exact Hok.
Defined.
End Examples.
