(* ===== verification/PeerProps.v ===== *)
(** * The peers of a broker, refined

    [lofire-broker/src/peer.rs]: the table keeps, for every peer it was told of, the
    advertisement of the highest version, and the version of the first one. *)

From S2P Require Import Prelude Serde Types Store NetTypes BrokerStore BrokerRows BrokerTables.
From S2P Require Import Bare BareTypes NetBare.
Import Peer.

(** ** The specification: a version and an advertisement for each known peer *)

Abbreviation peers := (gmap PubKey (u32 * PeerAdvert)) (only parsing).

Definition newer (a b : PeerAdvert) : bool :=
  (uint_N (PeerAdvert_version a) <? uint_N (PeerAdvert_version b))%N.
Definition spec_update (a : PeerAdvert) (P : peers) : peers :=
  match P !! PeerAdvert_peer a with
  | Some (v, b) => if newer b a then <[PeerAdvert_peer a := (v, a)]> P else P
  | None => <[PeerAdvert_peer a := (PeerAdvert_version a, a)]> P
  end.

(** The advertisement kept out of a list in order of arrival. *)
Definition latest (a : PeerAdvert) (l : list PeerAdvert) : PeerAdvert :=
  foldl (λ a b, if newer a b then b else a) a l.

Lemma latest_max a l :
  latest a l ∈ a :: l ∧
  ∀ b, b ∈ a :: l → (uint_N (PeerAdvert_version b) <= uint_N (PeerAdvert_version (latest a l)))%N.
Proof.
  revert a. induction l as [|c l IH]; intros a; unfold latest; cbn [foldl].
  { split; [left|]. intros b [->|[]%elem_of_nil]%elem_of_cons. done. }
  fold (latest (if newer a c then c else a) l). destruct (newer a c) eqn:Hn; unfold newer in Hn;
    [apply N.ltb_lt in Hn; destruct (IH c) as [Hin Hmax]
    |apply N.ltb_ge in Hn; destruct (IH a) as [Hin Hmax]].
  - split; [by right|]. intros b [->|Hb]%elem_of_cons; [|by apply Hmax].
    pose proof (Hmax c ltac:(by left)). lia.
  - split; [apply elem_of_cons in Hin as [->|?]; [left|by right; right]|].
    intros b [->|[->|Hb]%elem_of_cons]%elem_of_cons; [by apply Hmax; left| |by apply Hmax; right].
    pose proof (Hmax a ltac:(by left)). lia.
Qed.

(** The entry of one peer after the updates of all. *)
Lemma spec_update_lookup (i : PeerId) l (P : peers) :
  foldl (flip spec_update) P l !! i =
  match P !! i with
  | Some (v, b) => Some (v, latest b (filter (λ a, PeerAdvert_peer a = i) l))
  | None => match filter (λ a, PeerAdvert_peer a = i) l with
            | a :: l => Some (PeerAdvert_version a, latest a l)
            | [] => None
            end
  end.
Proof.
  revert P. induction l as [|a l IH]; intros P; cbn [foldl].
  { rewrite filter_nil. by destruct (P !! i) as [[]|]. }
  rewrite IH. unfold flip, spec_update. destruct (decide (PeerAdvert_peer a = i)) as [<-|Hne].
  - rewrite filter_cons_True by done. destruct (P !! PeerAdvert_peer a) as [[v b]|] eqn:HP.
    + change (latest b (a :: ?l)) with (latest (if newer b a then a else b) l).
      destruct (newer b a); [by rewrite lookup_insert_eq|by rewrite HP].
    + by rewrite lookup_insert_eq.
  - rewrite filter_cons_False by done.
    destruct (P !! PeerAdvert_peer a) as [[v b]|] eqn:HP; [destruct (newer b a)|];
      by rewrite ?lookup_insert_ne by done.
Qed.

Section Refinement.
Context {S : Type} `{!BrokerStore S, !BrokerStoreSpec S}.
Context `{!Serde PubKey, !Serde u32, !Serde PeerAdvert}.

(** Telling the broker of a list of advertisements. *)
Fixpoint update_all (l : list PeerAdvert) : io S (list Peer) :=
  match l with
  | [] => io_ok []
  | a :: l => p ←$ update_or_create a; ps ←$ update_all l; io_ok (p :: ps)
  end.

Definition peer_rows (s : S) (i : PeerId) (o : option (u32 * PeerAdvert)) : Prop :=
  row s PREFIX (to_vec i) VERSION = one_row (fst <$> o) ∧
  row s PREFIX (to_vec i) ADVERT = one_row (snd <$> o).
Definition peers_ok (s : S) (P : peers) : Prop :=
  bs_inv s ∧ ∀ i, peer_rows s i (P !! i).

(** The backend takes the rows of an advertisement. *)
Definition advert_fits (a : PeerAdvert) : Prop :=
  let k := to_vec (PeerAdvert_peer a) in
  bs_fits (compute_property PREFIX k (Some VERSION)) (to_vec (PeerAdvert_version a)) ∧
  bs_fits (compute_property PREFIX k (Some ADVERT)) (to_vec a).

Context `{!SerdeLaws PubKey, !SerdeLaws u32, !SerdeLaws PeerAdvert}.
Implicit Types (s : S) (P : peers).

Lemma peer_exists_ok s P i :
  peers_ok s P → exists_ {| id := i |} s = Ret (bool_decide (is_Some (P !! i))).
Proof.
  intros [Hi Hrows]. destruct (Hrows i) as [Hv _].
  unfold exists_, SUFFIX_FOR_EXIST_CHECK. cbn [id]. rewrite (exists_row _ _ _ _ _ Hi Hv).
  by destruct (P !! i).
Qed.
Lemma advert_ok s P i :
  peers_ok s P → advert {| id := i |} s =
  Ret (match P !! i with Some (_, a) => Ok a | None => Err StorageError_NotFound end).
Proof.
  intros [Hi Hrows]. destruct (Hrows i) as [_ Ha]. unfold advert. cbn [id].
  rewrite (read_row _ _ _ _ _ Hi Ha). by destruct (P !! i) as [[]|].
Qed.
Lemma version_ok s P i :
  peers_ok s P → version {| id := i |} s =
  Ret (match P !! i with Some (v, _) => Ok v | None => Err StorageError_NotFound end).
Proof.
  intros [Hi Hrows]. destruct (Hrows i) as [Hv _]. unfold version. cbn [id].
  rewrite (read_row _ _ _ _ _ Hi Hv). by destruct (P !! i) as [[]|].
Qed.
Lemma peer_open_ok s P i :
  peers_ok s P → open i s =
  Ret (match P !! i with Some _ => Ok {| id := i |} | None => Err StorageError_NotFound end, s).
Proof.
  intros Hok. unfold open. rewrite (io_if_eq _ _ _ _ _ (peer_exists_ok s P i Hok)).
  by destruct (P !! i).
Qed.

Lemma peers_ok_change s s' P P' i :
  peers_ok s P → bs_inv s' →
  (∀ k x, k ≠ to_vec i → row s' PREFIX k x = row s PREFIX k x) →
  (∀ j, j ≠ i → P' !! j = P !! j) → peer_rows s' i (P' !! i) → peers_ok s' P'.
Proof.
  intros [_ Hrows] Hi Hother HP Hrow. split; [done|]. intros j.
  destruct (decide (j = i)) as [->|Hne]; [done|].
  assert (to_vec j ≠ to_vec i) as Hk by (by intros ?%(inj to_vec)).
  destruct (Hrows j) as (H1 & H2). unfold peer_rows. by rewrite HP, !Hother.
Qed.

Lemma peer_create_ok s P a :
  advert_fits a → peers_ok s P → P !! PeerAdvert_peer a = None → ∃ s',
  create a s = Ret (Ok {| id := PeerAdvert_peer a |}, s') ∧
  peers_ok s' (<[PeerAdvert_peer a := (PeerAdvert_version a, a)]> P) ∧ frame PREFIX s s'.
Proof.
  intros Hfits Hok Hnone. unfold create. rewrite (io_if_eq _ _ _ _ _ (peer_exists_ok s P _ Hok)), Hnone.
  rewrite bool_decide_eq_false_2 by (intros [? ?]; done).
  set (i := PeerAdvert_peer a) in *. destruct (proj2 Hok i) as [Hv Ha]. rewrite Hnone in Hv, Ha.
  destruct (put_one_row s PREFIX (to_vec i) VERSION (PeerAdvert_version a) (proj1 Hok) Hv)
    as (s1 & Hput1 & Hs1); [apply Hfits|]. rewrite (io_try_ok _ _ _ _ _ Hput1).
  assert (Ha1 : row s1 PREFIX (to_vec i) ADVERT = one_row (None : option PeerAdvert))
    by (by rewrite (row_set_ne _ _ _ _ _ _ _ _ _ Hs1)).
  destruct (put_one_row s1 PREFIX (to_vec i) ADVERT a (proj1 Hs1) Ha1) as (s2 & Hput2 & Hs2);
    [apply Hfits|]. rewrite (io_try_ok _ _ _ _ _ Hput2).
  exists s2. split_and!; [done| |eapply frame_trans; by eapply row_set_frame].
  apply (peers_ok_change s s2 P _ i Hok (proj1 Hs2)).
  - intros k x Hk. rewrite (row_set_ne _ _ _ _ _ _ _ _ _ Hs2) by congruence.
    apply (row_set_ne _ _ _ _ _ _ _ _ _ Hs1). congruence.
  - intros j Hj. by rewrite lookup_insert_ne.
  - rewrite lookup_insert_eq. split.
    + rewrite (row_set_ne _ _ _ _ _ _ _ _ _ Hs2) by done. apply (row_set_eq _ _ _ _ _ _ Hs1).
    + apply (row_set_eq _ _ _ _ _ _ Hs2).
Qed.

Lemma update_advert_ok s P a v b :
  advert_fits a → peers_ok s P → P !! PeerAdvert_peer a = Some (v, b) → ∃ s',
  update_advert a {| id := PeerAdvert_peer a |} s = Ret (Ok tt, s') ∧
  peers_ok s' (spec_update a P) ∧ frame PREFIX s s'.
Proof.
  intros Hfits Hok Hb. unfold update_advert, spec_update. cbn [id].
  rewrite decide_False by (intros Hne; by apply Hne). rewrite Hb.
  assert (Hread : io_read (λ s, r ← advert {| id := PeerAdvert_peer a |} s;
      Ret (map_err (λ _, StorageError_BackendError) r)) s = Ret (Ok b, s)).
  { unfold io_read. by rewrite (advert_ok s P _ Hok), Hb. }
  rewrite (io_try_ok _ _ _ _ _ Hread). unfold newer.
  set (i := PeerAdvert_peer a) in *. destruct (proj2 Hok i) as [Hv Ha]. rewrite Hb in Hv, Ha.
  destruct (N.leb_spec (uint_N (PeerAdvert_version a)) (uint_N (PeerAdvert_version b))) as [Hle|Hlt].
  { rewrite (proj2 (N.ltb_ge _ _)) by done. exists s. split_and!; [done..|apply frame_refl, Hok]. }
  rewrite (proj2 (N.ltb_lt _ _)) by done.
  destruct (replace_one_row s PREFIX (to_vec i) ADVERT b a (proj1 Hok) Ha) as (s' & Hrep & Hs);
    [apply Hfits|].
  exists s'. split_and!; [done| |by apply row_set_frame in Hs].
  apply (peers_ok_change s s' P _ i Hok (proj1 Hs)).
  - intros k x Hk. apply (row_set_ne _ _ _ _ _ _ _ _ _ Hs). congruence.
  - intros j Hj. by rewrite lookup_insert_ne.
  - rewrite lookup_insert_eq. split; [|apply (row_set_eq _ _ _ _ _ _ Hs)].
    by rewrite (row_set_ne _ _ _ _ _ _ _ _ _ Hs).
Qed.

Lemma update_or_create_ok s P a :
  advert_fits a → peers_ok s P → ∃ s',
  update_or_create a s = Ret (Ok {| id := PeerAdvert_peer a |}, s') ∧
  peers_ok s' (spec_update a P) ∧ frame PREFIX s s'.
Proof.
  intros Hfits Hok. unfold update_or_create.
  rewrite (io_match_eq _ _ _ _ _ (peer_open_ok s P _ Hok)).
  destruct (P !! PeerAdvert_peer a) as [[v b]|] eqn:HP.
  - destruct (update_advert_ok s P a v b Hfits Hok HP) as (s' & Hup & Hok' & Hf).
    rewrite (io_try_ok _ _ _ _ _ Hup). by exists s'.
  - rewrite decide_True by done. destruct (peer_create_ok s P a Hfits Hok HP) as (s' & -> & Hok' & Hf).
    exists s'. unfold spec_update. by rewrite HP.
Qed.

Lemma update_all_ok l s P :
  Forall advert_fits l → peers_ok s P → ∃ s',
  update_all l s = Ret (Ok ((λ a, {| id := PeerAdvert_peer a |}) <$> l), s') ∧
  peers_ok s' (foldl (flip spec_update) P l) ∧ frame PREFIX s s'.
Proof.
  intros Hl. revert s P. induction Hl as [|a l Hfits Hl IH]; intros s P Hok.
  { exists s. split_and!; [done..|apply frame_refl, Hok]. }
  cbn [update_all foldl]. destruct (update_or_create_ok s P a Hfits Hok) as (s1 & Hup & Hok1 & Hf1).
  rewrite (io_try_ok _ _ _ _ _ Hup). destruct (IH s1 _ Hok1) as (s2 & Hall & Hok2 & Hf2).
  rewrite (io_try_ok _ _ _ _ _ Hall). exists s2. split_and!; [done..|by eapply frame_trans].
Qed.

(** C27: a broker without peers that is told of any list of advertisements accepts them all
    without touching another table, and then knows exactly the peers advertised: of each
    one the first advertisement with the highest version, while the version it reports on
    the side is that of the first advertisement that arrived. *)
Theorem Peer_update_or_create_latest (l : list PeerAdvert) s i :
  Forall advert_fits l → peers_ok s ∅ → ∃ s',
  update_all l s = Ret (Ok ((λ a, {| id := PeerAdvert_peer a |}) <$> l), s') ∧
  frame PREFIX s s' ∧
  match filter (λ a, PeerAdvert_peer a = i) l with
  | [] => advert {| id := i |} s' = Ret (Err StorageError_NotFound)
  | a :: l => ∃ b, advert {| id := i |} s' = Ret (Ok b) ∧ b ∈ a :: l ∧
      (∀ c, c ∈ a :: l → (uint_N (PeerAdvert_version c) <= uint_N (PeerAdvert_version b))%N) ∧
      version {| id := i |} s' = Ret (Ok (PeerAdvert_version a))
  end.
Proof.
  intros Hl Hok. destruct (update_all_ok l s ∅ Hl Hok) as (s' & Hall & Hok' & Hf).
  exists s'. split_and!; [done..|].
  pose proof (advert_ok s' _ i Hok') as Ha. pose proof (version_ok s' _ i Hok') as Hv.
  rewrite spec_update_lookup, lookup_empty in Ha, Hv.
  destruct (filter _ l) as [|a l']; [done|]. exists (latest a l'). split_and!; try done.
  all: apply latest_max.
Qed.
End Refinement.

Module Examples.
Import MemStore NetInstances.

Definition some_advert (peer : PubKey) (v : N) : PeerAdvert :=
  PeerAdvert_V0 (Build_PeerAdvertV0
    (Build_PeerAdvertContentV0 peer (vreplicate 4 (to_array 32 [])) [] (uint_wrap 32 v) [])
    (Ed25519Sig (to_array 32 []) (to_array 32 [])) x00).
Definition peer1 : PubKey := Ed25519PubKey (to_array 32 [x01]).
Definition peer2 : PubKey := Ed25519PubKey (to_array 32 [x02]).
Definition adverts : list PeerAdvert :=
  [some_advert peer1 3; some_advert peer2 9; some_advert peer1 7; some_advert peer1 5].

Lemma peers_ok_empty : peers_ok (∅ : ms_db) ∅.
Proof.
  split; [done|]. intros i. unfold peer_rows, row. cbn -[compute_property].
  by rewrite !lookup_empty.
Qed.

(** The advertisement of version 7 is kept, the version stays 3. *)
Lemma Peer_update_or_create_latest_witness : ∃ s' b,
  advert {| id := peer1 |} (s' : ms_db) = Ret (Ok b) ∧ uint_N (PeerAdvert_version b) = 7%N ∧
  version {| id := peer1 |} s' = Ret (Ok (uint_wrap 32 3)).
Proof.
  destruct (Peer_update_or_create_latest (S := ms_db) adverts ∅ peer1
    ltac:(by repeat constructor) peers_ok_empty)
    as (s' & _ & _ & Hm).
  assert (Hf : filter (λ a, PeerAdvert_peer a = peer1) adverts =
    [some_advert peer1 3; some_advert peer1 7; some_advert peer1 5]) by reflexivity.
  rewrite Hf in Hm. destruct Hm as (b & Hb & Hin & Hmax & Hv). exists s', b. split_and!; [done| |done].
  pose proof (Hmax (some_advert peer1 7) ltac:(by right; left)) as H7.
  apply elem_of_cons in Hin as [->|[->|[->|[]%elem_of_nil]%elem_of_cons]%elem_of_cons].
  - by exfalso.
  - done.
  - by exfalso.
Defined.
End Examples.
