(* ===== verification/TopicProps.v ===== *)
(** * The topics of a broker, refined

    [lofire-broker/src/topic.rs] over any store that keeps the contract implements a
    finite map from topics to their metadata and heads, from which nothing is ever
    removed: the property that [del] deletes first is one that no operation writes. *)

From S2P Require Import Prelude Serde Types Store NetTypes BrokerStore BrokerRows BrokerTables.
From S2P Require Import Bare BareTypes NetBare.
Import Topic.

(** ** The specification *)

Record topic : Type := { top_meta : TopicMeta; top_heads : gset Digest }.
Abbreviation topics := (gmap PubKey topic) (only parsing).

Inductive topic_op : Type :=
  | OpOpen (i : TopicId)
  | OpCreate (i : TopicId)
  | OpAddHead (i : TopicId) (h : ObjectId)
  | OpRemoveHead (i : TopicId) (h : ObjectId)
  | OpHasHead (i : TopicId) (h : ObjectId)
  | OpMetadata (i : TopicId)
  | OpSetMetadata (i : TopicId) (m : TopicMeta)
  | OpDel (i : TopicId).

Definition with_heads (t : topic) (hs : gset Digest) : topic :=
  {| top_meta := top_meta t; top_heads := hs |}.

Definition spec (op : topic_op) (T : topics) : result (option TopicMeta) StorageError * topics :=
  match op with
  | OpOpen i =>
      (match T !! i with Some _ => Ok None | None => Err StorageError_NotFound end, T)
  | OpCreate i =>
      match T !! i with
      | Some _ => (Err StorageError_BackendError, T)
      | None => (Ok None, <[i := {| top_meta := {| TopicMeta_users := uint_wrap 32 0 |};
                                    top_heads := ∅ |}]> T)
      end
  | OpAddHead i h =>
      match T !! i with
      | Some t => (Ok None, <[i := with_heads t ({[h]} ∪ top_heads t)]> T)
      | None => (Err StorageError_BackendError, T)
      end
  | OpRemoveHead i h =>
      match T !! i with
      | Some t => if decide (h ∈ top_heads t)
                  then (Ok None, <[i := with_heads t (top_heads t ∖ {[h]})]> T)
                  else (Err StorageError_BackendError, T)
      | None => (Err StorageError_BackendError, T)
      end
  | OpHasHead i h =>
      (if decide (h ∈ from_option top_heads ∅ (T !! i)) then Ok None
       else Err StorageError_NotFound, T)
  | OpMetadata i =>
      (match T !! i with Some t => Ok (Some (top_meta t)) | None => Err StorageError_NotFound end, T)
  | OpSetMetadata i m =>
      match T !! i with
      | Some t => (Ok None, <[i := {| top_meta := m; top_heads := top_heads t |}]> T)
      | None => (Err StorageError_BackendError, T)
      end
  | OpDel i => (Err StorageError_BackendError, T)
  end.

Section Refinement.
Context {S : Type} `{!BrokerStore S, !BrokerStoreSpec S}.
Context `{!Serde PubKey, !Serde Digest, !Serde TopicMeta}.

Definition run (op : topic_op) : io S (option TopicMeta) :=
  match op with
  | OpOpen i => _ ←$ open i; io_ok None
  | OpCreate i => _ ←$ create i; io_ok None
  | OpAddHead i h => _ ←$ add_head h {| id := i |}; io_ok None
  | OpRemoveHead i h => _ ←$ remove_head h {| id := i |}; io_ok None
  | OpHasHead i h => _ ←$ io_read (has_head h {| id := i |}); io_ok None
  | OpMetadata i => m ←$ io_read (metadata {| id := i |}); io_ok (Some m)
  | OpSetMetadata i m => _ ←$ set_metadata m {| id := i |}; io_ok None
  | OpDel i => _ ←$ del {| id := i |}; io_ok None
  end.
Fixpoint run_all (ops : list topic_op) (s : S)
    : outcome (list (result (option TopicMeta) StorageError) * S) :=
  match ops with
  | [] => Ret ([], s)
  | op :: ops => '(r, s) ← run op s; '(rs, s) ← run_all ops s; Ret (r :: rs, s)
  end.
Fixpoint spec_all (ops : list topic_op) (T : topics)
    : list (result (option TopicMeta) StorageError) * topics :=
  match ops with
  | [] => ([], T)
  | op :: ops => let '(r, T) := spec op T in let '(rs, T) := spec_all ops T in (r :: rs, T)
  end.

Definition topic_rows (s : S) (i : TopicId) (o : option topic) : Prop :=
  row s PREFIX (to_vec i) META = one_row (top_meta <$> o) ∧
  row s PREFIX (to_vec i) HEAD = set_row (from_option top_heads ∅ o) ∧
  row s PREFIX (to_vec i) ADVERT = ∅.
Definition topics_ok (s : S) (T : topics) : Prop := bs_inv s ∧ ∀ i, topic_rows s i (T !! i).

Definition topic_fits : Prop := ∀ i : TopicId,
  (∀ m : TopicMeta, bs_fits (compute_property PREFIX (to_vec i) (Some META)) (to_vec m)) ∧
  (∀ h : ObjectId, bs_fits (compute_property PREFIX (to_vec i) (Some HEAD)) (to_vec h)).

Context `{!SerdeLaws PubKey, !SerdeLaws Digest, !SerdeLaws TopicMeta}.
Implicit Types (s : S) (T : topics).

Lemma topic_exists_ok s T i :
  topics_ok s T → exists_ {| id := i |} s = Ret (bool_decide (is_Some (T !! i))).
Proof.
  intros [Hi Hrows]. destruct (Hrows i) as (Hm & _).
  unfold exists_, SUFFIX_FOR_EXIST_CHECK. cbn [id]. rewrite (exists_row _ _ _ _ _ Hi Hm).
  by destruct (T !! i).
Qed.

Lemma topics_ok_row_set s s' T T' i x vs :
  topics_ok s T → row_set s s' PREFIX (to_vec i) x vs →
  (∀ j, j ≠ i → T' !! j = T !! j) → topic_rows s' i (T' !! i) → topics_ok s' T'.
Proof.
  intros [_ Hrows] Hs HT Hrow. split; [apply Hs|]. intros j.
  destruct (decide (j = i)) as [->|Hne]; [done|].
  assert (to_vec j ≠ to_vec i) as Hk by (by intros ?%(inj to_vec)).
  destruct (Hrows j) as (H1 & H2 & H3). unfold topic_rows.
  by rewrite HT, !(row_set_ne _ _ _ _ _ _ _ _ _ Hs) by congruence.
Qed.
Lemma topics_ok_same s s' T : topics_ok s T → row_same s s' → topics_ok s' T.
Proof.
  intros [_ Hrows] Hs. split; [apply Hs|]. intros i. unfold topic_rows.
  rewrite !(row_same_row _ _ _ _ _ Hs). apply Hrows.
Qed.

Definition refines (op : topic_op) : Prop := ∀ s T, topics_ok s T → ∃ s',
  run op s = Ret ((spec op T).1, s') ∧ topics_ok s' (spec op T).2 ∧ frame PREFIX s s'.

Ltac rows_of Hok Hs i Ht :=
  let R := fresh in
  rewrite lookup_insert_eq; destruct Hok as [_ R]; specialize (R i);
  unfold topic_rows in *; rewrite Ht in R;
  rewrite ?(row_set_eq _ _ _ _ _ _ Hs), ?(row_set_ne _ _ _ _ _ _ _ _ _ Hs) by done;
  cbn [fmap option_fmap option_map from_option top_meta top_heads with_heads] in *;
  by destruct_and! R.
Ltac by_row Hok Hs i Ht :=
  split_and!; [done
    |apply (topics_ok_row_set _ _ _ _ i _ _ Hok Hs);
       [intros; by rewrite lookup_insert_ne|rows_of Hok Hs i Ht]
    |by apply row_set_frame in Hs].
Ltac by_no_change Hok := split_and!; [by auto|done|apply frame_refl, Hok].

Lemma topic_open_refines i : refines (OpOpen i).
Proof.
  intros s T Hok. exists s. cbn [run spec fst snd]. unfold open, io_try.
  rewrite (io_if_eq _ _ _ _ _ (topic_exists_ok s T i Hok)).
  split_and!; [by destruct (T !! i)|done|apply frame_refl, Hok].
Qed.
Lemma has_head_refines i h : refines (OpHasHead i h).
Proof.
  intros s T Hok. exists s. split_and!; [|done|apply frame_refl, Hok].
  cbn [run spec fst]. unfold has_head, io_try, io_read. cbn [id].
  rewrite (has_set_row _ _ _ _ _ _ (proj1 Hok) (proj1 (proj2 (proj2 Hok i)))).
  by destruct (decide _).
Qed.
Lemma topic_metadata_refines i : refines (OpMetadata i).
Proof.
  intros s T Hok. exists s. split_and!; [|done|apply frame_refl, Hok].
  cbn [run spec fst]. unfold metadata, io_try, io_read. cbn [id].
  rewrite (read_row _ _ _ _ _ (proj1 Hok) (proj1 (proj2 Hok i))).
  by destruct (T !! i).
Qed.

(** [ADVERT], the first of [ALL_PROPERTIES], has no value. *)
Lemma topic_del_refines i : refines (OpDel i).
Proof.
  intros s T Hok. cbn [run spec fst snd]. unfold del, io_try. cbn [id].
  destruct (del_all_rows s PREFIX (to_vec i) ALL_PROPERTIES (proj1 Hok)) as
    (r & s' & -> & Hf & Hother & Hn); [done|].
  destruct (Hn 0) as [-> Hs]; [by intros x ?%elem_of_nil|by apply (bool_decide_unpack _)
    |apply Hok|].
  exists s'. split_and!; [done| |done]. split; [apply Hf|]. intros j.
  destruct (proj2 Hok j) as (H1 & H2 & H3). unfold topic_rows.
  destruct (decide (j = i)) as [->|Hne].
  - by rewrite !Hs.
  - assert (to_vec j ≠ to_vec i) as Hk by (by intros ?%(inj to_vec)). by rewrite !Hother.
Qed.

Context (Hfits : topic_fits).

Lemma topic_create_refines i : refines (OpCreate i).
Proof.
  intros s T Hok. cbn [run spec]. unfold create, io_try at 1.
  rewrite (io_if_eq _ _ _ _ _ (topic_exists_ok s T i Hok)).
  destruct (T !! i) as [t|] eqn:Ht; cbn [fst snd].
  { exists s. by_no_change Hok. }
  rewrite bool_decide_eq_false_2 by (intros [? ?]; done).
  destruct (put_one_row s PREFIX (to_vec i) META {| TopicMeta_users := uint_wrap 32 0 |}
    (proj1 Hok)) as (s' & Hput & Hs); [by rewrite (proj1 (proj2 Hok i)), Ht|apply Hfits|].
  cbv zeta. rewrite (io_try_ok _ _ _ _ _ Hput). exists s'. by_row Hok Hs i Ht.
Qed.

Lemma add_head_refines i h : refines (OpAddHead i h).
Proof.
  intros s T Hok. cbn [run spec]. unfold add_head, io_try at 1.
  rewrite (io_if_eq _ _ _ _ _ (topic_exists_ok s T i Hok)).
  destruct (T !! i) as [t|] eqn:Ht; cbn [fst snd].
  - destruct (add_set_row s PREFIX (to_vec i) HEAD h (top_heads t) (proj1 Hok))
      as (s' & Hput & Hs); [by rewrite (proj1 (proj2 (proj2 Hok i))), Ht|apply Hfits|].
    rewrite bool_decide_eq_true_2 by eauto. cbn [id]. rewrite Hput. exists s'. by_row Hok Hs i Ht.
  - rewrite bool_decide_eq_false_2 by (intros [? ?]; done). exists s. by_no_change Hok.
Qed.

Lemma remove_head_refines i h : refines (OpRemoveHead i h).
Proof.
  intros s T Hok. cbn [run spec]. unfold remove_head, io_try. cbn [id].
  destruct (remove_set_row s PREFIX (to_vec i) HEAD h _ (proj1 Hok)
    (proj1 (proj2 (proj2 Hok i)))) as (r & s' & -> & Hr). exists s'.
  destruct (T !! i) as [t|] eqn:Ht; cbn [from_option] in Hr.
  - destruct (decide _); destruct Hr as [-> Hs]; cbn [fst snd]; [by_row Hok Hs i Ht|].
    split_and!; [done|by eapply topics_ok_same|by apply row_same_frame].
  - rewrite decide_False in Hr by apply not_elem_of_empty. destruct Hr as [-> Hs].
    split_and!; [done|by eapply topics_ok_same|by apply row_same_frame].
Qed.

Lemma topic_set_metadata_refines i m : refines (OpSetMetadata i m).
Proof.
  intros s T Hok. cbn [run spec]. unfold set_metadata, io_try at 1.
  rewrite (io_if_eq _ _ _ _ _ (topic_exists_ok s T i Hok)).
  destruct (T !! i) as [t|] eqn:Ht; cbn [fst snd].
  - destruct (replace_one_row s PREFIX (to_vec i) META (top_meta t) m (proj1 Hok))
      as (s' & Hput & Hs); [by rewrite (proj1 (proj2 Hok i)), Ht|apply Hfits|].
    rewrite bool_decide_eq_true_2 by eauto. cbn [id]. rewrite Hput. exists s'. by_row Hok Hs i Ht.
  - rewrite bool_decide_eq_false_2 by (intros [? ?]; done). exists s. by_no_change Hok.
Qed.

Lemma topic_run_refines op : refines op.
Proof.
  destruct op; auto using topic_open_refines, topic_create_refines, add_head_refines, remove_head_refines,
    has_head_refines, topic_metadata_refines, topic_set_metadata_refines, topic_del_refines.
Qed.

(** C28: a store that holds the topics [T] answers any sequence of topic operations, failed
    ones included, as the map of topics does, never panics, and then holds the topics of
    the map after the sequence; no property of another table moved. Deleting a topic
    always fails, and changes nothing. *)
Theorem Topic_refinement (ops : list topic_op) s T :
  topics_ok s T →
  ∃ s', run_all ops s = Ret ((spec_all ops T).1, s') ∧
        topics_ok s' (spec_all ops T).2 ∧ frame PREFIX s s'.
Proof.
  revert s T. induction ops as [|op ops IH]; intros s T Hok.
  { exists s. split_and!; [done..|apply frame_refl, Hok]. }
  cbn [run_all spec_all]. destruct (topic_run_refines op s T Hok) as (s1 & -> & Hok1 & Hf1).
  destruct (spec op T) as [r T1]. cbn [fst snd mbind outcome_bind] in *.
  destruct (IH s1 T1 Hok1) as (s2 & -> & Hok2 & Hf2).
  destruct (spec_all ops T1) as [rs T2]. exists s2. cbn in *. split_and!; [done..|].
  by eapply frame_trans.
Qed.
End Refinement.

Module Examples.
Import MemStore NetInstances.

Definition topic1 : TopicId := Ed25519PubKey (to_array 32 [x01]).
Definition head1 : ObjectId := Blake3Digest32 (to_array 32 [x02]).
Definition ops : list topic_op :=
  [OpAddHead topic1 head1; OpCreate topic1; OpAddHead topic1 head1;
   OpSetMetadata topic1 {| TopicMeta_users := uint_wrap 32 5 |}; OpDel topic1;
   OpHasHead topic1 head1; OpMetadata topic1; OpRemoveHead topic1 head1; OpHasHead topic1 head1].

Lemma topics_ok_empty : topics_ok (∅ : ms_db) ∅.
Proof.
  split; [done|]. intros i. unfold topic_rows, row. cbn -[compute_property].
  by rewrite !lookup_empty.
Qed.

Lemma Topic_refinement_witness : ∃ s' : ms_db,
  run_all ops ∅ =
  Ret ([Err StorageError_BackendError; Ok None; Ok None; Ok None; Err StorageError_BackendError;
        Ok None; Ok (Some {| TopicMeta_users := uint_wrap 32 5 |}); Ok None;
        Err StorageError_NotFound], s').
Proof.
  destruct (Topic_refinement (S := ms_db) ltac:(done) ops ∅ ∅ topics_ok_empty)
    as (s' & Hrun & _ & _).
  exists s'. rewrite Hrun. reflexivity.
Defined.
End Examples.
