(* ===== verification/OverlayProps.v ===== *)
(** * The overlays of a broker, refined

    [lofire-broker/src/overlay.rs] over any store that keeps the contract implements a
    table whose entries can outlive the overlay they belong to: [del] stops at the first
    kind of property that has no value, after the secret, on which [exists] depends, is
    gone. What is left is found again by the next [create], which adds to it. *)

From S2P Require Import Prelude Serde Types Store Utils NetTypes BrokerStore BrokerRows.
From S2P Require Import BrokerTables Bare BareTypes NetBare.
Import Overlay.

#[export] Program Instance OverlayMeta_countable : Countable OverlayMeta :=
  inj_countable' (λ m, (OverlayMeta_users m, OverlayMeta_last_used m))
                 (λ '(u, t), Build_OverlayMeta u t) _.
Next Obligation. by intros []. Qed.

(** ** The specification *)

Record entry : Type := {
  ov_secret : option SymKey;
  ov_peers : gset PubKey;
  ov_topics : gset PubKey;
  ov_metas : gset OverlayMeta;
  ov_repos : gset PubKey
}.
Definition no_entry : entry :=
  {| ov_secret := None; ov_peers := ∅; ov_topics := ∅; ov_metas := ∅; ov_repos := ∅ |}.
Abbreviation overlays := (Digest → entry) (only parsing).

Definition with_secret (e : entry) (x : option SymKey) : entry :=
  {| ov_secret := x; ov_peers := ov_peers e; ov_topics := ov_topics e;
     ov_metas := ov_metas e; ov_repos := ov_repos e |}.
Definition with_peers (e : entry) (xs : gset PubKey) : entry :=
  {| ov_secret := ov_secret e; ov_peers := xs; ov_topics := ov_topics e;
     ov_metas := ov_metas e; ov_repos := ov_repos e |}.
Definition with_topics (e : entry) (xs : gset PubKey) : entry :=
  {| ov_secret := ov_secret e; ov_peers := ov_peers e; ov_topics := xs;
     ov_metas := ov_metas e; ov_repos := ov_repos e |}.
Definition with_metas (e : entry) (xs : gset OverlayMeta) : entry :=
  {| ov_secret := ov_secret e; ov_peers := ov_peers e; ov_topics := ov_topics e;
     ov_metas := xs; ov_repos := ov_repos e |}.
Definition with_repos (e : entry) (xs : gset PubKey) : entry :=
  {| ov_secret := ov_secret e; ov_peers := ov_peers e; ov_topics := ov_topics e;
     ov_metas := ov_metas e; ov_repos := xs |}.

Inductive overlay_op : Type :=
  | OpOpen
  | OpCreate (secret : SymKey) (repo : option PubKey) (secs : u64)
  | OpAddPeer (p : PeerId)
  | OpRemovePeer (p : PeerId)
  | OpHasPeer (p : PeerId)
  | OpAddTopic (t : TopicId)
  | OpRemoveTopic (t : TopicId)
  | OpHasTopic (t : TopicId)
  | OpSecret
  | OpMetadata
  | OpSetMetadata (m : OverlayMeta)
  | OpRepo
  | OpDel.

Inductive overlay_resp : Type :=
  | RUnit
  | RSecret (k : SymKey)
  | RMeta (m : OverlayMeta)
  | RRepo (r : PubKey).
Abbreviation response := (result overlay_resp StorageError) (only parsing).

(** The kinds of properties in the order [del] visits them. *)
Definition spec_del (e : entry) : response * entry :=
  let fail e := (Err StorageError_BackendError, e) in
  if decide (ov_secret e = None) then fail e else
  let e := with_secret e None in
  if decide (ov_peers e = ∅) then fail e else
  let e := with_peers e ∅ in
  if decide (ov_topics e = ∅) then fail e else
  let e := with_topics e ∅ in
  if decide (ov_metas e = ∅) then fail e else
  let e := with_metas e ∅ in
  if decide (ov_repos e = ∅) then fail e else
  (Ok RUnit, with_repos e ∅).

(** The read of a property with several values answers any of them. *)
Definition spec_read {X} `{Countable X} (f : X → overlay_resp) (xs : gset X) (r : response) : Prop :=
  match r with
  | Ok a => ∃ x, x ∈ xs ∧ a = f x
  | Err e => xs = ∅ ∧ e = StorageError_NotFound
  end.

(** The entry of one overlay before, the answer, the entry after. *)
Definition spec (op : overlay_op) (e : entry) (r : response) (e' : entry) : Prop :=
  let fail x := r = Err x ∧ e' = e in
  match op with
  | OpOpen => if ov_secret e is Some _ then r = Ok RUnit ∧ e' = e else fail StorageError_NotFound
  | OpCreate secret repo secs =>
      if ov_secret e is Some _ then fail StorageError_BackendError
      else ∃ t, now_timestamp secs = Ret t ∧ r = Ok RUnit ∧
        e' = {| ov_secret := Some secret; ov_peers := ov_peers e; ov_topics := ov_topics e;
                ov_metas := {[ {| OverlayMeta_users := uint_wrap 32 1;
                                  OverlayMeta_last_used := t |} ]} ∪ ov_metas e;
                ov_repos := from_option singleton ∅ repo ∪ ov_repos e |}
  | OpAddPeer p =>
      if ov_secret e is Some _ then r = Ok RUnit ∧ e' = with_peers e ({[p]} ∪ ov_peers e)
      else fail StorageError_BackendError
  | OpRemovePeer p =>
      if decide (p ∈ ov_peers e) then r = Ok RUnit ∧ e' = with_peers e (ov_peers e ∖ {[p]})
      else fail StorageError_BackendError
  | OpHasPeer p =>
      r = (if decide (p ∈ ov_peers e) then Ok RUnit else Err StorageError_NotFound) ∧ e' = e
  | OpAddTopic t =>
      if ov_secret e is Some _ then r = Ok RUnit ∧ e' = with_topics e ({[t]} ∪ ov_topics e)
      else fail StorageError_BackendError
  | OpRemoveTopic t =>
      if decide (t ∈ ov_topics e) then r = Ok RUnit ∧ e' = with_topics e (ov_topics e ∖ {[t]})
      else fail StorageError_BackendError
  | OpHasTopic t =>
      r = (if decide (t ∈ ov_topics e) then Ok RUnit else Err StorageError_NotFound) ∧ e' = e
  | OpSecret =>
      r = match ov_secret e with Some k => Ok (RSecret k) | None => Err StorageError_NotFound end
      ∧ e' = e
  | OpMetadata => spec_read RMeta (ov_metas e) r ∧ e' = e
  | OpSetMetadata m =>
      if ov_secret e is Some _ then
        if decide (ov_metas e = ∅) then fail StorageError_BackendError
        else r = Ok RUnit ∧ e' = with_metas e {[m]}
      else fail StorageError_BackendError
  | OpRepo => spec_read RRepo (ov_repos e) r ∧ e' = e
  | OpDel => (r, e') = spec_del e
  end.

(** The runs of the specification. *)
Inductive spec_run : list (Digest * overlay_op) → overlays → list response → overlays → Prop :=
  | spec_run_nil O O' : (∀ j, O' j = O j) → spec_run [] O [] O'
  | spec_run_cons i op ops O r O1 rs O' :
      spec op (O i) r (O1 i) → (∀ j, j ≠ i → O1 j = O j) → spec_run ops O1 rs O' →
      spec_run ((i, op) :: ops) O (r :: rs) O'.

(** The clock can be read when an overlay is created. *)
Definition op_clock (op : overlay_op) : Prop :=
  match op with OpCreate _ _ secs => returns (now_timestamp secs) | _ => True end.

Section Refinement.
Context {S : Type} `{!BrokerStore S, !BrokerStoreSpec S}.
Context `{!Serde PubKey, !Serde Digest, !Serde SymKey, !Serde OverlayMeta}.

Definition run (i : OverlayId) (op : overlay_op) : io S overlay_resp :=
  match op with
  | OpOpen => _ ←$ open i; io_ok RUnit
  | OpCreate secret repo secs => _ ←$ create i secret repo secs; io_ok RUnit
  | OpAddPeer p => _ ←$ add_peer p {| id := i |}; io_ok RUnit
  | OpRemovePeer p => _ ←$ remove_peer p {| id := i |}; io_ok RUnit
  | OpHasPeer p => _ ←$ io_read (has_peer p {| id := i |}); io_ok RUnit
  | OpAddTopic t => _ ←$ add_topic t {| id := i |}; io_ok RUnit
  | OpRemoveTopic t => _ ←$ remove_topic t {| id := i |}; io_ok RUnit
  | OpHasTopic t => _ ←$ io_read (has_topic t {| id := i |}); io_ok RUnit
  | OpSecret => k ←$ io_read (secret {| id := i |}); io_ok (RSecret k)
  | OpMetadata => m ←$ io_read (metadata {| id := i |}); io_ok (RMeta m)
  | OpSetMetadata m => _ ←$ set_metadata m {| id := i |}; io_ok RUnit
  | OpRepo => r ←$ io_read (repo {| id := i |}); io_ok (RRepo r)
  | OpDel => _ ←$ del {| id := i |}; io_ok RUnit
  end.
Fixpoint run_all (ops : list (Digest * overlay_op)) (s : S) : outcome (list response * S) :=
  match ops with
  | [] => Ret ([], s)
  | (i, op) :: ops => '(r, s) ← run i op s; '(rs, s) ← run_all ops s; Ret (r :: rs, s)
  end.

Definition entry_rows (s : S) (i : OverlayId) (e : entry) : Prop :=
  let k := to_vec i in
  row s PREFIX k SECRET = one_row (ov_secret e) ∧ row s PREFIX k PEER = set_row (ov_peers e) ∧
  row s PREFIX k TOPIC = set_row (ov_topics e) ∧ row s PREFIX k META = set_row (ov_metas e) ∧
  row s PREFIX k REPO = set_row (ov_repos e).
Definition overlays_ok (s : S) (O : overlays) : Prop := bs_inv s ∧ ∀ i, entry_rows s i (O i).

Definition overlay_fits : Prop := ∀ i : OverlayId,
  let key x := compute_property PREFIX (to_vec i) (Some x) in
  (∀ k : SymKey, bs_fits (key SECRET) (to_vec k)) ∧ (∀ p : PubKey, bs_fits (key PEER) (to_vec p)) ∧
  (∀ t : PubKey, bs_fits (key TOPIC) (to_vec t)) ∧
  (∀ m : OverlayMeta, bs_fits (key META) (to_vec m)) ∧ (∀ r : PubKey, bs_fits (key REPO) (to_vec r)).

Context `{!SerdeLaws PubKey, !SerdeLaws Digest, !SerdeLaws SymKey, !SerdeLaws OverlayMeta}.
Implicit Types (s : S) (e : entry).

(** ** One overlay at a time *)

(** The rows of [i] are those of [e'], the others are left. *)
Definition changed (s s' : S) (i : OverlayId) (e' : entry) : Prop :=
  frame PREFIX s s' ∧ (∀ k x, k ≠ to_vec i → row s' PREFIX k x = row s PREFIX k x) ∧
  entry_rows s' i e'.
Definition refines (op : overlay_op) : Prop := ∀ s i e, bs_inv s → entry_rows s i e → ∃ r s' e',
  run i op s = Ret (r, s') ∧ spec op e r e' ∧ changed s s' i e'.

Lemma changed_refl s i e : bs_inv s → entry_rows s i e → changed s s i e.
Proof. intros. split_and!; [by apply frame_refl|done..]. Qed.
Lemma changed_trans s1 s2 s3 i e2 e3 :
  changed s1 s2 i e2 → changed s2 s3 i e3 → changed s1 s3 i e3.
Proof.
  intros (Hf1 & Ho1 & _) (Hf2 & Ho2 & Hr). split_and!; [by eapply frame_trans| |done].
  intros k x Hk. by rewrite Ho2, Ho1.
Qed.
Lemma changed_row s s' i x vs e' :
  row_set s s' PREFIX (to_vec i) x vs → entry_rows s' i e' → changed s s' i e'.
Proof.
  intros Hs Hr. split_and!; [by apply row_set_frame in Hs| |done].
  intros k y Hk. apply (row_set_ne _ _ _ _ _ _ _ _ _ Hs). congruence.
Qed.
Lemma changed_same s s' i e : entry_rows s i e → row_same s s' → changed s s' i e.
Proof.
  intros Hr Hs. split_and!; [by apply row_same_frame|intros; by apply row_same_row|].
  unfold entry_rows. by rewrite !(row_same_row _ _ _ _ _ Hs).
Qed.

Lemma overlay_exists_ok s i e :
  bs_inv s → entry_rows s i e → exists_ {| id := i |} s = Ret (bool_decide (is_Some (ov_secret e))).
Proof.
  intros Hi (Hs & _). unfold exists_, SUFFIX_FOR_EXIST_CHECK. cbn [id].
  apply (exists_row _ _ _ _ _ Hi Hs).
Qed.

(** Reading a property of which several values may be there. *)
Lemma read_many `{Countable X, !Serde X, !SerdeLaws (SerdeSkip0 := serde_skip_default X) X}
    (f : X → overlay_resp) s p k sx (xs : gset X) :
  bs_inv s → row s p k sx = set_row xs → ∃ r,
  (a ←$ io_read (λ s, r ← bs_get p k (Some sx) s; Ret (v ←? r; from_slice_se v)); io_ok (f a)) s =
  Ret (r, s) ∧ spec_read f xs r.
Proof.
  intros Hi Hrow. destruct (get_row s p k sx Hi) as ([v|err] & Hget & Hv);
    unfold io_try, io_read; rewrite Hget; cbn [mbind outcome_bind].
  - rewrite Hrow in Hv. apply elem_of_map in Hv as (x & -> & Hx).
    exists (Ok (f x)). unfold from_slice_se. rewrite from_slice_to_vec. cbn. by eauto.
  - destruct Hv as [-> Hv]. exists (Err StorageError_NotFound). split; [done|].
    split; [|done]. apply set_row_empty_iff. by rewrite <- Hrow.
Qed.

(** The rows of [i] after the one of [Hs] was set. *)
Ltac rows_after Hr Hs :=
  unfold entry_rows in *; cbv zeta in *;
  rewrite ?(row_set_eq _ _ _ _ _ _ Hs), ?(row_set_ne _ _ _ _ _ _ _ _ _ Hs) by done;
  destruct_and! Hr; by split_and!.
Ltac by_row Hr Hs := apply (changed_row _ _ _ _ _ _ Hs); rows_after Hr Hs.
(** Of the methods that first ask whether the overlay exists. *)
Ltac by_exists Hi Hr :=
  unfold io_try at 1; rewrite (io_if_eq _ _ _ _ _ (overlay_exists_ok _ _ _ Hi Hr)).
Ltac by_refl := by eexists _, _, _; split_and!; [reflexivity|done|by apply changed_refl].

Lemma overlay_open_refines : refines OpOpen.
Proof.
  intros s i e Hi Hr. exists (match ov_secret e with Some _ => Ok RUnit
    | None => Err StorageError_NotFound end), s, e.
  cbn [run spec]. unfold open. by_exists Hi Hr.
  destruct (ov_secret e); (split_and!; [done..|by apply changed_refl]).
Qed.

Lemma has_peer_refines x : refines (OpHasPeer x).
Proof.
  intros s i e Hi Hr.
  exists (if decide (x ∈ ov_peers e) then Ok RUnit else Err StorageError_NotFound), s, e.
  split_and!; [|by split|by apply changed_refl].
  cbn [run]. unfold has_peer, io_try, io_read. cbn [id].
  rewrite (has_set_row s PREFIX (to_vec i) PEER x (ov_peers e) Hi) by apply Hr.
  by destruct (decide _).
Qed.
Lemma has_topic_refines x : refines (OpHasTopic x).
Proof.
  intros s i e Hi Hr.
  exists (if decide (x ∈ ov_topics e) then Ok RUnit else Err StorageError_NotFound), s, e.
  split_and!; [|by split|by apply changed_refl].
  cbn [run]. unfold has_topic, io_try, io_read. cbn [id].
  rewrite (has_set_row s PREFIX (to_vec i) TOPIC x (ov_topics e) Hi) by apply Hr.
  by destruct (decide _).
Qed.

Lemma secret_refines : refines OpSecret.
Proof.
  intros s i e Hi Hr.
  exists (match ov_secret e with Some k => Ok (RSecret k) | None => Err StorageError_NotFound end), s, e.
  split_and!; [|by split|by apply changed_refl].
  cbn [run]. unfold secret, io_try, io_read. cbn [id].
  rewrite (read_row _ _ _ _ _ Hi (proj1 Hr)). by destruct (ov_secret e).
Qed.

Lemma overlay_metadata_refines : refines OpMetadata.
Proof.
  intros s i e Hi Hr. destruct (read_many RMeta s PREFIX (to_vec i) META (ov_metas e) Hi)
    as (r & Hrun & Hspec); [apply Hr|].
  exists r, s, e. split_and!; [exact Hrun|done..|by apply changed_refl].
Qed.
Lemma repo_refines : refines OpRepo.
Proof.
  intros s i e Hi Hr. destruct (read_many RRepo s PREFIX (to_vec i) REPO (ov_repos e) Hi)
    as (r & Hrun & Hspec); [apply Hr|].
  exists r, s, e. split_and!; [exact Hrun|done..|by apply changed_refl].
Qed.

Lemma remove_peer_refines p : refines (OpRemovePeer p).
Proof.
  intros s i e Hi Hr. destruct (remove_set_row s PREFIX (to_vec i) PEER p (ov_peers e) Hi)
    as (r & s' & Hrun & Hres); [apply Hr|].
  cbn [run spec]. unfold remove_peer, io_try. cbn [id]. rewrite Hrun.
  destruct (decide (p ∈ ov_peers e)); destruct Hres as [-> Hs]; eexists _, _, _;
    (split_and!; [reflexivity|done|done|]); [by_row Hr Hs|by apply changed_same].
Qed.
Lemma remove_topic_refines t : refines (OpRemoveTopic t).
Proof.
  intros s i e Hi Hr. destruct (remove_set_row s PREFIX (to_vec i) TOPIC t (ov_topics e) Hi)
    as (r & s' & Hrun & Hres); [apply Hr|].
  cbn [run spec]. unfold remove_topic, io_try. cbn [id]. rewrite Hrun.
  destruct (decide (t ∈ ov_topics e)); destruct Hres as [-> Hs]; eexists _, _, _;
    (split_and!; [reflexivity|done|done|]); [by_row Hr Hs|by apply changed_same].
Qed.

Context (Hfits : overlay_fits).

Lemma add_peer_refines p : refines (OpAddPeer p).
Proof.
  intros s i e Hi Hr. cbn [run spec]. unfold add_peer. by_exists Hi Hr.
  destruct (ov_secret e) as [k|] eqn:Hk; cbn [bool_decide].
  - destruct (add_set_row s PREFIX (to_vec i) PEER p (ov_peers e) Hi) as (s' & Hput & Hs);
      [apply Hr|apply Hfits|]. rewrite bool_decide_eq_true_2 by eauto. cbn [id]. rewrite Hput.
    eexists _, _, _. split_and!; [reflexivity|done|done|by_row Hr Hs].
  - rewrite bool_decide_eq_false_2 by (intros [? ?]; done).
    eexists _, s, e. split_and!; [reflexivity|done|done|by apply changed_refl].
Qed.
Lemma add_topic_refines t : refines (OpAddTopic t).
Proof.
  intros s i e Hi Hr. cbn [run spec]. unfold add_topic. by_exists Hi Hr.
  destruct (ov_secret e) as [k|] eqn:Hk; cbn [bool_decide].
  - destruct (add_set_row s PREFIX (to_vec i) TOPIC t (ov_topics e) Hi) as (s' & Hput & Hs);
      [apply Hr|apply Hfits|]. rewrite bool_decide_eq_true_2 by eauto. cbn [id]. rewrite Hput.
    eexists _, _, _. split_and!; [reflexivity|done|done|by_row Hr Hs].
  - rewrite bool_decide_eq_false_2 by (intros [? ?]; done).
    eexists _, s, e. split_and!; [reflexivity|done|done|by apply changed_refl].
Qed.

Lemma overlay_set_metadata_refines m : refines (OpSetMetadata m).
Proof.
  intros s i e Hi Hr. cbn [run spec]. unfold set_metadata. by_exists Hi Hr.
  destruct (ov_secret e) as [k|] eqn:Hk.
  2:{ rewrite bool_decide_eq_false_2 by (intros [? ?]; done).
      eexists _, s, e. split_and!; [reflexivity|done|done|by apply changed_refl]. }
  rewrite bool_decide_eq_true_2 by eauto. cbn [id].
  assert (Hrow : row s PREFIX (to_vec i) META = set_row (ov_metas e)) by apply Hr.
  destruct (bs_replace_spec s PREFIX (to_vec i) (Some META) (to_vec m) Hi) as (r & s' & -> & Hi' & Hres);
    [apply Hfits|]. fold (row s PREFIX (to_vec i) META) in Hres. rewrite Hrow in Hres.
  rewrite (decide_ext _ _ _ _ (set_row_empty_iff (ov_metas e))) in Hres.
  destruct (decide (ov_metas e = ∅)); destruct Hres as [-> Hv]; eexists _, _, _;
    (split_and!; [reflexivity|done|done|]); [by apply changed_same|].
  assert (Hs : row_set s s' PREFIX (to_vec i) META {[to_vec m]}) by done.
  apply (changed_row _ _ _ _ _ _ Hs). unfold entry_rows. cbv zeta.
  rewrite (row_set_eq _ _ _ _ _ _ Hs), !(row_set_ne _ _ _ _ _ _ _ _ _ Hs) by done.
  cbn. unfold set_row at 3. rewrite set_map_singleton_L. unfold entry_rows in Hr. by destruct_and! Hr.
Qed.

(** The optional write of [create]. *)
Lemma put_repo s i e repo :
  bs_inv s → entry_rows s i e → ∃ s',
  match repo with
  | Some repo => bs_put PREFIX (to_vec i) (Some REPO) (to_vec repo)
  | None => io_ok tt
  end s = Ret (Ok tt, s') ∧
  changed s s' i (with_repos e (from_option singleton ∅ repo ∪ ov_repos e)).
Proof.
  intros Hi Hr. destruct repo as [x|]; cbn [from_option].
  - destruct (add_set_row s PREFIX (to_vec i) REPO x (ov_repos e) Hi) as (s' & Hput & Hs);
      [apply Hr|apply Hfits|]. exists s'. split; [done|by_row Hr Hs].
  - exists s. split; [done|]. rewrite (left_id_L ∅ (∪)). apply changed_refl; [done|].
    by destruct e.
Qed.

Lemma overlay_create_refines secret repo secs t :
  now_timestamp secs = Ret t → refines (OpCreate secret repo secs).
Proof.
  intros Ht s i e Hi Hr. cbn [run spec]. unfold create. by_exists Hi Hr. cbv zeta.
  destruct (ov_secret e) as [k|] eqn:Hk.
  { rewrite bool_decide_eq_true_2 by eauto. eexists _, s, e.
    split_and!; [reflexivity|done|done|by apply changed_refl]. }
  rewrite bool_decide_eq_false_2 by (intros [? ?]; done).
  destruct (put_one_row s PREFIX (to_vec i) SECRET secret Hi) as (s1 & Hput1 & Hs1);
    [by rewrite (proj1 Hr), Hk|apply Hfits|].
  assert (Hc1 : changed s s1 i (with_secret e (Some secret))) by by_row Hr Hs1.
  rewrite (io_try_ok _ _ _ _ _ Hput1).
  destruct (put_repo s1 i _ repo (proj1 Hs1) (proj2 (proj2 Hc1))) as (s2 & Hput2 & Hc2).
  rewrite (io_try_ok _ _ _ _ _ Hput2).
  assert (Hclock : io_read (λ _ : S, t0 ← now_timestamp secs; Ret (Ok t0)) s2 = Ret (Ok t, s2)).
  { unfold io_read. by rewrite Ht. }
  rewrite (io_try_ok _ _ _ _ _ Hclock). destruct (proj2 (proj2 Hc2)) as (H1 & H2 & H3 & H4 & H5).
  set (m := {| OverlayMeta_users := _; OverlayMeta_last_used := t |}).
  destruct (add_set_row s2 PREFIX (to_vec i) META m (ov_metas e) (proj1 (proj1 Hc2)) H4)
    as (s3 & Hput3 & Hs3); [apply Hfits|]. rewrite (io_try_ok _ _ _ _ _ Hput3).
  eexists _, s3, _. split_and!; [reflexivity|by exists t|].
  eapply changed_trans; [exact Hc1|]. eapply changed_trans; [exact Hc2|].
  apply (changed_row _ _ _ _ _ _ Hs3). unfold entry_rows. cbv zeta.
  by rewrite (row_set_eq _ _ _ _ _ _ Hs3), !(row_set_ne _ _ _ _ _ _ _ _ _ Hs3).
Qed.

Lemma one_row_none {X} `{!Serde X} (o : option X) : one_row o = ∅ ↔ o = None.
Proof. destruct o; cbn; [|done]. split; [|done]. clear. set_solver. Qed.

(** The entry of which the first [n] kinds of properties were deleted. *)
Definition del_first (n : nat) (e : entry) : entry :=
  {| ov_secret := if decide (0 < n) then None else ov_secret e;
     ov_peers := if decide (1 < n) then ∅ else ov_peers e;
     ov_topics := if decide (2 < n) then ∅ else ov_topics e;
     ov_metas := if decide (3 < n) then ∅ else ov_metas e;
     ov_repos := if decide (4 < n) then ∅ else ov_repos e |}.

Lemma del_first_rows s s' i e n :
  entry_rows s i e → n ≤ 5 →
  (∀ x, row s' PREFIX (to_vec i) x =
        if decide (x ∈ take n ALL_PROPERTIES) then ∅ else row s PREFIX (to_vec i) x) →
  entry_rows s' i (del_first n e).
Proof.
  intros (H1 & H2 & H3 & H4 & H5) Hn Hs. unfold entry_rows. cbv zeta.
  rewrite !Hs, H1, H2, H3, H4, H5. unfold del_first. cbn [ov_secret ov_peers ov_topics ov_metas ov_repos].
  do 6 (destruct n as [|n]; [split_and!; reflexivity || (symmetry; apply set_row_empty)|]). lia.
Qed.

Lemma overlay_del_refines : refines OpDel.
Proof.
  intros s i e Hi Hr. cbn [run spec]. unfold del, io_try. cbn [id].
  destruct (del_all_rows s PREFIX (to_vec i) ALL_PROPERTIES Hi) as
    (r & s' & -> & Hf & Hother & Hn); [done|].
  assert (NoDup ALL_PROPERTIES) as Hnd by (by apply (bool_decide_unpack _)).
  pose proof Hr as (H1 & H2 & H3 & H4 & H5).
  assert (Hend : ∀ n, n ≤ 5 → (∀ x, row s' PREFIX (to_vec i) x =
      if decide (x ∈ take n ALL_PROPERTIES) then ∅ else row s PREFIX (to_vec i) x) →
    changed s s' i (del_first n e)) by (intros n ? ?; split_and!; [done..|by eapply del_first_rows]).
  assert (Hstop : ∀ n x (xs : list u8), ALL_PROPERTIES !! n = Some x → take n ALL_PROPERTIES = xs →
    Forall (λ y, row s PREFIX (to_vec i) y ≠ ∅) xs → row s PREFIX (to_vec i) x = ∅ →
    r = Err StorageError_BackendError ∧ changed s s' i (del_first n e)).
  { intros n x xs Hx Htake Hpre Hemp. specialize (Hn n). rewrite Htake in Hn.
    specialize (Hn (proj1 (Forall_forall _ _) Hpre) Hnd). rewrite Hx in Hn.
    destruct (Hn Hemp) as [-> Hs]. split; [done|]. apply Hend; [|by rewrite Htake].
    apply lookup_lt_Some in Hx. cbn in Hx. lia. }
  unfold spec_del.
  destruct (decide (ov_secret e = None)) as [He1|He1].
  { destruct (Hstop 0 SECRET [] eq_refl eq_refl) as [-> Hc]; [by constructor|by rewrite H1, He1|].
    eexists _, _, _. split_and!; [reflexivity|done|]. by destruct e. }
  assert (Hne1 : row s PREFIX (to_vec i) SECRET ≠ ∅) by (by rewrite H1, one_row_none).
  cbn [ov_peers ov_topics ov_metas ov_repos with_secret with_peers with_topics with_metas].
  destruct (decide (ov_peers e = ∅)) as [He2|He2].
  { destruct (Hstop 1 PEER [SECRET] eq_refl eq_refl) as [-> Hc];
      [by repeat constructor|by rewrite H2, He2, set_row_empty|].
    eexists _, _, _. by split_and!. }
  assert (Hne2 : row s PREFIX (to_vec i) PEER ≠ ∅) by (by rewrite H2, set_row_empty_iff).
  destruct (decide (ov_topics e = ∅)) as [He3|He3].
  { destruct (Hstop 2 TOPIC [SECRET; PEER] eq_refl eq_refl) as [-> Hc];
      [by repeat constructor|by rewrite H3, He3, set_row_empty|].
    eexists _, _, _. by split_and!. }
  assert (Hne3 : row s PREFIX (to_vec i) TOPIC ≠ ∅) by (by rewrite H3, set_row_empty_iff).
  destruct (decide (ov_metas e = ∅)) as [He4|He4].
  { destruct (Hstop 3 META [SECRET; PEER; TOPIC] eq_refl eq_refl) as [-> Hc];
      [by repeat constructor|by rewrite H4, He4, set_row_empty|].
    eexists _, _, _. by split_and!. }
  assert (Hne4 : row s PREFIX (to_vec i) META ≠ ∅) by (by rewrite H4, set_row_empty_iff).
  destruct (decide (ov_repos e = ∅)) as [He5|He5].
  { destruct (Hstop 4 REPO [SECRET; PEER; TOPIC; META] eq_refl eq_refl) as [-> Hc];
      [by repeat constructor|by rewrite H5, He5, set_row_empty|].
    eexists _, _, _. by split_and!. }
  assert (Hne5 : row s PREFIX (to_vec i) REPO ≠ ∅) by (by rewrite H5, set_row_empty_iff).
  specialize (Hn 5). destruct Hn as [-> Hs]; [|done|].
  { cbn [take ALL_PROPERTIES]. apply Forall_forall. by repeat constructor. }
  eexists _, _, _. split_and!; [reflexivity|done|]. apply (Hend 5); [lia|exact Hs].
Qed.

Lemma overlay_run_refines op : op_clock op → refines op.
Proof.
  destruct op; cbn [op_clock]; try (intros [t Ht]; by eapply overlay_create_refines); intros _;
    auto using overlay_open_refines, add_peer_refines, remove_peer_refines, has_peer_refines,
      add_topic_refines, remove_topic_refines, has_topic_refines, secret_refines,
      overlay_metadata_refines, overlay_set_metadata_refines, repo_refines, overlay_del_refines.
Qed.

(** C26: a store that holds the overlays [O] answers any sequence of overlay operations,
    failed ones included, with a run of the specification, never panics as long as the
    clock is within range, then holds the overlays the run ends in, and no property of
    another table moved. *)
Theorem Overlay_refinement (ops : list (Digest * overlay_op)) s O :
  Forall (λ x, op_clock x.2) ops → overlays_ok s O →
  ∃ rs s' O', run_all ops s = Ret (rs, s') ∧ spec_run ops O rs O' ∧
              overlays_ok s' O' ∧ frame PREFIX s s'.
Proof.
  intros Hops. revert s O. induction Hops as [|[i op] ops Hop Hops IH]; intros s O Hok.
  { exists [], s, O. split_and!; [done|by constructor|done|apply frame_refl, Hok]. }
  cbn [run_all]. destruct (overlay_run_refines op Hop s i (O i) (proj1 Hok) (proj2 Hok i))
    as (r & s1 & e1 & -> & Hspec & (Hf1 & Hother & Hr1)).
  set (O1 := λ j, if decide (j = i) then e1 else O j).
  assert (Hok1 : overlays_ok s1 O1).
  { split; [apply Hf1|]. intros j. unfold O1. destruct (decide (j = i)) as [->|Hne]; [done|].
    assert (to_vec j ≠ to_vec i) as Hk by (by intros ?%(inj to_vec)).
    destruct (proj2 Hok j) as (H1 & H2 & H3 & H4 & H5). unfold entry_rows. cbv zeta.
    by rewrite !Hother. }
  cbn [mbind outcome_bind]. destruct (IH s1 O1 Hok1) as (rs & s2 & O' & -> & Hrun & Hok2 & Hf2).
  exists (r :: rs), s2, O'. split_and!; [done| |done|by eapply frame_trans].
  apply (spec_run_cons i op ops O r O1); [| |done].
  - unfold O1. by rewrite decide_True.
  - intros j Hj. unfold O1. by rewrite decide_False.
Qed.
End Refinement.

Module Examples.
Import MemStore NetInstances.

Definition overlay1 : OverlayId := Blake3Digest32 (to_array 32 [x01]).
Definition key1 : SymKey := ChaCha20Key (to_array 32 [x02]).
Definition repo1 : PubKey := Ed25519PubKey (to_array 32 [x03]).
(** An hour and two hours after the epoch *)
Definition time1 : u64 := uint_wrap 64 1645572120.
Definition time2 : u64 := uint_wrap 64 1645575720.
(** When the metadata answered were last used *)
Definition answered_time (r : response) : option N :=
  match r with Ok (RMeta m) => Some (uint_N (OverlayMeta_last_used m)) | _ => None end.

(** An overlay without peers is deleted, with an error, and created again. *)
Definition ops : list (Digest * overlay_op) :=
  (λ op, (overlay1, op)) <$>
  [OpCreate key1 (Some repo1) time1; OpDel; OpOpen; OpMetadata;
   OpCreate key1 None time2; OpMetadata].

Lemma overlays_ok_empty : overlays_ok (∅ : ms_db) (λ _, no_entry).
Proof.
  split; [done|]. intros i. unfold entry_rows, row. cbn -[compute_property].
  by rewrite !lookup_empty.
Qed.

(** The metadata of the overlay deleted are still read, and those of the second overlay are
    added to them. *)
Lemma Overlay_refinement_witness : ∃ rs (s' : ms_db) O',
  run_all ops ∅ = Ret (rs, s') ∧ spec_run ops (λ _, no_entry) rs O' ∧
  is_ok <$> rs = [true; false; false; true; true; true] ∧ rs !! 3 ≫= answered_time = Some 60%N ∧
  size (row s' PREFIX (to_vec overlay1) META) = 2.
Proof.
  destruct (Overlay_refinement (S := ms_db) ltac:(done) ops ∅ (λ _, no_entry)) as
    (rs & s' & O' & Hrun & Hspec & _ & _); [|exact overlays_ok_empty|].
  { unfold ops. repeat constructor; by eexists. }
  exists rs, s', O'. split; [done|]. split; [done|].
  assert (Hout : match run_all ops (∅ : ms_db) with
    | Ret (rs, s') => bool_decide (is_ok <$> rs = [true; false; false; true; true; true] ∧
        rs !! 3 ≫= answered_time = Some 60%N ∧
        size (row s' PREFIX (to_vec overlay1) META) = 2)
    | _ => false end = true) by (vm_compute; reflexivity).
  rewrite Hrun in Hout. by apply bool_decide_eq_true in Hout.
Defined.
End Examples.
