(* ===== verification/ConfigProps.v ===== *)
(** * The broker's configuration and the keys of its repository stores, refined

    [lofire-broker/src/repostoreinfo.rs] implements a finite map from the identifiers of
    repository stores to their keys; [config.rs] a cell that is written once. *)

From S2P Require Import Prelude Serde Types Store NetTypes BrokerStore BrokerRows BrokerTables.
From S2P Require Import Bare BareTypes NetBare.

Module RepoStoreKeys.
Import RepoStoreInfo.

Inductive key_op : Type :=
  | OpOpen (i : RepoStoreId)
  | OpCreate (i : RepoStoreId) (k : SymKey)
  | OpKey (i : RepoStoreId)
  | OpDel (i : RepoStoreId).

Definition spec (op : key_op) (K : gmap RepoStoreId SymKey)
    : result (option SymKey) StorageError * gmap RepoStoreId SymKey :=
  match op with
  | OpOpen i => (match K !! i with Some _ => Ok None | None => Err StorageError_NotFound end, K)
  | OpCreate i k =>
      match K !! i with
      | Some _ => (Err StorageError_BackendError, K)
      | None => (Ok None, <[i := k]> K)
      end
  | OpKey i =>
      (match K !! i with Some k => Ok (Some k) | None => Err StorageError_NotFound end, K)
  | OpDel i =>
      match K !! i with
      | Some _ => (Ok None, delete i K)
      | None => (Err StorageError_BackendError, K)
      end
  end.

Section Refinement.
Context {S : Type} `{!BrokerStore S, !BrokerStoreSpec S}.
Context `{!Serde RepoStoreId, !Serde SymKey}.

Definition run (op : key_op) : io S (option SymKey) :=
  match op with
  | OpOpen i => _ ←$ open i; io_ok None
  | OpCreate i k => _ ←$ create i k; io_ok None
  | OpKey i => k ←$ io_read (key {| id := i |}); io_ok (Some k)
  | OpDel i => _ ←$ del {| id := i |}; io_ok None
  end.
Fixpoint run_all (ops : list key_op) (s : S)
    : outcome (list (result (option SymKey) StorageError) * S) :=
  match ops with
  | [] => Ret ([], s)
  | op :: ops => '(r, s) ← run op s; '(rs, s) ← run_all ops s; Ret (r :: rs, s)
  end.
Fixpoint spec_all (ops : list key_op) (K : gmap RepoStoreId SymKey)
    : list (result (option SymKey) StorageError) * gmap RepoStoreId SymKey :=
  match ops with
  | [] => ([], K)
  | op :: ops => let '(r, K) := spec op K in let '(rs, K) := spec_all ops K in (r :: rs, K)
  end.

Definition keys_ok (s : S) (K : gmap RepoStoreId SymKey) : Prop :=
  bs_inv s ∧ ∀ i, row s PREFIX (to_vec i) KEY = one_row (K !! i).
Definition key_fits : Prop := ∀ (i : RepoStoreId) (k : SymKey),
  bs_fits (compute_property PREFIX (to_vec i) (Some KEY)) (to_vec k).

Context `{!SerdeLaws RepoStoreId, !SerdeLaws SymKey}.
Context (Hfits : key_fits).
Implicit Types (s : S) (K : gmap RepoStoreId SymKey).

Lemma key_exists_ok s K i :
  keys_ok s K → exists_ {| id := i |} s = Ret (bool_decide (is_Some (K !! i))).
Proof.
  intros [Hi Hrows]. unfold exists_, SUFFIX_FOR_EXIST_CHECK. cbn [id].
  apply (exists_row _ _ _ _ _ Hi (Hrows i)).
Qed.

Lemma keys_ok_change s s' K K' i :
  keys_ok s K → bs_inv s' →
  (∀ k x, k ≠ to_vec i → row s' PREFIX k x = row s PREFIX k x) →
  (∀ j, j ≠ i → K' !! j = K !! j) → row s' PREFIX (to_vec i) KEY = one_row (K' !! i) →
  keys_ok s' K'.
Proof.
  intros [_ Hrows] Hi Hother HK Hrow. split; [done|]. intros j.
  destruct (decide (j = i)) as [->|Hne]; [done|].
  assert (to_vec j ≠ to_vec i) as Hk by (by intros ?%(inj to_vec)).
  by rewrite HK, Hother.
Qed.

Lemma key_run_refines op s K :
  keys_ok s K → ∃ s', run op s = Ret ((spec op K).1, s') ∧ keys_ok s' (spec op K).2 ∧ frame PREFIX s s'.
Proof.
  intros Hok. destruct op as [i|i k|i|i]; cbn [run spec].
  - exists s. unfold open, io_try. rewrite (io_if_eq _ _ _ _ _ (key_exists_ok s K i Hok)).
    split_and!; [by destruct (K !! i)|done|apply frame_refl, Hok].
  - unfold create, io_try at 1. rewrite (io_if_eq _ _ _ _ _ (key_exists_ok s K i Hok)).
    destruct (K !! i) as [k'|] eqn:Hk; cbn [fst snd].
    { exists s. split_and!; [done..|apply frame_refl, Hok]. }
    rewrite bool_decide_eq_false_2 by (intros [? ?]; done).
    destruct (put_one_row s PREFIX (to_vec i) KEY k (proj1 Hok)) as (s' & Hput & Hs);
      [by rewrite (proj2 Hok), Hk|apply Hfits|].
    rewrite (io_try_ok _ _ _ _ _ Hput). exists s'.
    split_and!; [done| |by apply row_set_frame in Hs].
    apply (keys_ok_change s s' K _ i Hok (proj1 Hs)).
    + intros k0 x Hne. apply (row_set_ne _ _ _ _ _ _ _ _ _ Hs). congruence.
    + intros. by rewrite lookup_insert_ne.
    + rewrite lookup_insert_eq. apply (row_set_eq _ _ _ _ _ _ Hs).
  - exists s. unfold key, io_try, io_read. cbn [id].
    rewrite (read_row _ _ _ _ _ (proj1 Hok) (proj2 Hok i)).
    split_and!; [by destruct (K !! i)|done|apply frame_refl, Hok].
  - unfold del, io_try. cbn [id].
    destruct (del_all_rows s PREFIX (to_vec i) ALL_PROPERTIES (proj1 Hok)) as
      (r & s' & -> & Hf & Hother & Hn); [done|]. exists s'.
    assert (NoDup ALL_PROPERTIES) as Hnd by (by apply (bool_decide_unpack _)).
    destruct (K !! i) as [k|] eqn:Hk.
    + destruct (Hn 1) as [-> Hs]; [|done|].
      { intros x [->|[]%elem_of_nil]%elem_of_cons. rewrite (proj2 Hok), Hk. cbn. clear. set_solver. }
      cbn [fst snd]. split_and!; [done| |done].
      apply (keys_ok_change s s' K _ i Hok (proj1 Hf) (λ k x, Hother k x));
        [intros; by rewrite lookup_delete_ne|]. by rewrite lookup_delete_eq, Hs.
    + destruct (Hn 0) as [-> Hs]; [by intros x ?%elem_of_nil|done|by rewrite (proj2 Hok), Hk|].
      cbn [fst snd]. split_and!; [done| |done].
      apply (keys_ok_change s s' K _ i Hok (proj1 Hf) (λ k x, Hother k x)); [done|].
      rewrite Hs. apply Hok.
Qed.

(** C35: a store that holds the keys [K] of repository stores answers any sequence of
    operations on them, failed ones included, as the map does: a key is read back as it
    was created until it is deleted, and is never overwritten. It never panics, then
    holds the keys of the map, and no property of another table moved. *)
Theorem RepoStoreInfo_refinement (ops : list key_op) s K :
  keys_ok s K →
  ∃ s', run_all ops s = Ret ((spec_all ops K).1, s') ∧
        keys_ok s' (spec_all ops K).2 ∧ frame PREFIX s s'.
Proof.
  revert s K. induction ops as [|op ops IH]; intros s K Hok.
  { exists s. split_and!; [done..|apply frame_refl, Hok]. }
  cbn [run_all spec_all]. destruct (key_run_refines op s K Hok) as (s1 & -> & Hok1 & Hf1).
  destruct (spec op K) as [r K1]. cbn [fst snd mbind outcome_bind] in *.
  destruct (IH s1 K1 Hok1) as (s2 & -> & Hok2 & Hf2).
  destruct (spec_all ops K1) as [rs K2]. exists s2. cbn in *. split_and!; [done..|].
  by eapply frame_trans.
Qed.
End Refinement.

Module Examples.
Import MemStore NetInstances.

Definition store1 : RepoStoreId := RepoStoreId_Overlay (Blake3Digest32 (to_array 32 [x01])).
Definition store2 : RepoStoreId := RepoStoreId_Repo (Ed25519PubKey (to_array 32 [x01])).
Definition key1 : SymKey := ChaCha20Key (to_array 32 [x01]).
Definition key2 : SymKey := ChaCha20Key (to_array 32 [x02]).
Definition ops : list key_op :=
  [OpCreate store1 key1; OpCreate store2 key2; OpCreate store1 key2; OpKey store1; OpDel store1;
   OpKey store1; OpKey store2; OpDel store1].

Lemma mem_key_fits : key_fits (S := ms_db).
Proof. done. Qed.

Lemma RepoStoreInfo_refinement_witness : ∃ s' : ms_db,
  run_all ops ∅ = Ret ([Ok None; Ok None; Err StorageError_BackendError; Ok (Some key1); Ok None;
    Err StorageError_NotFound; Ok (Some key2); Err StorageError_BackendError], s').
Proof.
  destruct (RepoStoreInfo_refinement mem_key_fits ops ∅ ∅) as (s' & Hrun & _ & _).
  { split; [done|]. intros i. unfold row. cbn -[compute_property]. by rewrite !lookup_empty. }
  exists s'. rewrite Hrun. reflexivity.
Defined.
End Examples.
End RepoStoreKeys.

Module ConfigCell.
Import Config.

Section Refinement.
Context {S : Type} `{!BrokerStore S, !BrokerStoreSpec S}.
Context `{!Serde (array 5), !Serde ConfigMode, !SerdeLaws ConfigMode}.
Implicit Types (s : S).

Definition config_ok (s : S) (o : option ConfigMode) : Prop :=
  bs_inv s ∧ row s PREFIX (to_vec KEY) MODE = one_row o.
Definition config_fits : Prop := ∀ m : ConfigMode,
  bs_fits (compute_property PREFIX (to_vec KEY) (Some MODE)) (to_vec m).

(** Starting the broker once for every mode of a list. *)
Fixpoint start_all (ms : list ConfigMode) (s : S) : outcome (list (result Config StorageError) * S) :=
  match ms with
  | [] => Ret ([], s)
  | m :: ms => '(r, s) ← get_or_create m s; '(rs, s) ← start_all ms s; Ret (r :: rs, s)
  end.

Lemma config_exists_ok s o : config_ok s o → exists_ Config_new s = Ret (bool_decide (is_Some o)).
Proof.
  intros [Hi Hrow]. unfold exists_, SUFFIX_FOR_EXIST_CHECK. apply (exists_row _ _ _ _ _ Hi Hrow).
Qed.
Lemma mode_ok s o : config_ok s o → mode Config_new s =
  Ret (match o with Some m => Ok m | None => Err StorageError_NotFound end).
Proof. intros [Hi Hrow]. unfold mode. apply (read_row _ _ _ _ _ Hi Hrow). Qed.

Lemma config_open_ok s o : config_ok s o → open s =
  Ret (match o with Some _ => Ok Config_new | None => Err StorageError_NotFound end, s).
Proof.
  intros Hok. unfold open. rewrite (io_if_eq _ _ _ _ _ (config_exists_ok s o Hok)). by destruct o.
Qed.

Lemma get_or_create_some s m m0 : config_ok s (Some m0) →
  get_or_create m s =
  Ret (if decide (m = m0) then Ok Config_new else Err StorageError_InvalidValue, s).
Proof.
  intros Hok. unfold get_or_create. rewrite (io_match_eq _ _ _ _ _ (config_open_ok s _ Hok)).
  rewrite (mode_ok s _ Hok). cbn [mbind outcome_bind].
  destruct (decide (m = m0)) as [->|Hne]; [by rewrite decide_False by auto|].
  by rewrite decide_True by congruence.
Qed.

Context (Hfits : config_fits).

Lemma get_or_create_none s m : config_ok s None → ∃ s',
  get_or_create m s = Ret (Ok Config_new, s') ∧ config_ok s' (Some m) ∧ frame PREFIX s s'.
Proof.
  intros Hok. unfold get_or_create. rewrite (io_match_eq _ _ _ _ _ (config_open_ok s _ Hok)).
  rewrite decide_True by done. unfold create.
  rewrite (io_if_eq _ _ _ _ _ (config_exists_ok s _ Hok)).
  destruct (put_one_row s PREFIX (to_vec KEY) MODE m (proj1 Hok) (proj2 Hok)) as (s' & Hput & Hs);
    [apply Hfits|]. cbv zeta. rewrite bool_decide_eq_false_2 by (intros [? ?]; done).
  rewrite (io_try_ok _ _ _ _ _ Hput). exists s'.
  split_and!; [done|split; [apply Hs|apply (row_set_eq _ _ _ _ _ _ Hs)]|by apply row_set_frame in Hs].
Qed.

(** C36: the first start of a broker fixes its mode. Started again and again, in any modes,
    it accepts that mode and refuses every other with [InvalidValue]; it never panics, the
    mode it reports stays the first, and no property of another table moves. *)
Theorem Config_mode_fixed (m : ConfigMode) (ms : list ConfigMode) s :
  config_ok s None → ∃ s',
  start_all (m :: ms) s = Ret (Ok Config_new ::
    ((λ m', if decide (m' = m) then Ok Config_new else Err StorageError_InvalidValue) <$> ms), s') ∧
  mode Config_new s' = Ret (Ok m) ∧ frame PREFIX s s'.
Proof.
  intros Hok. cbn [start_all].
  destruct (get_or_create_none s m Hok) as (s1 & -> & Hok1 & Hf). cbn [mbind outcome_bind].
  exists s1.
  assert (Hall : ∀ ms, start_all ms s1 =
    Ret ((λ m', if decide (m' = m) then Ok Config_new else Err StorageError_InvalidValue) <$> ms, s1)).
  { clear ms. intros ms. induction ms as [|m' ms IH]; [done|].
    cbn [start_all]. rewrite (get_or_create_some s1 m' m Hok1). cbn [mbind outcome_bind].
    by rewrite IH. }
  rewrite Hall. split_and!; [done|by rewrite (mode_ok s1 _ Hok1)|done].
Qed.
End Refinement.

Module Examples.
Import MemStore NetInstances.

Lemma mem_config_fits : config_fits (S := ms_db).
Proof. done. Qed.

Lemma Config_mode_fixed_witness : ∃ s' : ms_db,
  start_all [ConfigMode_Core; ConfigMode_Local; ConfigMode_Core] ∅ =
  Ret ([Ok Config_new; Err StorageError_InvalidValue; Ok Config_new], s') ∧
  mode Config_new s' = Ret (Ok ConfigMode_Core).
Proof.
  destruct (Config_mode_fixed mem_config_fits ConfigMode_Core
    [ConfigMode_Local; ConfigMode_Core] ∅) as (s' & Hrun & Hmode & _).
  { split; [done|]. unfold row. cbn -[compute_property]. by rewrite lookup_empty. }
  exists s'. rewrite Hrun. split; [reflexivity|exact Hmode].
Defined.
End Examples.
End ConfigCell.
