(* ===== verification/Auth.v ===== *)
(** * Authentication of a client: [lofire-broker/src/auth.rs]

    The two state machines of the protocol and the server's handler. The machines are run
    by [rust_fsm], the nonce is drawn by [getrandom]: an interface and an argument. *)

From S2P Require Import Prelude Serde Types Utils NetTypes NetErrors.

(** ** [rust_fsm] *)

(** [StateMachine::consume] of a machine that is given by its table of transitions: whether
    the input is consumed, and the state after it. *)
Class RustFsm : Type := {
  fsm_consume {State Input : Type} : (State → Input → option State) → Input → State → bool * State
}.
(** The documentation: an input without transition in the current state is an error, which
    leaves the machine where it is. *)
Class RustFsmLaws `{!RustFsm} : Prop := {
  fsm_consume_law {State Input} (table : State → Input → option State) i s :
    fsm_consume table i s = match table s i with Some s' => (true, s') | None => (false, s) end
}.

(** ** The machines

    An input has the prefix [In_], since inputs and states share names. *)

Module AuthProtocolClient.
Inductive State : Type :=
  | Ready | ClientHelloSent | ServerHelloReceived | ClientAuthSent | AuthResult
  | BrokerProtocol | Closed.
Inductive Input : Type :=
  | In_ClientHelloSent | In_ServerHelloReceived | In_ClientAuthSent | In_AuthResultReceived
  | In_Ok | In_Error.
Definition transition (s : State) (i : Input) : option State :=
  match s, i with
  | Ready, In_ClientHelloSent => Some ClientHelloSent
  | ClientHelloSent, In_ServerHelloReceived => Some ServerHelloReceived
  | ServerHelloReceived, In_ClientAuthSent => Some ClientAuthSent
  | ClientAuthSent, In_AuthResultReceived => Some AuthResult
  | AuthResult, In_Ok => Some BrokerProtocol
  | AuthResult, In_Error => Some Closed
  | _, _ => None
  end.
End AuthProtocolClient.

Module AuthProtocolServer.
Inductive State : Type :=
  | Ready | ClientHelloReceived | ServerHelloSent | ClientAuthReceived
  | AuthResultOk | AuthResultError | BrokerProtocol | Closed.
Inductive Input : Type :=
  | In_ClientHelloReceived | In_ServerHelloSent | In_ClientAuthReceived
  | In_Ok | In_Error | In_AuthResultSent.
Definition transition (s : State) (i : Input) : option State :=
  match s, i with
  | Ready, In_ClientHelloReceived => Some ClientHelloReceived
  | ClientHelloReceived, In_ServerHelloSent => Some ServerHelloSent
  | ServerHelloSent, In_ClientAuthReceived => Some ClientAuthReceived
  | ClientAuthReceived, In_Ok => Some AuthResultOk
  | ClientAuthReceived, In_Error => Some AuthResultError
  | AuthResultOk, In_AuthResultSent => Some BrokerProtocol
  | AuthResultError, In_AuthResultSent => Some Closed
  | _, _ => None
  end.
End AuthProtocolServer.

(** ** The handler *)

Record AuthProtocolHandler : Type := {
  machine : AuthProtocolServer.State;
  nonce : option bytes;
  user : option PubKey
}.

Definition new : AuthProtocolHandler :=
  {| machine := AuthProtocolServer.Ready; nonce := None; user := None |}.
Definition get_user (self : AuthProtocolHandler) : option PubKey := user self.

Definition with_machine (self : AuthProtocolHandler) (s : AuthProtocolServer.State) :=
  {| machine := s; nonce := nonce self; user := user self |}.
Definition with_nonce (self : AuthProtocolHandler) (n : bytes) :=
  {| machine := machine self; nonce := Some n; user := user self |}.
Definition with_user (self : AuthProtocolHandler) (u : PubKey) :=
  {| machine := machine self; nonce := nonce self; user := Some u |}.

Section Handler.
Context `{!RustFsm, !Ed25519}.
Context `{!Serde ServerHello, !Serde ClientAuth, !Serde ClientAuthContentV0, !Serde AuthResult}.

(** [self.machine.consume(..).map_err(|_e| ProtocolError::InvalidState)] *)
Definition consume (i : AuthProtocolServer.Input) (self : AuthProtocolHandler)
    : result unit ProtocolError * AuthProtocolHandler :=
  let '(consumed, s) := fsm_consume AuthProtocolServer.transition i (machine self) in
  (if consumed then Ok tt else Err InvalidState, with_machine self s).

(** [random_buf] is what [getrandom] fills its buffer with, [None] if it fails. *)
Definition handle_init (client_hello : ClientHello) (random_buf : option (array 32))
    (self : AuthProtocolHandler) : outcome (result bytes ProtocolError * AuthProtocolHandler) :=
  let '(r, self) := consume AuthProtocolServer.In_ClientHelloReceived self in
  match r with
  | Err e => Ret (Err e, self)
  | Ok _ =>
      random_buf ← unwrap random_buf;
      let nonce := array_list random_buf in
      let reply := ServerHello_V0 {| ServerHelloV0_nonce := nonce |} in
      let self := with_nonce self nonce in
      let '(r, self) := consume AuthProtocolServer.In_ServerHelloSent self in
      match r with
      | Err e => Ret (Err e, self)
      | Ok _ => Ret (Ok (to_vec reply), self)
      end
  end.

Definition prepare_reply (res : result bytes ProtocolError) : AuthResult :=
  let '(result, metadata) := match res with
    | Ok m => (uint_wrap 16 0, m)
    | Err e => (ProtocolError_into e, [])
    end in
  AuthResult_V0 {| AuthResultV0_result := result; AuthResultV0_metadata := metadata |}.

Definition process_state (handler : AuthProtocolHandler) (frame : bytes)
    : outcome (result bytes ProtocolError * AuthProtocolHandler) :=
  match machine handler with
  | AuthProtocolServer.ServerHelloSent =>
      match from_slice (A := ClientAuth) frame with
      | None => Ret (Err (ProtocolError_of_serde_bare tt), handler)
      | Some message =>
          let '(r, handler) := consume AuthProtocolServer.In_ClientAuthReceived handler in
          match r with
          | Err e => Ret (Err e, handler)
          | Ok _ =>
              match verify (to_vec (ClientAuth_content_v0 message)) (ClientAuth_sig message)
                           (ClientAuth_user message) with
              | Err _ => Ret (Err AccessDenied, handler)
              | Ok _ =>
                  nonce ← unwrap (nonce handler);
                  if decide (ClientAuth_nonce message ≠ nonce) then
                    let '(_, handler) := consume AuthProtocolServer.In_Error handler in
                    Ret (Err AccessDenied, handler)
                  else
                    let '(r, handler) := consume AuthProtocolServer.In_Ok handler in
                    match r with
                    | Err e => Ret (Err e, handler)
                    | Ok _ =>
                        let handler := with_user handler (ClientAuth_user message) in
                        Ret (Ok [], handler)
                    end
              end
          end
      end
  | _ => Ret (Err InvalidState, handler)
  end.

(** The reply, and the code the connection is closed with if there is one. *)
Definition handle_incoming (frame : bytes) (self : AuthProtocolHandler)
    : outcome ((result bytes ProtocolError * option u16) * AuthProtocolHandler) :=
  '(res, self) ← process_state self frame;
  let reply := prepare_reply res in
  let reply_ser := Ok (to_vec reply) in
  match res with
  | Err _ => Ret ((reply_ser, Some (AuthResult_result reply)), self)
  | Ok _ => Ret ((reply_ser, None), self)
  end.
End Handler.
