(* ===== verification/AuthProps.v ===== *)
(** * The authentication handler, refined

    [AuthProtocolHandler] against a machine of three states: nothing said yet, a nonce sent
    and no authentication read, and done, with the user if there is one.  A connection is
    authenticated by the first message after the hello that can be read, or never. *)

From S2P Require Import Prelude Serde Types Utils NetTypes NetErrors Auth.
From S2P Require Import Bare BareTypes BrokerTables NetBare.

(** ** The specification *)

Inductive auth_state : Type :=
  | Fresh
  | Waiting (n : bytes)
  | Done (u : option PubKey).

(** What is called on a handler: a hello, with the randomness it draws; a frame. *)
Inductive auth_call : Type :=
  | Init (random : array 32)
  | Incoming (frame : bytes).
Inductive auth_reply : Type :=
  | InitReply (r : result bytes ProtocolError)
  | IncomingReply (r : result bytes ProtocolError) (close : option u16).

#[export] Instance auth_state_eq_dec : EqDecision auth_state.
Proof. solve_decision. Defined.

Section Spec.
Context `{!RustFsm, !Ed25519}.
Context `{!Serde ServerHello, !Serde ClientAuth, !Serde ClientAuthContentV0, !Serde AuthResult}.

(** The message is signed by the user it names, over a content that has the nonce. *)
Definition accepts (n : bytes) (m : ClientAuth) : bool :=
  is_ok (verify (to_vec (ClientAuth_content_v0 m)) (ClientAuth_sig m) (ClientAuth_user m)) &&
  bool_decide (ClientAuth_nonce m = n).

Definition accepted : auth_reply :=
  IncomingReply (Ok (to_vec (prepare_reply (Ok [])))) None.
Definition refused (e : ProtocolError) : auth_reply :=
  IncomingReply (Ok (to_vec (prepare_reply (Err e)))) (Some (ProtocolError_into e)).

Definition spec_call (c : auth_call) (st : auth_state) : auth_reply * auth_state :=
  match c, st with
  | Init r, Fresh =>
      (InitReply (Ok (to_vec (ServerHello_V0 {| ServerHelloV0_nonce := array_list r |}))),
       Waiting (array_list r))
  | Init _, _ => (InitReply (Err InvalidState), st)
  | Incoming frame, Waiting n =>
      match from_slice (A := ClientAuth) frame with
      | None => (refused SerializationError, st)
      | Some m =>
          if accepts n m then (accepted, Done (Some (ClientAuth_user m)))
          else (refused AccessDenied, Done None)
      end
  | Incoming _, _ => (refused InvalidState, st)
  end.
Fixpoint spec_calls (cs : list auth_call) (st : auth_state) : list auth_reply * auth_state :=
  match cs with
  | [] => ([], st)
  | c :: cs => let '(r, st) := spec_call c st in
               let '(rs, st) := spec_calls cs st in (r :: rs, st)
  end.

(** ** The calls of the code *)

Definition run_call (c : auth_call) (h : AuthProtocolHandler)
    : outcome (auth_reply * AuthProtocolHandler) :=
  match c with
  | Init random => '(r, h) ← handle_init ClientHello_V0 (Some random) h; Ret (InitReply r, h)
  | Incoming frame => '((r, close), h) ← handle_incoming frame h; Ret (IncomingReply r close, h)
  end.
Fixpoint run_calls (cs : list auth_call) (h : AuthProtocolHandler)
    : outcome (list auth_reply * AuthProtocolHandler) :=
  match cs with
  | [] => Ret ([], h)
  | c :: cs => '(r, h) ← run_call c h; '(rs, h) ← run_calls cs h; Ret (r :: rs, h)
  end.

(** The handler in a state of the specification. A signature that is not accepted leaves the
    machine in [ClientAuthReceived]. *)
Definition auth_ok (h : AuthProtocolHandler) (st : auth_state) : Prop :=
  match st with
  | Fresh => h = new
  | Waiting n =>
      machine h = AuthProtocolServer.ServerHelloSent ∧ nonce h = Some n ∧ user h = None
  | Done u =>
      user h = u ∧ match u with
                   | Some _ => machine h = AuthProtocolServer.AuthResultOk
                   | None => machine h = AuthProtocolServer.AuthResultError ∨
                             machine h = AuthProtocolServer.ClientAuthReceived
                   end
  end.

Context `{!RustFsmLaws}.

Lemma run_call_ok c h st :
  auth_ok h st → ∃ h', run_call c h = Ret ((spec_call c st).1, h') ∧ auth_ok h' (spec_call c st).2.
Proof.
  intros Hok. destruct c as [r|frame]; cbn [run_call spec_call].
  - unfold handle_init, consume. rewrite fsm_consume_law. destruct st as [|n|u]; cbn [auth_ok] in Hok.
    + subst h. cbn. rewrite fsm_consume_law. cbn. by eexists.
    + destruct Hok as (Hm & Hn & Hu). rewrite Hm. cbn. eexists. split; [reflexivity|]. by cbn.
    + destruct Hok as (Hu & Hm). destruct u; [|destruct Hm as [Hm|Hm]];
        rewrite Hm; cbn; eexists; (split; [reflexivity|]); cbn; eauto.
  - unfold handle_incoming, process_state. destruct st as [|n|u]; cbn [auth_ok] in Hok.
    + subst h. by exists new.
    + destruct Hok as (Hm & Hn & Hu). rewrite Hm.
      destruct (from_slice frame) as [m|]; [|by exists h].
      unfold consume. rewrite fsm_consume_law, Hm. cbn [AuthProtocolServer.transition].
      unfold accepts. destruct (verify _ _ _) as [[]|e]; cbn [is_ok andb].
      2:{ eexists. split; [reflexivity|]. cbn. by eauto. }
      cbn [nonce with_machine]. rewrite Hn. cbn [unwrap mbind outcome_bind].
      rewrite !fsm_consume_law. cbn [machine with_machine AuthProtocolServer.transition].
      destruct (decide (ClientAuth_nonce m = n)) as [He|He].
      * rewrite decide_False by auto. rewrite bool_decide_eq_true_2 by done. by eexists.
      * rewrite decide_True by done. rewrite bool_decide_eq_false_2 by done.
        eexists. split; [reflexivity|]. cbn. by eauto.
    + destruct Hok as (Hu & Hm). exists h.
      destruct u; [|destruct Hm as [Hm|Hm]]; rewrite Hm; cbn; eauto.
Qed.

Lemma run_calls_ok cs h st :
  auth_ok h st → ∃ h', run_calls cs h = Ret ((spec_calls cs st).1, h') ∧
                       auth_ok h' (spec_calls cs st).2.
Proof.
  revert h st. induction cs as [|c cs IH]; intros h st Hok; [by exists h|].
  cbn [run_calls spec_calls].
  destruct (run_call_ok c h st Hok) as (h1 & -> & Hok1). cbn [mbind outcome_bind].
  destruct (spec_call c st) as [r st1]. cbn [fst snd] in *.
  destruct (IH h1 st1 Hok1) as (h2 & -> & Hok2).
  destruct (spec_calls cs st1) as [rs st2]. by exists h2.
Qed.

(** C23: a new handler called any number of times, with any hellos and any frames, never
    panics and answers as the machine of three states does: one hello is accepted, then
    frames are refused until one can be read, which decides alone and once; every other
    call is answered with [InvalidState]. [get_user] is the user of that machine. *)
Theorem Auth_refinement (cs : list auth_call) :
  ∃ h', run_calls cs new = Ret ((spec_calls cs Fresh).1, h') ∧
        auth_ok h' (spec_calls cs Fresh).2 ∧
        get_user h' = match (spec_calls cs Fresh).2 with Done u => u | _ => None end.
Proof.
  destruct (run_calls_ok cs new Fresh eq_refl) as (h' & Hrun & Hok). exists h'. split_and!; [done..|].
  destruct (spec_calls cs Fresh).2 as [|n|u]; cbn in Hok; unfold get_user.
  - by subst h'.
  - apply Hok.
  - apply Hok.
Qed.

(** ** Safety *)

Lemma spec_calls_done cs u : (spec_calls cs (Done u)).2 = Done u.
Proof.
  induction cs as [|[r|frame] cs IH]; [done|..]; cbn [spec_calls spec_call];
    by destruct (spec_calls cs (Done u)).
Qed.

(** Where a run of the specification that ends with a user comes from. *)
Lemma spec_calls_waiting cs n st' u rs :
  spec_calls cs (Waiting n) = (rs, st') → st' = Done (Some u) →
  ∃ mid frame post m, cs = mid ++ Incoming frame :: post ∧ from_slice frame = Some m ∧
    ClientAuth_user m = u ∧ accepts n m = true.
Proof.
  revert rs. induction cs as [|c cs IH]; intros rs; cbn [spec_calls]; [intros [= <- <-]; done|].
  destruct c as [r|frame]; cbn [spec_call].
  - destruct (spec_calls cs (Waiting n)) as [rs1 st1] eqn:Hc. intros [= <- ->] Hu.
    destruct (IH _ eq_refl Hu) as (mid & frame & post & m & -> & Hm).
    by exists (Init r :: mid), frame, post, m.
  - destruct (from_slice frame) as [m|] eqn:Hm.
    + intros Hrun ->. exists [], frame, cs, m.
      destruct (accepts n m) eqn:Ha.
      * rewrite (surjective_pairing (spec_calls cs _)), spec_calls_done in Hrun.
        injection Hrun as _ Hu. by split_and!.
      * rewrite (surjective_pairing (spec_calls cs _)), spec_calls_done in Hrun. done.
    + destruct (spec_calls cs (Waiting n)) as [rs1 st1] eqn:Hc. intros [= <- ->] Hu.
      destruct (IH _ eq_refl Hu) as (mid & frame' & post & m & -> & Hm').
      by exists (Incoming frame :: mid), frame', post, m.
Qed.
Lemma spec_calls_fresh cs st' u rs :
  spec_calls cs Fresh = (rs, st') → st' = Done (Some u) →
  ∃ pre r mid frame post m, cs = pre ++ Init r :: mid ++ Incoming frame :: post ∧
    (∀ r', Init r' ∉ pre) ∧ from_slice frame = Some m ∧
    ClientAuth_user m = u ∧ accepts (array_list r) m = true.
Proof.
  revert rs. induction cs as [|c cs IH]; intros rs; cbn [spec_calls]; [intros [= <- <-]; done|].
  destruct c as [r|frame]; cbn [spec_call].
  - destruct (spec_calls cs (Waiting _)) as [rs1 st1] eqn:Hc. intros [= <- ->] Hu.
    destruct (spec_calls_waiting _ _ _ _ _ Hc Hu) as (mid & frame & post & m & -> & Hm & Hu' & Ha).
    exists [], r, mid, frame, post, m. split_and!; try done. intros r' []%elem_of_nil.
  - destruct (spec_calls cs Fresh) as [rs1 st1] eqn:Hc. intros [= <- ->] Hu.
    destruct (IH _ eq_refl Hu) as (pre & r & mid & frame' & post & m & -> & Hpre & Hm).
    exists (Incoming frame :: pre), r, mid, frame', post, m. split_and!; [done| |by apply Hm..].
    intros r' [?|?]%elem_of_cons; [done|by eapply Hpre].
Qed.

(** C12: a handler that reports a user, whatever it was called with, was sent after its first
    hello a message that names this user, whose content has the nonce this hello drew and
    nothing else, and whose signature of that content verifies under the user's key. *)
Theorem Auth_user_signed (cs : list auth_call) rs h u :
  run_calls cs new = Ret (rs, h) → get_user h = Some u →
  ∃ pre r mid frame post m,
    cs = pre ++ Init r :: mid ++ Incoming frame :: post ∧ (∀ r', Init r' ∉ pre) ∧
    from_slice frame = Some m ∧ ClientAuth_user m = u ∧ ClientAuth_nonce m = array_list r ∧
    verify (to_vec (ClientAuth_content_v0 m)) (ClientAuth_sig m) u = Ok tt.
Proof.
  intros Hrun Hu.
  destruct (run_calls_ok cs new Fresh eq_refl) as (h' & Hrun' & Hok). rewrite Hrun in Hrun'.
  injection Hrun' as _ <-. destruct (spec_calls cs Fresh) as [rs' st'] eqn:Hspec. cbn [snd] in Hok.
  assert (Hst : st' = Done (Some u)).
  { unfold get_user in Hu. destruct st' as [|n|w]; cbn in Hok.
    - by subst h.
    - destruct Hok as (_ & _ & ?). congruence.
    - destruct Hok as [? _]. congruence. }
  destruct (spec_calls_fresh _ _ _ _ Hspec Hst) as (pre & r & mid & frame & post & m & Hcs & Hpre & Hm & Hum & Ha).
  exists pre, r, mid, frame, post, m. unfold accepts in Ha. apply andb_true_iff in Ha as [Hv Hn].
  apply bool_decide_eq_true in Hn. subst u. split_and!; [done..|].
  destruct (verify _ _ _) as [[]|]; [done|done].
Qed.
End Spec.

Module Examples.
Import BareTypes.Instances NetInstances.

#[export] Instance table_fsm : RustFsm := {
  fsm_consume _ _ table i s := match table s i with Some s' => (true, s') | None => (false, s) end
}.
#[export] Instance table_fsm_laws : RustFsmLaws.
Proof. done. Qed.

Lemma eq_by_dec `{EqDecision A} (x y : A) : bool_decide (x = y) = true → x = y.
Proof. apply bool_decide_eq_true_1. Qed.

Definition seed : bytes := [x01; x02].
Definition user_key : PrivKey := (generate_keypair seed).1.
Definition user1 : PubKey := (generate_keypair seed).2.
Definition nonce1 : array 32 := to_array 32 [x07].
Definition auth_with (n : bytes) : bytes :=
  let content := {| ClientAuthContentV0_user := user1; ClientAuthContentV0_client := user1;
                    ClientAuthContentV0_nonce := n |} in
  match sign user_key user1 (to_vec content) with
  | Ok sig => to_vec (ClientAuth_V0 {| ClientAuthV0_content := content; ClientAuthV0_sig := sig |})
  | Err _ => []
  end.
(** A frame too early, garbage, the right message, the right message again. *)
Definition calls : list auth_call :=
  [Incoming (auth_with (array_list nonce1)); Init nonce1; Init nonce1; Incoming [x09];
   Incoming (auth_with (array_list nonce1)); Incoming (auth_with (array_list nonce1))].
(** The right message for another nonce decides too. *)
Definition replayed : list auth_call :=
  [Init nonce1; Incoming (auth_with []); Incoming (auth_with (array_list nonce1))].

Definition close_code (r : auth_reply) : option N :=
  match r with IncomingReply _ (Some c) => Some (uint_N c) | _ => None end.

Lemma Auth_refinement_witness :
  (∃ h, run_calls calls new = Ret ((spec_calls calls Fresh).1, h) ∧ get_user h = Some user1) ∧
  close_code <$> (spec_calls calls Fresh).1 = [Some 3%N; None; None; Some 6%N; None; Some 3%N] ∧
  (∃ h, run_calls replayed new = Ret ((spec_calls replayed Fresh).1, h) ∧ get_user h = None).
Proof.
  split_and!.
  - destruct (Auth_refinement calls) as (h & Hrun & _ & Hu). exists h. split; [exact Hrun|].
    rewrite Hu. apply eq_by_dec. vm_compute. reflexivity.
  - vm_compute. reflexivity.
  - destruct (Auth_refinement replayed) as (h & Hrun & _ & Hu). exists h. split; [exact Hrun|].
    rewrite Hu. apply eq_by_dec. vm_compute. reflexivity.
Defined.

Lemma Auth_user_signed_witness :
  ∃ pre r mid frame post m,
    calls = pre ++ Init r :: mid ++ Incoming frame :: post ∧ (∀ r', Init r' ∉ pre) ∧
    from_slice (A := ClientAuth) frame = Some m ∧ ClientAuth_user m = user1 ∧
    ClientAuth_nonce m = array_list r ∧
    verify (to_vec (ClientAuth_content_v0 m)) (ClientAuth_sig m) user1 = Ok tt.
Proof.
  destruct (run_calls_ok calls new Fresh eq_refl) as (h & Hrun & Hok).
  apply (Auth_user_signed calls (spec_calls calls Fresh).1 h user1 Hrun).
  assert (Hst : (spec_calls calls Fresh).2 = Done (Some user1))
    by (apply eq_by_dec; vm_compute; reflexivity).
  rewrite Hst in Hok. apply Hok.
Defined.
End Examples.
