(* ===== verification/LmdbRepoStore.v ===== *)
(** * The block store over LMDB: [lofire-store-lmdb/src/repostore.rs]

    Four databases: the blocks, what is known of the use of each, the blocks by expiry, and
    the blocks by last use, of which the oldest are removed when space is needed.  The
    databases of [rkv] are given by their interface. *)

From S2P Require Import Prelude Serde Types Block Store Utils.

(** ** [rkv] *)

(** [rkv::SingleStore]: one value per key. An operation answers [None] where the library
    answers [Err]. *)
Class SingleStore : Type := {
  ss_db : Type;
  ss_get : ss_db → bytes → option (option bytes);
  ss_put : ss_db → bytes → bytes → option ss_db;
  ss_delete : ss_db → bytes → option ss_db
}.

(** [rkv::MultiIntegerStore] on [u32]: sorted values under integers. [mi_put_append] is
    [put_with_flags] with [APPEND_DUP].  The iterators answer a list, each element of which
    may be an error; [mi_iter_start] goes through all entries, [mi_iter_prev_dup_from]
    through the values of each key up to a given one. *)
Class MultiIntegerStore : Type := {
  mi_db : Type;
  mi_put : mi_db → u32 → bytes → option mi_db;
  mi_put_append : mi_db → u32 → bytes → option mi_db;
  mi_delete : mi_db → u32 → bytes → option mi_db;
  mi_iter_start : mi_db → option (list (option (u32 * bytes)));
  mi_iter_prev_dup_from : mi_db → u32 → option (list (option (list (option bytes))))
}.

(** The lexicographic order of LMDB on values. *)
Fixpoint bytes_lt (v w : bytes) : bool :=
  match v, w with
  | [], [] => false
  | [], _ :: _ => true
  | _ :: _, [] => false
  | a :: v, b :: w => (Byte.to_N a <? Byte.to_N b)%N || (bool_decide (a = b) && bytes_lt v w)
  end.

(** An iterator without errors. *)
Definition ok_iter {A} (l : list A) : list (option A) := Some <$> l.

(** What LMDB documents of databases that are open and within the limits of the
    environment: reads do not fail; what a write does when it succeeds, and that it does
    for what fits; deleting what is not there is an error; appending is for a value after
    those the key has. *)
Class SingleStoreLaws `{!SingleStore} : Type := {
  ss_view : ss_db → gmap bytes bytes;
  ss_fits : bytes → bytes → Prop;
  ss_get_law db k : ss_get db k = Some (ss_view db !! k);
  ss_put_law db k v db' : ss_put db k v = Some db' → ss_view db' = <[k := v]> (ss_view db);
  ss_put_fits db k v : ss_fits k v → is_Some (ss_put db k v);
  ss_delete_law db k db' : ss_delete db k = Some db' → ss_view db' = delete k (ss_view db);
  ss_delete_some db k : is_Some (ss_delete db k) ↔ is_Some (ss_view db !! k)
}.

Class MultiIntegerStoreLaws `{!MultiIntegerStore} : Type := {
  mi_view : mi_db → u32 → gset bytes;
  mi_fits : bytes → Prop;
  mi_put_law db t v db' : mi_put db t v = Some db' →
    ∀ u, mi_view db' u = if decide (u = t) then {[v]} ∪ mi_view db t else mi_view db u;
  mi_put_fits db t v : mi_fits v → is_Some (mi_put db t v);
  mi_put_append_law db t v db' : mi_put_append db t v = Some db' →
    ∀ u, mi_view db' u = if decide (u = t) then {[v]} ∪ mi_view db t else mi_view db u;
  mi_put_append_fits db t v :
    mi_fits v → is_Some (mi_put_append db t v) ↔ ∀ w, w ∈ mi_view db t → bytes_lt w v = true;
  mi_delete_law db t v db' : mi_delete db t v = Some db' →
    ∀ u, mi_view db' u = if decide (u = t) then mi_view db t ∖ {[v]} else mi_view db u;
  mi_delete_some db t v : is_Some (mi_delete db t v) ↔ v ∈ mi_view db t;
  mi_iter_start_law db : ∃ l, mi_iter_start db = Some (ok_iter l) ∧ NoDup l ∧
    (∀ t v, (t, v) ∈ l ↔ v ∈ mi_view db t) ∧
    ∀ i j x y, i < j → l !! i = Some x → l !! j = Some y → (uint_N x.1 <= uint_N y.1)%N;
  mi_iter_prev_law db t : ∃ l : list (u32 * list bytes),
    mi_iter_prev_dup_from db t = Some (ok_iter (ok_iter <$> l.*2)) ∧ NoDup l.*1 ∧
    (∀ u vs, (u, vs) ∈ l →
       (uint_N u <= uint_N t)%N ∧ NoDup vs ∧ ∀ v, v ∈ vs ↔ v ∈ mi_view db u) ∧
    (∀ u v, (uint_N u <= uint_N t)%N → v ∈ mi_view db u → u ∈ l.*1)
}.

(** ** The store *)

Record BlockMeta : Type := {
  BlockMeta_pin : bool;
  BlockMeta_last_used : Timestamp;
  BlockMeta_synced : bool
}.

(** The four databases, and the clock a method reads, in seconds since the Unix epoch. *)
Record LmdbRepoStore `{!SingleStore, !MultiIntegerStore} : Type := {
  main_store : ss_db;
  meta_store : ss_db;
  expiry_store : mi_db;
  recently_used_store : mi_db;
  clock : u64
}.

Module LmdbRepoStoreOps.
Section Ops.
Context `{!SingleStore, !MultiIntegerStore}.
Context `{!Crypto} `{!Serde Block, !Serde Digest, !Serde BlockMeta}.
Implicit Types (s : LmdbRepoStore).

Definition set_main s db :=
  {| main_store := db; meta_store := meta_store s; expiry_store := expiry_store s;
     recently_used_store := recently_used_store s; clock := clock s |}.
Definition set_meta s db :=
  {| main_store := main_store s; meta_store := db; expiry_store := expiry_store s;
     recently_used_store := recently_used_store s; clock := clock s |}.
Definition set_expiry s db :=
  {| main_store := main_store s; meta_store := meta_store s; expiry_store := db;
     recently_used_store := recently_used_store s; clock := clock s |}.
Definition set_recently_used s db :=
  {| main_store := main_store s; meta_store := meta_store s; expiry_store := expiry_store s;
     recently_used_store := db; clock := clock s |}.

(** [main_store.put(..).unwrap()] and the like, in a transaction that works on a state. *)
Definition main_put (k v : bytes) s : outcome LmdbRepoStore :=
  db ← unwrap (ss_put (main_store s) k v); Ret (set_main s db).
Definition main_delete (k : bytes) s : outcome LmdbRepoStore :=
  db ← unwrap (ss_delete (main_store s) k); Ret (set_main s db).
Definition meta_put (k : bytes) (m : BlockMeta) s : outcome LmdbRepoStore :=
  db ← unwrap (ss_put (meta_store s) k (to_vec m)); Ret (set_meta s db).
Definition meta_delete (k : bytes) s : outcome LmdbRepoStore :=
  db ← unwrap (ss_delete (meta_store s) k); Ret (set_meta s db).
Definition expiry_put (t : Timestamp) (k : bytes) s : outcome LmdbRepoStore :=
  db ← unwrap (mi_put (expiry_store s) t k); Ret (set_expiry s db).
Definition expiry_delete (t : Timestamp) (k : bytes) s : outcome LmdbRepoStore :=
  db ← unwrap (mi_delete (expiry_store s) t k); Ret (set_expiry s db).

(** [remove_from_lru(..).unwrap()] *)
Definition remove_from_lru (block_id_ser : bytes) (time : Timestamp) s : outcome LmdbRepoStore :=
  db ← unwrap (mi_delete (recently_used_store s) time block_id_ser); Ret (set_recently_used s db).
(** [add_to_lru(..).unwrap()] *)
Definition add_to_lru (block_id_ser : bytes) (time : Timestamp) s : outcome LmdbRepoStore :=
  db ← unwrap (mi_put_append (recently_used_store s) time block_id_ser);
  Ret (set_recently_used s db).

(** [meta_store.get(..).unwrap()], then [from_slice::<BlockMeta>(..).unwrap()] *)
Definition meta_get (k : bytes) s : outcome (option BlockMeta) :=
  meta_ser ← unwrap (ss_get (meta_store s) k);
  match meta_ser with
  | Some v => m ← unwrap (from_slice (A := BlockMeta) v); Ret (Some m)
  | None => Ret None
  end.

(** Of [get]: the use of a block that is synced is recorded. *)
Definition touch (block_id_ser : bytes) s : outcome LmdbRepoStore :=
  meta_ser ← meta_get block_id_ser s;
  match meta_ser with
  | Some meta =>
      if BlockMeta_synced meta then
        now ← now_timestamp (clock s);
        s ← if negb (BlockMeta_pin meta) then
              s ← remove_from_lru block_id_ser (BlockMeta_last_used meta) s;
              add_to_lru block_id_ser now s
            else Ret s;
        meta_put block_id_ser {| BlockMeta_pin := BlockMeta_pin meta; BlockMeta_last_used := now;
                                 BlockMeta_synced := BlockMeta_synced meta |} s
      else Ret s
  | None => Ret s
  end.

(** [RepoStore::get] *)
Definition get (block_id : BlockId) s : outcome (result Block StorageError * LmdbRepoStore) :=
  let block_id_ser := to_vec block_id in
  match ss_get (main_store s) block_id_ser with
  | None => Ret (Err StorageError_BackendError, s)
  | Some None => Ret (Err StorageError_NotFound, s)
  | Some (Some block_ser) =>
      s ← touch block_id_ser s;
      match from_slice (A := Block) block_ser with
      | None => Ret (Err StorageError_InvalidValue, s)
      | Some o => if decide (Block_id o ≠ block_id) then Panic else Ret (Ok o, s)
      end
  end.

(** [RepoStore::put] *)
Definition put (block : Block) s : outcome (result BlockId StorageError * LmdbRepoStore) :=
  let block_ser := to_vec block in
  let block_id := Block_id block in
  let block_id_ser := to_vec block_id in
  s ← main_put block_id_ser block_ser s;
  s ← match Block_expiry block with
      | Some expiry => expiry_put expiry block_id_ser s
      | None => Ret s
      end;
  Ret (Ok block_id, s).

(** Of [del]: the meta of a block and its entry in the list of used blocks. *)
Definition forget (block_id_ser : bytes) s : outcome LmdbRepoStore :=
  meta_res ← meta_get block_id_ser s;
  match meta_res with
  | Some meta =>
      s ← if (uint_N (BlockMeta_last_used meta) =? 0)%N then Ret s
          else remove_from_lru block_id_ser (BlockMeta_last_used meta) s;
      meta_delete block_id_ser s
  | None => Ret s
  end.

(** [RepoStore::del] *)
Definition del (block_id : BlockId) s
    : outcome (result (Block * usize) StorageError * LmdbRepoStore) :=
  let block_id_ser := to_vec block_id in
  block_ser ← unwrap (ss_get (main_store s) block_id_ser);
  match block_ser with
  | None => Ret (Err StorageError_NotFound, s)
  | Some slice =>
      block ← unwrap (from_slice (A := Block) slice);
      s ← forget block_id_ser s;
      s ← main_delete block_id_ser s;
      s ← match Block_expiry block with
          | Some expiry => expiry_delete expiry block_id_ser s
          | None => Ret s
          end;
      Ret (Ok (block, len slice), s)
  end.

(** [LmdbRepoStore::set_pin]. Its result is never an error. *)
Definition set_pin (object_id : ObjectId) (add : bool) s
    : outcome (result unit StorageError * LmdbRepoStore) :=
  let obj_id_ser := to_vec object_id in
  meta_ser ← meta_get obj_id_ser s;
  match meta_ser with
  | Some meta =>
      if bool_decide (add = BlockMeta_pin meta) then Ret (Ok tt, s) else
      let meta := {| BlockMeta_pin := add; BlockMeta_last_used := BlockMeta_last_used meta;
                     BlockMeta_synced := BlockMeta_synced meta |} in
      s ← if BlockMeta_synced meta then
            if add then remove_from_lru obj_id_ser (BlockMeta_last_used meta) s
            else add_to_lru obj_id_ser (BlockMeta_last_used meta) s
          else Ret s;
      s ← meta_put obj_id_ser meta s;
      Ret (Ok tt, s)
  | None =>
      if add then
        s ← meta_put obj_id_ser {| BlockMeta_pin := true; BlockMeta_last_used := uint_wrap 32 0;
                                   BlockMeta_synced := false |} s;
        Ret (Ok tt, s)
      else Ret (Ok tt, s)
  end.
Definition pin (object_id : ObjectId) := set_pin object_id true.
Definition unpin (object_id : ObjectId) := set_pin object_id false.

(** [LmdbRepoStore::has_been_synced] *)
Definition has_been_synced (block_id : BlockId) (when : option u32) s
    : outcome (result unit unit * LmdbRepoStore) :=
  let block_id_ser := to_vec block_id in
  meta_ser ← meta_get block_id_ser s;
  now ← match when with None => now_timestamp (clock s) | Some w => Ret w end;
  match meta_ser with
  | Some meta =>
      if BlockMeta_synced meta then Ret (Ok tt, s) else
      s ← if negb (BlockMeta_pin meta) then add_to_lru block_id_ser now s else Ret s;
      s ← meta_put block_id_ser {| BlockMeta_pin := BlockMeta_pin meta;
                                   BlockMeta_last_used := now; BlockMeta_synced := true |} s;
      Ret (Ok tt, s)
  | None =>
      s ← add_to_lru block_id_ser now s;
      s ← meta_put block_id_ser {| BlockMeta_pin := false; BlockMeta_last_used := now;
                                   BlockMeta_synced := true |} s;
      Ret (Ok tt, s)
  end.

(** [while let Some(Ok(x)) = iter.next()]: the values up to the first error *)
Fixpoint until_error {A} (iter : list (option A)) : list A :=
  match iter with
  | Some x :: iter => x :: until_error iter
  | _ => []
  end.

(** The loop of [remove_expired] *)
Fixpoint del_each (block_ids : list BlockId) s : outcome LmdbRepoStore :=
  match block_ids with
  | [] => Ret s
  | block_id :: block_ids =>
      '(r, s) ← del block_id s;
      match r with
      | Ok _ => del_each block_ids s
      | Err _ => Panic
      end
  end.

(** [LmdbRepoStore::remove_expired] *)
Definition remove_expired s : outcome (result unit unit * LmdbRepoStore) :=
  now ← now_timestamp (clock s);
  iter ← unwrap (mi_iter_prev_dup_from (expiry_store s) now);
  block_ids ← mapM (λ v, unwrap (from_slice (A := Digest) v))
                   (concat (until_error <$> until_error iter));
  s ← del_each block_ids s;
  Ret (Ok tt, s).

(** The loop of [remove_least_used] *)
Fixpoint del_until (size : usize) (block_ids : list BlockId) (total : usize) s
    : outcome (usize * LmdbRepoStore) :=
  match block_ids with
  | [] => Ret (total, s)
  | block_id :: block_ids =>
      '(r, s) ← del block_id s;
      match r with
      | Ok (_, block_size) =>
          total ← usize_add total block_size;
          if (size <=? total)%N then Ret (total, s) else del_until size block_ids total s
      | Err _ => Panic
      end
  end.

(** [LmdbRepoStore::remove_least_used] *)
Definition remove_least_used (size : usize) s : outcome (usize * LmdbRepoStore) :=
  iter ← unwrap (mi_iter_start (recently_used_store s));
  block_ids ← mapM (λ e, unwrap (from_slice (A := Digest) (snd e))) (until_error iter);
  del_until size block_ids 0%N s.
End Ops.
End LmdbRepoStoreOps.
