(* ===== verification/LmdbView.v ===== *)
(** * The blocks in an LMDB store

    [LmdbRepoStore] keeps the contract of [RepoStore]: what [get], [put] and [del] answer
    whenever they return is what a finite map answers, whatever was pinned, synced or
    evicted before. The theorems on objects, commits and branches apply to it. *)

From S2P Require Import Prelude Serde Types Block Store Utils LmdbRepoStore.
Import LmdbRepoStoreOps.

(** A computation that returns ran all its parts. *)
Lemma bind_Ret {A B} (m : outcome A) (f : A → outcome B) r :
  (m ≫= f) = Ret r → ∃ a, m = Ret a ∧ f a = Ret r.
Proof. destruct m as [a| |]; [|done|done]. cbn. eauto. Qed.
Lemma unwrap_Ret {A} (o : option A) a : unwrap o = Ret a → o = Some a.
Proof. destruct o; [|done]. by intros [= ->]. Qed.

(** Takes [H : m = Ret r] apart. *)
Ltac run_inv H :=
  repeat match type of H with
  | _ ≫= _ = Ret _ =>
      let a := fresh "x" in let Ha := fresh "Hx" in
      apply bind_Ret in H as (a & Ha & H); try apply unwrap_Ret in Ha
  end.

Section View.
Context `{!SingleStore, !MultiIntegerStore, !SingleStoreLaws, !MultiIntegerStoreLaws}.
Context `{!Crypto} `{!Serde Block, !Serde Digest, !Serde BlockMeta}.
Context `{!SerdeLaws Block, !SerdeLaws Digest, !SerdeLaws BlockMeta}.
Implicit Types (s : LmdbRepoStore).

(** An entry of the main database: a block under its identifier. *)
Definition good_entry (k v : bytes) : Prop :=
  ∃ b : Block, k = to_vec (Block_get_id b) ∧ v = to_vec b ∧ serde_skip b = b.
Definition main_ok (m : gmap bytes bytes) : Prop := map_Forall good_entry m.

(** The blocks of a database. *)
Definition decode_blocks (m : gmap bytes bytes) : gmap BlockId Block :=
  map_fold (λ k v M, match from_slice (A := Digest) k, from_slice (A := Block) v with
                     | Some id, Some b => <[id := b]> M
                     | _, _ => M
                     end) ∅ m.

#[local] Instance digest_inj : Inj (=) (=) (to_vec (A := Digest)).
Proof. intros x y Hxy%to_vec_inj_skip. apply Hxy. Qed.

Lemma decode_blocks_lookup m id :
  main_ok m → decode_blocks m !! id = m !! to_vec id ≫= from_slice.
Proof.
  unfold decode_blocks. revert id. apply (map_fold_weak_ind
    (λ M m, ∀ id, main_ok m → M !! id = m !! to_vec id ≫= from_slice)); [by intros; rewrite !lookup_empty|].
  intros k v m' M Hk IH id Hok. unfold main_ok in Hok.
  apply map_Forall_insert in Hok as [(b & -> & -> & Hb) Hok]; [|done].
  rewrite !from_slice_to_vec, Hb. unfold serde_skip, serde_skip_default.
  destruct (decide (Block_get_id b = id)) as [<-|Hne].
  - rewrite !lookup_insert_eq. cbn. by rewrite from_slice_to_vec, Hb.
  - rewrite !lookup_insert_ne by (try intros ?%(inj to_vec); done). by apply IH.
Qed.

Definition lmdb_view s : gmap BlockId Block := decode_blocks (ss_view (main_store s)).
Definition lmdb_ok s : Prop := main_ok (ss_view (main_store s)).

(** Blocks are found under their identifiers, and nothing else is. *)
Lemma main_lookup s id v : lmdb_ok s → ss_view (main_store s) !! to_vec id = Some v →
  ∃ b, v = to_vec b ∧ lmdb_view s !! id = Some b ∧ serde_skip b = b ∧ Block_get_id b = id.
Proof.
  intros Hok Hv. destruct (Hok _ _ Hv) as (b & Hk%(inj to_vec) & -> & Hb). exists b.
  unfold lmdb_view. rewrite decode_blocks_lookup, Hv by done. cbn. by rewrite from_slice_to_vec, Hb.
Qed.
Lemma main_lookup_none s id : lmdb_ok s →
  ss_view (main_store s) !! to_vec id = None → lmdb_view s !! id = None.
Proof. intros Hok Hv. unfold lmdb_view. by rewrite decode_blocks_lookup, Hv. Qed.
Lemma view_lookup s id b : lmdb_ok s → lmdb_view s !! id = Some b →
  ss_view (main_store s) !! to_vec id = Some (to_vec b) ∧ serde_skip b = b ∧ Block_get_id b = id.
Proof.
  intros Hok Hb. destruct (ss_view (main_store s) !! to_vec id) as [v|] eqn:Hv.
  - destruct (main_lookup s id v Hok Hv) as (b' & -> & Hb' & ? & ?). naive_solver.
  - apply (main_lookup_none s id Hok) in Hv. congruence.
Qed.

Lemma decode_insert m b :
  main_ok m → main_ok (<[to_vec (Block_get_id b) := to_vec b]> m) ∧
  decode_blocks (<[to_vec (Block_get_id b) := to_vec b]> m) =
  <[Block_get_id b := serde_skip b]> (decode_blocks m).
Proof.
  intros Hok. assert (Hok' : main_ok (<[to_vec (Block_get_id b) := to_vec b]> m)).
  { apply map_Forall_insert_2; [|done]. exists (serde_skip b).
    by rewrite get_id_skip, to_vec_skip, skip_idemp. }
  split; [done|]. apply map_eq. intros id. rewrite decode_blocks_lookup by done.
  destruct (decide (Block_get_id b = id)) as [<-|Hne].
  - rewrite !lookup_insert_eq. cbn. apply from_slice_to_vec.
  - rewrite !lookup_insert_ne by (try intros ?%(inj to_vec); done). by rewrite decode_blocks_lookup.
Qed.
Lemma decode_delete m id :
  main_ok m → main_ok (delete (to_vec id) m) ∧
  decode_blocks (delete (to_vec id) m) = delete id (decode_blocks m).
Proof.
  intros Hok. assert (Hok' : main_ok (delete (to_vec id) m)) by (by apply map_Forall_delete).
  split; [done|]. apply map_eq. intros j. rewrite decode_blocks_lookup by done.
  destruct (decide (id = j)) as [<-|Hne].
  - by rewrite !lookup_delete_eq.
  - rewrite !lookup_delete_ne by (try intros ?%(inj to_vec); done). by rewrite decode_blocks_lookup.
Qed.

(** ** What the parts of the methods leave alone *)

Lemma remove_from_lru_Ret k t s s' : remove_from_lru k t s = Ret s' →
  ∃ db, mi_delete (recently_used_store s) t k = Some db ∧ s' = set_recently_used s db.
Proof. intros Hrun. unfold remove_from_lru in Hrun. run_inv Hrun. injection Hrun as <-. eauto. Qed.
Lemma add_to_lru_Ret k t s s' : add_to_lru k t s = Ret s' →
  ∃ db, mi_put_append (recently_used_store s) t k = Some db ∧ s' = set_recently_used s db.
Proof. intros Hrun. unfold add_to_lru in Hrun. run_inv Hrun. injection Hrun as <-. eauto. Qed.
Lemma meta_put_Ret k m s s' : meta_put k m s = Ret s' →
  ∃ db, ss_view db = <[k := to_vec m]> (ss_view (meta_store s)) ∧ s' = set_meta s db.
Proof.
  intros Hrun. unfold meta_put in Hrun. run_inv Hrun. injection Hrun as <-.
  apply ss_put_law in Hx. eauto.
Qed.
Lemma meta_delete_Ret k s s' : meta_delete k s = Ret s' →
  ∃ db, ss_view db = delete k (ss_view (meta_store s)) ∧ s' = set_meta s db.
Proof.
  intros Hrun. unfold meta_delete in Hrun. run_inv Hrun. injection Hrun as <-.
  apply ss_delete_law in Hx. eauto.
Qed.

Lemma touch_main k s s' : touch k s = Ret s' →
  main_store s' = main_store s ∧ expiry_store s' = expiry_store s ∧ clock s' = clock s.
Proof.
  intros Hrun. unfold touch in Hrun. run_inv Hrun.
  destruct x as [[p u []]|]; cbn in Hrun; [|by simplify_eq..].
  run_inv Hrun. apply meta_put_Ret in Hrun as (db & _ & ->). cbn.
  destruct p; cbn in Hx1; [by simplify_eq|]. run_inv Hx1.
  apply remove_from_lru_Ret in Hx2 as (? & _ & ->). by apply add_to_lru_Ret in Hx1 as (? & _ & ->).
Qed.
Lemma forget_main k s s' : forget k s = Ret s' →
  main_store s' = main_store s ∧ expiry_store s' = expiry_store s ∧ clock s' = clock s.
Proof.
  intros Hrun. unfold forget in Hrun. run_inv Hrun. destruct x as [m|]; [|by simplify_eq].
  run_inv Hrun. apply meta_delete_Ret in Hrun as (? & _ & ->).
  destruct (_ =? 0)%N; [by simplify_eq|]. by apply remove_from_lru_Ret in Hx0 as (? & _ & ->).
Qed.

(** What [get], [put] and [del] do to the main database. *)
Lemma lmdb_get_main id s r s' : lmdb_ok s → get id s = Ret (r, s') →
  main_store s' = main_store s ∧ expiry_store s' = expiry_store s ∧
  match lmdb_view s !! id with
  | Some b => r = Ok b ∧ touch (to_vec id) s = Ret s'
  | None => r = Err StorageError_NotFound ∧ s' = s
  end.
Proof.
  intros Hok Hrun. unfold get in Hrun. rewrite ss_get_law in Hrun.
  destruct (ss_view (main_store s) !! to_vec id) as [v|] eqn:Hv.
  - destruct (main_lookup s id v Hok Hv) as (b & -> & Hb & Hskip & Hid).
    run_inv Hrun. rewrite from_slice_to_vec, Hskip in Hrun. destruct (touch_main _ _ _ Hx) as (? & ? & ?).
    destruct (decide _) in Hrun; [done|]. injection Hrun as <- <-. by rewrite Hb.
  - rewrite (main_lookup_none s id Hok Hv). injection Hrun as <- <-. done.
Qed.
Lemma lmdb_put_main b s r s' : put b s = Ret (r, s') → r = Ok (Block_id b) ∧
  ss_view (main_store s') = <[to_vec (Block_id b) := to_vec b]> (ss_view (main_store s)) ∧
  meta_store s' = meta_store s ∧ recently_used_store s' = recently_used_store s ∧
  clock s' = clock s ∧
  match Block_expiry b with
  | Some t => mi_put (expiry_store s) t (to_vec (Block_id b)) = Some (expiry_store s')
  | None => expiry_store s' = expiry_store s
  end.
Proof.
  intros Hrun. unfold put in Hrun. run_inv Hrun. injection Hrun as <- <-. unfold main_put in Hx. run_inv Hx.
  injection Hx as <-. apply ss_put_law in Hx1.
  destruct (Block_expiry b) as [t|]; [|by injection Hx0 as <-].
  unfold expiry_put in Hx0. run_inv Hx0. by injection Hx0 as <-.
Qed.
Lemma lmdb_del_main id s r s' : lmdb_ok s → del id s = Ret (r, s') →
  match lmdb_view s !! id with
  | Some b => ∃ s1, r = Ok (b, len (to_vec b)) ∧ forget (to_vec id) s = Ret s1 ∧
      ss_view (main_store s') = delete (to_vec id) (ss_view (main_store s)) ∧
      meta_store s' = meta_store s1 ∧ recently_used_store s' = recently_used_store s1 ∧
      clock s' = clock s ∧
      match Block_expiry b with
      | Some t => mi_delete (expiry_store s) t (to_vec id) = Some (expiry_store s')
      | None => expiry_store s' = expiry_store s
      end
  | None => r = Err StorageError_NotFound ∧ s' = s
  end.
Proof.
  intros Hok Hrun. unfold del in Hrun. rewrite ss_get_law in Hrun. cbn [unwrap mbind outcome_bind] in Hrun.
  destruct (ss_view (main_store s) !! to_vec id) as [v|] eqn:Hv.
  2:{ rewrite (main_lookup_none s id Hok Hv). injection Hrun as <- <-. done. }
  destruct (main_lookup s id v Hok Hv) as (b & -> & Hb & Hskip & Hid). rewrite Hb.
  rewrite from_slice_to_vec, Hskip in Hrun. cbn [unwrap mbind outcome_bind] in Hrun. run_inv Hrun.
  injection Hrun as <- <-. exists x. unfold main_delete in Hx0. run_inv Hx0. injection Hx0 as <-.
  apply ss_delete_law in Hx2. destruct (forget_main _ _ _ Hx) as (Hm & He & Hc).
  rewrite <- Hm, <- He, <- Hc. cbn in *.
  destruct (Block_expiry b) as [t|]; [|by injection Hx1 as <-].
  unfold expiry_delete in Hx1. run_inv Hx1. by injection Hx1 as <-.
Qed.

(** ** The contract *)

#[export] Instance LmdbRepoStore_RepoStore : RepoStore LmdbRepoStore := {
  store_get := get;
  store_put := put;
  store_del := del
}.

#[export, refine] Instance LmdbRepoStore_RepoStoreSpec : RepoStoreSpec LmdbRepoStore := {
  store_inv := lmdb_ok;
  store_view := lmdb_view
}.
Proof.
  - intros s id b Hok Hb. by destruct (view_lookup s id b Hok Hb) as (_ & ? & ?).
  - intros s id r s' Hok Hget. destruct (lmdb_get_main id s r s' Hok Hget) as (Hm & _ & Hr).
    unfold lmdb_ok, lmdb_view in *. rewrite Hm. split_and!; [done..|].
    destruct (decode_blocks _ !! id) as [b|] eqn:Hb; [|apply Hr]. destruct Hr as [-> _].
    destruct (view_lookup s id b Hok Hb) as (_ & Hskip & Hid).
    exists b. split_and!; [done..| |]; rewrite <- Hskip; [apply id_ok_skip|by destruct b].
  - intros s b r s' Hok Hid Hput. destruct (lmdb_put_main b s r s' Hput) as (-> & Hm & _).
    rewrite Hid in *. destruct (decode_insert (ss_view (main_store s)) b Hok) as [Hok' Hview].
    unfold lmdb_ok, lmdb_view. by rewrite Hm.
  - intros s id r s' Hok Hdel. pose proof (lmdb_del_main id s r s' Hok Hdel) as Hr.
    destruct (lmdb_view s !! id) as [b|] eqn:Hb.
    + destruct Hr as (s1 & -> & _ & Hm & _). destruct (view_lookup s id b Hok Hb) as (_ & Hskip & _).
      destruct (decode_delete (ss_view (main_store s)) id Hok) as [Hok' Hview].
      unfold lmdb_ok, lmdb_view. rewrite Hm. split; [done|]. by exists b, (len (to_vec b)).
    + destruct Hr as [-> ->]. done.
Defined.
End View.
