(* ===== verification/LmdbMem.v ===== *)
(** * Databases in memory

    [Module LmdbMem]: databases that keep the laws the LMDB block store is proved from, and
    that compute. On them its theorems are instantiated. *)

From stdpp Require Import sorting.
From S2P Require Import Prelude Serde Types Bare BareTypes NetBare LmdbRepoStore.

Module LmdbMem.

#[export] Instance mem_single : SingleStore := {
  ss_db := gmap bytes bytes;
  ss_get db k := Some (db !! k);
  ss_put db k v := Some (<[k := v]> db);
  ss_delete db k := match db !! k with Some _ => Some (delete k db) | None => None end
}.
#[export, refine] Instance mem_single_laws : SingleStoreLaws := {
  ss_view db := db;
  ss_fits _ _ := True
}.
Proof.
  - done.
  - by intros db k v db' [= <-].
  - by eexists.
  - cbn. intros db k db'. destruct (db !! k) eqn:Hk; [by intros [= <-]|done].
  - cbn. intros db k. by destruct (db !! k).
Defined.

(** The values under a key. *)
Definition values (db : gmap u32 (gset bytes)) (t : u32) : gset bytes := db !!! t.
(** The entries under a key, and all of them in the order of the keys. *)
Definition entries (x : u32 * gset bytes) : list (u32 * bytes) := pair x.1 <$> elements x.2.
Definition key_le (x y : u32 * gset bytes) : Prop := (uint_N x.1 <= uint_N y.1)%N.
#[export] Instance key_le_dec : RelDecision key_le := λ x y, N.le_dec (uint_N x.1) (uint_N y.1).
#[export] Instance key_le_total : Total key_le.
Proof. intros x y. unfold key_le. lia. Qed.
#[export] Instance key_le_trans : Transitive key_le.
Proof. intros x y z. unfold key_le. lia. Qed.
Definition sorted_keys (db : gmap u32 (gset bytes)) : list (u32 * gset bytes) :=
  merge_sort key_le (map_to_list db).
Definition up_to (t : u32) (db : gmap u32 (gset bytes)) : list (u32 * gset bytes) :=
  reverse (filter (λ x, (uint_N x.1 <= uint_N t)%N) (sorted_keys db)).

#[export] Instance mem_multi : MultiIntegerStore := {
  mi_db := gmap u32 (gset bytes);
  mi_put db t v := Some (<[t := {[v]} ∪ values db t]> db);
  mi_put_append db t v :=
    if forallb (λ w, bytes_lt w v) (elements (values db t))
    then Some (<[t := {[v]} ∪ values db t]> db) else None;
  mi_delete db t v :=
    if decide (v ∈ values db t) then Some (<[t := values db t ∖ {[v]}]> db) else None;
  mi_iter_start db := Some (ok_iter (concat (entries <$> sorted_keys db)));
  mi_iter_prev_dup_from db t := Some (ok_iter (ok_iter <$> (elements ∘ snd <$> up_to t db)))
}.

Lemma values_insert db t vs u :
  values (<[t := vs]> db) u = if decide (u = t) then vs else values db u.
Proof.
  unfold values. destruct (decide _) as [->|Hne]; [by rewrite lookup_total_insert_eq|].
  by rewrite lookup_total_insert_ne.
Qed.

Lemma sorted_perm db : sorted_keys db ≡ₚ map_to_list db.
Proof. apply merge_sort_Permutation. Qed.
Lemma sorted_nodup db : NoDup (sorted_keys db).*1.
Proof. rewrite sorted_perm. apply NoDup_fst_map_to_list. Qed.
Lemma sorted_elem db t vs : (t, vs) ∈ sorted_keys db ↔ db !! t = Some vs.
Proof. by rewrite sorted_perm, elem_of_map_to_list. Qed.

Lemma entries_elem l t v : (t, v) ∈ concat (entries <$> l) ↔ ∃ vs, (t, vs) ∈ l ∧ v ∈ vs.
Proof.
  induction l as [|[u us] l IH]; csimpl.
  { split; [by intros ?%elem_of_nil|]. by intros (vs & ?%elem_of_nil & _). }
  rewrite elem_of_app, IH. unfold entries. rewrite list_elem_of_fmap. cbn. split.
  - intros [(w & [= -> ->] & Hw%elem_of_elements)|(vs & Hin & Hv)].
    + exists us. by split; [left|].
    + exists vs. by split; [right|].
  - intros (vs & [[= -> ->]|Hin]%elem_of_cons & Hv).
    + left. exists v. by rewrite elem_of_elements.
    + right. by exists vs.
Qed.
Lemma entries_nodup l : NoDup l.*1 → NoDup (concat (entries <$> l)).
Proof.
  induction l as [|[u us] l IH]; csimpl; [constructor|].
  intros [Hu Hl]%NoDup_cons. apply NoDup_app. split_and!; [| |by apply IH].
  - apply NoDup_fmap; [by intros ? ? [=]|]. apply NoDup_elements.
  - intros [t v] (w & [= -> ->] & _)%list_elem_of_fmap (vs & Hin & _)%entries_elem.
    apply Hu, list_elem_of_fmap. by exists (u, vs).
Qed.
Lemma entries_sorted l : StronglySorted key_le l →
  StronglySorted (λ x y, (uint_N x.1 <= uint_N y.1)%N) (concat (entries <$> l)).
Proof.
  induction 1 as [|[u us] l Hl IH Hu]; csimpl; [constructor|].
  unfold entries at 1. cbn [fst snd]. induction (elements us) as [|w ws IHw]; csimpl; [done|].
  constructor; [done|]. apply Forall_app. split.
  - apply Forall_fmap, Forall_true. intros v. cbn. lia.
  - rewrite Forall_forall. intros [t v] (vs & Hin & _)%entries_elem.
    rewrite Forall_forall in Hu. by apply (Hu (t, vs)).
Qed.

Lemma StronglySorted_lookup {X} (R : X → X → Prop) l i j x y :
  StronglySorted R l → i < j → l !! i = Some x → l !! j = Some y → R x y.
Proof.
  intros Hs. revert i j. induction Hs as [|a l Hl IH Ha]; intros i j Hlt Hi Hj; [done|].
  destruct j as [|j]; [lia|]. destruct i as [|i]; cbn in *.
  - injection Hi as ->. rewrite Forall_forall in Ha. by eapply Ha, list_elem_of_lookup_2.
  - apply (IH i j); [lia|done..].
Qed.

Lemma iter_start_ok (db : gmap u32 (gset bytes)) : ∃ l, mi_iter_start db = Some (ok_iter l) ∧ NoDup l ∧
  (∀ t v, (t, v) ∈ l ↔ v ∈ values db t) ∧
  ∀ i j x y, i < j → l !! i = Some x → l !! j = Some y → (uint_N x.1 <= uint_N y.1)%N.
Proof.
  exists (concat (entries <$> sorted_keys db)). split_and!; [done| | |].
  - apply entries_nodup, sorted_nodup.
  - intros t v. rewrite entries_elem. unfold values. rewrite lookup_total_alt. split.
    + by intros (vs & ->%sorted_elem & Hv).
    + destruct (db !! t) as [vs|] eqn:Hvs; cbn; [|by intros ?%not_elem_of_empty].
      intros Hv. exists vs. by rewrite sorted_elem.
  - intros i j x y Hlt Hi Hj.
    apply (StronglySorted_lookup _ _ i j x y (entries_sorted _ (StronglySorted_merge_sort _ _)) Hlt Hi Hj).
Qed.

Lemma iter_prev_ok (db : gmap u32 (gset bytes)) t : ∃ l : list (u32 * list bytes),
  mi_iter_prev_dup_from db t = Some (ok_iter (ok_iter <$> l.*2)) ∧ NoDup l.*1 ∧
  (∀ u vs, (u, vs) ∈ l →
     (uint_N u <= uint_N t)%N ∧ NoDup vs ∧ ∀ v, v ∈ vs ↔ v ∈ values db u) ∧
  (∀ u v, (uint_N u <= uint_N t)%N → v ∈ values db u → u ∈ l.*1).
Proof.
  assert (Hin : ∀ u vs, (u, vs) ∈ up_to t db ↔ (uint_N u <= uint_N t)%N ∧ db !! u = Some vs).
  { intros u vs. unfold up_to. by rewrite elem_of_reverse, list_elem_of_filter, sorted_elem. }
  exists (prod_map id elements <$> up_to t db). split_and!.
  - cbn. rewrite <- !list_fmap_compose. done.
  - rewrite <- list_fmap_compose. unfold up_to.
    rewrite (list_fmap_ext _ fst) by done. rewrite fmap_reverse, reverse_Permutation.
    eapply sublist_NoDup; [apply sorted_nodup|]. apply fmap_sublist, sublist_filter.
  - intros u vs ([u' vs'] & [= -> ->] & [Hle Hu]%Hin)%list_elem_of_fmap.
    split_and!; [done|apply NoDup_elements|]. intros v. unfold values.
    by rewrite elem_of_elements, (lookup_total_correct _ _ _ Hu).
  - intros u v Hle Hv. unfold values in Hv. rewrite lookup_total_alt in Hv.
    destruct (db !! u) as [vs|] eqn:Hu; [|by apply not_elem_of_empty in Hv].
    rewrite <- list_fmap_compose. apply list_elem_of_fmap. exists (u, vs). by rewrite Hin.
Qed.

#[export, refine] Instance mem_multi_laws : MultiIntegerStoreLaws := {
  mi_view := values;
  mi_fits _ := True
}.
Proof.
  - intros db t v db' [= <-] u. apply values_insert.
  - by eexists.
  - cbn. intros db t v db'. destruct (forallb _ _); [|done]. intros [= <-] u. apply values_insert.
  - intros db t v _. cbn. destruct (forallb _ _) eqn:Hall.
    + split; [intros _|by eexists]. rewrite forallb_forall in Hall.
      intros w Hw. apply Hall. by apply list_elem_of_In, elem_of_elements.
    + split; [by intros []|]. intros Hlt. exfalso. revert Hall. apply not_false_iff_true.
      apply forallb_forall. intros w Hw%list_elem_of_In%elem_of_elements. by apply Hlt.
  - cbn. intros db t v db'. destruct (decide _); [|done]. intros [= <-] u. apply values_insert.
  - cbn. intros db t v. destruct (decide _); [done|]. split; [by intros []|done].
  - apply iter_start_ok.
  - apply iter_prev_ok.
Defined.

#[export] Instance BlockMeta_bare : Bare BlockMeta :=
  iso_bare (λ m, (BlockMeta_pin m, BlockMeta_last_used m, BlockMeta_synced m))
           (λ '(p, t, s), Build_BlockMeta p t s).
#[export] Instance BlockMeta_bare_ok : BareOk BlockMeta.
Proof. solve_record. Qed.

(** An empty store, at a time. *)
Definition empty_store (secs : u64) : LmdbRepoStore :=
  {| main_store := ∅; meta_store := ∅; expiry_store := ∅; recently_used_store := ∅;
     clock := secs |}.
End LmdbMem.
