(* ===== verification/LmdbProps.v ===== *)
(** * Use, pins and expiry in an LMDB store

    Besides the blocks, [LmdbRepoStore] keeps for each block whether it is pinned, whether
    it was synced and when it was last used, and two indexes: the blocks by expiry and the
    evictable ones, synced and not pinned, by last use. Every operation that returns keeps
    the indexes consistent with the rest; what eviction and expiry remove follows. *)

From S2P Require Import Prelude Serde Types Block Store Utils LmdbRepoStore LmdbView LmdbMem.
From S2P Require Import Bare BareTypes NetBare.
Import LmdbRepoStoreOps.

(** ** The abstract state *)

Record repo_state : Type := {
  rs_blocks : gmap BlockId Block;
  rs_metas : gmap BlockId BlockMeta
}.

(** In the list of used blocks *)
Definition evictable (m : BlockMeta) : bool := BlockMeta_synced m && negb (BlockMeta_pin m).

(** A time of use is known exactly of the blocks that were synced. *)
Definition times_ok (A : repo_state) : Prop := ∀ id m, rs_metas A !! id = Some m →
  (uint_N (BlockMeta_last_used m) =? 0)%N = negb (BlockMeta_synced m).
(** Besides, only stored blocks have a meta: so it is when no block that is not stored was
    pinned or marked as synced, which the code does not check. *)
Definition rs_wf (A : repo_state) : Prop :=
  (∀ id, is_Some (rs_metas A !! id) → is_Some (rs_blocks A !! id)) ∧ times_ok A.

Inductive repo_op : Type :=
  | OpGet (id : BlockId)
  | OpPut (b : Block)
  | OpDel (id : BlockId)
  | OpSetPin (id : BlockId) (add : bool)
  | OpSynced (id : BlockId) (when : option u32).

(** What keeps [rs_wf]: blocks filed under their own hash, of which no two have the same; a
    pin or a synchronization of a stored block, at a time past the epoch. *)
Definition op_ok `{!Crypto, !Serde Block} (op : repo_op) (A : repo_state) : Prop :=
  match op with
  | OpGet _ | OpDel _ => True
  | OpPut b => id_ok b ∧ ∀ b', rs_blocks A !! Block_id b = Some b' → b' = serde_skip b
  | OpSetPin id add => add = true → is_Some (rs_blocks A !! id)
  | OpSynced id when =>
      is_Some (rs_blocks A !! id) ∧ ∀ t, when = Some t → uint_N t ≠ 0%N
  end.

Definition with_pin (add : bool) (m : BlockMeta) : BlockMeta :=
  {| BlockMeta_pin := add; BlockMeta_last_used := BlockMeta_last_used m;
     BlockMeta_synced := BlockMeta_synced m |}.
Definition with_used (t : Timestamp) (m : BlockMeta) : BlockMeta :=
  {| BlockMeta_pin := BlockMeta_pin m; BlockMeta_last_used := t; BlockMeta_synced := true |}.
Definition new_meta (pin : bool) : BlockMeta :=
  {| BlockMeta_pin := pin; BlockMeta_last_used := uint_wrap 32 0; BlockMeta_synced := false |}.

(** The metas after an operation at the time [t]. *)
Definition spec_metas (op : repo_op) (t : Timestamp) (A : repo_state) : gmap BlockId BlockMeta :=
  let M := rs_metas A in
  match op with
  | OpGet id =>
      match rs_blocks A !! id, M !! id with
      | Some _, Some m => if BlockMeta_synced m then <[id := with_used t m]> M else M
      | _, _ => M
      end
  | OpPut b => M
  | OpDel id => if rs_blocks A !! id is Some _ then delete id M else M
  | OpSetPin id add =>
      match M !! id with
      | Some m => <[id := with_pin add m]> M
      | None => if add then <[id := new_meta true]> M else M
      end
  | OpSynced id when =>
      let m := default (new_meta false) (M !! id) in
      if BlockMeta_synced m then M else <[id := with_used (default t when) m]> M
  end.
Definition spec_blocks `{!Crypto, !Serde Block} (op : repo_op) (A : repo_state)
    : gmap BlockId Block :=
  match op with
  | OpPut b => <[Block_id b := serde_skip b]> (rs_blocks A)
  | OpDel id => delete id (rs_blocks A)
  | _ => rs_blocks A
  end.
Definition spec_op `{!Crypto, !Serde Block} (op : repo_op) (t : Timestamp) (A : repo_state)
    : repo_state :=
  {| rs_blocks := spec_blocks op A; rs_metas := spec_metas op t A |}.

Lemma wf_insert B M id m :
  rs_wf {| rs_blocks := B; rs_metas := M |} → is_Some (B !! id) →
  (uint_N (BlockMeta_last_used m) =? 0)%N = negb (BlockMeta_synced m) →
  rs_wf {| rs_blocks := B; rs_metas := <[id := m]> M |}.
Proof.
  intros [Hdom Hused] Hb Hm. split; unfold times_ok in *; cbn in *.
  - intros j. destruct (decide (id = j)) as [<-|?]; [done|rewrite lookup_insert_ne by done; apply Hdom].
  - intros j m'. destruct (decide (id = j)) as [<-|?]; [|rewrite lookup_insert_ne by done; apply Hused].
    rewrite lookup_insert_eq. by intros [= <-].
Qed.

Lemma spec_op_wf `{!Crypto, !Serde Block} op t A :
  rs_wf A → op_ok op A → uint_N t ≠ 0%N → rs_wf (spec_op op t A).
Proof.
  destruct A as [B M]. intros Hwf Hop Ht. pose proof Hwf as [Hdom Hused]. unfold spec_op, times_ok in *.
  destruct op as [id|b|id|id add|id when]; cbn in *.
  - destruct (B !! id) eqn:Hb; [|done]. destruct (M !! id) as [m|] eqn:Hm; [|done].
    destruct (BlockMeta_synced m); [|done].
    apply wf_insert; [done|by rewrite Hb|]. by apply N.eqb_neq.
  - split; cbn; [|exact Hused]. intros j Hj%Hdom.
    destruct (decide (Block_id b = j)) as [->|?]; [by rewrite lookup_insert_eq|by rewrite lookup_insert_ne].
  - destruct (B !! id) eqn:Hb; [|by rewrite delete_id]. split; unfold times_ok; cbn.
    + intros j [m [Hne Hm]%lookup_delete_Some]. rewrite lookup_delete_ne by done. apply Hdom. eauto.
    + intros j m [_ Hm]%lookup_delete_Some. by eapply Hused.
  - destruct (M !! id) as [m|] eqn:Hm; [|destruct add; [|done]]; apply wf_insert; try done.
    + apply Hdom. by rewrite Hm.
    + by apply Hused in Hm.
    + by apply Hop.
  - destruct Hop as [Hb Hnow]. destruct (BlockMeta_synced _); [done|].
    apply wf_insert; [done..|]. apply N.eqb_neq. destruct when; cbn; [by apply Hnow|done].
Qed.

(** ** The store in an abstract state *)

Section Refinement.
Context `{!SingleStore, !MultiIntegerStore, !SingleStoreLaws, !MultiIntegerStoreLaws}.
Context `{!Crypto} `{!Serde Block, !Serde Digest, !Serde BlockMeta}.
Context `{!SerdeLaws Block, !SerdeLaws Digest, !SerdeLaws BlockMeta}.
Implicit Types (s : LmdbRepoStore).

#[local] Instance id_inj : Inj (=) (=) (to_vec (A := Digest)).
Proof. intros x y Hxy%to_vec_inj_skip. apply Hxy. Qed.

(** The meta database holds the metas. *)
Definition metas_rep s (M : gmap BlockId BlockMeta) : Prop :=
  ∀ id, ss_view (meta_store s) !! to_vec id = to_vec <$> M !! id.
(** The list of used blocks holds the evictable blocks by last use. *)
Definition lru_rep (db : mi_db) (M : gmap BlockId BlockMeta) : Prop :=
  ∀ t v, v ∈ mi_view db t ↔
    ∃ id m, v = to_vec id ∧ M !! id = Some m ∧ evictable m = true ∧ BlockMeta_last_used m = t.
(** The expiry database holds the blocks by expiry. *)
Definition expiry_rep (db : mi_db) (B : gmap BlockId Block) : Prop :=
  ∀ t v, v ∈ mi_view db t ↔ ∃ id b, v = to_vec id ∧ B !! id = Some b ∧ Block_expiry b = Some t.

Definition repo_rep s (A : repo_state) : Prop :=
  lmdb_ok s ∧ lmdb_view s = rs_blocks A ∧ metas_rep s (rs_metas A) ∧
  lru_rep (recently_used_store s) (rs_metas A) ∧ expiry_rep (expiry_store s) (rs_blocks A).

Lemma meta_get_rep s M id : metas_rep s M → meta_get (to_vec id) s = Ret (M !! id).
Proof.
  intros Hm. unfold meta_get. rewrite ss_get_law, Hm. cbn.
  destruct (M !! id) as [m|]; cbn; [|done]. by rewrite from_slice_to_vec.
Qed.
Lemma metas_rep_insert s s' M id m :
  metas_rep s M → ss_view (meta_store s') = <[to_vec id := to_vec m]> (ss_view (meta_store s)) →
  metas_rep s' (<[id := m]> M).
Proof.
  intros Hm Hs j. rewrite Hs. destruct (decide (id = j)) as [<-|?]; [by rewrite !lookup_insert_eq|].
  by rewrite !lookup_insert_ne by (try intros ?%(inj to_vec); done).
Qed.
Lemma metas_rep_delete s s' M id :
  metas_rep s M → ss_view (meta_store s') = delete (to_vec id) (ss_view (meta_store s)) →
  metas_rep s' (delete id M).
Proof.
  intros Hm Hs j. rewrite Hs. destruct (decide (id = j)) as [<-|?]; [by rewrite !lookup_delete_eq|].
  by rewrite !lookup_delete_ne by (try intros ?%(inj to_vec); done).
Qed.

(** The list of used blocks does not see a meta that is not evictable. *)
Lemma lru_rep_remove db db' M id m :
  lru_rep db M → M !! id = Some m → mi_delete db (BlockMeta_last_used m) (to_vec id) = Some db' →
  lru_rep db' (delete id M).
Proof.
  intros Hr Hm Hdel t v. rewrite (mi_delete_law _ _ _ _ Hdel).
  assert (Hother : v ∈ mi_view db t ∧ v ≠ to_vec id ↔ ∃ j m', v = to_vec j ∧
    delete id M !! j = Some m' ∧ evictable m' = true ∧ BlockMeta_last_used m' = t).
  { rewrite (Hr t v). split.
    - intros [(j & m' & -> & Hj & ?) Hne]. exists j, m'. rewrite lookup_delete_ne by (intros ->; done). done.
    - intros (j & m' & -> & [Hne Hj]%lookup_delete_Some & ?). split; [by exists j, m'|].
      by intros ?%(inj to_vec). }
  rewrite <- Hother. destruct (decide _) as [->|Hne].
  { rewrite elem_of_difference, elem_of_singleton. done. }
  split; [|by intros [? _]].
  intros Hv. split; [done|]. intros ->. apply (Hr _ _) in Hv as (j & m' & Hj%(inj to_vec) & ? & _ & <-).
  subst j. congruence.
Qed.
Lemma lru_rep_delete db M id :
  lru_rep db M → (∀ m, M !! id = Some m → evictable m = false) → lru_rep db (delete id M).
Proof.
  intros Hr He t v. rewrite (Hr t v). split.
  - intros (j & m & -> & Hj & Hm & ?). exists j, m. rewrite lookup_delete_ne; [done|].
    intros ->. apply He in Hj. congruence.
  - intros (j & m & -> & [_ Hj]%lookup_delete_Some & ?). by exists j, m.
Qed.
Lemma lru_rep_add db db' M id m :
  lru_rep db M → M !! id = None → evictable m = true →
  mi_put_append db (BlockMeta_last_used m) (to_vec id) = Some db' → lru_rep db' (<[id := m]> M).
Proof.
  intros Hr Hnone He Hput t v. rewrite (mi_put_append_law _ _ _ _ Hput).
  assert (Hins : (∃ j m', v = to_vec j ∧ <[id := m]> M !! j = Some m' ∧ evictable m' = true ∧
      BlockMeta_last_used m' = t) ↔ (v = to_vec id ∧ BlockMeta_last_used m = t) ∨ v ∈ mi_view db t).
  { rewrite (Hr t v). split.
    - intros (j & m' & -> & [[-> ->]|[Hne Hj]]%lookup_insert_Some & ?); [left; naive_solver|].
      right. by exists j, m'.
    - intros [[-> <-]|(j & m' & -> & Hj & ?)]; [exists id, m; by rewrite lookup_insert_eq|].
      exists j, m'. rewrite lookup_insert_ne; [done|]. intros ->. congruence. }
  rewrite Hins. clear. destruct (decide _) as [->|Hne]; [rewrite elem_of_union, elem_of_singleton|];
    naive_solver.
Qed.
Lemma lru_rep_skip db M id m :
  lru_rep db M → M !! id = None → evictable m = false → lru_rep db (<[id := m]> M).
Proof.
  intros Hr Hnone He t v. rewrite (Hr t v). split.
  - intros (j & m' & -> & Hj & ?). exists j, m'. rewrite lookup_insert_ne; [done|].
    intros ->. congruence.
  - intros (j & m' & -> & [[-> ->]|[Hne Hj]]%lookup_insert_Some & ?); [destruct_and?; congruence|by exists j, m'].
Qed.

(** ** The operations *)

Inductive repo_resp : Type :=
  | RGet (r : result Block StorageError)
  | RPut (r : result BlockId StorageError)
  | RDel (r : result (Block * usize) StorageError)
  | RPin (r : result unit StorageError)
  | RSynced (r : result unit unit).
Definition run_op (op : repo_op) s : outcome (repo_resp * LmdbRepoStore) :=
  match op with
  | OpGet id => '(r, s) ← get id s; Ret (RGet r, s)
  | OpPut b => '(r, s) ← put b s; Ret (RPut r, s)
  | OpDel id => '(r, s) ← del id s; Ret (RDel r, s)
  | OpSetPin id add => '(r, s) ← set_pin id add s; Ret (RPin r, s)
  | OpSynced id when => '(r, s) ← has_been_synced id when s; Ret (RSynced r, s)
  end.
Definition spec_resp (op : repo_op) (A : repo_state) : repo_resp :=
  match op with
  | OpGet id => RGet (match rs_blocks A !! id with
                      | Some b => Ok b | None => Err StorageError_NotFound end)
  | OpPut b => RPut (Ok (Block_id b))
  | OpDel id => RDel (match rs_blocks A !! id with
                      | Some b => Ok (b, len (to_vec b)) | None => Err StorageError_NotFound end)
  | OpSetPin _ _ => RPin (Ok tt)
  | OpSynced _ _ => RSynced (Ok tt)
  end.

(** The clock is in range, past the epoch. *)
Definition clock_ok s (t : Timestamp) : Prop :=
  now_timestamp (clock s) = Ret t ∧ uint_N t ≠ 0%N.

(** The state after a change of metas and of the list of used blocks. *)
Lemma rep_metas s s' A M' :
  repo_rep s A → main_store s' = main_store s → expiry_store s' = expiry_store s →
  metas_rep s' M' → lru_rep (recently_used_store s') M' →
  repo_rep s' {| rs_blocks := rs_blocks A; rs_metas := M' |}.
Proof.
  intros (Hok & Hview & _ & _ & He) Hm Hx Hmetas Hlru. unfold repo_rep, lmdb_ok, lmdb_view in *.
  cbn. rewrite Hm, Hx. by split_and!.
Qed.

(** The entry of a block in the list of used blocks, replaced. *)
Lemma lru_rep_update db M id m m' db' :
  lru_rep db M → M !! id = Some m → evictable m' = true →
  (if evictable m then ∃ db1, mi_delete db (BlockMeta_last_used m) (to_vec id) = Some db1 ∧
     mi_put_append db1 (BlockMeta_last_used m') (to_vec id) = Some db'
   else mi_put_append db (BlockMeta_last_used m') (to_vec id) = Some db') →
  lru_rep db' (<[id := m']> M).
Proof.
  intros Hr Hm He Hrun. rewrite <- insert_delete_eq. destruct (evictable m) eqn:Hem.
  - destruct Hrun as (db1 & Hdel & Hput). eapply lru_rep_add; [|apply lookup_delete_eq|done..].
    by eapply lru_rep_remove.
  - eapply lru_rep_add; [|apply lookup_delete_eq|done..].
    apply lru_rep_delete; [done|]. intros. by simplify_eq.
Qed.
Lemma lru_rep_leave db M id m m' db' :
  lru_rep db M → M !! id = Some m → evictable m' = false →
  (if evictable m then mi_delete db (BlockMeta_last_used m) (to_vec id) = Some db'
   else db' = db) →
  lru_rep db' (<[id := m']> M).
Proof.
  intros Hr Hm He Hrun. rewrite <- insert_delete_eq. destruct (evictable m) eqn:Hem.
  - eapply lru_rep_skip; [|apply lookup_delete_eq|done]. by eapply lru_rep_remove.
  - subst db'. eapply lru_rep_skip; [|apply lookup_delete_eq|done].
    apply lru_rep_delete; [done|]. intros. by simplify_eq.
Qed.

Lemma get_rep id s A t r s' :
  repo_rep s A → clock_ok s t → get id s = Ret (r, s') →
  RGet r = spec_resp (OpGet id) A ∧ repo_rep s' (spec_op (OpGet id) t A) ∧ clock s' = clock s.
Proof.
  intros Hrep [Hclock _] Hrun. pose proof Hrep as (Hok & Hview & Hmetas & Hlru & He).
  destruct (lmdb_get_main id s r s' Hok Hrun) as (Hmain & Hexp & Hr). rewrite Hview in Hr.
  unfold spec_op. cbn. destruct (rs_blocks A !! id) as [b|] eqn:Hb; [|by destruct Hr as [-> ->]; destruct A].
  destruct Hr as [-> Htouch]. split; [done|]. split; [|apply (touch_main _ _ _ Htouch)].
  unfold touch in Htouch. rewrite (meta_get_rep s _ id Hmetas) in Htouch.
  cbn [mbind outcome_bind] in Htouch. destruct (rs_metas A !! id) as [m|] eqn:Hm.
  2:{ injection Htouch as <-. by destruct A. }
  destruct (BlockMeta_synced m) eqn:Hs; [|injection Htouch as <-; by destruct A].
  rewrite Hclock in Htouch. cbn [mbind outcome_bind] in Htouch. run_inv Htouch.
  apply meta_put_Ret in Htouch as (db & Hdb & ->).
  apply (rep_metas s); [done..| |].
  - eapply metas_rep_insert; [|exact Hdb].
    destruct (BlockMeta_pin m); cbn in Hx; [by injection Hx as <-|]. run_inv Hx.
    apply remove_from_lru_Ret in Hx0 as (? & _ & ->). by apply add_to_lru_Ret in Hx as (? & _ & ->).
  - cbn [recently_used_store set_meta]. destruct (BlockMeta_pin m) eqn:Hp; cbn in Hx.
    + injection Hx as <-. eapply lru_rep_leave; [done|done|unfold evictable; cbn; by rewrite Hp|].
      unfold evictable. by rewrite Hp, andb_false_r.
    + run_inv Hx. apply remove_from_lru_Ret in Hx0 as (db1 & Hdel & ->).
      apply add_to_lru_Ret in Hx as (db2 & Hadd & ->). cbn in *.
      eapply lru_rep_update; [done|done|unfold evictable; cbn; by rewrite Hp|].
      unfold evictable. rewrite Hp, Hs. cbn. by exists db1.
Qed.

(** The blocks after a change, under their hashes. *)
Lemma expiry_rep_insert db db' B b :
  expiry_rep db B → (∀ b', B !! Block_id b = Some b' → b' = serde_skip b) →
  (match Block_expiry b with
   | Some t => mi_put db t (to_vec (Block_id b)) = Some db'
   | None => db' = db
   end) →
  expiry_rep db' (<[Block_id b := serde_skip b]> B).
Proof.
  intros Hr Hsame Hput t v.
  assert (Hins : (∃ j b', v = to_vec j ∧ <[Block_id b := serde_skip b]> B !! j = Some b' ∧
      Block_expiry b' = Some t) ↔ (v = to_vec (Block_id b) ∧ Block_expiry b = Some t) ∨ v ∈ mi_view db t).
  { rewrite (Hr t v). split.
    - intros (j & b' & -> & [[<- <-]|[Hne Hj]]%lookup_insert_Some & Hb).
      + left. by rewrite expiry_skip in Hb.
      + right. by exists j, b'.
    - intros [[-> Hb]|(j & b' & -> & Hj & Hb)].
      + exists (Block_id b), (serde_skip b). by rewrite lookup_insert_eq, expiry_skip.
      + exists j, b'. destruct (decide (Block_id b = j)) as [<-|?]; [|by rewrite lookup_insert_ne].
        rewrite lookup_insert_eq. by rewrite (Hsame _ Hj) in *. }
  rewrite Hins. clear Hins Hr Hsame. destruct (Block_expiry b) as [u|].
  - rewrite (mi_put_law _ _ _ _ Hput). clear Hput.
    destruct (decide _) as [->|Hne]; [rewrite elem_of_union, elem_of_singleton|]; naive_solver.
  - subst db'. naive_solver.
Qed.
Lemma expiry_rep_delete db db' B id b :
  expiry_rep db B → B !! id = Some b →
  (match Block_expiry b with
   | Some t => mi_delete db t (to_vec id) = Some db'
   | None => db' = db
   end) →
  expiry_rep db' (delete id B).
Proof.
  intros Hr Hb Hdel t v.
  assert (Hother : (∃ j b', v = to_vec j ∧ delete id B !! j = Some b' ∧ Block_expiry b' = Some t) ↔
      v ∈ mi_view db t ∧ v ≠ to_vec id).
  { rewrite (Hr t v). split.
    - intros (j & b' & -> & [Hne Hj]%lookup_delete_Some & ?). split; [by exists j, b'|].
      by intros ?%(inj to_vec).
    - intros [(j & b' & -> & Hj & ?) Hne]. exists j, b'.
      rewrite lookup_delete_ne by (intros ->; done). done. }
  assert (Hid : to_vec id ∈ mi_view db t → Block_expiry b = Some t).
  { intros (j & b' & Hj%(inj to_vec) & Hj' & ?)%(Hr _ _). subst j. congruence. }
  rewrite Hother. clear Hother Hr Hb. destruct (Block_expiry b) as [u|].
  - rewrite (mi_delete_law _ _ _ _ Hdel). clear Hdel. destruct (decide _) as [->|Hne].
    + by rewrite elem_of_difference, elem_of_singleton.
    + split; [|by intros [? _]]. intros Hv. split; [done|]. intros ->. apply Hid in Hv. congruence.
  - subst db'. split; [|by intros [? _]]. intros Hv. split; [done|]. intros ->. by apply Hid in Hv.
Qed.

Lemma put_rep b s A t r s' :
  repo_rep s A → op_ok (OpPut b) A → put b s = Ret (r, s') →
  RPut r = spec_resp (OpPut b) A ∧ repo_rep s' (spec_op (OpPut b) t A) ∧ clock s' = clock s.
Proof.
  intros (Hok & Hview & Hmetas & Hlru & He) [Hid Hsame] Hrun.
  destruct (lmdb_put_main b s r s' Hrun) as (-> & Hm & Hme & Hl & Hc & Hx).
  split; [done|]. split; [|done].
  rewrite Hid in Hm. destruct (decode_insert (ss_view (main_store s)) b Hok) as [Hok' Hview'].
  rewrite <- Hm in Hok', Hview'. rewrite <- Hid in Hview'. unfold repo_rep. cbn. split_and!.
  - exact Hok'.
  - unfold lmdb_view in *. by rewrite Hview', Hview.
  - unfold metas_rep. by rewrite Hme.
  - by rewrite Hl.
  - eapply expiry_rep_insert; [exact He|exact Hsame|]. by destruct (Block_expiry b).
Qed.

Lemma del_rep id s A t r s' :
  repo_rep s A → times_ok A → del id s = Ret (r, s') →
  RDel r = spec_resp (OpDel id) A ∧ repo_rep s' (spec_op (OpDel id) t A) ∧ clock s' = clock s.
Proof.
  intros Hrep Hwf Hrun. pose proof Hrep as (Hok & Hview & Hmetas & Hlru & He).
  pose proof (lmdb_del_main id s r s' Hok Hrun) as Hr. rewrite Hview in Hr. unfold spec_op. cbn.
  destruct (rs_blocks A !! id) as [b|] eqn:Hb.
  2:{ destruct Hr as [-> ->]. rewrite delete_id by done. split_and!; [done| |done]. by destruct A. }
  destruct Hr as (s1 & -> & Hforget & Hm & Hme & Hl & Hc & Hx). split; [done|]. split; [|done].
  destruct (decode_delete (ss_view (main_store s)) id Hok) as [Hok' Hview'].
  rewrite <- Hm in Hok', Hview'. unfold forget in Hforget.
  rewrite (meta_get_rep s _ id Hmetas) in Hforget. cbn [mbind outcome_bind] in Hforget.
  assert (Hmeta : metas_rep s1 (delete id (rs_metas A)) ∧
                  lru_rep (recently_used_store s1) (delete id (rs_metas A))).
  { destruct (rs_metas A !! id) as [m|] eqn:Hma.
    2:{ injection Hforget as <-. by rewrite delete_id. }
    run_inv Hforget. apply meta_delete_Ret in Hforget as (db & Hdb & ->).
    rewrite (Hwf id m Hma) in Hx0. destruct (BlockMeta_synced m) eqn:Hs; cbn in Hx0.
    - apply remove_from_lru_Ret in Hx0 as (db1 & Hdel & ->). cbn in *. split.
      + by eapply (metas_rep_delete s).
      + by eapply lru_rep_remove.
    - injection Hx0 as <-. cbn. split; [by eapply (metas_rep_delete s)|].
      apply lru_rep_delete; [done|]. intros m' Hm'. simplify_eq. unfold evictable. by rewrite Hs. }
  unfold repo_rep. cbn. split_and!.
  - exact Hok'.
  - unfold lmdb_view in *. by rewrite Hview', Hview.
  - unfold metas_rep. rewrite Hme. apply Hmeta.
  - rewrite Hl. apply Hmeta.
  - eapply expiry_rep_delete; [exact He|exact Hb|]. by destruct (Block_expiry b).
Qed.

(** A meta is written after the list of used blocks is brought up to date. *)
Lemma meta_put_rep s s1 s' A id m :
  repo_rep s A → meta_put (to_vec id) m s1 = Ret s' →
  main_store s1 = main_store s → meta_store s1 = meta_store s →
  expiry_store s1 = expiry_store s → clock s1 = clock s →
  lru_rep (recently_used_store s1) (<[id := m]> (rs_metas A)) →
  repo_rep s' {| rs_blocks := rs_blocks A; rs_metas := <[id := m]> (rs_metas A) |} ∧
  clock s' = clock s.
Proof.
  intros Hrep Hput Hm Hme Hx Hc Hl. apply meta_put_Ret in Hput as (db & Hdb & ->).
  split; [|done]. apply (rep_metas s); [done..| |done].
  eapply metas_rep_insert; [apply Hrep|]. by rewrite <- Hme.
Qed.

Lemma set_pin_rep id add s A t r s' :
  repo_rep s A → set_pin id add s = Ret (r, s') →
  RPin r = spec_resp (OpSetPin id add) A ∧ repo_rep s' (spec_op (OpSetPin id add) t A) ∧
  clock s' = clock s.
Proof.
  intros Hrep Hrun. pose proof Hrep as (Hok & Hview & Hmetas & Hlru & He).
  unfold set_pin in Hrun. rewrite (meta_get_rep s _ id Hmetas) in Hrun.
  cbn [mbind outcome_bind] in Hrun. unfold spec_op. cbn.
  destruct (rs_metas A !! id) as [m|] eqn:Hm.
  - destruct (bool_decide_reflect (add = BlockMeta_pin m)) as [->|Hne].
    { injection Hrun as <- <-. replace (with_pin (BlockMeta_pin m) m) with m by by destruct m.
      rewrite insert_id by done. split_and!; [done|by destruct A|done]. }
    cbn in Hrun. run_inv Hrun. injection Hrun as <- <-. split; [done|].
    destruct (BlockMeta_synced m) eqn:Hs.
    + destruct add.
      * apply remove_from_lru_Ret in Hx as (db & Hdel & ->).
        eapply meta_put_rep; [done|unfold with_pin; rewrite Hs; exact Hx0|done|done|done|done|].
        eapply lru_rep_leave; [done..|unfold evictable; cbn; apply andb_false_r|].
        destruct (BlockMeta_pin m) eqn:Hp; [done|]. unfold evictable. by rewrite Hs, Hp.
      * apply add_to_lru_Ret in Hx as (db & Hadd & ->).
        eapply meta_put_rep; [done|unfold with_pin; rewrite Hs; exact Hx0|done|done|done|done|].
        eapply lru_rep_update; [done..|unfold evictable; cbn; by rewrite Hs|].
        destruct (BlockMeta_pin m) eqn:Hp; [|done]. unfold evictable. by rewrite Hs, Hp.
    + injection Hx as <-. eapply meta_put_rep; [done|unfold with_pin; rewrite Hs; exact Hx0|done|done|done|done|].
      eapply lru_rep_leave; [done..|unfold evictable; cbn; by rewrite Hs|].
      unfold evictable. by rewrite Hs.
  - destruct add; [|injection Hrun as <- <-; split_and!; [done|by destruct A|done]].
    run_inv Hrun. injection Hrun as <- <-. split; [done|].
    eapply meta_put_rep; [done|exact Hx|done..|]. by apply lru_rep_skip.
Qed.

Lemma synced_rep id when s A t r s' :
  repo_rep s A → clock_ok s t → has_been_synced id when s = Ret (r, s') →
  RSynced r = spec_resp (OpSynced id when) A ∧ repo_rep s' (spec_op (OpSynced id when) t A) ∧
  clock s' = clock s.
Proof.
  intros Hrep [Hclock _] Hrun. pose proof Hrep as (Hok & Hview & Hmetas & Hlru & He).
  unfold has_been_synced in Hrun. rewrite (meta_get_rep s _ id Hmetas) in Hrun.
  cbn [mbind outcome_bind] in Hrun.
  assert (Hnow : match when with None => now_timestamp (clock s) | Some w => Ret w end =
    Ret (default t when)) by by destruct when.
  rewrite Hnow in Hrun. cbn [mbind outcome_bind] in Hrun. unfold spec_op. cbn.
  set (now := default t when) in *. destruct (rs_metas A !! id) as [m|] eqn:Hm; cbn.
  - destruct (BlockMeta_synced m) eqn:Hs.
    { injection Hrun as <- <-. split_and!; [done|by destruct A|done]. }
    run_inv Hrun. injection Hrun as <- <-. split; [done|].
    assert (Hev : evictable m = false) by (unfold evictable; by rewrite Hs).
    destruct (BlockMeta_pin m) eqn:Hp; cbn in Hx.
    + injection Hx as <-. eapply meta_put_rep; [done|unfold with_used; rewrite Hp; exact Hx0|done|done|done|done|].
      eapply lru_rep_leave; [done..|unfold evictable; cbn; by rewrite Hp|]. by rewrite Hev.
    + apply add_to_lru_Ret in Hx as (db & Hadd & ->).
      eapply meta_put_rep; [done|unfold with_used; rewrite Hp; exact Hx0|done|done|done|done|].
      eapply lru_rep_update; [done..|unfold evictable; cbn; by rewrite Hp|]. by rewrite Hev.
  - run_inv Hrun. injection Hrun as <- <-. split; [done|].
    apply add_to_lru_Ret in Hx as (db & Hadd & ->).
    eapply meta_put_rep; [done|exact Hx0|done..|]. by eapply lru_rep_add.
Qed.

(** ** Sequences of operations *)

(** Operations, and the clock going on. *)
Fixpoint run_ops (ops : list (repo_op + u64)) s : outcome (list repo_resp * LmdbRepoStore) :=
  match ops with
  | [] => Ret ([], s)
  | inl op :: ops => '(r, s) ← run_op op s; '(rs, s) ← run_ops ops s; Ret (r :: rs, s)
  | inr secs :: ops =>
      run_ops ops {| main_store := main_store s; meta_store := meta_store s;
                     expiry_store := expiry_store s;
                     recently_used_store := recently_used_store s; clock := secs |}
  end.
(** The specification, at the time [t], with what it asks of the operations. *)
Fixpoint spec_ops (ops : list (repo_op + u64)) (t : Timestamp) (A : repo_state)
    : list repo_resp * repo_state :=
  match ops with
  | [] => ([], A)
  | inl op :: ops =>
      let '(rs, A') := spec_ops ops t (spec_op op t A) in (spec_resp op A :: rs, A')
  | inr secs :: ops =>
      spec_ops ops (match now_timestamp secs with Ret t => t | _ => t end) A
  end.
Fixpoint ops_ok (ops : list (repo_op + u64)) (t : Timestamp) (A : repo_state) : Prop :=
  match ops with
  | [] => True
  | inl op :: ops => op_ok op A ∧ ops_ok ops t (spec_op op t A)
  | inr secs :: ops => ∃ t, now_timestamp secs = Ret t ∧ uint_N t ≠ 0%N ∧ ops_ok ops t A
  end.

Lemma run_op_rep op s A t r s' :
  repo_rep s A → times_ok A → clock_ok s t →
  (∀ b, op = OpPut b → op_ok op A) → run_op op s = Ret (r, s') →
  r = spec_resp op A ∧ repo_rep s' (spec_op op t A) ∧ clock s' = clock s.
Proof.
  intros Hrep Hwf Hc Hop Hrun.
  destruct op; cbn [run_op] in Hrun; run_inv Hrun; destruct x as [r1 s1]; injection Hrun as <- <-;
    [eapply get_rep|eapply put_rep; [|by eapply Hop|]|eapply del_rep|eapply set_pin_rep|
     eapply synced_rep]; done.
Qed.

Lemma run_ops_rep ops s A t rs s' :
  repo_rep s A → rs_wf A → clock_ok s t → ops_ok ops t A →
  run_ops ops s = Ret (rs, s') →
  rs = (spec_ops ops t A).1 ∧ repo_rep s' (spec_ops ops t A).2 ∧ rs_wf (spec_ops ops t A).2.
Proof.
  revert s A t rs. induction ops as [|[op|secs] ops IH]; intros s A t rs Hrep Hwf Hc Hops Hrun;
    cbn [run_ops spec_ops ops_ok] in *.
  - by injection Hrun as <- <-.
  - destruct Hops as [Hop Hops]. run_inv Hrun. destruct x as [r s1]. run_inv Hrun.
    destruct x as [rs1 s2]. injection Hrun as <- <-.
    destruct (run_op_rep op s A t r s1 Hrep (proj2 Hwf) Hc (λ _ _, Hop) Hx) as (-> & Hrep1 & Hclock).
    assert (Hc1 : clock_ok s1 t) by (unfold clock_ok; by rewrite Hclock).
    destruct (IH s1 _ t rs1 Hrep1 (spec_op_wf op t A Hwf Hop (proj2 Hc)) Hc1 Hops Hx0)
      as (-> & Hrep2 & Hwf2). by destruct (spec_ops ops t (spec_op op t A)).
  - destruct Hops as (t' & Ht & Hne & Hops). rewrite Ht. eapply IH; [|done| |done|exact Hrun].
    + exact Hrep.
    + by split.
Qed.

(** ** Removing blocks *)

Definition is_pinned (A : repo_state) (id : BlockId) : Prop :=
  ∃ m, rs_metas A !! id = Some m ∧ BlockMeta_pin m = true ∧ BlockMeta_synced m = true.

(** The state without some blocks. *)
Definition remove_ids (ids : list BlockId) (A : repo_state) : repo_state :=
  foldl (λ A id, spec_op (OpDel id) (uint_wrap 32 0) A) A ids.
(** The space the blocks of a list take *)
Definition size_of (A : repo_state) (id : BlockId) : usize :=
  match rs_blocks A !! id with Some b => len (to_vec b) | None => 0%N end.
Definition sum_size (A : repo_state) (ids : list BlockId) : usize :=
  foldr (λ id n, (size_of A id + n)%N) 0%N ids.

Lemma is_pinned_dec A id : Decision (is_pinned A id).
Proof.
  destruct (rs_metas A !! id) as [[[] u []]|] eqn:Hm;
    [left; by eexists|right; intros (m & Hm' & ? & ?); rewrite Hm in Hm'; by simplify_eq/=..].
Qed.

(** A stored block is deleted, unless it is pinned and synced: it is not in the list of used
    blocks then, which [del] expects. *)
Lemma del_unpinned id s A b :
  repo_rep s A → times_ok A → rs_blocks A !! id = Some b → ¬ is_pinned A id → returns (del id s).
Proof.
  intros Hrep Hwf Hb Hpin. pose proof Hrep as (Hok & Hview & Hmetas & Hlru & He).
  rewrite <- Hview in Hb. destruct (view_lookup s id b Hok Hb) as (Hmain & Hskip & _).
  unfold del. rewrite ss_get_law, Hmain. cbn [unwrap mbind outcome_bind].
  rewrite from_slice_to_vec, Hskip. cbn [unwrap mbind outcome_bind].
  assert (Hforget : ∃ s1, forget (to_vec id) s = Ret s1).
  { unfold forget. rewrite (meta_get_rep s _ id Hmetas). cbn [mbind outcome_bind].
    destruct (rs_metas A !! id) as [m|] eqn:Hm; [|by eexists].
    rewrite (Hwf id m Hm).
    assert (Hdelm : ∀ s1, meta_store s1 = meta_store s → returns (meta_delete (to_vec id) s1)).
    { intros s1 Hs1. unfold meta_delete. rewrite Hs1.
      destruct (proj2 (ss_delete_some (meta_store s) (to_vec id))) as [db ->]; [|by eexists].
      rewrite (Hmetas id), Hm. by eexists. }
    destruct (BlockMeta_synced m) eqn:Hs; cbn; [|by apply Hdelm].
    unfold remove_from_lru. destruct (proj2 (mi_delete_some (recently_used_store s)
      (BlockMeta_last_used m) (to_vec id))) as [db ->]; [|by apply Hdelm].
    apply Hlru. exists id, m. split_and!; [done..| |done]. unfold evictable. rewrite Hs.
    destruct (BlockMeta_pin m) eqn:Hp; [|done]. exfalso. apply Hpin. by exists m. }
  destruct Hforget as (s1 & Hforget). rewrite Hforget. cbn [mbind outcome_bind].
  destruct (forget_main _ _ _ Hforget) as (Hm1 & Hx1 & _). unfold main_delete. rewrite Hm1.
  destruct (proj2 (ss_delete_some (main_store s) (to_vec id))) as [db ->]; [by rewrite Hmain|].
  cbn [unwrap mbind outcome_bind]. destruct (Block_expiry b) as [t|] eqn:Hexp; [|by eexists].
  unfold expiry_delete. cbn [expiry_store set_main]. rewrite Hx1.
  destruct (proj2 (mi_delete_some (expiry_store s) t (to_vec id))) as [db' ->]; [|by eexists].
  apply He. exists id, b. by rewrite <- Hview.
Qed.
Lemma del_returns id s A b :
  repo_rep s A → rs_wf A → rs_blocks A !! id = Some b → ¬ is_pinned A id →
  ∃ s', del id s = Ret (Ok (b, len (to_vec b)), s') ∧
        repo_rep s' (spec_op (OpDel id) (uint_wrap 32 0) A) ∧
        rs_wf (spec_op (OpDel id) (uint_wrap 32 0) A) ∧ clock s' = clock s.
Proof.
  intros Hrep Hwf Hb Hpin.
  destruct (del_unpinned id s A b Hrep (proj2 Hwf) Hb Hpin) as [[r s'] Hdel].
  destruct (del_rep id s A (uint_wrap 32 0) r s' Hrep (proj2 Hwf) Hdel) as (Hr & Hrep' & Hc).
  cbn in Hr. rewrite Hb in Hr. injection Hr as ->. exists s'. split_and!; [done..| |done].
  destruct A as [B M]. destruct Hwf as [Hdom Hused]. split; unfold times_ok in *; cbn in *; rewrite Hb.
  - intros j [m [Hne Hm]%lookup_delete_Some]. rewrite lookup_delete_ne by done. apply Hdom. eauto.
  - intros j m [_ Hm]%lookup_delete_Some. by eapply Hused.
Qed.

Lemma del_pinned_panics id s A b :
  repo_rep s A → times_ok A → rs_blocks A !! id = Some b → is_pinned A id → del id s = Panic.
Proof.
  intros (Hok & Hview & Hmetas & Hlru & He) Hwf Hb (m & Hm & Hp & Hs). rewrite <- Hview in Hb.
  destruct (view_lookup s id b Hok Hb) as (Hmain & Hskip & _).
  unfold del. rewrite ss_get_law, Hmain. cbn [unwrap mbind outcome_bind].
  rewrite from_slice_to_vec, Hskip. cbn [unwrap mbind outcome_bind].
  unfold forget. rewrite (meta_get_rep s _ id Hmetas), Hm. cbn [mbind outcome_bind].
  rewrite (Hwf id m Hm), Hs. cbn [negb]. unfold remove_from_lru.
  destruct (mi_delete _ _ _) as [db|] eqn:Hdel; [|done]. exfalso.
  assert (Hin : is_Some (mi_delete (recently_used_store s) (BlockMeta_last_used m) (to_vec id)))
    by (by rewrite Hdel).
  apply mi_delete_some, Hlru in Hin as (j & m' & Hj%(inj to_vec) & Hm' & Hev & _). subst j.
  rewrite Hm in Hm'. injection Hm' as <-. unfold evictable in Hev. by rewrite Hp, andb_false_r in Hev.
Qed.

(** Deleting one block leaves the others. *)
Lemma remove_one_lookup id j A b : rs_blocks A !! id = Some b → j ≠ id →
  rs_blocks (spec_op (OpDel id) (uint_wrap 32 0) A) !! j = rs_blocks A !! j ∧
  rs_metas (spec_op (OpDel id) (uint_wrap 32 0) A) !! j = rs_metas A !! j.
Proof. intros Hb Hne. cbn. rewrite Hb. by rewrite !lookup_delete_ne. Qed.
Lemma is_pinned_remove id j A b : rs_blocks A !! id = Some b → j ≠ id →
  is_pinned (spec_op (OpDel id) (uint_wrap 32 0) A) j ↔ is_pinned A j.
Proof. intros Hb Hne. unfold is_pinned. by rewrite (proj2 (remove_one_lookup id j A b Hb Hne)). Qed.

Lemma del_each_ok ids s A :
  repo_rep s A → rs_wf A → NoDup ids → (∀ id, id ∈ ids → is_Some (rs_blocks A !! id)) →
  ((∀ id, id ∈ ids → ¬ is_pinned A id) →
     ∃ s', del_each ids s = Ret s' ∧ repo_rep s' (remove_ids ids A) ∧ rs_wf (remove_ids ids A)) ∧
  ((∃ id, id ∈ ids ∧ is_pinned A id) → del_each ids s = Panic).
Proof.
  intros Hrep Hwf Hnd. revert s A Hrep Hwf. induction Hnd as [|id ids Hnin Hnd IH]; intros s A Hrep Hwf Hin.
  { split; [intros _; by exists s|]. by intros (id & []%elem_of_nil & _). }
  destruct (Hin id ltac:(left)) as [b Hb]. cbn [del_each remove_ids foldl].
  destruct (is_pinned_dec A id) as [Hpin|Hpin].
  - rewrite (del_pinned_panics id s A b) by (done || apply Hwf). split; [|done].
    intros Hno. exfalso. by apply (Hno id); [left|].
  - destruct (del_returns id s A b Hrep Hwf Hb Hpin) as (s1 & -> & Hrep1 & Hwf1 & _).
    cbn [mbind outcome_bind].
    assert (Hne : ∀ j, j ∈ ids → j ≠ id) by (by intros j Hj ->).
    destruct (IH s1 _ Hrep1 Hwf1) as [IH1 IH2].
    { intros j Hj. rewrite (proj1 (remove_one_lookup id j A b Hb (Hne j Hj))).
      apply Hin. by right. }
    split.
    + intros Hno. apply IH1. intros j Hj. rewrite (is_pinned_remove id j A b) by auto.
      apply Hno. by right.
    + intros (j & [->|Hj]%elem_of_cons & Hjp); [done|]. apply IH2. exists j.
      by rewrite (is_pinned_remove id j A b) by auto.
Qed.
End Refinement.

Module LmdbExamples.
Import BareTypes.Instances NetBare.NetInstances LmdbMem.

(** Decides [ops_ok]. *)
Definition op_okb (op : repo_op) (A : repo_state) : bool :=
  match op with
  | OpGet _ | OpDel _ => true
  | OpPut b => bool_decide (Block_id b = Block_get_id b) &&
      match rs_blocks A !! Block_id b with
      | Some b' => bool_decide (b' = serde_skip b)
      | None => true
      end
  | OpSetPin id add => negb add || bool_decide (is_Some (rs_blocks A !! id))
  | OpSynced id when => bool_decide (is_Some (rs_blocks A !! id)) &&
      match when with Some t => negb (uint_N t =? 0)%N | None => true end
  end.
Fixpoint ops_okb (ops : list (repo_op + u64)) (t : Timestamp) (A : repo_state) : bool :=
  match ops with
  | [] => true
  | inl op :: ops => op_okb op A && ops_okb ops t (spec_op op t A)
  | inr secs :: ops =>
      match now_timestamp secs with
      | Ret t => negb (uint_N t =? 0)%N && ops_okb ops t A
      | _ => false
      end
  end.
Lemma op_ok_dec op A : op_okb op A = true → op_ok op A.
Proof.
  destruct op as [|b| |id add|id when]; cbn; [done| |done| |].
  - intros [Hid%bool_decide_eq_true Hb]%andb_true_iff. split; [done|]. intros b' Hl.
    rewrite Hl in Hb. by apply bool_decide_eq_true in Hb.
  - intros Hb ->. by apply bool_decide_eq_true in Hb.
  - intros [Hb%bool_decide_eq_true Ht]%andb_true_iff. split; [done|]. intros t ->.
    by apply N.eqb_neq, negb_true_iff.
Qed.
Lemma ops_ok_dec ops t A : ops_okb ops t A = true → ops_ok ops t A.
Proof.
  revert t A. induction ops as [|[op|secs] ops IH]; intros t A; cbn; [done| |].
  - intros [Hop Hops]%andb_true_iff. split; [by apply op_ok_dec|by apply IH].
  - destruct (now_timestamp secs) as [t'| |]; [|done..]. intros [Ht Hops]%andb_true_iff.
    exists t'. split_and!; [done|by apply N.eqb_neq, negb_true_iff|by apply IH].
Qed.

Definition A0 : repo_state := {| rs_blocks := ∅; rs_metas := ∅ |}.
Lemma A0_wf : rs_wf A0.
Proof. split; cbn; [by intros id []|by intros id m]. Qed.
Lemma A0_rep secs : repo_rep (empty_store secs) A0.
Proof.
  split_and!; [by intros k v|done|by intros id| |]; intros t v; cbn; unfold values;
    rewrite lookup_total_empty; (split; [by intros ?%not_elem_of_empty|by intros (? & ? & _ & ? & _)]).
Qed.

(** Minutes since the LoFiRe epoch *)
Definition minute (n : N) : u64 := uint_wrap 64 (EPOCH_AS_UNIX_TIMESTAMP + 60 * n).
Definition block (n : N) (expiry : option Timestamp) : Block :=
  Block_new [] (ObjectIdList []) expiry [byte_of_N n] None.
Definition b1 : Block := block 1 None.
Definition b2 : Block := block 2 (Some (uint_wrap 32 50)).
Definition b3 : Block := block 3 (Some (uint_wrap 32 70)).

(** Three blocks are stored and synced, the second is pinned, the first used again. *)
Definition fill : list (repo_op + u64) :=
  [inl (OpPut b1); inl (OpPut b2); inl (OpPut b3);
   inl (OpSynced (Block_id b1) None); inr (minute 11);
   inl (OpSynced (Block_id b2) None); inl (OpSetPin (Block_id b2) true); inr (minute 12);
   inl (OpSynced (Block_id b3) None); inr (minute 60); inl (OpGet (Block_id b1))].
Definition s0 : LmdbRepoStore := empty_store (minute 10).
Definition t0 : Timestamp := uint_wrap 32 10.
Lemma t0_now : clock_ok s0 t0.
Proof. split; vm_compute; done. Qed.

(** The store that some operations leave, and what is in it. *)
Definition filled (ops : list (repo_op + u64)) : LmdbRepoStore :=
  match run_ops ops s0 with Ret (_, s) => s | _ => s0 end.
Definition filled_state (ops : list (repo_op + u64)) : repo_state := (spec_ops ops t0 A0).2.
Lemma filled_rep ops :
  (if run_ops ops s0 is Ret _ then true else false) && ops_okb ops t0 A0 = true →
  repo_rep (filled ops) (filled_state ops) ∧ rs_wf (filled_state ops).
Proof.
  unfold filled. intros [Hret Hok]%andb_true_iff.
  destruct (run_ops ops s0) as [[rs s']| |] eqn:Hrun; [|done..].
  apply (run_ops_rep ops s0 A0 t0 rs s'); [apply A0_rep|apply A0_wf|apply t0_now| |done].
  apply ops_ok_dec, Hok.
Qed.
Lemma fill_rep : repo_rep (filled fill) (filled_state fill) ∧ rs_wf (filled_state fill).
Proof. apply filled_rep. vm_compute. reflexivity. Qed.
End LmdbExamples.
