(* ===== verification/LmdbEvict.v ===== *)
(** * Expiry and eviction in an LMDB store

    [remove_expired] and [remove_least_used] read an index and delete block after block;
    what they remove is given on the abstract state of [LmdbProps]. *)

From S2P Require Import Prelude Serde Types Block Store Utils LmdbRepoStore LmdbView LmdbMem LmdbProps.
From S2P Require Import Bare BareTypes NetBare.
Import LmdbRepoStoreOps.

Section Evict.
Context `{!SingleStore, !MultiIntegerStore, !SingleStoreLaws, !MultiIntegerStoreLaws}.
Context `{!Crypto} `{!Serde Block, !Serde Digest, !Serde BlockMeta}.
Context `{!SerdeLaws Block, !SerdeLaws Digest, !SerdeLaws BlockMeta}.
Implicit Types (s : LmdbRepoStore) (A : repo_state).

#[local] Instance evict_id_inj : Inj (=) (=) (to_vec (A := Digest)).
Proof. intros x y Hxy%to_vec_inj_skip. apply Hxy. Qed.

(** ** Reading an index *)

Lemma until_error_ok {X} (l : list X) : until_error (ok_iter l) = l.
Proof. unfold ok_iter. induction l as [|x l IH]; csimpl; [done|by rewrite IH]. Qed.
Lemma until_error_dup (l : list (list bytes)) :
  concat (until_error <$> until_error (ok_iter (ok_iter <$> l))) = concat l.
Proof.
  rewrite until_error_ok. induction l as [|vs l IH]; csimpl; [done|].
  by rewrite until_error_ok, IH.
Qed.

(** The values of an index are identifiers. *)
Lemma read_ids {X} (f : X → bytes) (l : list X) :
  (∀ x, x ∈ l → ∃ id : Digest, f x = to_vec id) → ∃ ids : list Digest,
  mapM (λ x, unwrap (from_slice (A := Digest) (f x))) l = Ret ids ∧ f <$> l = to_vec <$> ids.
Proof.
  induction l as [|x l IH]; intros Hl; [by exists []|].
  destruct (Hl x ltac:(left)) as [id Hid]. destruct IH as (ids & Hm & Hf); [intros; apply Hl; by right|].
  exists (id :: ids). cbn [mapM]. rewrite Hid, from_slice_to_vec. cbn [unwrap mbind outcome_bind].
  rewrite Hm. csimpl. by rewrite Hid, Hf.
Qed.

Lemma elem_of_concat {X} (v : X) (l : list (list X)) :
  v ∈ concat l ↔ ∃ vs, v ∈ vs ∧ vs ∈ l.
Proof.
  rewrite list_elem_of_In, in_concat. setoid_rewrite list_elem_of_In. firstorder.
Qed.

(** Going through the expiry database up to a time *)
Lemma expiry_iter db B t : expiry_rep db B → ∃ l : list (list bytes),
  mi_iter_prev_dup_from db t = Some (ok_iter (ok_iter <$> l)) ∧ NoDup (concat l) ∧
  ∀ v, v ∈ concat l ↔ ∃ u, (uint_N u <= uint_N t)%N ∧ v ∈ mi_view db u.
Proof.
  intros He. destruct (mi_iter_prev_law db t) as (l & Hrun & Hnd & Hl & Hall).
  exists l.*2. split_and!; [done| |].
  - clear Hrun Hall. induction l as [|[u vs] l IH]; [constructor|]. csimpl in *.
    apply NoDup_cons in Hnd as [Hu Hnd]. destruct (Hl u vs ltac:(left)) as (_ & Hvs & Hv).
    apply NoDup_app. split_and!; [done| |].
    + intros v Hin%Hv (vs' & Hin' & Hvs')%elem_of_concat.
      apply list_elem_of_fmap in Hvs' as ([u' vs''] & -> & Hu').
      destruct (Hl u' vs'' ltac:(by right)) as (_ & _ & Hv').
      apply (He _ _) in Hin as (i & b & -> & Hb & Hbe).
      apply Hv', (He _ _) in Hin' as (j & b' & Hj%(inj to_vec) & Hb' & Hbe'). simplify_eq.
      apply Hu, list_elem_of_fmap. by eexists (_, vs'').
    + apply IH; [done|]. intros. apply Hl. by right.
  - intros v. rewrite elem_of_concat. split.
    + intros (vs & Hin & ([u vs'] & -> & Hu)%list_elem_of_fmap). exists u.
      destruct (Hl u vs' Hu) as (? & _ & Hv). split; [done|]. by apply Hv.
    + intros (u & Hle & Hv). pose proof (Hall u v Hle Hv) as ([u' vs] & Hu & Hin)%list_elem_of_fmap.
      cbn in Hu. subst u'. exists vs. split; [by apply (Hl _ _ Hin)|].
      apply list_elem_of_fmap. by exists (u, vs).
Qed.

Lemma remove_ids_blocks ids A id :
  rs_blocks (remove_ids ids A) !! id = if decide (id ∈ ids) then None else rs_blocks A !! id.
Proof.
  revert A. induction ids as [|j ids IH]; intros A.
  { by rewrite decide_False by apply not_elem_of_nil. }
  change (remove_ids (j :: ids) A) with
    (remove_ids ids (spec_op (OpDel j) (uint_wrap 32 0) A)). rewrite IH. cbn.
  destruct (decide (id ∈ ids)) as [Hin|Hin]; [by rewrite decide_True by (by right)|].
  destruct (decide (j = id)) as [->|Hne].
  - by rewrite lookup_delete_eq, decide_True by left.
  - rewrite lookup_delete_ne, decide_False; [done| |done].
    by intros [->|?]%elem_of_cons.
Qed.

(** ** Expiry *)

Definition expired (A : repo_state) (t : Timestamp) (id : BlockId) : Prop :=
  ∃ b e, rs_blocks A !! id = Some b ∧ Block_expiry b = Some e ∧ (uint_N e <= uint_N t)%N.

(** C25: [remove_expired] removes exactly the blocks whose expiry has passed, and keeps the
    indexes consistent, unless one of these blocks is pinned and was synced: then it
    panics. *)
Theorem LmdbRepoStore_remove_expired s A t :
  repo_rep s A → rs_wf A → clock_ok s t →
  ((∀ id, expired A t id → ¬ is_pinned A id) → ∃ s' A',
     remove_expired s = Ret (Ok tt, s') ∧ repo_rep s' A' ∧ rs_wf A' ∧
     ∀ id b, rs_blocks A' !! id = Some b ↔ rs_blocks A !! id = Some b ∧ ¬ expired A t id) ∧
  ((∃ id, expired A t id ∧ is_pinned A id) → remove_expired s = Panic).
Proof.
  intros Hrep Hwf [Hclock _]. unfold remove_expired. rewrite Hclock. cbn [mbind outcome_bind].
  pose proof Hrep as (_ & _ & _ & _ & He).
  destruct (expiry_iter _ _ t He) as (l & -> & Hnd & Hl).
  cbn [unwrap mbind outcome_bind]. rewrite until_error_dup.
  destruct (read_ids (λ v, v) (concat l)) as (ids & Hids & Hf).
  { intros v (u & _ & (id & b & -> & _)%(He _ _))%Hl. by exists id. }
  rewrite Hids. cbn [mbind outcome_bind]. rewrite list_fmap_id in Hf.
  assert (Hexp : ∀ id, id ∈ ids ↔ expired A t id).
  { intros id. rewrite <- (list_elem_of_fmap_inj to_vec), <- Hf, Hl. split.
    - intros (u & Hu & (j & b & Hj%(inj to_vec) & Hb & Hbe)%(He _ _)). subst j. by exists b, u.
    - intros (b & e & Hb & Hbe & Hle). exists e. split; [done|]. apply He. by exists id, b. }
  rewrite Hf in Hnd. apply NoDup_fmap_1 in Hnd.
  destruct (del_each_ok ids s A Hrep Hwf Hnd) as [Hgood Hbad].
  { intros id (b & e & Hb & _)%Hexp. by rewrite Hb. }
  split.
  - intros Hno. destruct Hgood as (s' & -> & Hrep' & Hwf'); [intros id Hid; by apply Hno, Hexp|].
    exists s', (remove_ids ids A). split_and!; [done..|]. intros id b. rewrite remove_ids_blocks.
    destruct (decide (id ∈ ids)) as [Hin|Hin]; rewrite Hexp in Hin; naive_solver.
  - intros (id & Hid & Hpin). rewrite Hbad; [done|]. exists id. by rewrite Hexp.
Qed.

(** ** Eviction *)



(** ** Synchronizing *)

(** Another block, not before this one in the order of the identifiers, was last used at
    the same time and can be evicted. *)
Definition behind (A : repo_state) (t : Timestamp) (id : BlockId) : Prop :=
  ∃ j m, rs_metas A !! j = Some m ∧ evictable m = true ∧ BlockMeta_last_used m = t ∧
         bytes_lt (to_vec j) (to_vec id) = false.

Lemma add_to_lru_append (id : BlockId) t s (M : gmap BlockId BlockMeta) :
  lru_rep (recently_used_store s) M → mi_fits (to_vec id) →
  returns (add_to_lru (to_vec id) t s) ↔
  ∀ j m, M !! j = Some m → evictable m = true → BlockMeta_last_used m = t →
         bytes_lt (to_vec j) (to_vec id) = true.
Proof.
  intros Hlru Hfits.
  assert (Hdb : returns (add_to_lru (to_vec id) t s) ↔
                is_Some (mi_put_append (recently_used_store s) t (to_vec id))).
  { unfold add_to_lru. destruct (mi_put_append _ _ _); cbn; [by split; intros _; eexists|].
    split; [by intros []|by intros []]. }
  rewrite Hdb, mi_put_append_fits by done. split.
  - intros Hall j m Hm He Ht. apply Hall, Hlru. by exists j, m.
  - intros Hall w (j & m & -> & Hm & He & Ht)%(Hlru _ _). by eapply Hall.
Qed.

(** C38: marking a block as synced panics exactly when the block enters the list of used
    blocks, which it does unless it is pinned or in the list already, and a block that is
    not before it in the order of the identifiers was last used in the same minute: the
    list is appended to. Otherwise it returns and the indexes are kept. *)
Theorem LmdbRepoStore_synced_append s A id t :
  repo_rep s A → rs_wf A → clock_ok s t → is_Some (rs_blocks A !! id) →
  mi_fits (to_vec id) → (∀ m : BlockMeta, ss_fits (to_vec id) (to_vec m)) →
  let m := default (new_meta false) (rs_metas A !! id) in
  let clash := BlockMeta_synced m = false ∧ BlockMeta_pin m = false ∧ behind A t id in
  (clash → has_been_synced id None s = Panic) ∧
  (¬ clash → ∃ s', has_been_synced id None s = Ret (Ok tt, s') ∧
     repo_rep s' (spec_op (OpSynced id None) t A)).
Proof.
  intros Hrep Hwf Hclock Hb Hmi Hss m clash.
  pose proof Hrep as (_ & _ & Hmetas & Hlru & _). pose proof Hclock as [Hnow _].
  assert (Hrun : has_been_synced id None s =
    if BlockMeta_synced m then Ret (Ok tt, s) else
    s1 ← (if negb (BlockMeta_pin m) then add_to_lru (to_vec id) t s else Ret s);
    s2 ← meta_put (to_vec id) (with_used t m) s1; Ret (Ok tt, s2)).
  { unfold has_been_synced, m. rewrite (meta_get_rep s _ id Hmetas), Hnow.
    cbn [mbind outcome_bind]. by destruct (rs_metas A !! id) as [[p u []]|]. }
  assert (Hput : ∀ s1, returns (meta_put (to_vec id) (with_used t m) s1)).
  { intros s1. unfold meta_put.
    destruct (ss_put_fits (meta_store s1) _ _ (Hss (with_used t m))) as [db ->]. by eexists. }
  assert (Hfin : ∀ s', has_been_synced id None s = Ret (Ok tt, s') →
    repo_rep s' (spec_op (OpSynced id None) t A))
    by (intros s' Hs'; by apply (synced_rep id None s A t (Ok tt) s' Hrep Hclock Hs')).
  assert (Hret : (∃ s', has_been_synced id None s = Ret (Ok tt, s')) ∨
                 (has_been_synced id None s = Panic ∧ clash)).
  { rewrite Hrun. destruct (BlockMeta_synced m) eqn:Hs; [by left; eexists|].
    destruct (BlockMeta_pin m) eqn:Hp; cbn [negb].
    { left. cbn [mbind outcome_bind]. destruct (Hput s) as [s2 ->]. by eexists. }
    unfold add_to_lru. destruct (mi_put_append _ _ _) as [db|] eqn:Hadd; cbn [unwrap mbind outcome_bind].
    { left. edestruct Hput as [s2 ->]. by eexists. }
    right. split; [done|]. split_and!; [done..|].
    destruct (decide (map_Forall (λ j m, evictable m = true → BlockMeta_last_used m = t →
      bytes_lt (to_vec j) (to_vec id) = true) (rs_metas A))) as [Hall|Hno].
    - apply (add_to_lru_append id t s _ Hlru Hmi) in Hall as [s1 Hs1].
      unfold add_to_lru in Hs1. by rewrite Hadd in Hs1.
    - apply map_not_Forall in Hno as (j & n & Hj & Hn); [|apply _]. exists j, n.
      destruct (evictable n), (decide (BlockMeta_last_used n = t)), (bytes_lt _ _); naive_solver. }
  split.
  - intros (Hs & Hp & j & n & Hj & He & Ht & Hlt). rewrite Hrun, Hs, Hp. cbn [negb].
    unfold add_to_lru. destruct (mi_put_append _ _ _) as [db|] eqn:Hadd; [|done]. exfalso.
    assert (Hl : returns (add_to_lru (to_vec id) t s)) by (unfold add_to_lru; rewrite Hadd; by eexists).
    rewrite (add_to_lru_append id t s _ Hlru Hmi) in Hl. by rewrite (Hl j n Hj He Ht) in Hlt.
  - intros Hno. destruct Hret as [[s' Hs']|[_ Hc]]; [|done]. exists s'. auto.
Qed.
End Evict.

Module EvictExamples.
Import BareTypes.Instances NetBare.NetInstances LmdbMem LmdbExamples.

(** The same without the pin. *)
Definition unpinned : list (repo_op + u64) := fill ++ [inl (OpSetPin (Block_id b2) false)].
Lemma unpinned_rep :
  repo_rep (filled unpinned) (filled_state unpinned) ∧ rs_wf (filled_state unpinned).
Proof. apply filled_rep. vm_compute. reflexivity. Qed.

Definition t60 : Timestamp := uint_wrap 32 60.
Lemma fill_clock : clock_ok (filled fill) t60.
Proof. split; vm_compute; done. Qed.
Lemma unpinned_clock : clock_ok (filled unpinned) t60.
Proof. split; vm_compute; done. Qed.

Lemma no_pins A : forallb (λ x, negb (BlockMeta_pin x.2)) (map_to_list (rs_metas A)) = true →
  ∀ id, ¬ is_pinned A id.
Proof.
  rewrite forallb_forall. intros Hall id (m & Hm & Hp & _).
  apply elem_of_map_to_list, list_elem_of_In, Hall in Hm. cbn in Hm. by rewrite Hp in Hm.
Qed.
Lemma pinned_expired : ∃ id, expired (filled_state fill) t60 id ∧ is_pinned (filled_state fill) id.
Proof.
  exists (Block_id b2). split.
  - exists (serde_skip b2), (uint_wrap 32 50). split; [|by split].
    assert (Hb : bool_decide (rs_blocks (filled_state fill) !! Block_id b2 =
        Some (serde_skip b2)) = true)
      by (vm_compute; reflexivity).
    by apply bool_decide_eq_true in Hb.
  - assert (Hf : option_map (λ m, BlockMeta_pin m && BlockMeta_synced m)
      (rs_metas (filled_state fill) !! Block_id b2) = Some true) by (vm_compute; reflexivity).
    unfold is_pinned. destruct (rs_metas (filled_state fill) !! Block_id b2) as [m|]; [|done].
    exists m. split; [done|]. cbn in Hf. injection Hf as Hf. by apply andb_true_iff in Hf.
Qed.

Lemma LmdbRepoStore_remove_expired_witness :
  (∃ s' A', remove_expired (filled unpinned) = Ret (Ok tt, s') ∧ repo_rep s' A' ∧ rs_wf A' ∧
     ∀ id b, rs_blocks A' !! id = Some b ↔
             rs_blocks (filled_state unpinned) !! id = Some b ∧
             ¬ expired (filled_state unpinned) t60 id) ∧
  remove_expired (filled fill) = Panic.
Proof.
  split.
  - apply (LmdbRepoStore_remove_expired (filled unpinned) (filled_state unpinned) t60).
    + apply unpinned_rep.
    + apply unpinned_rep.
    + apply unpinned_clock.
    + intros id _. apply no_pins. vm_compute. reflexivity.
  - apply (LmdbRepoStore_remove_expired (filled fill) (filled_state fill) t60).
    + apply fill_rep.
    + apply fill_rep.
    + apply fill_clock.
    + apply pinned_expired.
Defined.

(** The third block goes, the first was used since and the second is pinned. *)
Example evicted :
  match remove_least_used 1 (filled fill) with
  | Ret (_, s) => (λ b, match get (Block_id b) s with Ret (Ok _, _) => true | _ => false end)
                    <$> [b1; b2; b3]
  | _ => []
  end = [true; true; false].
Proof. vm_compute. reflexivity. Qed.

(** A store of two blocks, one of them synced. *)
Definition lo_hi : Block * Block :=
  if bytes_lt (to_vec (Block_id b1)) (to_vec (Block_id b3)) then (b1, b3) else (b3, b1).
Definition one_synced : list (repo_op + u64) :=
  [inl (OpPut b1); inl (OpPut b3); inl (OpSynced (Block_id lo_hi.2) None)].
Lemma one_synced_rep :
  repo_rep (filled one_synced) (filled_state one_synced) ∧ rs_wf (filled_state one_synced).
Proof. apply filled_rep. vm_compute. reflexivity. Qed.
Lemma LmdbRepoStore_synced_append_witness :
  let A := filled_state one_synced in
  let id := Block_id lo_hi.1 in
  let m := default (new_meta false) (rs_metas A !! id) in
  let clash := BlockMeta_synced m = false ∧ BlockMeta_pin m = false ∧ behind A t0 id in
  (clash → has_been_synced id None (filled one_synced) = Panic) ∧
  (¬ clash → ∃ s', has_been_synced id None (filled one_synced) = Ret (Ok tt, s') ∧
     repo_rep s' (spec_op (OpSynced id None) t0 A)).
Proof.
  apply (LmdbRepoStore_synced_append (filled one_synced) (filled_state one_synced)).
  - apply one_synced_rep.
  - apply one_synced_rep.
  - split; vm_compute; done.
  - apply (bool_decide_unpack _). vm_compute. exact I.
  - exact I.
  - intros m. exact I.
Defined.
(** In the same minute, in the order of the identifiers and against it. *)
Definition sync_both (x y : Block) : bool :=
  match run_ops [inl (OpPut b1); inl (OpPut b3); inl (OpSynced (Block_id x) None);
                 inl (OpSynced (Block_id y) None)] s0 with
  | Ret _ => true
  | _ => false
  end.
Example synced_in_order : sync_both lo_hi.1 lo_hi.2 = true ∧ sync_both lo_hi.2 lo_hi.1 = false.
Proof. vm_compute. done. Qed.
End EvictExamples.
