(* ===== verification/LmdbIndexes.v ===== *)
(** * Which operations of an LMDB store panic, and what the others leave

    [LmdbProps] says what an operation that returns leaves. Here its panics are given too, on
    the abstract state: any sequence of operations, on any blocks, stored or not, panics
    where the specification does, and otherwise leaves indexes that agree with the rest. *)

From S2P Require Import Prelude Serde Types Block Store Utils LmdbRepoStore LmdbView LmdbMem LmdbProps LmdbEvict.
From S2P Require Import Bare BareTypes NetBare.
Import LmdbRepoStoreOps.

(** ** The specification *)

Section Spec.
Context `{!Crypto, !Serde Block, !Serde Digest}.

(** An entry of [id] at [t] can be appended to the list of used blocks: those of the same
    time sort before it. *)
Definition appends (M : gmap BlockId BlockMeta) (id : BlockId) (t : Timestamp) : bool :=
  bool_decide (map_Forall (λ j m, evictable m = true → BlockMeta_last_used m = t →
                                  bytes_lt (to_vec j) (to_vec id) = true) M).

(** Whether an operation returns, at the time [t] *)
Definition spec_returns (op : repo_op) (t : Timestamp) (A : repo_state) : bool :=
  let M := rs_metas A in
  match op with
  | OpGet id =>
      match rs_blocks A !! id, M !! id with
      | Some _, Some m => negb (evictable m) || appends (delete id M) id t
      | _, _ => true
      end
  | OpPut _ => true
  | OpDel id =>
      match rs_blocks A !! id, M !! id with
      | Some _, Some m => negb (BlockMeta_synced m && BlockMeta_pin m)
      | _, _ => true
      end
  | OpSetPin id add =>
      match M !! id with
      | Some m => add || negb (BlockMeta_pin m && BlockMeta_synced m) ||
                  appends M id (BlockMeta_last_used m)
      | None => true
      end
  | OpSynced id when =>
      let m := default (new_meta false) (M !! id) in
      BlockMeta_synced m || BlockMeta_pin m || appends M id (default t when)
  end.

(** The answers and the state after a sequence, unless one of it panics *)
Fixpoint spec_run (ops : list (repo_op + u64)) (t : Timestamp) (A : repo_state)
    : option (list repo_resp * repo_state) :=
  match ops with
  | [] => Some ([], A)
  | inl op :: ops =>
      if spec_returns op t A
      then '(rs, A') ← spec_run ops t (spec_op op t A); Some (spec_resp op A :: rs, A')
      else None
  | inr secs :: ops => spec_run ops (match now_timestamp secs with Ret t => t | _ => t end) A
  end.
End Spec.

Section Indexes.
Context `{!SingleStore, !MultiIntegerStore, !SingleStoreLaws, !MultiIntegerStoreLaws}.
Context `{!Crypto} `{!Serde Block, !Serde Digest, !Serde BlockMeta}.
Context `{!SerdeLaws Block, !SerdeLaws Digest, !SerdeLaws BlockMeta}.
Implicit Types (s : LmdbRepoStore) (A : repo_state) (id : BlockId).

#[local] Instance indexes_id_inj : Inj (=) (=) (to_vec (A := Digest)).
Proof. intros x y Hxy%to_vec_inj_skip. apply Hxy. Qed.

(** What is asked of the operations: blocks that fit and are put under their own hash, of
    which no two have the same; times past the epoch. *)
Definition op_takes (op : repo_op) A : Prop :=
  match op with
  | OpPut b => op_ok (OpPut b) A ∧ ss_fits (to_vec (Block_id b)) (to_vec b)
  | OpSynced _ (Some w) => uint_N w ≠ 0%N
  | _ => True
  end.
Fixpoint ops_take (ops : list (repo_op + u64)) (t : Timestamp) A : Prop :=
  match ops with
  | [] => True
  | inl op :: ops =>
      op_takes op A ∧ (spec_returns op t A = true → ops_take ops t (spec_op op t A))
  | inr secs :: ops => ∃ t, now_timestamp secs = Ret t ∧ uint_N t ≠ 0%N ∧ ops_take ops t A
  end.

(** The databases take identifiers and metas. *)
Context (Hmi : ∀ id, mi_fits (to_vec id)) (Hss : ∀ id (m : BlockMeta), ss_fits (to_vec id) (to_vec m)).

(** [if_returns b m]: [m] returns when [b] holds and panics when it does not. *)
Definition if_returns {X} (b : bool) (m : outcome X) : Prop := if b then returns m else m = Panic.
Lemma if_returns_bind {X Y} b (m : outcome X) (k : X → outcome Y) :
  if_returns b m → (∀ x, m = Ret x → returns (k x)) → if_returns b (m ≫= k).
Proof.
  unfold if_returns. destruct b; [intros [x ->] Hk; by apply Hk|by intros ->].
Qed.
Lemma meta_put_returns id m s : returns (meta_put (to_vec id) m s).
Proof. unfold meta_put. destruct (ss_put_fits (meta_store s) _ _ (Hss id m)) as [db ->]. by eexists. Qed.

Lemma add_to_lru_if id t s M : lru_rep (recently_used_store s) M →
  if_returns (appends M id t) (add_to_lru (to_vec id) t s).
Proof.
  intros Hlru. pose proof (add_to_lru_append id t s M Hlru (Hmi id)) as Hiff.
  unfold appends. case_bool_decide as Ha; cbn [if_returns]; [by apply Hiff|].
  destruct (add_to_lru _ _ _) as [s'| |] eqn:Hadd; [|done|].
  - exfalso. apply Ha. refine (proj1 Hiff _). by eexists.
  - unfold add_to_lru in Hadd. by destruct (mi_put_append _ _ _).
Qed.
Lemma remove_evictable id s M m : lru_rep (recently_used_store s) M →
  M !! id = Some m → evictable m = true → ∃ db,
  remove_from_lru (to_vec id) (BlockMeta_last_used m) s = Ret (set_recently_used s db) ∧
  lru_rep db (delete id M).
Proof.
  intros Hlru Hm He. unfold remove_from_lru.
  destruct (proj2 (mi_delete_some (recently_used_store s) (BlockMeta_last_used m) (to_vec id))) as [db Hdb].
  { apply Hlru. by exists id, m. }
  rewrite Hdb. exists db. split; [done|]. by eapply lru_rep_remove.
Qed.

(** ** One operation *)

Lemma main_absent s id : lmdb_ok s → lmdb_view s !! id = None →
  ss_view (main_store s) !! to_vec id = None.
Proof.
  intros Hok Hb. destruct (ss_view _ !! _) as [v|] eqn:Hv; [|done].
  destruct (main_lookup s id v Hok Hv) as (b & _ & Hb' & _). congruence.
Qed.

Lemma get_if id s A t : repo_rep s A → clock_ok s t →
  if_returns (spec_returns (OpGet id) t A) (get id s).
Proof.
  intros (Hok & Hview & Hmetas & Hlru & _) [Hclock _]. unfold get. rewrite ss_get_law. cbn [spec_returns].
  destruct (rs_blocks A !! id) as [b|] eqn:Hb; rewrite <- Hview in Hb.
  2:{ rewrite (main_absent s id Hok Hb). by eexists. }
  destruct (view_lookup s id b Hok Hb) as (-> & Hskip & Hid).
  apply if_returns_bind.
  2:{ intros s1 _. rewrite from_slice_to_vec, Hskip. rewrite decide_False; [by eexists|].
      intros Hne. apply Hne. rewrite <- Hid, <- Hskip. apply id_ok_skip. }
  unfold touch. rewrite (meta_get_rep s _ id Hmetas). cbn [mbind outcome_bind].
  destruct (rs_metas A !! id) as [m|] eqn:Hm; [|by eexists].
  unfold evictable at 1. destruct (BlockMeta_synced m) eqn:Hs; [|by eexists]. cbn [andb].
  rewrite Hclock. cbn [mbind outcome_bind]. destruct (BlockMeta_pin m) eqn:Hp; cbn [negb orb].
  { destruct (meta_put_returns id {| BlockMeta_pin := true; BlockMeta_last_used := t;
      BlockMeta_synced := true |} s) as [s1 Hs1]. exists s1. exact Hs1. }
  destruct (remove_evictable id s _ m Hlru Hm) as (db & -> & Hdb);
    [unfold evictable; by rewrite Hs, Hp|]. cbn [mbind outcome_bind].
  apply if_returns_bind; [by apply add_to_lru_if|]. intros s1 _. apply meta_put_returns.
Qed.
Lemma put_if b s A : op_takes (OpPut b) A → returns (put b s).
Proof.
  intros [_ Hfits]. unfold put, main_put. cbv zeta.
  destruct (ss_put_fits (main_store s) _ _ Hfits) as [db ->]. cbn [unwrap mbind outcome_bind].
  destruct (Block_expiry b) as [e|]; [|by eexists]. unfold expiry_put.
  destruct (mi_put_fits (expiry_store (set_main s db)) e _ (Hmi (Block_id b))) as [db' ->]. by eexists.
Qed.
Lemma set_pin_if id add s A t : repo_rep s A →
  if_returns (spec_returns (OpSetPin id add) t A) (set_pin id add s).
Proof.
  intros (_ & _ & Hmetas & Hlru & _). unfold set_pin. rewrite (meta_get_rep s _ id Hmetas).
  cbn [mbind outcome_bind spec_returns]. destruct (rs_metas A !! id) as [m|] eqn:Hm.
  2:{ destruct add; [|by eexists]. cbn [if_returns].
      destruct (meta_put_returns id (new_meta true) s) as [s1 Hs1].
      change (meta_put (to_vec id) {| BlockMeta_pin := true; BlockMeta_last_used := uint_wrap 32 0;
        BlockMeta_synced := false |} s) with (meta_put (to_vec id) (new_meta true) s). rewrite Hs1. by eexists. }
  case_bool_decide as Hadd.
  { assert (Hret : add || negb (BlockMeta_pin m && BlockMeta_synced m) = true) by (subst add; by destruct (BlockMeta_pin m)).
    rewrite Hret. by eexists. }
  cbn [BlockMeta_synced]. destruct (BlockMeta_synced m) eqn:Hs; cycle 1.
  { rewrite andb_false_r, orb_true_r. cbn [if_returns mbind outcome_bind].
    edestruct (meta_put_returns id) as [s1 ->]. by eexists. }
  apply if_returns_bind; [|intros s1 _; edestruct (meta_put_returns id) as [s2 ->]; by eexists].
  destruct (BlockMeta_pin m) eqn:Hp, add; try done; cbn [andb negb orb].
  - by apply add_to_lru_if.
  - cbn [BlockMeta_last_used]. destruct (remove_evictable id s _ m Hlru Hm) as (db & -> & _);
      [unfold evictable; by rewrite Hs, Hp|].
    by eexists.
Qed.
Lemma synced_if id when s A t : repo_rep s A → clock_ok s t →
  if_returns (spec_returns (OpSynced id when) t A) (has_been_synced id when s).
Proof.
  intros (_ & _ & Hmetas & Hlru & _) [Hclock _]. unfold has_been_synced.
  rewrite (meta_get_rep s _ id Hmetas). cbn [mbind outcome_bind].
  assert (match when with None => now_timestamp (clock s) | Some w => Ret w end = Ret (default t when))
    as -> by by destruct when.
  cbn [mbind outcome_bind spec_returns]. set (now := default t when).
  destruct (rs_metas A !! id) as [m|];
    [change (default (new_meta false) (Some m)) with m|change (default (new_meta false) None) with (new_meta false)];
    cbv zeta.
  - destruct (BlockMeta_synced m); [eexists; reflexivity|]. cbn [orb].
    apply if_returns_bind; [|intros s1 _; edestruct (meta_put_returns id) as [s2 ->]; by eexists].
    destruct (BlockMeta_pin m); [eexists; reflexivity|]. by apply add_to_lru_if.
  - cbn [new_meta BlockMeta_synced BlockMeta_pin orb].
    apply if_returns_bind; [by apply add_to_lru_if|]. intros s1 _.
    edestruct (meta_put_returns id) as [s2 ->]. by eexists.
Qed.
Lemma del_if id s A t : repo_rep s A → times_ok A →
  if_returns (spec_returns (OpDel id) t A) (del id s).
Proof.
  intros Hrep Hwf. pose proof Hrep as (Hok & Hview & _). cbn [spec_returns].
  destruct (rs_blocks A !! id) as [b|] eqn:Hb.
  2:{ unfold del. rewrite ss_get_law, main_absent by (done || congruence). by eexists. }
  destruct (is_pinned_dec A id) as [Hpin|Hpin].
  - pose proof Hpin as (m & -> & -> & ->). by apply (del_pinned_panics id s A b).
  - pose proof (del_unpinned id s A b Hrep Hwf Hb Hpin) as Hret.
    destruct (rs_metas A !! id) as [m|] eqn:Hm; [|done].
    destruct (BlockMeta_synced m) eqn:Hs; [|done]. destruct (BlockMeta_pin m) eqn:Hp; [|done].
    destruct Hpin. by exists m.
Qed.

Lemma run_op_if op s A t : repo_rep s A → times_ok A → clock_ok s t → op_takes op A →
  if_returns (spec_returns op t A) (run_op op s).
Proof.
  intros Hrep Hwf Hc Hop.
  destruct op as [id|b|id|id add|id when]; cbn [run_op];
    (apply if_returns_bind; [|intros [r s1] _; by eexists]).
  - by apply get_if.
  - by apply (put_if b s A).
  - by apply del_if.
  - by apply set_pin_if.
  - by apply synced_if.
Qed.

Lemma times_insert B M id m : times_ok {| rs_blocks := B; rs_metas := M |} →
  (uint_N (BlockMeta_last_used m) =? 0)%N = negb (BlockMeta_synced m) →
  times_ok {| rs_blocks := B; rs_metas := <[id := m]> M |}.
Proof.
  intros HM Hm j n Hj. cbn in Hj. apply lookup_insert_Some in Hj as [[_ <-]|[_ Hj]]; [done|by apply (HM j)].
Qed.
Lemma spec_op_times op t A : times_ok A → op_takes op A → uint_N t ≠ 0%N → times_ok (spec_op op t A).
Proof.
  destruct A as [B M]. intros HM Hop Ht%N.eqb_neq. unfold spec_op.
  destruct op as [id|b|id|id add|id when]; cbn [spec_blocks spec_metas rs_blocks rs_metas].
  - destruct (B !! id), (M !! id) as [m|]; try done. destruct (BlockMeta_synced m); [|done].
    by apply times_insert.
  - done.
  - destruct (B !! id); [|done]. intros j m Hm. cbn in Hm.
    apply lookup_delete_Some in Hm as [_ Hm]. by apply (HM j).
  - destruct (M !! id) as [m|] eqn:Hm; [|destruct add; [|done]]; apply times_insert; try done.
    exact (HM id m Hm).
  - destruct (BlockMeta_synced _); [done|]. apply times_insert; [done|].
    destruct when; cbn; [by apply N.eqb_neq|done].
Qed.

(** C20: whatever is done with an LMDB store, with blocks that are stored or not, it panics
    exactly where the specification says: where a block is used, unpinned or synced in the
    minute in which another that does not sort before it was last used, and where a block
    that is pinned and was synced is deleted. Until then every answer, block, pin,
    synchronization and time of use is as the operations say, and the two indexes agree with
    them: the list of used blocks holds exactly the blocks that were marked as synced and are
    not pinned, each under the time of its last use, and the expiry database exactly the
    stored blocks that expire, each under its expiry. *)
Theorem LmdbRepoStore_indexes ops s A t :
  repo_rep s A → times_ok A → clock_ok s t → ops_take ops t A →
  match spec_run ops t A with
  | Some (rs, A') => ∃ s', run_ops ops s = Ret (rs, s') ∧ repo_rep s' A' ∧ times_ok A'
  | None => run_ops ops s = Panic
  end.
Proof.
  revert s A t. induction ops as [|[op|secs] ops IH]; intros s A t Hrep Hwf Hc Hops;
    cbn [run_ops spec_run ops_take] in *.
  - by exists s.
  - destruct Hops as [Hop Hops]. pose proof (run_op_if op s A t Hrep Hwf Hc Hop) as Hif.
    destruct (spec_returns op t A); [|by rewrite Hif]. destruct Hif as [[r s1] Hrun].
    destruct (run_op_rep op s A t r s1 Hrep Hwf Hc) as (-> & Hrep1 & Hclock); [|done|].
    { intros b ->. apply Hop. }
    specialize (IH s1 (spec_op op t A) t Hrep1 (spec_op_times op t A Hwf Hop (proj2 Hc))).
    rewrite Hrun. cbn [mbind outcome_bind].
    destruct (spec_run ops t (spec_op op t A)) as [[rs A']|]; cbn [mbind option_bind];
      [destruct IH as (s' & -> & ?); [|by apply Hops|by exists s']|rewrite IH; [done| |by apply Hops]];
      unfold clock_ok; by rewrite Hclock.
  - destruct Hops as (t' & Ht & Hne & Hops). rewrite Ht. by apply IH.
Qed.
End Indexes.

(** ** Examples *)

Module IndexesExamples.
Import BareTypes.Instances NetBare.NetInstances LmdbMem LmdbExamples EvictExamples.

(** Decides [ops_take]: the databases in memory take everything. *)
Definition op_takesb (op : repo_op) (A : repo_state) : bool :=
  match op with
  | OpPut b => op_okb (OpPut b) A
  | OpSynced _ (Some w) => negb (uint_N w =? 0)%N
  | _ => true
  end.
Fixpoint ops_takeb (ops : list (repo_op + u64)) (t : Timestamp) (A : repo_state) : bool :=
  match ops with
  | [] => true
  | inl op :: ops => op_takesb op A && (negb (spec_returns op t A) || ops_takeb ops t (spec_op op t A))
  | inr secs :: ops =>
      match now_timestamp secs with
      | Ret t => negb (uint_N t =? 0)%N && ops_takeb ops t A
      | _ => false
      end
  end.
Lemma op_takes_dec op A : op_takesb op A = true → op_takes op A.
Proof.
  destruct op as [|b| | |id [w|]]; cbn [op_takesb]; [done| |done..| |done].
  - intros Hb. split; [by apply op_ok_dec|done].
  - by intros Hw%negb_true_iff%N.eqb_neq.
Qed.
Lemma ops_take_dec ops t A : ops_takeb ops t A = true → ops_take ops t A.
Proof.
  revert t A. induction ops as [|[op|secs] ops IH]; intros t A; cbn; [done| |].
  - intros [Hop Hops]%andb_true_iff. split; [by apply op_takes_dec|]. intros Hret.
    rewrite Hret in Hops. by apply IH.
  - destruct (now_timestamp secs) as [t'| |]; [|done..]. intros [Ht Hops]%andb_true_iff.
    exists t'. split_and!; [done|by apply N.eqb_neq, negb_true_iff|by apply IH].
Qed.

(** The third block is marked as synced before it is stored, and pinned after it is gone. *)
Definition absent : list (repo_op + u64) :=
  [inl (OpPut b1); inl (OpPut b2); inl (OpSynced (Block_id b3) None); inr (minute 11);
   inl (OpSynced (Block_id b1) None); inl (OpSetPin (Block_id b1) true); inr (minute 12);
   inl (OpPut b3); inl (OpGet (Block_id b3)); inl (OpDel (Block_id b3));
   inl (OpSetPin (Block_id b3) true)].
(** Two blocks in the same minute, against the order of their identifiers *)
Definition against : list (repo_op + u64) :=
  [inl (OpPut b1); inl (OpPut b3); inl (OpSynced (Block_id lo_hi.2) None);
   inl (OpSynced (Block_id lo_hi.1) None)].

Lemma LmdbRepoStore_indexes_witness :
  (∃ rs A', spec_run absent t0 A0 = Some (rs, A') ∧
     ∃ s', run_ops absent s0 = Ret (rs, s') ∧ repo_rep s' A' ∧ times_ok A') ∧
  run_ops against s0 = Panic.
Proof.
  split.
  - assert (Hret : (if spec_run absent t0 A0 is Some _ then true else false) = true) by (vm_compute; done).
    pose proof (LmdbRepoStore_indexes (λ _, I) (λ _ _, I) absent s0 A0 t0 (A0_rep _) (proj2 A0_wf)
      t0_now (ops_take_dec absent t0 A0 ltac:(vm_compute; done))) as H.
    destruct (spec_run absent t0 A0) as [[rs A']|]; [|discriminate Hret].
    exists rs, A'. exact (conj eq_refl H).
  - assert (Hret : (if spec_run against t0 A0 is Some _ then true else false) = false) by (vm_compute; done).
    pose proof (LmdbRepoStore_indexes (λ _, I) (λ _ _, I) against s0 A0 t0 (A0_rep _) (proj2 A0_wf)
      t0_now (ops_take_dec against t0 A0 ltac:(vm_compute; done))) as H.
    destruct (spec_run against t0 A0); [discriminate Hret|exact H].
Defined.

(** A block that was marked as synced and never stored is in the list of used blocks: the
    eviction that comes to it panics. *)
Definition evict_after (ops : list (repo_op + u64)) : outcome (usize * LmdbRepoStore) :=
  '(_, s) ← run_ops ops s0; remove_least_used 1 s.
Example absent_evicted :
  match evict_after [inl (OpSynced (Block_id b3) None)] with Panic => true | _ => false end = true ∧
  match evict_after [inl (OpPut b3); inl (OpSynced (Block_id b3) None)] with
  | Ret _ => true | _ => false end = true.
Proof. vm_compute. done. Qed.
End IndexesExamples.
