(* ===== verification/Server.v ===== *)
(** * The broker's server: [BrokerServer] of [lofire-broker/src/server.rs]

    A server keeps the broker's tables in one store and the blocks of every repository in a
    store of their own, which it opens when it is first used. The block stores and what
    opens them are interfaces, which [LmdbServed] implements. *)

From S2P Require Import Prelude Serde Types Block Store Object Utils Branch NetTypes NetErrors.
From S2P Require Import BrokerStore BrokerTables.

(** ** Block stores, as a server uses them *)

(** [LmdbRepoStore::pin] and [LmdbRepoStore::unpin] *)
Class ServedStore (R : Type) : Type := {
  served_pin : ObjectId → R → outcome (result unit StorageError * R);
  served_unpin : ObjectId → R → outcome (result unit StorageError * R)
}.

(** A store that serializes what is put. *)
Class SerializingStore (R : Type) `{!Crypto, !Serde Block, !RepoStore R} : Prop := {
  store_put_skip (b : Block) (r : R) : id_ok b → store_put (serde_skip b) r = store_put b r
}.

(** The directory of a block store, below [REPO_STORES_SUBDIR] in that of the broker's store
    and named by the identifier.  [dir_create] is whether [create_dir_all] succeeds;
    [repo_create] is [LmdbRepoStore::open] on a directory that has no store yet, with an
    encryption key; [repo_reopen] on a directory that has one, of which are given the key it
    was created with and what it holds. *)
Class RepoDirs (R : Type) : Type := {
  dir_create : RepoStoreId → bool;
  repo_create : array 32 → outcome R;
  repo_reopen : array 32 → array 32 → R → outcome R
}.

(** The contract: pins change no block, an empty directory is opened as an empty store, and
    a directory opened again with the key it was created with holds what it held. *)
Class ServedSpec (R : Type) `{!Crypto, !Serde Block, !RepoStore R, !RepoStoreSpec R}
    `{!ServedStore R, !RepoDirs R} : Prop := {
  served_pin_spec id r : store_inv r → ∃ r',
    served_pin id r = Ret (Ok tt, r') ∧ store_inv r' ∧ store_view r' = store_view r;
  served_unpin_spec id r : store_inv r → ∃ r',
    served_unpin id r = Ret (Ok tt, r') ∧ store_inv r' ∧ store_view r' = store_view r;
  repo_create_spec k : ∃ r, repo_create k = Ret r ∧ store_inv r ∧ store_view r = ∅;
  repo_reopen_spec k r : store_inv r → ∃ r',
    repo_reopen k k r = Ret r' ∧ store_inv r' ∧ store_view r' = store_view r
}.

(** [RwLock::write] called by a thread that holds the lock for reading: the standard library
    documents that it may panic or never return. *)
Class RwLockRelock : Type := { write_while_reading : outcome unit }.
Class RwLockRelockLaws `{!RwLockRelock} : Prop := {
  write_while_reading_law : ¬ returns write_while_reading
}.

(** ** Errors *)

Inductive BrokerError : Type :=
  | BrokerError_CannotStart
  | BrokerError_MismatchedMode
  | BrokerError_OverlayNotFound.
Definition ProtocolError_of_BrokerError (e : BrokerError) : ProtocolError :=
  match e with
  | BrokerError_CannotStart => OverlayNotFound
  | BrokerError_OverlayNotFound => OverlayNotFound
  | _ => NetErrors.BrokerError
  end.
Definition BrokerError_of_StorageError (e : StorageError) : BrokerError :=
  match e with
  | StorageError_InvalidValue => BrokerError_MismatchedMode
  | _ => BrokerError_CannotStart
  end.

(** ** The server *)

(** [repo_stores] is the set of the stores that are open. A handle refers to what is in the
    store's directory, which two handles share: [disk], with the encryption keys. *)
Record BrokerServer {S R : Type} : Type := {
  store : S;
  mode : ConfigMode;
  repo_stores : gset RepoStoreId;
  overlayid_to_repostore : gmap OverlayId RepoStoreId;
  disk : gmap RepoStoreId (array 32 * R)
}.
Arguments BrokerServer : clear implicits.

Section Server.
Context {S R : Type} `{!BrokerStore S, !RepoStore R, !ServedStore R, !RepoDirs R}.
Context `{!RwLockRelock, !Crypto, !Ed25519, !Bloom}.
Context `{!Serde Block, !Serde BlockContentV0, !Serde ObjectContent, !Serde AddUserContentV0}.
Context `{!Serde Digest, !Serde SymKey, !Serde PubKey, !Serde bool, !Serde u32}.
Context `{!Serde OverlayMeta, !Serde PeerAdvert, !Serde RepoStoreId}.
Context `{!Serde (array 5), !Serde ConfigMode}.

Abbreviation server := (BrokerServer S R).
Implicit Types (srv : server).

(** A method of the server, and a function of a block store. *)
Definition srv (A : Type) : Type := server → outcome (result A ProtocolError * server).
Definition on_repo (A : Type) : Type := R → outcome (result A ProtocolError * R).

Definition srv_ok {A} (a : A) : srv A := λ s, Ret (Ok a, s).
Definition srv_err {A} (e : ProtocolError) : srv A := λ s, Ret (Err e, s).
(** The [?] operator *)
Definition srv_try {A B} (m : srv A) (k : A → srv B) : srv B := λ s,
  '(r, s) ← m s;
  match r with Ok a => k a s | Err e => Ret (Err e, s) end.
Definition with_store srv (s : S) : server :=
  {| store := s; mode := mode srv; repo_stores := repo_stores srv;
     overlayid_to_repostore := overlayid_to_repostore srv; disk := disk srv |}.
Definition with_open (id : RepoStoreId) srv : server :=
  {| store := store srv; mode := mode srv; repo_stores := {[id]} ∪ repo_stores srv;
     overlayid_to_repostore := overlayid_to_repostore srv; disk := disk srv |}.
Definition with_overlay (o : OverlayId) (id : RepoStoreId) srv : server :=
  {| store := store srv; mode := mode srv; repo_stores := repo_stores srv;
     overlayid_to_repostore := <[o := id]> (overlayid_to_repostore srv); disk := disk srv |}.
Definition with_disk (id : RepoStoreId) (d : array 32 * R) srv : server :=
  {| store := store srv; mode := mode srv; repo_stores := repo_stores srv;
     overlayid_to_repostore := overlayid_to_repostore srv; disk := <[id := d]> (disk srv) |}.

(** A call on the broker's tables, of which [f] converts the error. *)
Definition on_store {A} (f : StorageError → ProtocolError) (m : io S A) : srv A := λ srv,
  '(r, s) ← m (store srv); Ret (map_err f r, with_store srv s).

(** [BrokerServer::new], on what the directories hold *)
Definition new (s : S) (m : ConfigMode) (dirs : gmap RepoStoreId (array 32 * R))
    : outcome (result server BrokerError * S) :=
  '(r, s) ← (config ←$ Config.get_or_create m; io_read (Config.mode config)) s;
  Ret (map_err BrokerError_of_StorageError
         (configmode ←? r;
          Ok {| store := s; mode := configmode; repo_stores := ∅; overlayid_to_repostore := ∅;
                disk := dirs |}), s).

(** [LmdbRepoStore::open] *)
Definition open_dir (id : RepoStoreId) (key : array 32) srv : outcome server :=
  match disk srv !! id with
  | None => r ← repo_create key; Ret (with_disk id (key, r) srv)
  | Some (k, r) => r ← repo_reopen k key r; Ret (with_disk id (k, r) srv)
  end.

(** [f(repo)] on a store that is open *)
Definition call_repo {A} (f : on_repo A) (id : RepoStoreId) : srv A := λ srv,
  match disk srv !! id with
  | Some (k, r) => '(res, r) ← f r; Ret (res, with_disk id (k, r) srv)
  | None => Panic
  end.

(** [BrokerServer::open_or_create_repostore]. [reading] is whether the caller holds the lock
    of [repo_stores] for reading. *)
Definition open_or_create_repostore {A} (reading : bool) (repostore_id : RepoStoreId)
    (f : on_repo A) : srv A :=
  srv_try (on_store (λ _, ProtocolError_of_BrokerError BrokerError_OverlayNotFound)
             (RepoStoreInfo.open repostore_id)) (λ info,
  srv_try (on_store ProtocolError_of_StorageError (io_read (RepoStoreInfo.key info))) (λ key,
  if negb (dir_create repostore_id) then srv_err WriteError else λ srv,
  srv ← open_dir repostore_id (SymKey_slice key) srv;
  _ ← (if (reading : bool) then write_while_reading else Ret tt);
  call_repo f repostore_id (with_open repostore_id srv))).

(** [BrokerServer::get_repostore_from_overlay_id] *)
Definition get_repostore_from_overlay_id {A} (overlay_id : OverlayId) (f : on_repo A) : srv A :=
  λ srv,
  match mode srv with
  | ConfigMode_Core =>
      let repostore_id := RepoStoreId_Overlay overlay_id in
      if decide (repostore_id ∈ repo_stores srv) then call_repo f repostore_id srv
      else open_or_create_repostore true repostore_id f srv
  | ConfigMode_Local =>
      match overlayid_to_repostore srv !! overlay_id with
      | Some repostoreid =>
          if decide (repostoreid ∈ repo_stores srv) then call_repo f repostoreid srv
          else Ret (Err NetErrors.BrokerError, srv)
      | None =>
          srv_try (on_store ProtocolError_of_StorageError (Overlay.open overlay_id)) (λ overlay,
          srv_try (on_store ProtocolError_of_StorageError (io_read (Overlay.repo overlay))) (λ repo_id,
          let repostore_id := RepoStoreId_Repo repo_id in λ srv,
          open_or_create_repostore false repostore_id f
            (with_overlay overlay_id repostore_id srv))) srv
      end
  end.

(** ** Users *)

(** [BrokerServer::add_user] *)
Definition add_user (admin_user user_id : PubKey) (sig : Sig) : srv unit :=
  match verify (to_vec {| AddUserContentV0_user := user_id |}) sig admin_user with
  | Err e => srv_err (ProtocolError_of_LofireError e)
  | Ok _ => λ srv,
      '(account, s) ← Account.open user_id (store srv);
      let srv := with_store srv s in
      match account with
      | Ok _ => Ret (Err UserAlreadyExists, srv)
      | Err _ =>
          srv_try (on_store ProtocolError_of_StorageError (Account.create user_id false))
            (λ _, srv_ok tt) srv
      end
  end.

(** [BrokerServer::del_user], [add_client] and [del_client]: to be implemented *)
Definition del_user (admin_user user_id : PubKey) (sig : Sig) : srv unit := srv_ok tt.
Definition add_client (user client_id : PubKey) (sig : Sig) : srv unit := srv_ok tt.
Definition del_client (user client_id : PubKey) (sig : Sig) : srv unit := srv_ok tt.

(** ** Blocks and objects *)

(** [BrokerServer::connect_overlay] *)
Definition connect_overlay (user : PubKey) (overlay : OverlayId) : srv unit :=
  srv_err OverlayNotJoined.

(** The loops over the blocks of an object, each of which is visited once: a method of the
    store on every identifier, and the blocks sent to a channel. *)
Fixpoint each_block (act : BlockId → R → outcome (result unit StorageError * R))
    (blocks : list Block) (deduplicated : gset ObjectId) : on_repo unit := λ r,
  match blocks with
  | [] => Ret (Ok tt, r)
  | block :: blocks =>
      let id := Block_id block in
      if decide (id ∈ deduplicated) then each_block act blocks deduplicated r
      else
        '(res, r) ← act id r;
        match res with
        | Err e => Ret (Err (ProtocolError_of_StorageError e), r)
        | Ok _ => each_block act blocks ({[id]} ∪ deduplicated) r
        end
  end.
Fixpoint send_blocks (blocks : list Block) (deduplicated : gset BlockId)
    : list Block * gset BlockId :=
  match blocks with
  | [] => ([], deduplicated)
  | block :: blocks =>
      let id := Block_id block in
      if decide (id ∈ deduplicated) then send_blocks blocks deduplicated
      else let '(sent, deduplicated) := send_blocks blocks ({[id]} ∪ deduplicated) in
           (block :: sent, deduplicated)
  end.

(** More than the height of any object, for [Object::load]; more than the number of commits,
    for the walk of [Branch::sync_req]. *)
Variable obj_fuel : nat.

(** [Object::load(id, None, store)] and what the methods below do with its error *)
Definition load_object {A} (id : ObjectId) (k : Object → on_repo A) : on_repo A := λ r,
  '(obj, r) ← Object_load obj_fuel id None r;
  match obj with
  | Err _ => Ret (Err NotFound, r)
  | Ok o => k o r
  end.

(** [store.del(&id)?], the block dropped *)
Definition del_block (id : BlockId) (r : R) : outcome (result unit StorageError * R) :=
  '(res, r) ← store_del id r; Ret ((_ ←? res; Ok tt), r).

(** [BrokerServer::del_object], [pin_object] and [unpin_object], each with the closure it
    runs on the store *)
Definition del_object_in (id : ObjectId) : on_repo unit :=
  load_object id (λ o, each_block del_block (Object_blocks o) ∅).
Definition del_object (user : PubKey) (overlay : Digest) (id : ObjectId) : srv unit :=
  get_repostore_from_overlay_id overlay (del_object_in id).
Definition pin_object_in (id : ObjectId) : on_repo unit :=
  load_object id (λ o, each_block served_pin (Object_blocks o) ∅).
Definition pin_object (user : PubKey) (overlay : OverlayId) (id : ObjectId) : srv unit :=
  get_repostore_from_overlay_id overlay (pin_object_in id).
Definition unpin_object_in (id : ObjectId) : on_repo unit :=
  load_object id (λ o, each_block served_unpin (Object_blocks o) ∅).
Definition unpin_object (user : PubKey) (overlay : OverlayId) (id : ObjectId) : srv unit :=
  get_repostore_from_overlay_id overlay (unpin_object_in id).

(** [BrokerServer::copy_object]: [todo!] *)
Definition copy_object (user : PubKey) (overlay : OverlayId) (id : ObjectId)
    (expiry : option Timestamp) : srv ObjectId := λ srv, Panic.

(** [BrokerServer::put_block] *)
Definition put_block_in (block : Block) : on_repo unit := λ r,
  '(res, r) ← store_put block r;
  Ret (map_err ProtocolError_of_StorageError (_ ←? res; Ok tt), r).
Definition put_block (user : PubKey) (overlay : OverlayId) (block : Block) : srv unit :=
  get_repostore_from_overlay_id overlay (put_block_in block).

(** [BrokerServer::get_block]. The receiver of an unbounded channel whose sender is dropped
    is the list of what was sent; sending on it does not fail. *)
Definition get_block_in (id : BlockId) (include_children : bool) : on_repo (list Block) :=
  if negb include_children then λ r,
    '(res, r) ← store_get id r;
    Ret (map_err ProtocolError_of_StorageError (block ←? res; Ok [block]), r)
  else load_object id (λ o r, Ret (Ok (send_blocks (Object_blocks o) ∅).1, r)).
Definition get_block (user : PubKey) (overlay : OverlayId) (id : BlockId)
    (include_children : bool) (topic : option PubKey) : srv (list Block) :=
  get_repostore_from_overlay_id overlay (get_block_in id include_children).

(** The outer loop of [sync_branch] *)
Fixpoint send_objects (ids : list ObjectId) (deduplicated : gset BlockId)
    : on_repo (list Block) := λ r,
  match ids with
  | [] => Ret (Ok [], r)
  | objectid :: ids =>
      '(object, r) ← Object_load obj_fuel objectid None r;
      match object with
      | Err e => Ret (Err (ProtocolError_of_ObjectParseError e), r)
      | Ok object =>
          let '(sent, deduplicated) := send_blocks (Object_blocks object) deduplicated in
          '(rest, r) ← send_objects ids deduplicated r;
          Ret ((rest ←? rest; Ok (sent ++ rest)), r)
      end
  end.

(** [BrokerServer::sync_branch] *)
Definition sync_branch_in (fuel : nat) (heads known_heads : list ObjectId)
    (known_commits : BloomFilter) : on_repo (list Block) := λ r,
  res ← sync_req obj_fuel fuel heads known_heads known_commits r;
  match res with
  | Err _ => Ret (Err ObjectParseError, r)
  | Ok (ids, r) => send_objects ids ∅ r
  end.
Definition sync_branch (fuel : nat) (user : PubKey) (overlay : OverlayId)
    (heads known_heads : list ObjectId) (known_commits : BloomFilter) : srv (list Block) :=
  get_repostore_from_overlay_id overlay (sync_branch_in fuel heads known_heads known_commits).

(** ** Overlays *)

(** [BrokerServer::compute_repostore_id] *)
Definition compute_repostore_id (srv : server) (overlay : OverlayId) (repo_id : option PubKey)
    : outcome RepoStoreId :=
  match mode srv with
  | ConfigMode_Core => Ret (RepoStoreId_Overlay overlay)
  | ConfigMode_Local => repo_id ← unwrap repo_id; Ret (RepoStoreId_Repo repo_id)
  end.

(** The loop of [join_overlay] over the peers *)
Fixpoint add_peers (peers : list PeerAdvert) (overlay : Overlay.Overlay) : io S unit :=
  match peers with
  | [] => io_ok tt
  | advert :: peers =>
      _ ←$ Peer.update_or_create advert;
      _ ←$ Overlay.add_peer (PeerAdvert_peer advert) overlay;
      add_peers peers overlay
  end.

(** Of [join_overlay]: an overlay that is not in the table *)
Definition new_overlay (overlay_id : OverlayId) (repo_id : option PubKey) (secret : SymKey)
    (random_buf : option (array 32)) (secs : u64) : srv Overlay.Overlay := λ srv,
  if bool_decide (mode srv = ConfigMode_Local) && bool_decide (repo_id = None)
  then Ret (Err RepoIdRequired, srv) else
  srv_try (on_store ProtocolError_of_StorageError
    (Overlay.create overlay_id secret
       (if decide (mode srv = ConfigMode_Local) then repo_id else None) secs)) (λ over srv,
    random_buf ← unwrap random_buf;
    let key := ChaCha20Key random_buf in
    repostore_id ← compute_repostore_id srv overlay_id repo_id;
    srv_try (on_store ProtocolError_of_StorageError (RepoStoreInfo.create repostore_id key))
      (λ _, srv_ok over) srv) srv.

(** [BrokerServer::join_overlay], with the randomness it draws and the time *)
Definition join_overlay (user : PubKey) (overlay_id : OverlayId) (repo_id : option PubKey)
    (secret : SymKey) (peers : list PeerAdvert) (random_buf : option (array 32)) (secs : u64)
    : srv unit := λ srv,
  '(overlay_res, s) ← Overlay.open overlay_id (store srv);
  let srv := with_store srv s in
  srv_try (match overlay_res with
           | Err e =>
               if decide (e = StorageError_NotFound)
               then new_overlay overlay_id repo_id secret random_buf secs
               else srv_err (ProtocolError_of_StorageError e)
           | Ok overlay => srv_ok overlay
           end) (λ overlay,
  on_store ProtocolError_of_StorageError (
    _ ←$ add_peers peers overlay;
    account ←$ Account.open user;
    _ ←$ Account.add_overlay overlay_id account;
    io_ok tt)) srv.
End Server.

(** ** Lemmas *)

Section Inversion.
Context {S R : Type} `{!BrokerStore S, !RepoStore R, !ServedStore R, !RepoDirs R}.
Context `{!RwLockRelock, !Serde RepoStoreId, !Serde SymKey}.
Context `{!Serde Digest, !Serde PubKey, !Serde OverlayMeta}.
Implicit Types (srv : BrokerServer S R).

Lemma srv_try_inv {A C} (m : Server.srv (S := S) (R := R) A) (k : A → Server.srv C) srv r srv' :
  srv_try m k srv = Ret (r, srv') →
  (∃ e, m srv = Ret (Err e, srv') ∧ r = Err e) ∨
  ∃ a srv1, m srv = Ret (Ok a, srv1) ∧ k a srv1 = Ret (r, srv').
Proof.
  unfold srv_try. destruct (m srv) as [[[a|e] srv1]| |]; cbn; [|intros [= <- <-]|done..]; eauto.
Qed.
Lemma on_store_inv {A} f (m : io S A) srv r srv' :
  on_store f m srv = Ret (r, srv') → ∃ s, srv' = with_store srv s.
Proof.
  unfold on_store. destruct (m _) as [[r1 s1]| |]; cbn; [intros [= <- <-]; eauto|done..].
Qed.

(** The same function of a store. *)
Lemma srv_try_ext {A C} (m : Server.srv (S := S) (R := R) A) (k k' : A → Server.srv C) srv :
  (∀ a srv, k a srv = k' a srv) → srv_try m k srv = srv_try m k' srv.
Proof. intros Hk. unfold srv_try. by destruct (m srv) as [[[a|e] srv1]| |]; cbn. Qed.
Lemma get_repostore_ext {A} o (f g : on_repo A) srv :
  (∀ r, f r = g r) → get_repostore_from_overlay_id o f srv = get_repostore_from_overlay_id o g srv.
Proof.
  intros Hfg.
  assert (Hcall : ∀ id srv, call_repo f id srv = call_repo g id srv).
  { intros id srv1. unfold call_repo. destruct (disk srv1 !! id) as [[k r]|]; [|done]. by rewrite Hfg. }
  assert (Hopen : ∀ b id srv, open_or_create_repostore b id f srv = open_or_create_repostore b id g srv).
  { intros b id srv1. unfold open_or_create_repostore.
    apply srv_try_ext. intros info srv2. apply srv_try_ext. intros key srv3.
    destruct (negb _); [done|]. destruct (open_dir _ _ _) as [srv4| |]; [|done..]. cbn.
    by destruct (if b then _ else _) as [u| |]; cbn. }
  unfold get_repostore_from_overlay_id. destruct (mode srv).
  - destruct (overlayid_to_repostore srv !! o) as [id|].
    + by destruct (decide _).
    + apply srv_try_ext. intros ov srv2. apply srv_try_ext. intros key srv3. apply Hopen.
  - by destruct (decide _).
Qed.

(** What the errors of an access to a store satisfy. *)
Lemma get_repostore_err {A} (P : ProtocolError → Prop) o (f : on_repo A) srv e srv' :
  P NotFound → P StoreError → P InvalidValue → P OverlayNotFound → P WriteError →
  P NetErrors.BrokerError → (∀ r e r', f r = Ret (Err e, r') → P e) →
  get_repostore_from_overlay_id o f srv = Ret (Err e, srv') → P e.
Proof.
  intros P1 P2 P3 P4 P5 P6 Hf.
  assert (Hconv : ∀ e, P (ProtocolError_of_StorageError e)) by (by intros []).
  assert (Hon : ∀ A (m : io S A) srv e srv',
    on_store ProtocolError_of_StorageError m srv = Ret (Err e, srv') → P e).
  { intros A' m srv1 e1 srv2. unfold on_store.
    destruct (m _) as [[[a|e2] s]| |]; cbn; [done| |done..]. by intros [= <- _]. }
  assert (Hcall : ∀ id srv, call_repo f id srv = Ret (Err e, srv') → P e).
  { intros id srv1. unfold call_repo. destruct (disk srv1 !! id) as [[k r]|]; [|done].
    destruct (f r) as [[res r']| |] eqn:Hr; [|done..]. cbn. intros [= -> _]. by eapply Hf. }
  assert (Hopen : ∀ b id srv, open_or_create_repostore b id f srv = Ret (Err e, srv') → P e).
  { intros b id srv1. unfold open_or_create_repostore.
    intros [(e1 & Hm & [= ->])|(info & srv2 & _ & H2)]%srv_try_inv.
    { revert Hm. unfold on_store. destruct (RepoStoreInfo.open _ _) as [[[i|e2] s]| |]; [done| |done..].
      by intros [= <- _]. }
    apply srv_try_inv in H2 as [(e1 & Hm & [= ->])|(key & srv3 & _ & H3)]; [by eapply Hon|].
    destruct (negb _); [by injection H3 as <- _|].
    destruct (open_dir _ _ _) as [srv4| |]; [|done..]. cbn [mbind outcome_bind] in H3.
    destruct (if b then _ else _) as [u| |]; [|done..]. by eapply Hcall. }
  unfold get_repostore_from_overlay_id. destruct (mode srv).
  - destruct (overlayid_to_repostore srv !! o) as [id|].
    + destruct (decide _); [by apply Hcall|]. by intros [= <- _].
    + intros [(e1 & Hm & [= ->])|(ov & srv2 & _ & H2)]%srv_try_inv; [by eapply Hon|].
      apply srv_try_inv in H2 as [(e1 & Hm & [= ->])|(key & srv3 & _ & H3)]; [by eapply Hon|].
      by eapply Hopen.
  - destruct (decide _); [by apply Hcall|by apply Hopen].
Qed.
End Inversion.
