(* ===== verification/LmdbServed.v ===== *)
(** * The LMDB block store, as a server uses it

    A server never tells a block store that a block was synchronized, so the list of used
    blocks stays empty, and no method of the store panics as long as its databases have
    room. This is the contract [ServerProps] relies on. *)

From S2P Require Import Prelude Serde Types Block Store Utils LmdbRepoStore LmdbView LmdbProps.
From S2P Require Import NetTypes BrokerTables Server.
Import LmdbRepoStoreOps.

(** The databases take whatever is written. *)
Class LmdbRoom `{SingleStoreLaws, MultiIntegerStoreLaws} : Prop := {
  room_single k v : ss_fits k v;
  room_multi v : mi_fits v
}.

Module LmdbServed.
Section Served.
Context `{!SingleStore, !MultiIntegerStore, !SingleStoreLaws, !MultiIntegerStoreLaws, !LmdbRoom}.
Context `{!Crypto} `{!Serde Block, !Serde Digest, !Serde BlockMeta}.
Context `{!SerdeLaws Block, !SerdeLaws Digest, !SerdeLaws BlockMeta}.
Implicit Types (s : LmdbRepoStore).

#[export] Instance LmdbRepoStore_ServedStore : ServedStore LmdbRepoStore := {
  served_pin := pin;
  served_unpin := unpin
}.

(** No block was synced, and those that expire are in the expiry database. *)
Definition unsynced s : Prop :=
  ∀ k v, ss_view (meta_store s) !! k = Some v → ∃ p, v = to_vec (new_meta p).
Definition expiries s : Prop :=
  ∀ id b t, lmdb_view s !! id = Some b → Block_expiry b = Some t →
            to_vec id ∈ mi_view (expiry_store s) t.
Definition served_ok s : Prop := lmdb_ok s ∧ unsynced s ∧ expiries s.

Lemma meta_get_unsynced k s : unsynced s →
  (meta_get k s = Ret None ∧ ss_view (meta_store s) !! k = None) ∨
  (∃ p, meta_get k s = Ret (Some (new_meta p)) ∧ is_Some (ss_view (meta_store s) !! k)).
Proof.
  intros Hu. unfold meta_get. rewrite ss_get_law. cbn [unwrap mbind outcome_bind].
  destruct (ss_view (meta_store s) !! k) as [v|] eqn:Hv; [|by left]. right.
  destruct (Hu k v Hv) as [p ->]. exists p. by rewrite from_slice_to_vec.
Qed.
Lemma meta_put_unsynced k p s : unsynced s → ∃ s',
  meta_put k (new_meta p) s = Ret s' ∧ unsynced s' ∧ main_store s' = main_store s ∧
  expiry_store s' = expiry_store s.
Proof.
  intros Hu. unfold meta_put.
  destruct (ss_put_fits (meta_store s) k (to_vec (new_meta p)) (room_single _ _)) as [db Hdb].
  rewrite Hdb. cbn [unwrap mbind outcome_bind]. eexists. split_and!; [done| |done..].
  intros k' v'. cbn [meta_store set_meta]. rewrite (ss_put_law _ _ _ _ Hdb).
  intros [[_ <-]|[_ Hv]]%lookup_insert_Some; eauto.
Qed.

(** Pinning changes nothing but metas. *)
Lemma set_pin_served id add s : served_ok s → ∃ s',
  set_pin id add s = Ret (Ok tt, s') ∧ served_ok s' ∧ lmdb_view s' = lmdb_view s.
Proof.
  intros (Hok & Hu & He).
  assert (Hput : ∀ p, ∃ s', meta_put (to_vec id) (new_meta p) s = Ret s' ∧ served_ok s' ∧
                            lmdb_view s' = lmdb_view s).
  { intros p. destruct (meta_put_unsynced (to_vec id) p s Hu) as (s' & Hs' & Hu' & Hm & Hx).
    exists s'. unfold served_ok, lmdb_ok, expiries, lmdb_view in *. by rewrite Hm, Hx. }
  unfold set_pin. destruct (meta_get_unsynced (to_vec id) s Hu) as [[-> _]|(p & -> & _)];
    cbn [mbind outcome_bind].
  - destruct add; [|by exists s]. destruct (Hput true) as (s' & Hs' & ?). unfold new_meta in Hs'.
    rewrite Hs'. by exists s'.
  - case_bool_decide; [by exists s|]. cbn [BlockMeta_synced new_meta mbind outcome_bind].
    match goal with |- context [meta_put _ ?m s] => change m with (new_meta add) end.
    destruct (Hput add) as (s' & -> & ?). by exists s'.
Qed.

Lemma get_served id s : served_ok s → ∃ r, get id s = Ret (r, s).
Proof.
  intros (Hok & Hu & _). unfold get. rewrite ss_get_law.
  destruct (ss_view (main_store s) !! to_vec id) as [v|] eqn:Hv; [|by eexists].
  destruct (main_lookup s id v Hok Hv) as (b & -> & Hb & Hskip & Hid).
  assert (Htouch : touch (to_vec id) s = Ret s).
  { unfold touch. by destruct (meta_get_unsynced (to_vec id) s Hu) as [[-> _]|(p & -> & _)]. }
  rewrite Htouch. cbn [mbind outcome_bind]. rewrite from_slice_to_vec, Hskip.
  rewrite decide_False; [by eexists|]. intros Hne. apply Hne.
  rewrite <- Hid, <- Hskip. by rewrite id_ok_skip, get_id_skip.
Qed.

Lemma put_served b s : served_ok s → id_ok b → ∃ s', put b s = Ret (Ok (Block_id b), s') ∧ served_ok s'.
Proof.
  intros (Hok & Hu & He) Hid.
  assert (Hret : returns (put b s)).
  { unfold put, main_put.
    destruct (ss_put_fits (main_store s) (to_vec (Block_id b)) (to_vec b) (room_single _ _)) as [db ->].
    cbn [unwrap mbind outcome_bind]. destruct (Block_expiry b) as [t|]; [|by eexists].
    unfold expiry_put.
    destruct (mi_put_fits (expiry_store (set_main s db)) t (to_vec (Block_id b)) (room_multi _)) as [db' ->].
    by eexists. }
  destruct Hret as [[r s'] Hput]. destruct (lmdb_put_main b s r s' Hput) as (-> & Hm & Hme & _ & _ & Hx).
  rewrite Hid in *. destruct (decode_insert (ss_view (main_store s)) b Hok) as [Hok' Hview].
  exists s'. split; [done|]. split_and!; [unfold lmdb_ok; by rewrite Hm|unfold unsynced; by rewrite Hme|].
  assert (Hmono : ∀ t v, v ∈ mi_view (expiry_store s) t → v ∈ mi_view (expiry_store s') t).
  { intros t v Hv. destruct (Block_expiry b) as [u|]; [|by rewrite Hx].
    rewrite (mi_put_law _ _ _ _ Hx). destruct (decide _) as [->|]; [apply elem_of_union; by right|done]. }
  intros id b' t. unfold lmdb_view. rewrite Hm, Hview.
  intros [[<- <-]|[_ Hb]]%lookup_insert_Some Hexp; [|by eapply Hmono, He].
  rewrite expiry_skip in Hexp. rewrite Hexp in Hx. rewrite (mi_put_law _ _ _ _ Hx), decide_True by done.
  apply elem_of_union. left. by apply elem_of_singleton.
Qed.

Lemma del_served id s : served_ok s → ∃ r s', del id s = Ret (r, s') ∧ served_ok s'.
Proof.
  intros Hs. pose proof Hs as (Hok & Hu & He).
  destruct (ss_view (main_store s) !! to_vec id) as [v|] eqn:Hv.
  2:{ unfold del. rewrite ss_get_law, Hv. by eexists _, s. }
  destruct (main_lookup s id v Hok Hv) as (b & -> & Hb & Hskip & Hid).
  assert (Hforget : ∃ s1, forget (to_vec id) s = Ret s1 ∧ unsynced s1).
  { unfold forget. destruct (meta_get_unsynced (to_vec id) s Hu) as [[-> _]|(p & -> & Hp)];
      cbn [mbind outcome_bind]; [by exists s|]. cbn [BlockMeta_last_used new_meta].
    change (uint_N (uint_wrap 32 0) =? 0)%N with true. cbn [mbind outcome_bind].
    unfold meta_delete. apply ss_delete_some in Hp as [db Hdb]. rewrite Hdb.
    cbn [unwrap mbind outcome_bind]. eexists. split; [done|]. intros k' v'. cbn [meta_store set_meta].
    rewrite (ss_delete_law _ _ _ Hdb). intros [_ ?]%lookup_delete_Some. by eapply Hu. }
  destruct Hforget as (s1 & Hforget & Hu1).
  assert (Hret : returns (del id s)).
  { unfold del. rewrite ss_get_law, Hv. cbn [unwrap mbind outcome_bind].
    rewrite from_slice_to_vec, Hskip. cbn [unwrap mbind outcome_bind]. rewrite Hforget.
    cbn [mbind outcome_bind]. destruct (forget_main _ _ _ Hforget) as (Hm1 & Hx1 & _).
    unfold main_delete. rewrite Hm1.
    destruct (proj2 (ss_delete_some (main_store s) (to_vec id))) as [db ->]; [by rewrite Hv|].
    cbn [unwrap mbind outcome_bind]. destruct (Block_expiry b) as [t|] eqn:Hexp; [|by eexists].
    unfold expiry_delete. cbn [expiry_store set_main]. rewrite Hx1.
    destruct (proj2 (mi_delete_some (expiry_store s) t (to_vec id))) as [db' ->]; [|by eexists].
    by eapply He. }
  destruct Hret as [[r s'] Hdel]. exists r, s'. split; [done|].
  pose proof (lmdb_del_main id s r s' Hok Hdel) as Hr. rewrite Hb in Hr.
  destruct Hr as (s1' & -> & Hf & Hm & Hme & _ & _ & Hx). rewrite Hforget in Hf. injection Hf as <-.
  destruct (decode_delete (ss_view (main_store s)) id Hok) as [Hok' Hview].
  split_and!; [unfold lmdb_ok; by rewrite Hm|unfold unsynced; by rewrite Hme|].
  intros j b' t. unfold lmdb_view. rewrite Hm, Hview. intros [Hne Hj]%lookup_delete_Some Hexp.
  assert (Hin : to_vec j ∈ mi_view (expiry_store s) t) by (by eapply He).
  destruct (Block_expiry b) as [u|]; [|by rewrite Hx].
  rewrite (mi_delete_law _ _ _ _ Hx). destruct (decide _) as [->|]; [|done].
  apply elem_of_difference. split; [done|]. rewrite elem_of_singleton.
  intros Heq%to_vec_inj_skip. by apply Hne.
Qed.

(** ** The contract *)

#[export, refine] Instance LmdbServed_RepoStoreSpec : RepoStoreSpec LmdbRepoStore | 0 := {
  store_inv := served_ok;
  store_view := lmdb_view
}.
Proof.
  - intros s id b [Hok _] Hb. by eapply (store_view_skip (RepoStoreSpec := LmdbRepoStore_RepoStoreSpec)).
  - intros s id r s' Hs Hget. destruct (get_served id s Hs) as [r' Hget'].
    change (get id s = Ret (r, s')) in Hget. rewrite Hget in Hget'. injection Hget' as <- ->.
    split; [done|]. by apply (store_get_spec (RepoStoreSpec := LmdbRepoStore_RepoStoreSpec) s id r s), Hget; apply Hs.
  - intros s b r s' Hs Hid Hput. destruct (put_served b s Hs Hid) as (s1 & Hput' & Hs1).
    change (put b s = Ret (r, s')) in Hput. rewrite Hput in Hput'. injection Hput' as -> ->.
    destruct (store_put_spec (RepoStoreSpec := LmdbRepoStore_RepoStoreSpec) s b _ _ (proj1 Hs) Hid Hput)
      as (_ & _ & Hview). done.
  - intros s id r s' Hs Hdel. destruct (del_served id s Hs) as (r1 & s1 & Hdel' & Hs1).
    change (del id s = Ret (r, s')) in Hdel. rewrite Hdel in Hdel'. injection Hdel' as -> ->.
    split; [done|].
    apply (store_del_spec (RepoStoreSpec := LmdbRepoStore_RepoStoreSpec) s id r1 s1 (proj1 Hs) Hdel).
Defined.

#[export] Instance LmdbServed_RepoStoreTotal :
  RepoStoreTotal LmdbRepoStore (H0 := LmdbServed_RepoStoreSpec).
Proof.
  split.
  - intros s id Hs. destruct (get_served id s Hs) as [r Hr]. by eexists.
  - intros s b Hs Hid. destruct (put_served b s Hs Hid) as (s' & Hr & _). by eexists.
  - intros s id Hs. destruct (del_served id s Hs) as (r & s' & Hr & _). by eexists.
Qed.

(** What is put is serialized. *)
#[export] Instance LmdbServed_SerializingStore : SerializingStore LmdbRepoStore.
Proof.
  split. intros b s Hb. change (put (serde_skip b) s = put b s). unfold put.
  rewrite to_vec_skip, id_skip, expiry_skip. unfold id_ok in Hb. by rewrite <- Hb.
Qed.
End Served.
End LmdbServed.
