(* ===== verification/ServerTables.v ===== *)
(** * The tables of a server

    The four tables a server works on at once, each with what [OverlayProps],
    [AccountProps], [PeerProps] and [ConfigProps] say of it alone: an operation on one
    leaves the others. *)

From stdpp Require Import functions.
From S2P Require Import Prelude Serde Types Store Utils NetTypes BrokerStore BrokerRows BrokerTables.
From S2P Require Import AccountProps PeerProps OverlayProps ConfigProps.

Record tables : Type := {
  tb_overlays : OverlayId → OverlayProps.entry;
  tb_keys : gmap RepoStoreId SymKey;
  tb_accounts : gmap PubKey AccountProps.account;
  tb_peers : gmap PubKey (u32 * PeerAdvert)
}.
Definition with_tb_overlay (T : tables) (i : OverlayId) (e : OverlayProps.entry) : tables :=
  {| tb_overlays := <[i := e]> (tb_overlays T); tb_keys := tb_keys T;
     tb_accounts := tb_accounts T; tb_peers := tb_peers T |}.
Definition with_tb_key (T : tables) (i : RepoStoreId) (k : SymKey) : tables :=
  {| tb_overlays := tb_overlays T; tb_keys := <[i := k]> (tb_keys T);
     tb_accounts := tb_accounts T; tb_peers := tb_peers T |}.
Definition with_tb_account (T : tables) (i : PubKey) (a : AccountProps.account) : tables :=
  {| tb_overlays := tb_overlays T; tb_keys := tb_keys T;
     tb_accounts := <[i := a]> (tb_accounts T); tb_peers := tb_peers T |}.
Definition with_tb_peer (T : tables) (a : PeerAdvert) : tables :=
  {| tb_overlays := tb_overlays T; tb_keys := tb_keys T;
     tb_accounts := tb_accounts T; tb_peers := PeerProps.spec_update a (tb_peers T) |}.

Section Tables.
Context {S : Type} `{!BrokerStore S, !BrokerStoreSpec S}.
Context `{!Serde Digest, !Serde SymKey, !Serde PubKey, !Serde bool, !Serde u32}.
Context `{!Serde OverlayMeta, !Serde PeerAdvert, !Serde RepoStoreId}.
Context `{!SerdeLaws Digest, !SerdeLaws SymKey, !SerdeLaws PubKey, !SerdeLaws bool, !SerdeLaws u32}.
Context `{!SerdeLaws OverlayMeta, !SerdeLaws PeerAdvert, !SerdeLaws RepoStoreId}.
Implicit Types (s : S) (T : tables).

(** A store that holds the tables [T]. *)
Definition tables_ok s T : Prop :=
  OverlayProps.overlays_ok s (tb_overlays T) ∧ RepoStoreKeys.keys_ok s (tb_keys T) ∧
  AccountProps.accounts_ok s (tb_accounts T) ∧ PeerProps.peers_ok s (tb_peers T).

(** The backend takes the rows of the tables. *)
Definition tables_fit : Prop :=
  OverlayProps.overlay_fits (S := S) ∧ RepoStoreKeys.key_fits (S := S) ∧
  AccountProps.account_fits (S := S).

(** ** One table at a time *)

Lemma frame_row p q s s' k x : frame p s s' → q ≠ p → row s' q k x = row s q k x.
Proof. intros [_ Hf] Hne. apply Hf. cbn. congruence. Qed.

Lemma overlays_frame p s s' O :
  OverlayProps.overlays_ok s O → frame p s s' → p ≠ Overlay.PREFIX → OverlayProps.overlays_ok s' O.
Proof.
  intros [_ Ho] Hf Hne. split; [apply Hf|]. intros i. unfold OverlayProps.entry_rows. cbv zeta.
  rewrite !(frame_row p Overlay.PREFIX s s') by done. apply Ho.
Qed.
Lemma keys_frame p s s' K :
  RepoStoreKeys.keys_ok s K → frame p s s' → p ≠ RepoStoreInfo.PREFIX → RepoStoreKeys.keys_ok s' K.
Proof.
  intros [_ Hk] Hf Hne. split; [apply Hf|]. intros i.
  rewrite (frame_row p RepoStoreInfo.PREFIX s s') by done. apply Hk.
Qed.
Lemma accounts_frame p s s' A :
  AccountProps.accounts_ok s A → frame p s s' → p ≠ Account.PREFIX → AccountProps.accounts_ok s' A.
Proof.
  intros [_ Ha] Hf Hne. split; [apply Hf|]. intros i. unfold AccountProps.account_rows.
  rewrite !(frame_row p Account.PREFIX s s') by done. apply Ha.
Qed.
Lemma peers_frame p s s' P :
  PeerProps.peers_ok s P → frame p s s' → p ≠ Peer.PREFIX → PeerProps.peers_ok s' P.
Proof.
  intros [_ Hp] Hf Hne. split; [apply Hf|]. intros i. unfold PeerProps.peer_rows.
  rewrite !(frame_row p Peer.PREFIX s s') by done. apply Hp.
Qed.

Lemma tables_inv s T : tables_ok s T → bs_inv s.
Proof. by intros [[Hi _] _]. Qed.

Lemma tables_overlay s s' T i e :
  tables_ok s T → OverlayProps.changed s s' i e → tables_ok s' (with_tb_overlay T i e).
Proof.
  intros (Ho & Hk & Ha & Hp) (Hf & Hother & Hi). split_and!; cbn.
  - split; [apply Hf|]. intros j. destruct (decide (i = j)) as [<-|Hne].
    + by rewrite fn_lookup_insert.
    + rewrite fn_lookup_insert_ne by done. destruct Ho as [_ Ho]. specialize (Ho j).
      unfold OverlayProps.entry_rows in *. cbv zeta in *.
      assert (Hkey : to_vec j ≠ to_vec i) by (by intros Hj%to_vec_inj_skip; apply Hne).
      by rewrite !Hother.
  - by eapply keys_frame.
  - by eapply accounts_frame.
  - by eapply peers_frame.
Qed.

Lemma overlay_open_tables s T i : tables_ok s T →
  Overlay.open i s = Ret (match OverlayProps.ov_secret (tb_overlays T i) with
                          | Some _ => Ok {| Overlay.id := i |}
                          | None => Err StorageError_NotFound
                          end, s).
Proof.
  intros [[Hi Ho] _]. unfold Overlay.open.
  rewrite (io_if_eq _ _ _ _ _ (OverlayProps.overlay_exists_ok _ _ _ Hi (Ho i))).
  by destruct (OverlayProps.ov_secret _).
Qed.
Lemma overlay_repo_tables s T i repo : tables_ok s T →
  OverlayProps.ov_repos (tb_overlays T i) = {[repo]} →
  Overlay.repo {| Overlay.id := i |} s = Ret (Ok repo).
Proof.
  intros [[Hi Ho] _] Hrepo. unfold Overlay.repo. cbn [Overlay.id].
  destruct (Ho i) as (_ & _ & _ & _ & Hrow). rewrite Hrepo in Hrow. unfold set_row in Hrow.
  rewrite set_map_singleton_L in Hrow.
  rewrite (get_row_one _ _ _ _ _ Hi Hrow). cbn [mbind outcome_bind]. unfold from_slice_se.
  by rewrite from_slice_to_vec.
Qed.

Lemma info_open_tables s T i : tables_ok s T →
  RepoStoreInfo.open i s = Ret (match tb_keys T !! i with
                                | Some _ => Ok {| RepoStoreInfo.id := i |}
                                | None => Err StorageError_NotFound
                                end, s).
Proof.
  intros (_ & Hk & _). unfold RepoStoreInfo.open.
  rewrite (io_if_eq _ _ _ _ _ (RepoStoreKeys.key_exists_ok _ _ i Hk)). by destruct (tb_keys T !! i).
Qed.
Lemma info_key_tables s T i k : tables_ok s T → tb_keys T !! i = Some k →
  RepoStoreInfo.key {| RepoStoreInfo.id := i |} s = Ret (Ok k).
Proof.
  intros (_ & Hk & _) Hi. unfold RepoStoreInfo.key. cbn [RepoStoreInfo.id].
  rewrite (read_row _ _ _ _ _ (proj1 Hk) (proj2 Hk i)). by rewrite Hi.
Qed.
Lemma info_create_tables s T i k : tables_fit → tables_ok s T → tb_keys T !! i = None →
  ∃ s', RepoStoreInfo.create i k s = Ret (Ok {| RepoStoreInfo.id := i |}, s') ∧
        tables_ok s' (with_tb_key T i k).
Proof.
  intros (_ & Hfits & _) (Ho & Hk & Ha & Hp) Hnone. unfold RepoStoreInfo.create.
  rewrite (io_if_eq _ _ _ _ _ (RepoStoreKeys.key_exists_ok _ _ i Hk)), Hnone.
  rewrite bool_decide_eq_false_2 by (intros [? ?]; done).
  destruct (put_one_row s RepoStoreInfo.PREFIX (to_vec i) RepoStoreInfo.KEY k (proj1 Hk))
    as (s' & Hput & Hs); [by rewrite (proj2 Hk), Hnone|apply Hfits|].
  rewrite (io_try_ok _ _ _ _ _ Hput). exists s'. split; [done|].
  assert (Hf : frame RepoStoreInfo.PREFIX s s') by (by eapply row_set_frame).
  split_and!; cbn; [by eapply overlays_frame| |by eapply accounts_frame|by eapply peers_frame].
  apply (RepoStoreKeys.keys_ok_change s s' _ _ i Hk (proj1 Hs)).
  - intros k0 x Hne. apply (row_set_ne _ _ _ _ _ _ _ _ _ Hs). congruence.
  - intros. by rewrite lookup_insert_ne.
  - rewrite lookup_insert_eq. apply (row_set_eq _ _ _ _ _ _ Hs).
Qed.
Lemma info_create_exists s T i k k' : tables_ok s T → tb_keys T !! i = Some k' →
  RepoStoreInfo.create i k s = Ret (Err StorageError_BackendError, s).
Proof.
  intros (_ & Hk & _) Hi. unfold RepoStoreInfo.create.
  rewrite (io_if_eq _ _ _ _ _ (RepoStoreKeys.key_exists_ok _ _ i Hk)), Hi. done.
Qed.

(** A run that answers something did what it runs. *)
Lemma io_then_unit {A B} (m : io S A) (b : B) s r s' :
  (_ ←$ m; io_ok b) s = Ret (r, s') →
  ∃ r', m s = Ret (r', s') ∧ match r', r with
                             | Ok _, Ok b' => b' = b
                             | Err e, Err e' => e = e'
                             | _, _ => False
                             end.
Proof.
  unfold io_try. destruct (m s) as [[[a|e] s1]| |]; [| |done..];
    intros [= <- <-]; eexists; by split.
Qed.

Lemma io_try_inv {A B} (m : io S A) (k : A → io S B) s b s' :
  io_try m k s = Ret (Ok b, s') → ∃ a s1, m s = Ret (Ok a, s1) ∧ k a s1 = Ret (Ok b, s').
Proof. unfold io_try. destruct (m s) as [[[a|e] s1]| |]; [eauto|done..]. Qed.
Lemma overlay_create_id i secret repo secs s ov s' :
  Overlay.create i secret repo secs s = Ret (Ok ov, s') → ov = {| Overlay.id := i |}.
Proof.
  unfold Overlay.create, io_if. destruct (Overlay.exists_ _ _) as [[]| |]; [done| |done..].
  intros (? & ? & _ & (? & ? & _ & (? & ? & _ & (? & ? & _ & [= <- _])
    %io_try_inv)%io_try_inv)%io_try_inv)%io_try_inv. done.
Qed.

Lemma overlay_create_tables s T i secret repo secs t :
  tables_fit → tables_ok s T → OverlayProps.ov_secret (tb_overlays T i) = None →
  now_timestamp secs = Ret t → ∃ s',
  Overlay.create i secret repo secs s = Ret (Ok {| Overlay.id := i |}, s') ∧
  tables_ok s' (with_tb_overlay T i
    {| OverlayProps.ov_secret := Some secret;
       OverlayProps.ov_peers := OverlayProps.ov_peers (tb_overlays T i);
       OverlayProps.ov_topics := OverlayProps.ov_topics (tb_overlays T i);
       OverlayProps.ov_metas := {[ {| OverlayMeta_users := uint_wrap 32 1;
                                      OverlayMeta_last_used := t |} ]} ∪
                                OverlayProps.ov_metas (tb_overlays T i);
       OverlayProps.ov_repos := from_option singleton ∅ repo ∪
                                OverlayProps.ov_repos (tb_overlays T i) |}).
Proof.
  intros (Hfits & _) Hok Hnone Ht. pose proof Hok as [[Hi Ho] _].
  destruct (OverlayProps.overlay_create_refines Hfits secret repo secs t Ht s i _ Hi (Ho i))
    as (r & s' & e' & Hrun & Hspec & Hch).
  cbn [OverlayProps.spec] in Hspec. rewrite Hnone in Hspec.
  destruct Hspec as (t' & Ht' & -> & ->). rewrite Ht in Ht'. injection Ht' as <-.
  cbn [OverlayProps.run] in Hrun. destruct (io_then_unit _ _ _ _ _ Hrun) as ([ov|] & Hc & Hr); [|done].
  exists s'. split; [|by eapply tables_overlay]. by rewrite Hc, (overlay_create_id _ _ _ _ _ _ _ Hc).
Qed.
Lemma add_peer_tables s T i p k :
  tables_fit → tables_ok s T → OverlayProps.ov_secret (tb_overlays T i) = Some k → ∃ s',
  Overlay.add_peer p {| Overlay.id := i |} s = Ret (Ok tt, s') ∧
  tables_ok s' (with_tb_overlay T i (OverlayProps.with_peers (tb_overlays T i)
    ({[p]} ∪ OverlayProps.ov_peers (tb_overlays T i)))).
Proof.
  intros (Hfits & _) Hok Hk. pose proof Hok as [[Hi Ho] _].
  destruct (OverlayProps.add_peer_refines Hfits p s i _ Hi (Ho i)) as (r & s' & e' & Hrun & Hspec & Hch).
  cbn [OverlayProps.spec] in Hspec. rewrite Hk in Hspec. destruct Hspec as [-> ->].
  cbn [OverlayProps.run] in Hrun. destruct (io_then_unit _ _ _ _ _ Hrun) as ([[]|] & Hc & Hr); [|done].
  exists s'. split; [done|by eapply tables_overlay].
Qed.

Lemma peer_update_tables s T a :
  PeerProps.advert_fits (S := S) a → tables_ok s T → ∃ s' p,
  Peer.update_or_create a s = Ret (Ok p, s') ∧ tables_ok s' (with_tb_peer T a).
Proof.
  intros Hfits (Ho & Hk & Ha & Hp).
  destruct (PeerProps.update_or_create_ok s _ a Hfits Hp) as (s' & Hrun & Hp' & Hf).
  eexists s', _. split; [exact Hrun|]. split_and!; cbn;
    [by eapply overlays_frame|by eapply keys_frame|by eapply accounts_frame|done].
Qed.

Lemma account_open_tables s T i : tables_ok s T →
  Account.open i s = Ret (match tb_accounts T !! i with
                          | Some _ => Ok {| Account.id := i |}
                          | None => Err StorageError_NotFound
                          end, s).
Proof.
  intros (_ & _ & Ha & _). unfold Account.open.
  rewrite (io_if_eq _ _ _ _ _ (AccountProps.account_exists_ok _ _ i Ha)).
  by destruct (tb_accounts T !! i).
Qed.
Lemma account_run_tables s T op s' r :
  tables_fit → tables_ok s T → AccountProps.run op s = Ret (r, s') →
  r = (AccountProps.spec op (tb_accounts T)).1 ∧
  tables_ok s' {| tb_overlays := tb_overlays T; tb_keys := tb_keys T;
                  tb_accounts := (AccountProps.spec op (tb_accounts T)).2;
                  tb_peers := tb_peers T |}.
Proof.
  intros (_ & _ & Hfits) (Ho & Hk & Ha & Hp) Hrun.
  destruct (AccountProps.account_run_refines Hfits op s _ Ha) as (s1 & Hrun' & Ha' & Hf).
  rewrite Hrun in Hrun'. injection Hrun' as -> ->. split; [done|].
  split_and!; cbn; [by eapply overlays_frame|by eapply keys_frame|done|by eapply peers_frame].
Qed.
End Tables.
