(* ===== verification/ServerSim.v ===== *)
(** * What a server does to a block store, on its map

    The closures the server runs on the store of a repository, run on the finite map the
    store stands for: they answer the same, and leave the store at the map they leave. *)

From S2P Require Import Prelude Serde Types Block Store Object Utils Branch NetTypes NetErrors.
From S2P Require Import ObjectTree ObjectStore ObjectSim Server.

#[export] Instance map_served : ServedStore (gmap BlockId Block) := {
  served_pin _ m := Ret (Ok tt, m);
  served_unpin _ m := Ret (Ok tt, m)
}.

Section Sim.
Context {R : Type} `{!Crypto, !Bloom}.
Context `{!Serde Block, !Serde BlockContentV0, !Serde ObjectContent, !SerdeLaws Block}.
Context `{!RepoStore R, !RepoStoreSpec R, !RepoStoreTotal R, !ServedStore R, !RepoDirs R, !ServedSpec R}.
Implicit Types (r : R).
Variable obj_fuel : nat.

(** The same answer, in a store that stands for the map. *)
Definition answer_like {A E} (RA : A → A → Prop) (x : result A E * gmap BlockId Block)
    (y : result A E * R) : Prop :=
  result_like RA x.1 y.1 ∧ store_inv y.2 ∧ x.2 = store_view y.2.
Definition repo_sim {A E} (RA : A → A → Prop)
    (f : gmap BlockId Block → outcome (result A E * gmap BlockId Block))
    (g : R → outcome (result A E * R)) : Prop :=
  ∀ r, store_inv r → osim (answer_like RA) (f (store_view r)) (g r).

Lemma repo_sim_ret {A E} (RA : A → A → Prop) (x y : result A E) :
  result_like RA x y → repo_sim RA (λ m, Ret (x, m)) (λ r, Ret (y, r)).
Proof. intros Hxy r Hr. by constructor. Qed.

Lemma load_object_sim {A} (RA : A → A → Prop) id (k : Object → on_repo A)
    (k' : Object → on_repo (R := R) A) :
  (∀ o o', object_like o o' → repo_sim RA (k o) (k' o')) →
  repo_sim RA (load_object obj_fuel id k) (load_object obj_fuel id k').
Proof.
  intros Hk r Hr. unfold load_object.
  eapply osim_bind; [by apply Object_load_sim|].
  intros [res m] [res' r'] (Hres & Hm & Hi & Hv). cbn in *. subst m. rewrite <- Hv.
  destruct res as [o|e], res' as [o'|e']; try done; [by apply Hk|by constructor].
Qed.

Lemma each_block_sim act act' bs bs' d :
  (∀ id, repo_sim eq (act id) (act' id)) → Forall2 like bs bs' →
  repo_sim eq (each_block act bs d) (each_block act' bs' d).
Proof.
  intros Hact Hbs. revert d. induction Hbs as [|b b' bs bs' [Hb _] Hbs IH]; intros d r Hr.
  { by constructor. }
  cbn [each_block]. rewrite (same_id _ _ Hb). destruct (decide _); [by apply IH|].
  eapply osim_bind; [by apply Hact|].
  intros [res m] [res' r'] (Hres & Hi & Hm). cbn in *. subst m.
  destruct res as [u|e], res' as [u'|e']; try done; [by apply IH|].
  cbn in Hres. subst e'. by constructor.
Qed.
Lemma send_blocks_like bs bs' d : Forall2 like bs bs' →
  (send_blocks bs d).2 = (send_blocks bs' d).2 ∧
  Forall2 like (send_blocks bs d).1 (send_blocks bs' d).1.
Proof.
  intros Hbs. revert d. induction Hbs as [|b b' bs bs' Hb Hbs IH]; intros d; [by split|].
  cbn [send_blocks]. rewrite (same_id _ _ (proj1 Hb)). destruct (decide _); [apply IH|].
  destruct (IH ({[Block_id b]} ∪ d)) as [H1 H2].
  destruct (send_blocks bs _), (send_blocks bs' _). cbn in *. split; [done|by constructor].
Qed.

(** ** The methods of a store *)

Lemma put_sim b : id_ok b → repo_sim eq (store_put b) (store_put b).
Proof.
  intros Hid r Hr. destruct (store_put_returns r b Hr Hid) as [[res r'] Hput]. rewrite Hput.
  destruct (store_put_spec r b res r' Hr Hid Hput) as (-> & Hi & Hv). by constructor.
Qed.
Lemma del_block_sim id : repo_sim eq (del_block id) (del_block id).
Proof.
  intros r Hr. unfold del_block. destruct (store_del_returns r id Hr) as [[res r'] Hdel]. rewrite Hdel.
  destruct (store_del_spec r id res r' Hr Hdel) as [Hi Hres]. cbn.
  destruct (store_view r !! id) as [b|] eqn:Hb.
  - destruct Hres as (b' & n & -> & _ & Hv). by constructor.
  - destruct Hres as [-> Hv]. rewrite delete_id by done. by constructor.
Qed.
Lemma pin_sim id : repo_sim eq (served_pin id) (served_pin id).
Proof.
  intros r Hr. destruct (served_pin_spec id r Hr) as (r' & -> & Hi & Hv). by constructor.
Qed.
Lemma unpin_sim id : repo_sim eq (served_unpin id) (served_unpin id).
Proof.
  intros r Hr. destruct (served_unpin_spec id r Hr) as (r' & -> & Hi & Hv). by constructor.
Qed.

(** ** The closures of the server *)

Lemma put_block_in_sim b : id_ok b → repo_sim eq (put_block_in b) (put_block_in b).
Proof.
  intros Hid r Hr. unfold put_block_in. eapply osim_bind; [by apply put_sim|].
  intros [res m] [res' r'] (Hres & Hi & Hm). cbn in *. subst m. constructor.
  by destruct res, res'; cbn in *; simplify_eq.
Qed.
Lemma del_object_in_sim id : repo_sim eq (del_object_in obj_fuel id) (del_object_in obj_fuel id).
Proof.
  apply load_object_sim. intros o o' [Hb _]. apply each_block_sim; [apply del_block_sim|done].
Qed.
Lemma pin_object_in_sim id : repo_sim eq (pin_object_in obj_fuel id) (pin_object_in obj_fuel id).
Proof. apply load_object_sim. intros o o' [Hb _]. apply each_block_sim; [apply pin_sim|done]. Qed.
Lemma unpin_object_in_sim id :
  repo_sim eq (unpin_object_in obj_fuel id) (unpin_object_in obj_fuel id).
Proof. apply load_object_sim. intros o o' [Hb _]. apply each_block_sim; [apply unpin_sim|done]. Qed.
Lemma get_block_in_sim id children :
  repo_sim (Forall2 like) (get_block_in obj_fuel id children) (get_block_in obj_fuel id children).
Proof.
  unfold get_block_in. destruct children; cbn [negb].
  - apply load_object_sim. intros o o' [Hb _]. apply repo_sim_ret. cbn.
    by apply send_blocks_like.
  - intros r Hr. cbn. destruct (get_sim id r Hr) as (res & r' & -> & [Hi Hv] & Hres). cbn.
    constructor. destruct (store_view r !! id) as [b|], res as [b'|e']; try done;
      cbn in *; [|by subst]. split_and!; [by constructor|done..].
Qed.

Lemma send_objects_sim ids d :
  repo_sim (Forall2 like) (send_objects obj_fuel ids d) (send_objects obj_fuel ids d).
Proof.
  revert d. induction ids as [|id ids IH]; intros d r Hr; cbn [send_objects].
  { constructor. split_and!; [constructor|done..]. }
  eapply osim_bind; [by apply Object_load_sim|].
  intros [res m] [res' r'] (Hres & Hm & Hi & Hv). cbn in *. subst m. rewrite <- Hv.
  destruct res as [o|e], res' as [o'|e']; try done; [|by constructor].
  destruct Hres as [Hb _]. destruct (send_blocks_like _ _ d Hb) as [Hd Hs].
  destruct (send_blocks (Object_blocks o) d) as [sent d1].
  destruct (send_blocks (Object_blocks o') d) as [sent' d2]. cbn in *. subst d2.
  eapply osim_bind; [by apply IH|].
  intros [rest m] [rest' r2] (Hrest & Hi2 & Hm). cbn in *. subst m. constructor.
  destruct rest, rest'; try done. split_and!; [by apply Forall2_app|done..].
Qed.

(** ** The walk of a synchronization *)

Definition walk_like {A} (x : A * gset ObjectId * gmap BlockId Block)
    (y : A * gset ObjectId * R) : Prop :=
  x.1 = y.1 ∧ store_inv y.2 ∧ x.2 = store_view y.2.
Definition found_like (x : bool * sync_state (S := gmap BlockId Block))
    (y : bool * sync_state (S := R)) : Prop := x.1 = y.1 ∧ walk_like x.2 y.2.
Definition visit_sim {A B} (RA : A → B → Prop)
    (x : outcome (result A Object.ObjectParseError))
    (y : outcome (result B Object.ObjectParseError)) : Prop := osim (result_like RA) x y.

Lemma visit_try {A B A' B'} (RA : A → B → Prop) (RB : A' → B' → Prop) m m' k k' :
  visit_sim RA m m' → (∀ a b, RA a b → visit_sim RB (k a) (k' b)) →
  visit_sim RB (try_bind m k) (try_bind m' k').
Proof.
  intros [x y Hxy| |] Hk; cbn; [|constructor..].
  destruct x, y; try done; cbn in *; [by apply Hk|]. by constructor.
Qed.

Lemma sync_deps_sim rec rec' deps found V M r :
  (∀ o o' V M r, object_like o o' → store_inv r →
     visit_sim found_like (rec o (V, M, store_view r)) (rec' o' (V, M, r))) →
  store_inv r →
  visit_sim found_like (sync_deps obj_fuel rec deps found (V, M, store_view r))
                       (sync_deps obj_fuel rec' deps found (V, M, r)).
Proof.
  intros Hrec. revert found V M r. induction deps as [|id deps IH]; intros found V M r Hr.
  { by repeat constructor. }
  cbn [sync_deps]. eapply osim_bind; [by apply Object_load_sim|].
  intros [res m] [res' r'] (Hres & Hm & Hi & Hv). cbn in *. subst m. rewrite <- Hv.
  destruct res as [o|e], res' as [o'|e']; try done; cbn in Hres.
  - destruct (decide _); [by apply IH|]. eapply visit_try; [by apply Hrec|].
    intros [f [[V1 M1] m]] [f' [[V2 M2] r2]] (Hf & Hs & Hi2 & Hm). cbn in *. simplify_eq.
    by apply IH.
  - subst e'. destruct e; try (by repeat constructor). by apply IH.
Qed.
Lemma sync_load_branch_sim fuel heads o o' V M r :
  object_like o o' → store_inv r →
  visit_sim found_like (sync_load_branch obj_fuel fuel heads o (V, M, store_view r))
                       (sync_load_branch obj_fuel fuel heads o' (V, M, r)).
Proof.
  revert o o' V M r. induction fuel as [|fuel IH]; intros o o' V M r Ho Hr; [constructor|].
  cbn [sync_load_branch]. eapply (osim_bind eq).
  { unfold Object_id. destruct (root_like o o' Ho) as [b b' [Hb _]| |]; [|constructor..].
    constructor. by rewrite (same_id _ _ Hb). }
  intros i i' <-. rewrite (proj2 Ho).
  destruct (negb _ && negb _); [|by repeat constructor].
  by apply sync_deps_sim.
Qed.
Lemma sync_heads_sim fuel heads their V M r : store_inv r →
  visit_sim walk_like (sync_heads obj_fuel fuel heads their V M (store_view r))
                      (sync_heads obj_fuel fuel heads their V M r).
Proof.
  revert V M r. induction heads as [|id heads IH]; intros V M r Hr; cbn [sync_heads].
  { by repeat constructor. }
  eapply osim_bind; [by apply Object_load_sim|].
  intros [res m] [res' r'] (Hres & Hm & Hi & Hv). cbn in *. subst m. rewrite <- Hv.
  destruct res as [o|e], res' as [o'|e']; try done; cbn in Hres; [|by repeat constructor].
  eapply visit_try; [by apply sync_load_branch_sim|].
  intros [f [[V1 M1] m]] [f' [[V2 M2] r2]] (Hf & Hs & Hi2 & Hm). cbn in *. simplify_eq.
  by apply IH.
Qed.
Lemma sync_req_sim fuel ours theirs filter r : store_inv r →
  visit_sim (λ x y, x.1 = y.1 ∧ store_inv y.2 ∧ x.2 = store_view y.2)
    (sync_req obj_fuel fuel ours theirs filter (store_view r))
    (sync_req obj_fuel fuel ours theirs filter r).
Proof.
  intros Hr. unfold sync_req. eapply visit_try; [by apply sync_heads_sim|].
  intros [[V1 M1] m] [[V2 M2] r2] (Hs & Hi & Hm). cbn in *. simplify_eq.
  eapply visit_try; [by apply sync_heads_sim|].
  intros [[V3 M3] m3] [[V4 M4] r4] (Hs & Hi4 & Hm4). cbn in *. simplify_eq. by repeat constructor.
Qed.
Lemma sync_branch_in_sim fuel heads known filter :
  repo_sim (Forall2 like) (sync_branch_in obj_fuel fuel heads known filter)
                          (sync_branch_in obj_fuel fuel heads known filter).
Proof.
  intros r Hr. unfold sync_branch_in. eapply osim_bind; [by apply sync_req_sim|].
  intros res res' Hres. destruct res as [[ids m]|e], res' as [[ids' r']|e']; try done; cbn in Hres.
  - destruct Hres as (-> & Hi & ->). by apply send_objects_sim.
  - by constructor.
Qed.
End Sim.
