(* ===== verification/ServerProps.v ===== *)
(** * The broker's server, refined

    In local mode the server is a machine on the tables of [ServerTables] and one finite map
    of blocks per repository, whichever stores hold them and whenever they are opened. In
    core mode it never gets to a block. *)

From stdpp Require Import functions.
From S2P Require Import Prelude Serde Types Block Store Object Utils Branch NetTypes NetErrors.
From S2P Require Import ObjectTree ObjectStore ObjectSim BrokerStore BrokerRows BrokerTables.
From S2P Require Import AccountProps PeerProps OverlayProps ConfigProps ServerTables Server ServerSim.
From S2P Require Import Bare BareTypes NetBare LmdbRepoStore LmdbView LmdbMem LmdbProps LmdbServed.

(** ** The calls of a server *)

Inductive block_op : Type :=
  | OpPutBlock (b : Block)
  | OpGetBlock (id : BlockId) (include_children : bool)
  | OpDelObject (id : ObjectId)
  | OpPinObject (id : ObjectId)
  | OpUnpinObject (id : ObjectId)
  | OpSyncBranch (heads known_heads : list ObjectId) (known_commits : BloomFilter).
Inductive server_call : Type :=
  | CallAddUser (admin_user user_id : PubKey) (sig : Sig)
  | CallConnect (overlay : OverlayId)
  | CallJoin (overlay : OverlayId) (repo : option PubKey) (secret : SymKey)
      (peers : list PeerAdvert) (random : array 32) (secs : u64)
  | CallBlocks (overlay : OverlayId) (op : block_op).
Inductive server_resp : Type :=
  | RUnit (r : result unit ProtocolError)
  | RBlocks (r : result (list Block) ProtocolError).

Definition resp_like `{!Crypto, !Serde Block} (x y : server_resp) : Prop :=
  match x, y with
  | RUnit r, RUnit r' => r = r'
  | RBlocks r, RBlocks r' => result_like (Forall2 like) r r'
  | _, _ => False
  end.

(** ** The specification *)

Abbreviation blocks := (RepoStoreId → gmap BlockId Block) (only parsing).

Section Spec.
Context `{!Crypto, !Ed25519, !Bloom}.
Context `{!Serde Block, !Serde BlockContentV0, !Serde ObjectContent, !Serde AddUserContentV0}.
Variables obj_fuel fuel : nat.

(** The repository of an overlay that was joined *)
Definition repo_of (T : tables) (o : OverlayId) : option PubKey :=
  match OverlayProps.ov_secret (tb_overlays T o) with
  | Some _ => head (elements (OverlayProps.ov_repos (tb_overlays T o)))
  | None => None
  end.

(** On the blocks of one repository *)
Definition spec_blocks (op : block_op) (V : gmap BlockId Block)
    : outcome (server_resp * gmap BlockId Block) :=
  match op with
  | OpPutBlock b => '(r, V) ← put_block_in b V; Ret (RUnit r, V)
  | OpGetBlock id children => '(r, V) ← get_block_in obj_fuel id children V; Ret (RBlocks r, V)
  | OpDelObject id => '(r, V) ← del_object_in obj_fuel id V; Ret (RUnit r, V)
  | OpPinObject id => '(r, V) ← pin_object_in obj_fuel id V; Ret (RUnit r, V)
  | OpUnpinObject id => '(r, V) ← unpin_object_in obj_fuel id V; Ret (RUnit r, V)
  | OpSyncBranch heads known filter =>
      '(r, V) ← sync_branch_in obj_fuel fuel heads known filter V; Ret (RBlocks r, V)
  end.
Definition error_resp (op : block_op) (e : ProtocolError) : server_resp :=
  match op with
  | OpGetBlock _ _ | OpSyncBranch _ _ _ => RBlocks (Err e)
  | _ => RUnit (Err e)
  end.

(** A peer is added to its table and to the overlay. *)
Definition spec_peer (o : OverlayId) (T : tables) (a : PeerAdvert) : tables :=
  with_tb_overlay (with_tb_peer T a) o
    (OverlayProps.with_peers (tb_overlays T o)
       ({[PeerAdvert_peer a]} ∪ OverlayProps.ov_peers (tb_overlays T o))).
(** An overlay that exists: the peers, then the account *)
Definition spec_join_account (user : PubKey) (o : OverlayId) (peers : list PeerAdvert) (T : tables)
    : result unit ProtocolError * tables :=
  let T := foldl (spec_peer o) T peers in
  match tb_accounts T !! user with
  | Some a => (Ok tt, with_tb_account T user
                 (AccountProps.with_overlays a ({[o]} ∪ AccountProps.acc_overlays a)))
  | None => (Err NotFound, T)
  end.
(** A new overlay, and the key of the store of its repository *)
Definition spec_new_overlay (o : OverlayId) (repo : PubKey) (secret : SymKey) (t : Timestamp)
    (T : tables) : tables :=
  let e := tb_overlays T o in
  with_tb_overlay T o
    {| OverlayProps.ov_secret := Some secret; OverlayProps.ov_peers := OverlayProps.ov_peers e;
       OverlayProps.ov_topics := OverlayProps.ov_topics e;
       OverlayProps.ov_metas := {[ {| OverlayMeta_users := uint_wrap 32 1;
                                      OverlayMeta_last_used := t |} ]} ∪ OverlayProps.ov_metas e;
       OverlayProps.ov_repos := {[repo]} ∪ OverlayProps.ov_repos e |}.
Definition spec_new_key (repo : PubKey) (random : array 32) (T : tables) : tables :=
  match tb_keys T !! RepoStoreId_Repo repo with
  | Some _ => T
  | None => with_tb_key T (RepoStoreId_Repo repo) (ChaCha20Key random)
  end.
(** The first overlay that is joined of a repository creates its key; joining another one is
    refused, with the overlay created. *)
Definition spec_join (user : PubKey) (o : OverlayId) (repo : option PubKey) (secret : SymKey)
    (peers : list PeerAdvert) (random : array 32) (t : Timestamp) (T : tables)
    : result unit ProtocolError * tables :=
  match OverlayProps.ov_secret (tb_overlays T o), repo with
  | Some _, _ => spec_join_account user o peers T
  | None, None => (Err RepoIdRequired, T)
  | None, Some repo =>
      let T := spec_new_overlay o repo secret t T in
      match tb_keys T !! RepoStoreId_Repo repo with
      | Some _ => (Err StoreError, T)
      | None => spec_join_account user o peers (spec_new_key repo random T)
      end
  end.

Definition spec_add_user (admin_user user_id : PubKey) (sig : Sig) (T : tables)
    : result unit ProtocolError * tables :=
  match verify (to_vec {| AddUserContentV0_user := user_id |}) sig admin_user with
  | Err e => (Err (ProtocolError_of_LofireError e), T)
  | Ok _ =>
      match tb_accounts T !! user_id with
      | Some _ => (Err UserAlreadyExists, T)
      | None => (Ok tt, with_tb_account T user_id
                   {| AccountProps.acc_admin := false; AccountProps.acc_clients := ∅;
                      AccountProps.acc_overlays := ∅ |})
      end
  end.

(** A call of a user, on the tables and the blocks *)
Definition spec_call (user : PubKey) (c : server_call) (st : tables * blocks)
    : outcome (server_resp * (tables * blocks)) :=
  let '(T, B) := st in
  match c with
  | CallAddUser admin_user user_id sig =>
      let '(r, T) := spec_add_user admin_user user_id sig T in Ret (RUnit r, (T, B))
  | CallConnect o => Ret (RUnit (Err OverlayNotJoined), (T, B))
  | CallJoin o repo secret peers random secs =>
      t ← now_timestamp secs;
      let '(r, T) := spec_join user o repo secret peers random t T in Ret (RUnit r, (T, B))
  | CallBlocks o op =>
      match repo_of T o with
      | None => Ret (error_resp op NotFound, (T, B))
      | Some repo =>
          '(r, V) ← spec_blocks op (B (RepoStoreId_Repo repo));
          Ret (r, (T, <[RepoStoreId_Repo repo := V]> B))
      end
  end.
Fixpoint spec_calls (user : PubKey) (cs : list server_call) (st : tables * blocks)
    : outcome (list server_resp * (tables * blocks)) :=
  match cs with
  | [] => Ret ([], st)
  | c :: cs => '(r, st) ← spec_call user c st; '(rs, st) ← spec_calls user cs st; Ret (r :: rs, st)
  end.
End Spec.

(** ** The code *)

Section Refinement.
Context {S R : Type} `{!BrokerStore S, !BrokerStoreSpec S}.
Context `{!RwLockRelock, !Crypto, !Ed25519, !Bloom}.
Context `{!Serde Block, !Serde BlockContentV0, !Serde ObjectContent, !Serde AddUserContentV0}.
Context `{!Serde Digest, !Serde SymKey, !Serde PubKey, !Serde bool, !Serde u32}.
Context `{!Serde OverlayMeta, !Serde PeerAdvert, !Serde RepoStoreId}.
Context `{!SerdeLaws Block}.
Context `{!SerdeLaws Digest, !SerdeLaws SymKey, !SerdeLaws PubKey, !SerdeLaws bool, !SerdeLaws u32}.
Context `{!SerdeLaws OverlayMeta, !SerdeLaws PeerAdvert, !SerdeLaws RepoStoreId}.
Context `{!RepoStore R, !RepoStoreSpec R, !RepoStoreTotal R, !ServedStore R, !RepoDirs R, !ServedSpec R}.
Variables obj_fuel fuel : nat.

Abbreviation server := (BrokerServer S R).
Implicit Types (srv : server) (T : tables) (B : blocks).

Definition run_blocks (user : PubKey) (o : OverlayId) (op : block_op) srv
    : outcome (server_resp * server) :=
  match op with
  | OpPutBlock b => '(r, srv) ← put_block user o b srv; Ret (RUnit r, srv)
  | OpGetBlock id children =>
      '(r, srv) ← get_block obj_fuel user o id children None srv; Ret (RBlocks r, srv)
  | OpDelObject id => '(r, srv) ← del_object obj_fuel user o id srv; Ret (RUnit r, srv)
  | OpPinObject id => '(r, srv) ← pin_object obj_fuel user o id srv; Ret (RUnit r, srv)
  | OpUnpinObject id => '(r, srv) ← unpin_object obj_fuel user o id srv; Ret (RUnit r, srv)
  | OpSyncBranch heads known filter =>
      '(r, srv) ← sync_branch obj_fuel fuel user o heads known filter srv; Ret (RBlocks r, srv)
  end.
Definition run_call (user : PubKey) (c : server_call) srv : outcome (server_resp * server) :=
  match c with
  | CallAddUser admin_user user_id sig =>
      '(r, srv) ← add_user admin_user user_id sig srv; Ret (RUnit r, srv)
  | CallConnect o => '(r, srv) ← connect_overlay user o srv; Ret (RUnit r, srv)
  | CallJoin o repo secret peers random secs =>
      '(r, srv) ← join_overlay user o repo secret peers (Some random) secs srv; Ret (RUnit r, srv)
  | CallBlocks o op => run_blocks user o op srv
  end.
Fixpoint run_calls (user : PubKey) (cs : list server_call) srv
    : outcome (list server_resp * server) :=
  match cs with
  | [] => Ret ([], srv)
  | c :: cs => '(r, srv) ← run_call user c srv; '(rs, srv) ← run_calls user cs srv; Ret (r :: rs, srv)
  end.

(** A clock that can be read, rows that fit, blocks under their own hash. *)
Definition call_ok (c : server_call) : Prop :=
  match c with
  | CallJoin _ _ _ peers _ secs =>
      returns (now_timestamp secs) ∧ Forall (PeerProps.advert_fits (S := S)) peers
  | CallBlocks _ (OpPutBlock b) => id_ok b
  | _ => True
  end.

(** ** The relation *)

(** Every overlay has one repository, which has a key. *)
Definition tables_wf T : Prop := ∀ o,
  match OverlayProps.ov_secret (tb_overlays T o) with
  | None => OverlayProps.ov_repos (tb_overlays T o) = ∅
  | Some _ => ∃ repo, OverlayProps.ov_repos (tb_overlays T o) = {[repo]} ∧
                      is_Some (tb_keys T !! RepoStoreId_Repo repo)
  end.
(** The blocks of a repository, in its store or still to come *)
Definition blocks_in srv (id : RepoStoreId) : gmap BlockId Block :=
  match disk srv !! id with Some (_, r) => store_view r | None => ∅ end.
Definition disk_ok srv T : Prop := ∀ id k r, disk srv !! id = Some (k, r) →
  store_inv r ∧ tb_keys T !! id = Some (ChaCha20Key k).
Definition open_ok srv T : Prop :=
  (∀ id, id ∈ repo_stores srv → is_Some (disk srv !! id)) ∧
  ∀ o id, overlayid_to_repostore srv !! o = Some id →
    id ∈ repo_stores srv ∧ ∃ repo, id = RepoStoreId_Repo repo ∧ repo_of T o = Some repo.
Definition server_ok srv (st : tables * blocks) : Prop :=
  let '(T, B) := st in
  mode srv = ConfigMode_Local ∧ tables_ok (store srv) T ∧ tables_wf T ∧
  (∀ id, blocks_in srv id = B id) ∧ disk_ok srv T ∧ open_ok srv T.

Lemma repo_of_joined T o repo : tables_wf T → repo_of T o = Some repo →
  is_Some (OverlayProps.ov_secret (tb_overlays T o)) ∧
  OverlayProps.ov_repos (tb_overlays T o) = {[repo]} ∧
  is_Some (tb_keys T !! RepoStoreId_Repo repo).
Proof.
  intros Hwf Hr. specialize (Hwf o). unfold repo_of in Hr.
  destruct (OverlayProps.ov_secret (tb_overlays T o)); [|done].
  destruct Hwf as (repo' & Hrepo & Hk). rewrite Hrepo, elements_singleton in Hr.
  injection Hr as <-. by split_and!.
Qed.
Lemma repo_of_none T o : tables_wf T → repo_of T o = None →
  OverlayProps.ov_secret (tb_overlays T o) = None.
Proof.
  intros Hwf Hr. specialize (Hwf o). unfold repo_of in Hr.
  destruct (OverlayProps.ov_secret (tb_overlays T o)); [|done].
  destruct Hwf as (repo' & Hrepo & Hk). by rewrite Hrepo, elements_singleton in Hr.
Qed.

(** ** Getting to a store *)

Context (Hdirs : ∀ id, dir_create id = true).

Lemma on_store_read {A} f (m : io S A) srv r :
  m (store srv) = Ret (r, store srv) → on_store f m srv = Ret (map_err f r, srv).
Proof. intros Hm. unfold on_store. rewrite Hm. by destruct srv. Qed.

Lemma srv_try_store_ok {A C} f (m : io S A) (k : A → Server.srv (S := S) (R := R) C) srv a s :
  m (store srv) = Ret (Ok a, s) → srv_try (on_store f m) k srv = k a (with_store srv s).
Proof. intros Hm. unfold srv_try, on_store. by rewrite Hm. Qed.
Lemma srv_try_store_err {A C} f (m : io S A) (k : A → Server.srv (S := S) (R := R) C) srv e s :
  m (store srv) = Ret (Err e, s) → srv_try (on_store f m) k srv = Ret (Err (f e), with_store srv s).
Proof. intros Hm. unfold srv_try, on_store. by rewrite Hm. Qed.
Lemma srv_try_ok {A C} (m : Server.srv (S := S) (R := R) A) (k : A → Server.srv C) srv a srv' :
  m srv = Ret (Ok a, srv') → srv_try m k srv = k a srv'.
Proof. intros Hm. unfold srv_try. by rewrite Hm. Qed.
Lemma srv_try_err {A C} (m : Server.srv (S := S) (R := R) A) (k : A → Server.srv C) srv e srv' :
  m srv = Ret (Err e, srv') → srv_try m k srv = Ret (Err e, srv').
Proof. intros Hm. unfold srv_try. by rewrite Hm. Qed.

Lemma open_dir_ok id key srv T B :
  server_ok srv (T, B) → tb_keys T !! id = Some (ChaCha20Key key) → ∃ srv',
  open_dir id key srv = Ret srv' ∧ server_ok srv' (T, B) ∧ is_Some (disk srv' !! id) ∧
  repo_stores srv' = repo_stores srv ∧ overlayid_to_repostore srv' = overlayid_to_repostore srv.
Proof.
  intros (Hm & HT & Hwf & HB & Hd & Ho) Hk.
  assert (Hres : ∀ r, store_inv r → store_view r = B id →
    server_ok (with_disk id (key, r) srv) (T, B)).
  { intros r Hr Hv. split_and!; [done..| | |].
    - intros j. unfold blocks_in. cbn. destruct (decide (id = j)) as [<-|Hne];
        [by rewrite lookup_insert_eq|rewrite lookup_insert_ne by done; apply HB].
    - intros j k r'. cbn. intros [[<- [= <- <-]]|[_ Hj]]%lookup_insert_Some; [done|by eapply Hd].
    - destruct Ho as [Ho1 Ho2]. split; [|done]. intros j Hj. cbn.
      destruct (decide (id = j)) as [<-|Hne]; [by rewrite lookup_insert_eq|].
      rewrite lookup_insert_ne by done. by apply Ho1. }
  unfold open_dir. pose proof (HB id) as HBid. unfold blocks_in in HBid.
  destruct (disk srv !! id) as [[k r]|] eqn:Hdisk.
  - destruct (Hd id k r Hdisk) as [Hr Hkey]. rewrite Hk in Hkey. injection Hkey as <-.
    destruct (repo_reopen_spec key r Hr) as (r' & -> & Hr' & Hv'). cbn.
    eexists. split; [done|]. split; [apply Hres; congruence|]. split; [|done].
    cbn. by rewrite lookup_insert_eq.
  - destruct (repo_create_spec key) as (r' & -> & Hr' & Hv'). cbn.
    eexists. split; [done|]. split; [apply Hres; congruence|]. split; [|done].
    cbn. by rewrite lookup_insert_eq.
Qed.

(** A store that is open and has the key of the repository; [f] runs on it. *)
Lemma access_ok srv T B o repo :
  server_ok srv (T, B) → repo_of T o = Some repo → ∃ srv',
  (∀ A (f : on_repo A), get_repostore_from_overlay_id o f srv =
                        call_repo f (RepoStoreId_Repo repo) srv') ∧
  server_ok srv' (T, B) ∧ is_Some (disk srv' !! RepoStoreId_Repo repo).
Proof.
  intros Hok Hrepo. pose proof Hok as (Hm & HT & Hwf & HB & Hd & [Ho1 Ho2]).
  destruct (repo_of_joined T o repo Hwf Hrepo) as ([sec Hsec] & Hrep & [[key] Hkey]).
  unfold get_repostore_from_overlay_id. rewrite Hm.
  destruct (overlayid_to_repostore srv !! o) as [id|] eqn:Hid.
  - destruct (Ho2 o id Hid) as (Hin & repo' & -> & Hrepo'). rewrite Hrepo in Hrepo'.
    injection Hrepo' as <-. exists srv. split; [intros A f; by rewrite decide_True by done|].
    split; [done|by apply Ho1].
  - destruct (open_dir_ok (RepoStoreId_Repo repo) key srv T B Hok Hkey) as (srv1 & Hopen & Hok1 & Hdisk & Hrs & Hmap).
    exists (with_open (RepoStoreId_Repo repo) (with_overlay o (RepoStoreId_Repo repo) srv1)). split; [|split; [|done]].
    + intros A f. unfold srv_try at 1.
      rewrite (on_store_read _ _ _ (Ok {| Overlay.id := o |})) by
        (by rewrite (overlay_open_tables _ T), Hsec). cbn [map_err mbind outcome_bind].
      unfold srv_try at 1. rewrite (on_store_read _ _ _ (Ok repo)) by
        (unfold io_read; by rewrite (overlay_repo_tables _ T _ repo)). cbn [map_err mbind outcome_bind].
      unfold open_or_create_repostore. unfold srv_try at 1.
      rewrite (on_store_read _ _ _ (Ok {| RepoStoreInfo.id := RepoStoreId_Repo repo |})) by
        (cbn; by rewrite (info_open_tables _ T), Hkey). cbn [map_err mbind outcome_bind].
      unfold srv_try at 1. rewrite (on_store_read _ _ _ (Ok (ChaCha20Key key))) by
        (unfold io_read; cbn; by rewrite (info_key_tables _ T _ (ChaCha20Key key))).
      cbn [map_err mbind outcome_bind]. rewrite Hdirs. cbn [negb SymKey_slice].
      assert (Hopen' : open_dir (RepoStoreId_Repo repo) key (with_overlay o (RepoStoreId_Repo repo) srv) =
        Ret (with_overlay o (RepoStoreId_Repo repo) srv1)).
      { revert Hopen. unfold open_dir. cbn. destruct (disk srv !! RepoStoreId_Repo repo) as [[k r]|].
        - destruct (repo_reopen _ _ _) as [r'| |]; [by intros [= <-]|done..].
        - destruct (repo_create _) as [r'| |]; [by intros [= <-]|done..]. }
      by rewrite Hopen'.
    + destruct Hok1 as (Hm1 & HT1 & _ & HB1 & Hd1 & [Ho3 Ho4]).
      split_and!; [done..|]. split; cbn.
      * intros j [->%elem_of_singleton|Hj]%elem_of_union; [done|by apply Ho3].
      * intros o' j [[<- <-]|[_ Hj]]%lookup_insert_Some.
        { split; [by apply elem_of_union_l, elem_of_singleton|by exists repo]. }
        destruct (Ho4 o' j Hj) as [Hin ?]. split; [by apply elem_of_union_r|done].
Qed.

(** What a closure does to the map, the call does to the blocks of the repository. *)
Lemma call_repo_sim {A} (RA : A → A → Prop) (f : on_repo A) (g : on_repo (R := R) A) srv T B id :
  repo_sim RA f g → server_ok srv (T, B) → is_Some (disk srv !! id) →
  osim (λ x y, result_like RA x.1 y.1 ∧ server_ok y.2 (T, <[id := x.2]> B))
       (f (B id)) (call_repo g id srv).
Proof.
  intros Hsim (Hm & HT & Hwf & HB & Hd & [Ho1 Ho2]) [[k r] Hdisk].
  unfold call_repo. rewrite Hdisk. destruct (Hd id k r Hdisk) as [Hr Hk].
  pose proof (HB id) as HBid. unfold blocks_in in HBid. rewrite Hdisk in HBid. rewrite <- HBid.
  destruct (Hsim r Hr) as [[res V] [res' r'] (Hres & Hr' & HV)| |]; cbn in *; [|constructor..].
  constructor. cbn. subst V. split; [done|]. split_and!; [done..| | |].
  - intros j. unfold blocks_in. cbn. destruct (decide (id = j)) as [<-|Hne].
    + by rewrite lookup_insert_eq, fn_lookup_insert.
    + rewrite lookup_insert_ne, fn_lookup_insert_ne by done. apply HB.
  - intros j k' r''. cbn. intros [[<- [= <- <-]]|[_ Hj]]%lookup_insert_Some; [done|by eapply Hd].
  - split; [|done]. intros j Hj. cbn. destruct (decide (id = j)) as [<-|Hne];
      [by rewrite lookup_insert_eq|rewrite lookup_insert_ne by done; by apply Ho1].
Qed.
Lemma overlay_call_sim {A} (RA : A → A → Prop) (f : on_repo A) (g : on_repo (R := R) A) srv T B o repo :
  repo_sim RA f g → server_ok srv (T, B) → repo_of T o = Some repo →
  osim (λ x y, result_like RA x.1 y.1 ∧ server_ok y.2 (T, <[RepoStoreId_Repo repo := x.2]> B))
       (f (B (RepoStoreId_Repo repo))) (get_repostore_from_overlay_id o g srv).
Proof.
  intros Hsim Hok Hrepo. destruct (access_ok srv T B o repo Hok Hrepo) as (srv' & Hget & Hok' & Hd).
  rewrite Hget. by apply call_repo_sim.
Qed.
Lemma overlay_call_none {A} (g : on_repo (R := R) A) srv T B o :
  server_ok srv (T, B) → repo_of T o = None →
  get_repostore_from_overlay_id o g srv = Ret (Err NotFound, srv).
Proof.
  intros (Hm & HT & Hwf & _ & _ & [_ Ho2]) Hrepo. unfold get_repostore_from_overlay_id. rewrite Hm.
  destruct (overlayid_to_repostore srv !! o) as [id|] eqn:Hid.
  { destruct (Ho2 o id Hid) as (_ & repo & _ & ?). congruence. }
  unfold srv_try. rewrite (on_store_read _ _ _ (Err StorageError_NotFound)); [done|].
  by rewrite (overlay_open_tables _ T), (repo_of_none T o Hwf Hrepo).
Qed.

(** ** Calls on blocks *)

Definition call_sim (x : server_resp * (tables * blocks)) (y : server_resp * server) : Prop :=
  resp_like x.1 y.1 ∧ server_ok y.2 x.2.

Lemma answer_sim {A} (RA : A → A → Prop) (c : result A ProtocolError → server_resp) T B id
    (m : outcome (result A ProtocolError * gmap BlockId Block))
    (m' : outcome (result A ProtocolError * server)) :
  (∀ r r', result_like RA r r' → resp_like (c r) (c r')) →
  osim (λ x y, result_like RA x.1 y.1 ∧ server_ok y.2 (T, <[id := x.2]> B)) m m' →
  osim call_sim ('(r, V) ← ('(r, V) ← m; Ret (c r, V)); Ret (r, (T, <[id := V]> B)))
                ('(r, srv) ← m'; Ret (c r, srv)).
Proof.
  intros Hc [[r V] [r' srv'] (Hr & Hok)| |]; cbn; constructor. cbn in *. split; [by apply Hc|done].
Qed.
Lemma unit_resp r r' : result_like eq r r' → resp_like (RUnit r) (RUnit r').
Proof. destruct r as [[]|], r' as [[]|]; cbn; try done. by intros ->. Qed.

Lemma run_blocks_sim user o op srv T B :
  server_ok srv (T, B) → call_ok (CallBlocks o op) →
  osim call_sim (spec_call obj_fuel fuel user (CallBlocks o op) (T, B)) (run_blocks user o op srv).
Proof.
  intros Hok Hop. cbn [spec_call].
  destruct (repo_of T o) as [repo|] eqn:Hrepo.
  - destruct op; cbn [spec_blocks run_blocks].
    + apply (answer_sim eq); [apply unit_resp|]. apply overlay_call_sim; [|done..].
      by apply put_block_in_sim.
    + apply (answer_sim (Forall2 like)); [done|]. apply overlay_call_sim; [|done..].
      apply get_block_in_sim.
    + apply (answer_sim eq); [apply unit_resp|]. apply overlay_call_sim; [|done..].
      apply del_object_in_sim.
    + apply (answer_sim eq); [apply unit_resp|]. apply overlay_call_sim; [|done..].
      apply pin_object_in_sim.
    + apply (answer_sim eq); [apply unit_resp|]. apply overlay_call_sim; [|done..].
      apply unpin_object_in_sim.
    + apply (answer_sim (Forall2 like)); [done|]. apply overlay_call_sim; [|done..].
      apply sync_branch_in_sim.
  - assert (Hnone : ∀ A (g : on_repo (R := R) A),
      get_repostore_from_overlay_id o g srv = Ret (Err NotFound, srv))
      by (intros; by eapply overlay_call_none).
    destruct op; cbn [run_blocks error_resp];
      unfold put_block, get_block, del_object, pin_object, unpin_object, sync_branch;
      rewrite Hnone; by constructor.
Qed.

(** ** Calls on the tables *)

(** The overlays and the keys that are there stay. *)
Definition tables_grow T T' : Prop :=
  tables_wf T' ∧ (∀ id k, tb_keys T !! id = Some k → tb_keys T' !! id = Some k) ∧
  ∀ o repo, repo_of T o = Some repo → repo_of T' o = Some repo.
(** The overlays keep their secrets and repositories, the keys are the same. *)
Definition tables_same T T' : Prop :=
  tb_keys T' = tb_keys T ∧ ∀ o,
  OverlayProps.ov_secret (tb_overlays T' o) = OverlayProps.ov_secret (tb_overlays T o) ∧
  OverlayProps.ov_repos (tb_overlays T' o) = OverlayProps.ov_repos (tb_overlays T o).

Lemma tables_same_grow T T' : tables_wf T → tables_same T T' → tables_grow T T'.
Proof.
  intros Hwf [Hk Ho]. split_and!.
  - intros o. destruct (Ho o) as [-> ->]. rewrite Hk. apply Hwf.
  - by rewrite Hk.
  - intros o repo. unfold repo_of. by destruct (Ho o) as [-> ->].
Qed.
Lemma tables_same_trans T1 T2 T3 : tables_same T1 T2 → tables_same T2 T3 → tables_same T1 T3.
Proof.
  intros [Hk1 Ho1] [Hk2 Ho2]. split; [congruence|]. intros o.
  destruct (Ho1 o), (Ho2 o). split; congruence.
Qed.
Lemma tables_grow_trans T1 T2 T3 : tables_grow T1 T2 → tables_grow T2 T3 → tables_grow T1 T3.
Proof. intros (? & ? & ?) (? & ? & ?). split_and!; eauto. Qed.
Lemma spec_peer_same o T a : tables_same T (spec_peer o T a).
Proof.
  split; [done|]. intros j. unfold spec_peer. cbn. destruct (decide (o = j)) as [<-|Hne].
  - by rewrite fn_lookup_insert.
  - by rewrite fn_lookup_insert_ne.
Qed.
Lemma spec_peers_same o T peers : tables_same T (foldl (spec_peer o) T peers).
Proof.
  revert T. induction peers as [|a peers IH]; intros T; [by repeat split|].
  cbn. eapply tables_same_trans; [apply spec_peer_same|apply IH].
Qed.

Lemma server_ok_grow srv T T' B s' :
  server_ok srv (T, B) → tables_ok s' T' → tables_grow T T' →
  server_ok (with_store srv s') (T', B).
Proof.
  intros (Hm & HT & Hwf & HB & Hd & [Ho1 Ho2]) HT' (Hwf' & Hk & Hr). split_and!; [done..| |].
  - intros id k r Hid. destruct (Hd id k r Hid) as [? Hkey]. split; [done|by apply Hk].
  - split; [done|]. intros o id Hid. destruct (Ho2 o id Hid) as (? & repo & -> & Hrepo).
    split; [done|]. exists repo. split; [done|by apply Hr].
Qed.

Context (Hfits : tables_fit (S := S)).

Lemma add_peers_ok o peers s T sec :
  tables_ok s T → OverlayProps.ov_secret (tb_overlays T o) = Some sec →
  Forall (PeerProps.advert_fits (S := S)) peers → ∃ s',
  add_peers peers {| Overlay.id := o |} s = Ret (Ok tt, s') ∧
  tables_ok s' (foldl (spec_peer o) T peers).
Proof.
  intros HT Hsec Hps. revert s T HT Hsec. induction Hps as [|a peers Ha Hps IH]; intros s T HT Hsec.
  { by exists s. }
  cbn [add_peers foldl]. destruct (peer_update_tables s T a Ha HT) as (s1 & p & Hp & HT1).
  rewrite (io_try_ok _ _ _ _ _ Hp).
  destruct (add_peer_tables s1 _ o (PeerAdvert_peer a) sec Hfits HT1) as (s2 & Hadd & HT2); [done|].
  rewrite (io_try_ok _ _ _ _ _ Hadd). apply (IH s2 _ HT2).
  exact (eq_trans (proj1 (proj2 (spec_peer_same o T a) o)) Hsec).
Qed.

(** The end of [join_overlay] *)
Lemma join_account_ok user o peers srv T B sec :
  server_ok srv (T, B) → OverlayProps.ov_secret (tb_overlays T o) = Some sec →
  Forall (PeerProps.advert_fits (S := S)) peers → ∃ srv',
  on_store ProtocolError_of_StorageError (
    _ ←$ add_peers peers {| Overlay.id := o |};
    account ←$ Account.open user;
    _ ←$ Account.add_overlay o account;
    io_ok tt) srv = Ret ((spec_join_account user o peers T).1, srv') ∧
  server_ok srv' ((spec_join_account user o peers T).2, B).
Proof.
  intros Hok Hsec Hps. pose proof Hok as (_ & HT & Hwf & _).
  destruct (add_peers_ok o peers _ T sec HT Hsec Hps) as (s1 & Hadd & HT1).
  pose proof (spec_peers_same o T peers) as Hsame. unfold spec_join_account, on_store.
  rewrite (io_try_ok _ _ _ _ _ Hadd). set (T1 := foldl (spec_peer o) T peers) in *.
  destruct (tb_accounts T1 !! user) as [a|] eqn:Ha.
  - rewrite (io_try_ok _ _ _ _ _ (eq_trans (account_open_tables _ T1 user HT1)
      ltac:(by rewrite Ha))).
    destruct (AccountProps.account_run_refines (proj2 (proj2 Hfits)) (AccountProps.OpAddOverlay user o)
      s1 _ (proj1 (proj2 (proj2 HT1)))) as (s2 & Hrun & _).
    destruct (account_run_tables _ _ _ _ _ Hfits HT1 Hrun) as [_ HT2].
    cbn [AccountProps.spec AccountProps.run] in Hrun, HT2. rewrite Ha in Hrun, HT2.
    destruct (io_then_unit _ _ _ _ _ Hrun) as ([[]|] & Hc & Hr); [|done].
    rewrite (io_try_ok _ _ _ _ _ Hc). cbn. eexists. split; [done|].
    eapply server_ok_grow; [done|exact HT2|]. by apply tables_same_grow.
  - rewrite (io_try_err _ _ _ _ _ (eq_trans (account_open_tables _ T1 user HT1)
      ltac:(by rewrite Ha))). cbn. eexists. split; [done|].
    eapply server_ok_grow; [done|exact HT1|]. by apply tables_same_grow.
Qed.

Lemma with_store_id srv : with_store srv (store srv) = srv.
Proof. by destruct srv. Qed.

(** A new overlay whose repository gets, or has, a key *)
Lemma new_overlay_grow T o repo e K :
  tables_wf T → OverlayProps.ov_secret (tb_overlays T o) = None →
  is_Some (OverlayProps.ov_secret e) →
  OverlayProps.ov_repos e = {[repo]} ∪ OverlayProps.ov_repos (tb_overlays T o) →
  (∀ id k, tb_keys T !! id = Some k → K !! id = Some k) → is_Some (K !! RepoStoreId_Repo repo) →
  tables_grow T {| tb_overlays := <[o := e]> (tb_overlays T); tb_keys := K;
                   tb_accounts := tb_accounts T; tb_peers := tb_peers T |}.
Proof.
  intros Hwf Hnone Hsec Hrepos Hgrow Hk. pose proof (Hwf o) as Ho. rewrite Hnone in Ho.
  rewrite Ho, (right_id_L ∅ (∪)) in Hrepos. split_and!; [|done|].
  - intros j. cbn. destruct (decide (o = j)) as [<-|Hne].
    + rewrite fn_lookup_insert. destruct Hsec as [sec ->]. by exists repo.
    + rewrite fn_lookup_insert_ne by done. specialize (Hwf j).
      destruct (OverlayProps.ov_secret _); [|done]. destruct Hwf as (r & Hr & [k Hkr]).
      exists r. split; [done|]. exists k. by apply Hgrow.
  - intros j r. unfold repo_of. cbn. destruct (decide (o = j)) as [<-|Hne].
    + by rewrite Hnone.
    + by rewrite fn_lookup_insert_ne.
Qed.

(** The creation of an overlay that is not in the table *)
Lemma new_overlay_ok o repo secret random secs t srv T B :
  server_ok srv (T, B) → now_timestamp secs = Ret t →
  OverlayProps.ov_secret (tb_overlays T o) = None → ∃ srv',
  new_overlay o (Some repo) secret (Some random) secs srv = Ret
    (match tb_keys T !! RepoStoreId_Repo repo with
     | Some _ => Err StoreError | None => Ok {| Overlay.id := o |} end, srv') ∧
  server_ok srv' (spec_new_key repo random (spec_new_overlay o repo secret t T), B).
Proof.
  intros Hok Ht Hsec. pose proof Hok as (Hm & HT & Hwf & _). unfold new_overlay.
  rewrite Hm, bool_decide_eq_true_2, bool_decide_eq_false_2, decide_True by done. cbn [andb].
  destruct (overlay_create_tables _ T o secret (Some repo) secs t Hfits HT Hsec Ht) as (s1 & Hc & HT1).
  cbn [from_option] in HT1. fold (spec_new_overlay o repo secret t T) in HT1.
  rewrite (srv_try_store_ok _ _ _ _ _ _ Hc). cbn [unwrap mbind outcome_bind].
  unfold compute_repostore_id. cbn [mode with_store]. rewrite Hm. cbn [unwrap mbind outcome_bind].
  unfold spec_new_key. change (tb_keys (spec_new_overlay _ _ _ _ T)) with (tb_keys T).
  destruct (tb_keys T !! RepoStoreId_Repo repo) as [k|] eqn:Hk.
  - rewrite (srv_try_store_err _ _ _ (with_store srv s1) _ _ (info_create_exists s1 _ _ (ChaCha20Key random) k HT1 Hk)).
    eexists. split; [done|]. apply (server_ok_grow srv T _ _ s1 Hok HT1).
    apply (new_overlay_grow T o repo); [done..|by eexists|done|done|by eexists].
  - destruct (info_create_tables s1 _ _ (ChaCha20Key random) Hfits HT1 Hk) as (s2 & Hi & HT2).
    rewrite (srv_try_store_ok _ _ _ (with_store srv s1) _ _ Hi). eexists. split; [done|].
    apply (server_ok_grow srv T _ _ s2 Hok HT2).
    apply (new_overlay_grow T o repo); [done..|by eexists|done| |by rewrite lookup_insert_eq].
    intros j k Hj. cbn. rewrite lookup_insert_ne; [done|]. intros <-. congruence.
Qed.

Lemma join_overlay_ok user o repo secret peers random secs t srv T B :
  server_ok srv (T, B) → now_timestamp secs = Ret t →
  Forall (PeerProps.advert_fits (S := S)) peers → ∃ srv',
  join_overlay user o repo secret peers (Some random) secs srv =
    Ret ((spec_join user o repo secret peers random t T).1, srv') ∧
  server_ok srv' ((spec_join user o repo secret peers random t T).2, B).
Proof.
  intros Hok Ht Hps. pose proof Hok as (Hm & HT & Hwf & _). unfold join_overlay, spec_join.
  rewrite (overlay_open_tables _ T o HT). cbn [mbind outcome_bind]. rewrite with_store_id.
  destruct (OverlayProps.ov_secret (tb_overlays T o)) as [sec|] eqn:Hsec.
  { unfold srv_try, srv_ok. cbn [mbind outcome_bind]. by eapply join_account_ok. }
  rewrite decide_True by done. destruct repo as [repo|].
  - destruct (new_overlay_ok o repo secret random secs t srv T B Hok Ht Hsec) as (srv1 & Hn & Hok1).
    revert Hn Hok1. unfold spec_new_key. change (tb_keys (spec_new_overlay _ _ _ _ T)) with (tb_keys T).
    destruct (tb_keys T !! RepoStoreId_Repo repo) as [k|]; intros Hn Hok1.
    + rewrite (srv_try_err _ _ _ _ _ Hn). by exists srv1.
    + rewrite (srv_try_ok _ _ _ _ _ Hn). eapply join_account_ok; [done| |done].
      cbn. by rewrite fn_lookup_insert.
  - rewrite (srv_try_err _ _ _ RepoIdRequired srv); [by exists srv|].
    unfold new_overlay. by rewrite Hm.
Qed.

Lemma add_user_ok admin_user user_id sig srv T B :
  server_ok srv (T, B) → ∃ srv',
  add_user admin_user user_id sig srv = Ret ((spec_add_user admin_user user_id sig T).1, srv') ∧
  server_ok srv' ((spec_add_user admin_user user_id sig T).2, B).
Proof.
  intros Hok. pose proof Hok as (Hm & HT & Hwf & _). unfold add_user, spec_add_user.
  destruct (verify _ _ _) as [[]|e]; [|by exists srv].
  rewrite (account_open_tables _ T user_id HT). cbn [mbind outcome_bind]. rewrite with_store_id.
  destruct (tb_accounts T !! user_id) as [a|] eqn:Ha; [by exists srv|].
  destruct (AccountProps.account_run_refines (proj2 (proj2 Hfits))
    (AccountProps.OpCreate user_id false) _ _ (proj1 (proj2 (proj2 HT)))) as (s2 & Hrun & _).
  destruct (account_run_tables _ _ _ _ _ Hfits HT Hrun) as [_ HT2].
  cbn [AccountProps.spec AccountProps.run] in Hrun, HT2. rewrite Ha in Hrun, HT2.
  destruct (io_then_unit _ _ _ _ _ Hrun) as ([acc|] & Hc & Hr); [|done].
  unfold srv_try, on_store. rewrite Hc. cbn. eexists. split; [done|].
  eapply server_ok_grow; [done|exact HT2|]. by apply tables_same_grow.
Qed.

Lemma run_call_sim user c srv st :
  server_ok srv st → call_ok c →
  osim call_sim (spec_call obj_fuel fuel user c st) (run_call user c srv).
Proof.
  destruct st as [T B]. intros Hok Hc.
  destruct c as [admin_user user_id sig|o|o repo secret peers random secs|o op].
  - cbn [spec_call run_call].
    destruct (add_user_ok admin_user user_id sig srv T B Hok) as (srv' & -> & Hok').
    destruct (spec_add_user _ _ _ T) as [r T']. by constructor.
  - by constructor.
  - destruct Hc as [[t Ht] Hps]. cbn [spec_call run_call]. rewrite Ht. cbn [mbind outcome_bind].
    destruct (join_overlay_ok user o repo secret peers random secs t srv T B Hok Ht Hps)
      as (srv' & -> & Hok'). destruct (spec_join _ _ _ _ _ _ _ T) as [r T']. by constructor.
  - by apply run_blocks_sim.
Qed.
Lemma run_calls_sim user cs srv st :
  server_ok srv st → Forall call_ok cs →
  osim (λ x y, Forall2 resp_like x.1 y.1 ∧ server_ok y.2 x.2)
       (spec_calls obj_fuel fuel user cs st) (run_calls user cs srv).
Proof.
  intros Hok Hcs. revert srv st Hok. induction Hcs as [|c cs Hc Hcs IH]; intros srv st Hok.
  { by constructor. }
  cbn [spec_calls run_calls]. eapply osim_bind; [by apply run_call_sim|].
  intros [r st1] [r' srv1] [Hr Hok1]. eapply osim_bind; [by apply IH|].
  intros [rs st2] [rs' srv2] [Hrs Hok2]. constructor. cbn in *. split; [by constructor|done].
Qed.

(** C5: a server in local mode that is sent any calls, users added, overlays joined, blocks
    put and got, objects deleted, pinned and synchronized, behaves as the specification on
    the tables and on one map of blocks per repository: it answers the same, errors
    included, panics or goes on forever only where the specification does, and is then in
    the state the specification is in. Which stores were open makes no difference, and two
    overlays of one repository have the same blocks. *)
Theorem Server_refinement user cs srv st :
  server_ok srv st → Forall call_ok cs →
  osim (λ x y, Forall2 resp_like x.1 y.1 ∧ server_ok y.2 x.2)
       (spec_calls obj_fuel fuel user cs st) (run_calls user cs srv).
Proof. apply run_calls_sim. Qed.
End Refinement.

(** ** Core mode *)

Section Core.
Context {S R : Type} `{!BrokerStore S}.
Context `{!RwLockRelock, !RwLockRelockLaws, !Serde RepoStoreId, !Serde SymKey}.
Context `{!Serde Digest, !Serde PubKey, !Serde OverlayMeta}.
Context `{!RepoDirs R}.
Implicit Types (srv : BrokerServer S R).

(** C39: a server in core mode has no store open when it starts, and never opens one: whatever
    is to be done on the store of an overlay is never done. The call answers an error, leaves
    the server without open stores, or does not return: it waits for a lock it holds itself. *)
Theorem Server_core_stuck {A} (o : OverlayId) (f : on_repo (R := R) A) srv res srv' :
  mode srv = ConfigMode_Core → repo_stores srv = ∅ →
  get_repostore_from_overlay_id o f srv = Ret (res, srv') →
  (∃ e, res = Err e) ∧ mode srv' = ConfigMode_Core ∧ repo_stores srv' = ∅ ∧ disk srv' = disk srv.
Proof.
  intros Hm Hrs. unfold get_repostore_from_overlay_id. rewrite Hm, Hrs.
  rewrite decide_False by apply not_elem_of_empty. unfold open_or_create_repostore.
  intros [(e & Ho & ->)|(info & srv1 & Ho & H1)]%srv_try_inv;
    apply on_store_inv in Ho as [s1 ->]; [by split; [eexists|]|].
  apply srv_try_inv in H1 as [(e & Ho & ->)|(key & srv2 & Ho & H2)];
    apply on_store_inv in Ho as [s2 ->]; [by split; [eexists|]|].
  destruct (negb _); [injection H2 as <- <-; by split; [eexists|]|].
  destruct (open_dir _ _ _) as [srv3| |]; [|done..]. cbn [mbind outcome_bind] in H2.
  destruct write_while_reading as [u| |] eqn:Hw; [|done..].
  exfalso. apply write_while_reading_law. by exists u.
Qed.
End Core.

(** ** Example: two overlays of one repository *)

Module Examples.
Import BareTypes.Instances NetBare.NetInstances MemStore LmdbMem LmdbServed LmdbExamples OverlayProps.Examples.

#[export] Instance mem_room : LmdbRoom.
Proof. by split. Qed.
#[export] Instance lock_panics : RwLockRelock := { write_while_reading := Panic }.
#[export] Instance lock_panics_laws : RwLockRelockLaws.
Proof. split. by intros []. Qed.
#[export] Instance mem_dirs : RepoDirs LmdbRepoStore := {
  dir_create _ := true;
  repo_create _ := Ret (empty_store time1);
  repo_reopen _ _ r := Ret r
}.
#[export] Instance mem_served : ServedSpec LmdbRepoStore.
Proof.
  split.
  - intros id r Hr. by apply set_pin_served.
  - intros id r Hr. by apply set_pin_served.
  - intros k. eexists. split; [done|]. split; [|done].
    split_and!; [by intros ? ?|by intros ? ?|by intros ? ?].
  - intros k r Hr. by exists r.
Qed.
#[export] Instance digest_bloom : Bloom := {
  Filter := bytes;
  filter_from_u8_array b k := b;
  filter_contains f d := bool_decide (f = d)
}.
#[export] Instance AddUserContentV0_bare : Bare AddUserContentV0 :=
  iso_bare AddUserContentV0_user Build_AddUserContentV0.

Definition admin : PrivKey * PubKey := generate_keypair [x01].
Definition user1 : PubKey := (generate_keypair [x02]).2.
Definition added (user : PubKey) : server_call :=
  CallAddUser admin.2 user
    (match sign admin.1 admin.2 (to_vec {| AddUserContentV0_user := user |}) with
     | Ok sig => sig
     | Err _ => Ed25519Sig (to_array 32 []) (to_array 32 [])
     end).
Definition overlay2 : OverlayId := Blake3Digest32 (to_array 32 [x02]).
Definition join (o : OverlayId) (repo : option PubKey) : server_call :=
  CallJoin o repo key1 [] (to_array 32 [x07]) time1.
Definition calls : list server_call :=
  [added user1; added user1; CallBlocks overlay1 (OpPutBlock b1); join overlay1 None;
   join overlay1 (Some repo1); CallBlocks overlay1 (OpPutBlock b1); join overlay2 (Some repo1);
   CallBlocks overlay2 (OpGetBlock (Block_id b1) false); join overlay2 (Some repo1);
   CallBlocks overlay2 (OpDelObject (Block_id b1));
   CallBlocks overlay1 (OpGetBlock (Block_id b1) false)].

Definition server0 : BrokerServer ms_db LmdbRepoStore :=
  {| store := ∅; mode := ConfigMode_Local; repo_stores := ∅; overlayid_to_repostore := ∅; disk := ∅ |}.
Definition tables0 : tables :=
  {| tb_overlays := λ _, OverlayProps.no_entry; tb_keys := ∅; tb_accounts := ∅; tb_peers := ∅ |}.

Lemma tables0_ok : tables_ok (∅ : ms_db) tables0.
Proof.
  split_and!; [apply OverlayProps.Examples.overlays_ok_empty|..]; (split; [done|]); intros i;
    unfold AccountProps.account_rows, PeerProps.peer_rows, row; cbn -[compute_property];
    by rewrite !lookup_empty.
Qed.

Lemma server0_ok : server_ok server0 (tables0, λ _, ∅).
Proof.
  split; [done|]. split; [apply tables0_ok|]. split; [done|]. split; [done|].
  split; [done|]. split; [by intros id ?%not_elem_of_empty|done].
Qed.
Lemma mem_fits : tables_fit (S := ms_db).
Proof. done. Qed.

(** What is answered: the error, or how many blocks *)
Definition answer (r : server_resp) : option ProtocolError * nat :=
  match r with
  | RUnit (Err e) | RBlocks (Err e) => (Some e, 0)
  | RUnit (Ok _) => (None, 0)
  | RBlocks (Ok l) => (None, length l)
  end.
Lemma answer_like x y : resp_like x y → answer x = answer y.
Proof.
  destruct x as [[]|[]], y as [[]|[]]; cbn; try done; [by intros [= <-]..| |by intros ->].
  by intros ->%Forall2_length.
Qed.
Definition answers : list (option ProtocolError * nat) :=
  [(None, 0); (Some UserAlreadyExists, 0); (Some NotFound, 0); (Some RepoIdRequired, 0);
   (None, 0); (None, 0); (Some StoreError, 0); (None, 1); (None, 0); (None, 0); (Some NotFound, 0)].
Lemma calls_answers :
  match spec_calls 3 3 user1 calls (tables0, λ _, ∅) with
  | Ret (rs, _) => bool_decide (answer <$> rs = answers)
  | _ => false
  end = true.
Proof. vm_compute. reflexivity. Qed.

Lemma join_ok o repo : call_ok (S := ms_db) (join o repo).
Proof. split; [eexists; vm_compute; reflexivity|constructor]. Qed.
Lemma b1_ok : id_ok b1.
Proof. apply (bool_decide_unpack _). vm_compute. exact I. Qed.
Lemma calls_ok : Forall (call_ok (S := ms_db)) calls.
Proof.
  unfold calls. repeat (apply Forall_cons; split); try apply Forall_nil; try apply join_ok;
    try exact I; exact b1_ok.
Qed.

Lemma Server_refinement_witness : ∃ rs srv st,
  run_calls 3 3 user1 calls server0 = Ret (rs, srv) ∧ server_ok srv st ∧ answer <$> rs = answers.
Proof.
  pose proof (Server_refinement 3 3 ltac:(done) mem_fits user1 calls server0 (tables0, λ _, ∅)
    server0_ok) as Hsim.
  specialize (Hsim calls_ok). pose proof calls_answers as Ha.
  destruct Hsim as [[rs st] [rs' srv] [Hrs Hok]| |]; [|done..]. cbn in Hrs, Hok.
  apply bool_decide_eq_true in Ha. exists rs', srv, st. split; [done|]. split; [done|].
  rewrite <- Ha. symmetry. clear -Hrs. induction Hrs as [|x y rs rs' Hxy _ IH]; [done|].
  rewrite !fmap_cons. f_equal; [by apply answer_like|done].
Defined.

(** The same tables, the server in core mode *)
Definition core0 : BrokerServer ms_db LmdbRepoStore :=
  {| store := ∅; mode := ConfigMode_Core; repo_stores := ∅; overlayid_to_repostore := ∅; disk := ∅ |}.
Lemma core_answer :
  match get_repostore_from_overlay_id overlay1 (put_block_in b1) core0 with
  | Ret (Err e, _) => bool_decide (e = OverlayNotFound)
  | _ => false
  end = true.
Proof. vm_compute. reflexivity. Qed.
Lemma Server_core_stuck_witness : ∃ srv,
  get_repostore_from_overlay_id overlay1 (put_block_in b1) core0 = Ret (Err OverlayNotFound, srv) ∧
  repo_stores srv = ∅ ∧ disk srv = ∅.
Proof.
  pose proof core_answer as Ha.
  destruct (get_repostore_from_overlay_id overlay1 (put_block_in b1) core0) as [[[|e] srv]| |] eqn:Hrun;
    [done| |done..].
  apply bool_decide_eq_true in Ha. subst e. exists srv. split; [done|].
  destruct (Server_core_stuck overlay1 (put_block_in b1) core0 (Err OverlayNotFound) srv) as (_ & _ & ? & ?);
    [reflexivity|reflexivity|exact Hrun|done].
Defined.
(** With the store of the overlay in the table, the call waits for its own lock. *)
Example core_waits :
  match RepoStoreInfo.create (RepoStoreId_Overlay overlay1) key1 (∅ : ms_db) with
  | Ret (_, s) =>
      match get_repostore_from_overlay_id overlay1 (put_block_in b1) (with_store core0 s) with
      | Ret _ => false
      | _ => true
      end
  | _ => false
  end = true.
Proof. vm_compute. reflexivity. Qed.
End Examples.
