(* ===== verification/Session.v ===== *)
(** * A session of the broker's server: [ProtocolHandler] of [lofire-broker/src/server.rs]

    What a server does with the frames of one connection: the hello and the authentication
    first, with the handler of [Auth], then one message after the other, each of which is a
    call of [Server] in the name of the user who authenticated, and is replied to. *)

From S2P Require Import Prelude Serde Types Block Store Object Utils Branch NetTypes NetErrors.
From S2P Require Import BrokerStore BrokerTables Auth Server.

(** What the environment gives while a frame is handled: the bytes [getrandom] draws, [None]
    if it fails, and the time of the clock, in seconds. *)
Record env : Type := { random_buf : option (array 32); secs : u64 }.

(** A reply: the message, and the task that is to be run, if there is one: the frames it sends
    on the connection, and the code it ends with. The channel the task sends on is unbounded
    and its receiver is there as long as the connection is. *)
Definition task : Type := list bytes * u16.

(** ** [BrokerProtocolHandler] *)

Module BrokerProtocolHandler.
Section Handler.
Context {S R : Type} `{!BrokerStore S, !RepoStore R, !ServedStore R, !RepoDirs R}.
Context `{!RwLockRelock, !Crypto, !Ed25519, !Bloom}.
Context `{!Serde Block, !Serde BlockContentV0, !Serde ObjectContent, !Serde AddUserContentV0}.
Context `{!Serde Digest, !Serde SymKey, !Serde PubKey, !Serde bool, !Serde u32}.
Context `{!Serde OverlayMeta, !Serde PeerAdvert, !Serde RepoStoreId}.
Context `{!Serde BrokerMessage}.
Variables obj_fuel fuel : nat.

Abbreviation server := (BrokerServer S R).

Definition padding (padding_size : usize) : bytes := replicate (N.to_nat padding_size) x00.

Definition prepare_reply_broker_message (res : result unit ProtocolError) (id : u64)
    (padding_size : usize) : BrokerMessage :=
  let result := match res with Ok _ => uint_wrap 16 0 | Err e => ProtocolError_into e end in
  BrokerMessage_V0 {|
    BrokerMessageV0_padding := padding padding_size;
    BrokerMessageV0_content := BrokerMessageContentV0_BrokerResponse (BrokerResponse_V0 {|
      BrokerResponseV0_id := id; BrokerResponseV0_result := result |}) |}.

Definition overlay_response (overlay : OverlayId) (id : u64) (result : u16)
    (content : option BrokerOverlayResponseContentV0) (padding_size : usize) : BrokerMessage :=
  BrokerMessage_V0 {|
    BrokerMessageV0_padding := padding padding_size;
    BrokerMessageV0_content := BrokerMessageContentV0_BrokerOverlayMessage (BrokerOverlayMessage_V0 {|
      BrokerOverlayMessageV0_overlay := overlay;
      BrokerOverlayMessageV0_content := BrokerOverlayMessageContentV0_BrokerOverlayResponse
        (BrokerOverlayResponse_V0 {|
          BrokerOverlayResponseV0_id := id; BrokerOverlayResponseV0_result := result;
          BrokerOverlayResponseV0_content := content |}) |}) |}.

Definition prepare_reply_broker_overlay_message (res : result unit ProtocolError) (id : u64)
    (overlay : OverlayId) (block : option Block) (padding_size : usize) : BrokerMessage :=
  let result := match res with Ok _ => uint_wrap 16 0 | Err e => ProtocolError_into e end in
  let content := match block with
                 | Some b => Some (BrokerOverlayResponseContentV0_Block b)
                 | None => None
                 end in
  overlay_response overlay id result content padding_size.

Definition prepare_reply_broker_overlay_message_stream (res : result Block ProtocolError) (id : u64)
    (overlay : OverlayId) (padding_size : usize) : BrokerMessage :=
  let result := match res with
                | Ok _ => ProtocolError_into PartialContent
                | Err e => ProtocolError_into e
                end in
  let content := match res with
                 | Ok r => Some (BrokerOverlayResponseContentV0_Block r)
                 | Err _ => None
                 end in
  overlay_response overlay id result content padding_size.

(** The receiver of a channel is the list of the blocks sent, the sender being dropped. *)
Definition send_block_stream_response_to_client (res : result (list Block) ProtocolError) (id : u64)
    (overlay : OverlayId) (padding_size : usize) : BrokerMessage * option task :=
  let frame (r : result Block ProtocolError) : bytes :=
    to_vec (prepare_reply_broker_overlay_message_stream r id overlay padding_size) in
  let one_reply : result Block ProtocolError * option task := match res with
    | Err e => (Err e, None)
    | Ok [] => (Err EndOfStream, None)
    | Ok (one :: stream) =>
        (Ok one, Some (((λ next, frame (Ok next)) <$> stream) ++ [frame (Err EndOfStream)],
                       uint_wrap 16 0))
    end in
  (prepare_reply_broker_overlay_message_stream one_reply.1 id overlay padding_size, one_reply.2).

(** A request to the broker. *)
Definition broker_request (user : PubKey) (req : BrokerRequestContentV0)
    : srv (S := S) (R := R) unit :=
  match req with
  | BrokerRequestContentV0_AddUser cmd => add_user user (AddUser_user cmd) (AddUser_sig cmd)
  | BrokerRequestContentV0_DelUser cmd => del_user user (DelUser_user cmd) (DelUser_sig cmd)
  | BrokerRequestContentV0_AddClient cmd => add_client user (AddClient_client cmd) (AddClient_sig cmd)
  | BrokerRequestContentV0_DelClient cmd => del_client user (DelClient_client cmd) (DelClient_sig cmd)
  end.

(** A request in an overlay: a result, or a stream of blocks. *)
Definition overlay_request (user : PubKey) (overlay : OverlayId) (req : BrokerOverlayRequestContentV0)
    (e : env) (srv : server)
    : outcome ((result unit ProtocolError + result (list Block) ProtocolError) * server) :=
  let unit_res (m : Server.srv (S := S) (R := R) unit) :=
    '(res, srv) ← m srv; Ret (inl res, srv) in
  let stream_res (m : Server.srv (S := S) (R := R) (list Block)) :=
    '(res, srv) ← m srv; Ret (inr res, srv) in
  match req with
  | BrokerOverlayRequestContentV0_OverlayConnect _ => unit_res (connect_overlay user overlay)
  | BrokerOverlayRequestContentV0_OverlayJoin j =>
      unit_res (join_overlay user overlay (OverlayJoin_repo_pubkey j) (OverlayJoin_secret j)
                  (OverlayJoin_peers j) (random_buf e) (secs e))
  | BrokerOverlayRequestContentV0_ObjectDel op => unit_res (del_object obj_fuel user overlay (ObjectDel_id op))
  | BrokerOverlayRequestContentV0_ObjectPin op => unit_res (pin_object obj_fuel user overlay (ObjectPin_id op))
  | BrokerOverlayRequestContentV0_ObjectUnpin op =>
      unit_res (unpin_object obj_fuel user overlay (ObjectUnpin_id op))
  | BrokerOverlayRequestContentV0_BlockPut b => unit_res (put_block user overlay (BlockPut_block b))
  | BrokerOverlayRequestContentV0_BranchSyncReq b =>
      stream_res (sync_branch obj_fuel fuel user overlay (BranchSyncReq_heads b)
                    (BranchSyncReq_known_heads b) (BranchSyncReq_known_commits b))
  | BrokerOverlayRequestContentV0_BlockGet b =>
      stream_res (get_block obj_fuel user overlay (BlockGet_id b) (BlockGet_include_children b)
                    (BlockGet_topic b))
  | _ => Ret (inl (Err InvalidState), srv)
  end.

Definition handle_incoming (user : PubKey) (msg : BrokerMessage) (e : env) (srv : server)
    : outcome ((BrokerMessage * option task) * server) :=
  let padding_size := 20%N in
  id ← BrokerMessage_id msg;
  content ← BrokerMessage_content msg;
  match content with
  | BrokerMessageContentV0_BrokerRequest req =>
      '(res, srv) ← broker_request user (BrokerRequest_content_v0 req) srv;
      Ret ((prepare_reply_broker_message res id padding_size, None), srv)
  | BrokerMessageContentV0_BrokerResponse _ =>
      Ret ((prepare_reply_broker_message (Err InvalidState) id padding_size, None), srv)
  | BrokerMessageContentV0_BrokerOverlayMessage omsg =>
      let overlay := BrokerOverlayMessage_overlay_id omsg in
      '(res, srv) ← (if BrokerOverlayMessage_is_request omsg then
                       req ← BrokerOverlayMessage_overlay_request omsg;
                       overlay_request user overlay (BrokerOverlayRequest_content_v0 req) e srv
                     else Ret (inl (Err InvalidState), srv));
      match res with
      | inl res =>
          Ret ((prepare_reply_broker_overlay_message res id overlay None padding_size, None), srv)
      | inr res => Ret (send_block_stream_response_to_client res id overlay padding_size, srv)
      end
  end.
End Handler.
End BrokerProtocolHandler.

(** ** [ProtocolHandler] *)

Module ProtocolHandler.
Inductive ProtocolType : Type := Start | Auth | Broker | Ext | P2P.

(** The handler of the broker protocol is the user it works for, that of external requests
    has no state. *)
Record ProtocolHandler : Type := {
  protocol : ProtocolType;
  auth_protocol : option AuthProtocolHandler;
  broker_protocol : option PubKey;
  ext_protocol : option unit
}.
(** [BrokerServer::protocol_handler] *)
Definition protocol_handler : ProtocolHandler :=
  {| protocol := Start; auth_protocol := None; broker_protocol := None; ext_protocol := None |}.

(** [ExtProtocolHandler::handle_incoming]: [unimplemented!] *)
Definition ext_handle_incoming (msg : ExtRequest) : outcome ExtResponse := Panic.

Section Handler.
Context {S R : Type} `{!BrokerStore S, !RepoStore R, !ServedStore R, !RepoDirs R}.
Context `{!RwLockRelock, !Crypto, !Ed25519, !Bloom, !RustFsm}.
Context `{!Serde Block, !Serde BlockContentV0, !Serde ObjectContent, !Serde AddUserContentV0}.
Context `{!Serde Digest, !Serde SymKey, !Serde PubKey, !Serde bool, !Serde u32}.
Context `{!Serde OverlayMeta, !Serde PeerAdvert, !Serde RepoStoreId}.
Context `{!Serde ServerHello, !Serde ClientAuth, !Serde ClientAuthContentV0, !Serde AuthResult}.
Context `{!Serde BrokerMessage, !Serde StartProtocol, !Serde ExtResponse}.
Variables obj_fuel fuel : nat.

Abbreviation server := (BrokerServer S R).

Definition in_auth (auth : AuthProtocolHandler) (self : ProtocolHandler) : ProtocolHandler :=
  {| protocol := Auth; auth_protocol := Some auth; broker_protocol := broker_protocol self;
     ext_protocol := ext_protocol self |}.
Definition in_broker (user : PubKey) (self : ProtocolHandler) : ProtocolHandler :=
  {| protocol := Broker; auth_protocol := None; broker_protocol := Some user;
     ext_protocol := ext_protocol self |}.
Definition in_ext (self : ProtocolHandler) : ProtocolHandler :=
  {| protocol := Ext; auth_protocol := auth_protocol self;
     broker_protocol := broker_protocol self; ext_protocol := Some tt |}.

Definition handle_incoming (frame : bytes) (e : env) (self : ProtocolHandler) (srv : server)
    : outcome ((result bytes ProtocolError * option task) * (ProtocolHandler * server)) :=
  match protocol self with
  | Start =>
      match from_slice (A := StartProtocol) frame with
      | Some (StartProtocol_Auth b) =>
          '(reply, auth) ← handle_init b (random_buf e) Auth.new;
          Ret ((reply, None), (in_auth auth self, srv))
      | Some (StartProtocol_Ext ext) =>
          reply ← ext_handle_incoming ext;
          Ret ((Ok (to_vec reply), None), (in_ext self, srv))
      | None => Ret ((Err SerializationError, None), (self, srv))
      end
  | Auth =>
      auth ← unwrap (auth_protocol self);
      '((reply, close), auth) ← Auth.handle_incoming frame auth;
      match close with
      | None =>
          user ← unwrap (get_user auth);
          Ret ((reply, None), (in_broker user self, srv))
      | Some code => Ret ((reply, Some ([], code)), (in_auth auth self, srv))
      end
  | Broker =>
      match from_slice (A := BrokerMessage) frame with
      | Some message =>
          user ← unwrap (broker_protocol self);
          '((reply, t), srv) ←
            BrokerProtocolHandler.handle_incoming obj_fuel fuel user message e srv;
          Ret ((Ok (to_vec reply), t), (self, srv))
      | None => Ret ((Err SerializationError, None), (self, srv))
      end
  | Ext => Ret ((Err InvalidState, None), (self, srv))
  | P2P => Panic
  end.
End Handler.
End ProtocolHandler.
