(* ===== verification/SessionProps.v ===== *)
(** * Who a session works for

    The server does nothing for a connection before a user has authenticated on it, and
    everything in the name of this user from then on. *)

From S2P Require Import Bare BareTypes BrokerRows NetBare MessageBare OverlayProps LmdbRepoStore LmdbView LmdbMem LmdbProps LmdbServed ServerProps.
From S2P Require Import Prelude Serde Types Block Store Object Utils Branch NetTypes NetErrors.
From S2P Require Import BrokerStore BrokerTables Auth AuthProps Server Session.
Import ProtocolHandler.

Section Session.
Context {S R : Type} `{!BrokerStore S, !RepoStore R, !ServedStore R, !RepoDirs R}.
Context `{!RwLockRelock, !Crypto, !Ed25519, !Bloom, !RustFsm, !RustFsmLaws}.
Context `{!Serde Block, !Serde BlockContentV0, !Serde ObjectContent, !Serde AddUserContentV0}.
Context `{!Serde Digest, !Serde SymKey, !Serde PubKey, !Serde bool, !Serde u32}.
Context `{!Serde OverlayMeta, !Serde PeerAdvert, !Serde RepoStoreId}.
Context `{!Serde ServerHello, !Serde ClientAuth, !Serde ClientAuthContentV0, !Serde AuthResult}.
Context `{!Serde BrokerMessage, !Serde StartProtocol, !Serde ExtResponse}.
Variables obj_fuel fuel : nat.

Abbreviation server := (BrokerServer S R).
Abbreviation reply := (result bytes ProtocolError * option task)%type (only parsing).
Implicit Types (srv : server) (h : ProtocolHandler).

(** The frames of a connection, one after the other *)
Fixpoint run_session (inputs : list (bytes * env)) h srv : outcome (list reply * (ProtocolHandler * server)) :=
  match inputs with
  | [] => Ret ([], (h, srv))
  | (frame, e) :: inputs =>
      '(r, (h, srv)) ← handle_incoming obj_fuel fuel frame e h srv;
      '(rs, st) ← run_session inputs h srv;
      Ret (r :: rs, st)
  end.

Lemma run_session_nil inputs h srv st :
  run_session inputs h srv = Ret ([], st) → inputs = [] ∧ st = (h, srv).
Proof.
  destruct inputs as [|[frame e] inputs]; cbn; [by intros [= <-]|].
  destruct (handle_incoming _ _ _ _ _ _) as [[r [h1 srv1]]| |]; [|done..]. cbn.
  by destruct (run_session inputs h1 srv1) as [[]| |].
Qed.
Lemma run_session_cons frame e inputs h srv rs st :
  run_session ((frame, e) :: inputs) h srv = Ret (rs, st) → ∃ r h1 srv1 rs1,
  handle_incoming obj_fuel fuel frame e h srv = Ret (r, (h1, srv1)) ∧
  run_session inputs h1 srv1 = Ret (rs1, st) ∧ rs = r :: rs1.
Proof.
  cbn. destruct (handle_incoming _ _ _ _ _ _) as [[r [h1 srv1]]| |]; [|done..]. cbn.
  destruct (run_session inputs h1 srv1) as [[rs1 st1]| |] eqn:Hrun; [|done..].
  intros [= <- <-]. by exists r, h1, srv1, rs1.
Qed.

(** The messages of a user *)
Fixpoint user_calls (user : PubKey) (inputs : list (bytes * env)) srv : outcome server :=
  match inputs with
  | [] => Ret srv
  | (frame, e) :: inputs =>
      match from_slice (A := BrokerMessage) frame with
      | Some message =>
          '(_, srv) ← BrokerProtocolHandler.handle_incoming obj_fuel fuel user message e srv;
          user_calls user inputs srv
      | None => user_calls user inputs srv
      end
  end.

(** ** The states of a handler *)

Inductive session_state : Type :=
  | AtStart
  | AtAuth (st : auth_state)
  | AtBroker (user : PubKey).
Definition session_ok h (st : session_state) : Prop :=
  match st with
  | AtStart => h = protocol_handler
  | AtAuth a => protocol h = Auth ∧ broker_protocol h = None ∧ (∀ u, a ≠ Done (Some u)) ∧
                ∃ auth, auth_protocol h = Some auth ∧ auth_ok auth a
  | AtBroker u => protocol h = Broker ∧ broker_protocol h = Some u
  end.

(** The message authenticates the user it names to a connection with this nonce. *)
Definition authenticates (r : array 32) (m : ClientAuth) : Prop :=
  ClientAuth_nonce m = array_list r ∧
  verify (to_vec (ClientAuth_content_v0 m)) (ClientAuth_sig m) (ClientAuth_user m) = Ok tt.
Lemma accepts_authenticates r m : accepts (array_list r) m = true → authenticates r m.
Proof.
  intros [Hv Hn%bool_decide_eq_true]%andb_true_iff. split; [done|].
  by destruct (verify _ _ _) as [[]|].
Qed.

Lemma start_step frame e srv r h' srv' :
  handle_incoming obj_fuel fuel frame e protocol_handler srv = Ret (r, (h', srv')) →
  srv' = srv ∧ ((h' = protocol_handler ∧ r = (Err SerializationError, None)) ∨
    ∃ n, from_slice frame = Some (StartProtocol_Auth ClientHello_V0) ∧ random_buf e = Some n ∧
         session_ok h' (AtAuth (Waiting (array_list n))) ∧
         r = (Ok (to_vec (ServerHello_V0 {| ServerHelloV0_nonce := array_list n |})), None)).
Proof.
  unfold handle_incoming. cbn [protocol protocol_handler].
  destruct (from_slice frame) as [[[]|ext]|]; [| |by intros [= <- <- <-]; eauto].
  - destruct (random_buf e) as [n|] eqn:Hn.
    + destruct (run_call_ok (Init n) Auth.new Fresh eq_refl) as (auth & Hrun & Hok).
      cbn [run_call spec_call fst snd] in Hrun, Hok.
      destruct (handle_init _ _ _) as [[res auth']| |]; [|done..]. injection Hrun as -> ->.
      cbn [mbind outcome_bind]. intros [= <- <- <-]. split; [done|]. right. exists n.
      split_and!; [done..| |done]. split; [done|]. split; [done|]. split; [done|]. by exists auth.
    + unfold handle_init, consume. rewrite fsm_consume_law. done.
  - done.
Qed.

Lemma auth_step frame e a h srv r h' srv' :
  session_ok h (AtAuth a) →
  handle_incoming obj_fuel fuel frame e h srv = Ret (r, (h', srv')) →
  srv' = srv ∧
  ((∃ a', session_ok h' (AtAuth a') ∧ (a' = a ∨ a' = Done None) ∧
          ∃ res c, r = (res, Some ([], ProtocolError_into c))) ∨
   ∃ n m, a = Waiting n ∧ from_slice frame = Some m ∧ accepts n m = true ∧
          session_ok h' (AtBroker (ClientAuth_user m)) ∧
          r = (Ok (to_vec (prepare_reply (Ok []))), None)).
Proof.
  intros (Hp & Hb & Ha & auth & Hauth & Hok). unfold handle_incoming. rewrite Hp, Hauth.
  cbn [unwrap mbind outcome_bind].
  destruct (run_call_ok (Incoming frame) auth a Hok) as (auth' & Hrun & Hok').
  cbn [run_call] in Hrun. destruct (Auth.handle_incoming frame auth) as [[[res close] auth1]| |];
    [|done..]. injection Hrun as Hr ->. cbn [mbind outcome_bind].
  assert (Hstay : ∀ c a', close = Some (ProtocolError_into c) → auth_ok auth' a' →
    (a' = a ∨ a' = Done None) →
    match close with
    | Some code => Ret ((res, Some ([], code)), (in_auth auth' h, srv))
    | None => user ← unwrap (get_user auth'); Ret ((res, None), (in_broker user h, srv))
    end = Ret (r, (h', srv')) →
    srv' = srv ∧ ∃ a', session_ok h' (AtAuth a') ∧ (a' = a ∨ a' = Done None) ∧
      ∃ res c, r = (res, Some ([], ProtocolError_into c))).
  { intros c a' -> Ha' Hor [= <- <- <-]. split; [done|]. exists a'. split; [|eauto].
    split_and!; [done..| |by exists auth']. destruct Hor as [->| ->]; [done|by intros u]. }
  destruct a as [|n|[u|]]; cbn [spec_call fst snd] in Hr, Hok'; [| |by destruct (Ha u)|].
  - injection Hr as -> Hc. intros Hrun1. destruct (Hstay _ _ Hc Hok' (or_introl eq_refl) Hrun1). eauto.
  - destruct (from_slice frame) as [m|] eqn:Hm.
    + destruct (accepts n m) eqn:Hacc; cbn [fst snd] in Hr, Hok'.
      * injection Hr as -> ->. destruct Hok' as [Hu _]. unfold get_user. rewrite Hu.
        cbn [unwrap mbind outcome_bind]. intros [= <- <- <-]. split; [done|]. right.
        exists n, m. by split_and!.
      * injection Hr as -> Hc. intros Hrun1.
        destruct (Hstay _ _ Hc Hok' (or_intror eq_refl) Hrun1). eauto.
    + injection Hr as -> Hc. intros Hrun1. destruct (Hstay _ _ Hc Hok' (or_introl eq_refl) Hrun1). eauto.
  - injection Hr as -> Hc. intros Hrun1. destruct (Hstay _ _ Hc Hok' (or_introl eq_refl) Hrun1). eauto.
Qed.

Lemma broker_session inputs u h srv rs h' srv' :
  session_ok h (AtBroker u) → run_session inputs h srv = Ret (rs, (h', srv')) →
  h' = h ∧ user_calls u inputs srv = Ret srv'.
Proof.
  intros [Hp Hb]. revert srv rs. induction inputs as [|[frame e] inputs IH]; intros srv rs; cbn.
  { by intros [= <- <- <-]. }
  unfold handle_incoming. rewrite Hp, Hb. destruct (from_slice frame) as [m|]; cbn.
  - destruct (BrokerProtocolHandler.handle_incoming _ _ _ _ _ _) as [[[rep t] srv1]| |]; [|done..].
    cbn. destruct (run_session inputs h srv1) as [[rs1 [h1 srv2]]| |] eqn:Hrun; [|done..].
    cbn. intros [= <- <- <-]. by eapply IH.
  - destruct (run_session inputs h srv) as [[rs1 [h1 srv2]]| |] eqn:Hrun; [|done..].
    cbn. intros [= <- <- <-]. by eapply IH.
Qed.

(** What a session of a user who authenticated is made of, from the nonce on *)
Definition authenticated_by (n : array 32) (inputs : list (bytes * env)) (u : PubKey) srv srv' : Prop :=
  ∃ mid auth e m post, inputs = mid ++ (auth, e) :: post ∧ from_slice auth = Some m ∧
    ClientAuth_user m = u ∧ authenticates n m ∧ user_calls u post srv = Ret srv'.

Lemma auth_session inputs n a h srv rs h' srv' :
  session_ok h (AtAuth a) → (a = Waiting (array_list n) ∨ a = Done None) →
  run_session inputs h srv = Ret (rs, (h', srv')) →
  (srv' = srv ∧ broker_protocol h' = None) ∨
  ∃ u, broker_protocol h' = Some u ∧ authenticated_by n inputs u srv srv'.
Proof.
  revert a h srv rs. induction inputs as [|[frame e] inputs IH]; intros a h srv rs Hok Ha.
  { intros [= <- <- <-]. left. split; [done|]. apply Hok. }
  intros (r & h1 & srv1 & rs1 & Hstep & Hrun & ->)%run_session_cons.
  destruct (auth_step _ _ _ _ _ _ _ _ Hok Hstep) as [-> [(a' & Hok' & Ha' & _)|(k & m & -> & Hm & Hacc & Hok' & _)]].
  - destruct (IH a' h1 srv rs1 Hok') as [?|(u & Hu & mid & auth & e1 & m & post & -> & Hauth)];
      [destruct Ha' as [->| ->]; eauto|done|by left|]. right. exists u. split; [done|].
    by exists ((frame, e) :: mid), auth, e1, m, post.
  - destruct Ha as [[= ->]|?]; [|done]. right. exists (ClientAuth_user m).
    destruct (broker_session _ _ _ _ _ _ _ Hok' Hrun) as [-> Hcalls]. split; [apply Hok'|].
    exists [], frame, e, m, inputs. split_and!; [done..| |done]. by apply accepts_authenticates.
Qed.

(** C14: on a new connection nothing is done to the server until a hello was received and,
    after it, a message that is signed by the user it names over the nonce the hello drew;
    all that is done after that is done in the name of this user. *)
Theorem Session_authenticated inputs srv rs h' srv' :
  run_session inputs protocol_handler srv = Ret (rs, (h', srv')) →
  (srv' = srv ∧ broker_protocol h' = None) ∨
  ∃ pre hello e n rest u, inputs = pre ++ (hello, e) :: rest ∧
    from_slice hello = Some (StartProtocol_Auth ClientHello_V0) ∧ random_buf e = Some n ∧
    broker_protocol h' = Some u ∧ authenticated_by n rest u srv srv'.
Proof.
  revert srv rs. induction inputs as [|[frame e] inputs IH]; intros srv rs.
  { intros [= <- <- <-]. by left. }
  intros (r & h1 & srv1 & rs1 & Hstep & Hrun & ->)%run_session_cons.
  destruct (start_step _ _ _ _ _ _ Hstep) as [-> [[-> _]|(n & Hf & Hn & Hok & _)]].
  - destruct (IH srv rs1 Hrun) as [?|(pre & hello & e1 & n & rest & u & -> & Hrest)]; [by left|].
    right. by exists ((frame, e) :: pre), hello, e1, n, rest, u.
  - destruct (auth_session _ n _ _ _ _ _ _ Hok (or_introl eq_refl) Hrun) as [?|(u & Hu & Hauth)];
      [by left|]. right. by exists [], frame, e, n, inputs, u.
Qed.
End Session.

(** ** Example: a user joins an overlay and puts a block *)

Module Examples.
Import BareTypes.Instances NetBare.NetInstances MessageInstances MemStore LmdbMem LmdbServed LmdbExamples.
Import OverlayProps.Examples ServerProps.Examples AuthProps.Examples.

Definition env1 : env := {| random_buf := Some nonce1; secs := time1 |}.
Definition request (id : N) (req : BrokerOverlayRequestContentV0) : BrokerMessage :=
  BrokerMessage_V0 {|
    BrokerMessageV0_padding := [];
    BrokerMessageV0_content := BrokerMessageContentV0_BrokerOverlayMessage (BrokerOverlayMessage_V0 {|
      BrokerOverlayMessageV0_overlay := overlay1;
      BrokerOverlayMessageV0_content := BrokerOverlayMessageContentV0_BrokerOverlayRequest
        (BrokerOverlayRequest_V0 {|
          BrokerOverlayRequestV0_id := uint_wrap 64 id; BrokerOverlayRequestV0_content := req |}) |}) |}.
Definition join1 : BrokerOverlayRequestContentV0 :=
  BrokerOverlayRequestContentV0_OverlayJoin (OverlayJoin_V0 {|
    OverlayJoinV0_secret := key1; OverlayJoinV0_repo_pubkey := Some repo1; OverlayJoinV0_peers := [] |}).
Definition put1 : BrokerOverlayRequestContentV0 := BrokerOverlayRequestContentV0_BlockPut (BlockPut_V0 b1).
Definition hello : bytes := to_vec (StartProtocol_Auth ClientHello_V0).
Definition auth1 : bytes := auth_with (array_list nonce1).
(** Garbage, a request too early, the handshake with garbage in it, and two requests *)
Definition inputs : list (bytes * env) :=
  (λ f, (f, env1)) <$> [[x09]; to_vec (request 1 put1); hello; [x09]; auth1;
                        to_vec (request 1 join1); to_vec (request 2 put1)].
Lemma inputs_user :
  match run_session 3 3 inputs protocol_handler server0 with
  | Ret (_, (h, srv)) => bool_decide (broker_protocol h = Some user1) && bool_decide (is_Some (disk srv !! RepoStoreId_Repo repo1))
  | _ => false
  end = true.
Proof. vm_compute. reflexivity. Qed.

Lemma Session_authenticated_witness : ∃ rs h srv,
  run_session 3 3 inputs protocol_handler server0 = Ret (rs, (h, srv)) ∧
  ∃ pre f e n rest u, inputs = pre ++ (f, e) :: rest ∧
    from_slice f = Some (StartProtocol_Auth ClientHello_V0) ∧ random_buf e = Some n ∧
    broker_protocol h = Some u ∧ authenticated_by 3 3 n rest u server0 srv.
Proof.
  pose proof inputs_user as Hu.
  destruct (run_session 3 3 inputs protocol_handler server0) as [[rs [h srv]]| |] eqn:Hrun; [|done..].
  apply andb_true_iff in Hu as [Hu%bool_decide_eq_true _].
  exists rs, h, srv. split; [done|].
  destruct (Session_authenticated 3 3 inputs server0 rs h srv Hrun) as [[_ Hn]|Hr]; [|done].
  rewrite Hu in Hn. done.
Defined.
End Examples.
