(* ===== verification/SessionTypes.v ===== *)
(** * The replies of a session are well typed

    A message is answered by messages of the type that belongs to it: a request to the broker
    by a response of the broker, a message in an overlay by responses in this overlay, all of
    them under the identifier of the request; only what asks for blocks is answered by a
    stream, whose messages are its blocks and then its end. *)

From S2P Require Import Bare BareTypes BrokerRows NetBare MessageBare OverlayProps LmdbRepoStore LmdbView LmdbMem LmdbProps LmdbServed ServerProps.
From S2P Require Import Prelude Serde Types Block Store Object Utils Branch NetTypes NetErrors.
From S2P Require Import BrokerStore BrokerTables Auth AuthProps Server Session SessionProps.
Import BrokerProtocolHandler ProtocolHandler.

(** ** Types of messages *)

(** The type of the answers to a message *)
Inductive answer_type : Type :=
  | BrokerAnswer (id : u64)
  | OverlayAnswer (overlay : OverlayId) (id : u64) (stream : bool).

Definition asks_blocks (m : BrokerOverlayMessage) : bool :=
  match BrokerOverlayMessage_overlay_request m with
  | Ret req => match BrokerOverlayRequest_content_v0 req with
               | BrokerOverlayRequestContentV0_BlockGet _
               | BrokerOverlayRequestContentV0_BranchSyncReq _ => true
               | _ => false
               end
  | _ => false
  end.
Definition answers_to (m : BrokerMessage) : outcome answer_type :=
  id ← BrokerMessage_id m;
  content ← BrokerMessage_content m;
  Ret match content with
      | BrokerMessageContentV0_BrokerOverlayMessage o =>
          OverlayAnswer (BrokerOverlayMessage_overlay_id o) id
            (BrokerOverlayMessage_is_request o && asks_blocks o)
      | _ => BrokerAnswer id
      end.

(** A message of such a type *)
Definition has_type (r : BrokerMessage) (t : answer_type) : Prop :=
  BrokerMessage_is_close r = false ∧ BrokerMessage_is_request r = Ret false ∧
  BrokerMessage_is_response r = Ret true ∧
  match t with
  | BrokerAnswer id => BrokerMessage_id r = Ret id ∧ ∃ n, BrokerMessage_result r = Ret n ∧
      BrokerMessage_content r = Ret (BrokerMessageContentV0_BrokerResponse
        (BrokerResponse_V0 {| BrokerResponseV0_id := id; BrokerResponseV0_result := n |}))
  | OverlayAnswer o id _ => BrokerMessage_id r = Ret id ∧ ∃ om,
      BrokerMessage_content r = Ret (BrokerMessageContentV0_BrokerOverlayMessage om) ∧
      BrokerOverlayMessage_overlay_id om = o
  end.
(** One that carries a block of a stream, and one that carries none *)
Definition carries (r : BrokerMessage) (e : ProtocolError) (b : option Block) : Prop :=
  BrokerMessage_result r = Ret (ProtocolError_into e) ∧ BrokerMessage_response_block r = Ret b.

(** The frames a task sends after the reply: the other blocks, and the end of the stream *)
Definition stream_of (t : answer_type) (reply : BrokerMessage) (frames : list BrokerMessage) : Prop :=
  ∃ o id b bs last, t = OverlayAnswer o id true ∧ carries reply PartialContent (Some b) ∧
  frames = bs ++ [last] ∧ carries last EndOfStream None ∧
  Forall (λ r, has_type r t ∧ ∃ b, carries r PartialContent (Some b)) bs ∧ has_type last t.

Lemma broker_response_type res id p : has_type (prepare_reply_broker_message res id p) (BrokerAnswer id).
Proof. repeat split. by eexists. Qed.
Lemma overlay_response_type o id n c p s : has_type (overlay_response o id n c p) (OverlayAnswer o id s).
Proof. repeat split. by eexists. Qed.
Lemma partial_carries b id o p :
  carries (prepare_reply_broker_overlay_message_stream (Ok b) id o p) PartialContent (Some b).
Proof. by split. Qed.
Lemma end_carries id o p :
  carries (prepare_reply_broker_overlay_message_stream (Err EndOfStream) id o p) EndOfStream None.
Proof. by split. Qed.

Section Types.
Context {S R : Type} `{!BrokerStore S, !RepoStore R, !ServedStore R, !RepoDirs R}.
Context `{!RwLockRelock, !Crypto, !Ed25519, !Bloom, !RustFsm, !RustFsmLaws}.
Context `{!Serde Block, !Serde BlockContentV0, !Serde ObjectContent, !Serde AddUserContentV0}.
Context `{!Serde Digest, !Serde SymKey, !Serde PubKey, !Serde bool, !Serde u32}.
Context `{!Serde OverlayMeta, !Serde PeerAdvert, !Serde RepoStoreId}.
Context `{!Serde ServerHello, !Serde ClientAuth, !Serde ClientAuthContentV0, !Serde AuthResult}.
Context `{!Serde BrokerMessage, !Serde StartProtocol, !Serde ExtResponse}.
Variables obj_fuel fuel : nat.
Implicit Types (srv : BrokerServer S R) (h : ProtocolHandler).

(** What is made of a stream *)
Lemma stream_typed res id o p r t : send_block_stream_response_to_client res id o p = (r, t) →
  has_type r (OverlayAnswer o id true) ∧
  match t with
  | None => True
  | Some (frames, code) => uint_N code = 0%N ∧ ∃ rs, frames = to_vec <$> rs ∧
                           stream_of (OverlayAnswer o id true) r rs
  end.
Proof.
  destruct res as [[|b bs]|e]; intros [= <- <-]; (split; [apply overlay_response_type|]); try done.
  split; [done|].
  exists (((λ b, prepare_reply_broker_overlay_message_stream (Ok b) id o p) <$> bs)
          ++ [prepare_reply_broker_overlay_message_stream (Err EndOfStream) id o p]).
  split; [by rewrite fmap_app, <- list_fmap_compose|].
  eexists o, id, b, _, _. split_and!; [done|apply partial_carries|done|apply end_carries| |apply overlay_response_type].
  apply Forall_fmap, Forall_forall. intros b' _. split; [apply overlay_response_type|].
  exists b'. apply partial_carries.
Qed.

(** A handler in a session of a user, on a message *)
Lemma handler_typed user m e srv r t srv' :
  BrokerProtocolHandler.handle_incoming obj_fuel fuel user m e srv = Ret ((r, t), srv') →
  ∃ a, answers_to m = Ret a ∧ has_type r a ∧
  match t with
  | None => True
  | Some (frames, code) => uint_N code = 0%N ∧ ∃ rs, frames = to_vec <$> rs ∧ stream_of a r rs
  end.
Proof.
  unfold BrokerProtocolHandler.handle_incoming, answers_to.
  destruct (BrokerMessage_id m) as [id| |]; [|done..]. cbn [mbind outcome_bind].
  destruct (BrokerMessage_content m) as [[req|resp|om]| |]; [cbn [mbind outcome_bind]..|done|done].
  - destruct (broker_request _ _ _) as [[res srv1]| |]; [|done..]. cbn [mbind outcome_bind].
    intros [= <- <- <-]. eexists. split; [reflexivity|]. split; [apply broker_response_type|done].
  - intros [= <- <- <-]. eexists. split; [reflexivity|]. split; [apply broker_response_type|done].
  - destruct (BrokerOverlayMessage_is_request om) eqn:Hreq; cbn [andb].
    + unfold asks_blocks. destruct (BrokerOverlayMessage_overlay_request om) as [req| |]; [|done..].
      cbn [mbind outcome_bind].
      destruct (BrokerOverlayRequest_content_v0 req); cbn [overlay_request];
        try (match goal with |- context [?f srv] => destruct (f srv) as [[res srv1]| |] end; [|done..]);
        cbn [mbind outcome_bind];
        try destruct (send_block_stream_response_to_client _ _ _ _) as [r0 t0] eqn:Hs;
        intros [= <- <- <-]; eexists; (split; [reflexivity|]);
        first [by apply stream_typed in Hs as [? ?]|split; [apply overlay_response_type|done]].
    + cbn [mbind outcome_bind]. intros [= <- <- <-]. eexists. split; [reflexivity|].
      split; [apply overlay_response_type|done].
Qed.

(** C17: the replies of a session are well typed. What a user who authenticated sends is
    answered by an error if it is no message, and the session goes on. A message that is
    answered is answered by messages of its type, in its overlay and under its identifier,
    none of which is a request or closes the connection; frames that come after the reply are
    those of a stream, which was asked for: the blocks after the first, and one end. *)
Theorem Session_replies_typed user frame e h srv reply t h' srv' :
  session_ok h (AtBroker user) →
  handle_incoming obj_fuel fuel frame e h srv = Ret ((reply, t), (h', srv')) →
  session_ok h' (AtBroker user) ∧
  match from_slice (A := BrokerMessage) frame with
  | None => reply = Err SerializationError ∧ t = None ∧ srv' = srv
  | Some m => ∃ a r, answers_to m = Ret a ∧ reply = Ok (to_vec r) ∧ has_type r a ∧
      match t with
      | None => True
      | Some (frames, code) => uint_N code = 0%N ∧ ∃ rs, frames = to_vec <$> rs ∧ stream_of a r rs
      end
  end.
Proof.
  intros Hok. pose proof Hok as [Hp Hb]. unfold handle_incoming. rewrite Hp, Hb.
  destruct (from_slice frame) as [m|]; [|by intros [= <- <- <- <-]].
  cbn [unwrap mbind outcome_bind].
  destruct (BrokerProtocolHandler.handle_incoming _ _ _ _ _ _) as [[[r t0] srv1]| |] eqn:Hm; [|done..].
  cbn [mbind outcome_bind]. intros [= <- <- <- <-]. split; [done|].
  destruct (handler_typed _ _ _ _ _ _ _ Hm) as (a & Ha & Hr & Ht). by exists a, r.
Qed.
End Types.

(** ** Example: the reply to a message *)

Module Examples.
Import BareTypes.Instances NetBare.NetInstances MessageInstances MemStore LmdbMem LmdbServed LmdbExamples.
Import OverlayProps.Examples ServerProps.Examples AuthProps.Examples SessionProps.Examples.

Definition in_session : ProtocolHandler := in_broker user1 protocol_handler.
Lemma join_replied :
  match handle_incoming 3 3 (to_vec (request 7 join1)) env1 in_session server0 with
  | Ret ((Ok _, _), _) => true | _ => false end = true.
Proof. vm_compute. reflexivity. Qed.
Lemma Session_replies_typed_witness : ∃ reply t h srv r,
  handle_incoming 3 3 (to_vec (request 7 join1)) env1 in_session server0 = Ret ((reply, t), (h, srv)) ∧
  reply = Ok (to_vec r) ∧ has_type r (OverlayAnswer overlay1 (uint_wrap 64 7) false).
Proof.
  pose proof join_replied as Hj.
  destruct (handle_incoming 3 3 _ env1 in_session server0) as [[[reply t] [h srv]]| |] eqn:Hrun; [|done..].
  destruct (Session_replies_typed 3 3 user1 _ env1 in_session server0 reply t h srv (conj eq_refl eq_refl) Hrun) as [_ Hm].
  rewrite from_slice_to_vec in Hm. destruct Hm as (a & r & [= <-] & -> & Hr & _). by exists (Ok (to_vec r)), t, h, srv, r.
Defined.
End Examples.
