(* ===== verification/Node.v ===== *)
(** * A connection of the node daemon: [lofire-node/src/main.rs]

    [connection_loop] takes the messages of a websocket to a [ProtocolHandler] and closes
    the connection on the first error. The socket is the list of the messages it yields. *)

From S2P Require Import Bare BareTypes BrokerRows NetBare MessageBare OverlayProps LmdbRepoStore LmdbView LmdbMem LmdbProps LmdbServed ServerProps.
From S2P Require Import Prelude Serde Types Block Store Object Utils Branch NetTypes NetErrors.
From S2P Require Import BrokerStore BrokerTables Auth AuthProps Server Session SessionProps.
Import ProtocolHandler.

(** What the stream of a websocket yields. *)
Inductive ws_message : Type :=
  | WsError
  | WsClose
  | WsBinary (data : bytes)
  | WsOther.
(** A message, the environment while it is handled, and whether the reply could be sent. *)
Definition ws_input : Type := ws_message * env * bool.
(** What goes out: a reply, and the frames of a task through the channel to the other task. *)
Inductive ws_output : Type :=
  | Reply (frame : bytes)
  | AsyncFrames (frames : list bytes).

Section Node.
Context {S R : Type} `{!BrokerStore S, !RepoStore R, !ServedStore R, !RepoDirs R}.
Context `{!RwLockRelock, !Crypto, !Ed25519, !Bloom, !RustFsm}.
Context `{!Serde Block, !Serde BlockContentV0, !Serde ObjectContent, !Serde AddUserContentV0}.
Context `{!Serde Digest, !Serde SymKey, !Serde PubKey, !Serde bool, !Serde u32}.
Context `{!Serde OverlayMeta, !Serde PeerAdvert, !Serde RepoStoreId}.
Context `{!Serde ServerHello, !Serde ClientAuth, !Serde ClientAuthContentV0, !Serde AuthResult}.
Context `{!Serde BrokerMessage, !Serde StartProtocol, !Serde ExtResponse}.
Variables obj_fuel fuel : nat.

Abbreviation server := (BrokerServer S R).
Implicit Types (srv : server) (h : ProtocolHandler).

(** A message, in [connection_loop]: whether the loop goes on, and what is sent. *)
Definition on_message (m : ws_input) h srv
    : outcome ((bool * list ws_output) * (ProtocolHandler * server)) :=
  let '(msg, e, sent) := m in
  match msg with
  | WsError | WsClose => Ret ((false, []), (h, srv))
  | WsBinary data =>
      '((reply, t), (h, srv)) ← handle_incoming obj_fuel fuel data e h srv;
      match reply with
      | Err _ => Ret ((false, []), (h, srv))
      | Ok r =>
          if negb sent then Ret ((false, []), (h, srv)) else
          match t with
          | Some (frames, errcode) =>
              Ret ((negb (0 <? uint_N errcode)%N, [Reply r; AsyncFrames frames]), (h, srv))
          | None => Ret ((true, [Reply r]), (h, srv))
          end
      end
  | WsOther => Ret ((true, []), (h, srv))
  end.
(** [connection_loop]: what is sent, and the state when the connection is closed. *)
Fixpoint connection_loop (msgs : list ws_input) h srv
    : outcome (list ws_output * (ProtocolHandler * server)) :=
  match msgs with
  | [] => Ret ([], (h, srv))
  | m :: msgs =>
      '((go, out), (h, srv)) ← on_message m h srv;
      if (go : bool) then '(out', st) ← connection_loop msgs h srv; Ret (out ++ out', st)
      else Ret (out, (h, srv))
  end.

(** ** Lemmas *)

(** The frames of the binary messages *)
Definition frame_of (m : ws_input) : option (bytes * env) :=
  let '(msg, e, _) := m in match msg with WsBinary data => Some (data, e) | _ => None end.
Definition frames_of (msgs : list ws_input) : list (bytes * env) := omap frame_of msgs.

(** A reply after which the connection stays open. *)
Definition keeps_open (r : result bytes ProtocolError * option task) : Prop :=
  is_ok r.1 = true ∧ match r.2 with Some (_, c) => uint_N c = 0%N | None => True end.

Lemma on_message_spec m h srv go out h' srv' :
  on_message m h srv = Ret ((go, out), (h', srv')) →
  match frame_of m with
  | Some (f, e) => ∃ r, handle_incoming obj_fuel fuel f e h srv = Ret (r, (h', srv')) ∧
                        (go = true → keeps_open r)
  | None => h' = h ∧ srv' = srv ∧ out = []
  end.
Proof.
  destruct m as [[msg e] sent]. unfold on_message, frame_of.
  destruct msg as [| |data|]; [by intros [= _ <- <- <-]..| |by intros [= _ <- <- <-]].
  destruct (handle_incoming _ _ _ _ _ _) as [[[[r|err] t] [h1 srv1]]| |]; cbn; [| |done..].
  - destruct sent; cbn [negb]; [|by intros [= <- _ <- <-]; eexists].
    destruct t as [[frames c]|]; intros [= <- _ <- <-]; (eexists; split; [done|]); [|done].
    intros Hc%negb_true_iff%N.ltb_ge. split; [done|]. cbn. lia.
  - intros [= <- _ <- <-]. by eexists.
Qed.

(** The loop is a session, in which every reply but the last keeps the connection open. *)
Lemma connection_loop_session msgs h srv out h' srv' :
  connection_loop msgs h srv = Ret (out, (h', srv')) → ∃ pre rs,
  pre `prefix_of` frames_of msgs ∧ run_session obj_fuel fuel pre h srv = Ret (rs, (h', srv')) ∧
  ∀ i r r', rs !! i = Some r → rs !! Datatypes.S i = Some r' → keeps_open r.
Proof.
  unfold frames_of. revert h srv out. induction msgs as [|m msgs IH]; intros h srv out; cbn [connection_loop].
  { intros [= <- <- <-]. by exists [], []. }
  destruct (on_message m h srv) as [[[go out1] [h1 srv1]]| |] eqn:Hm; [|done..].
  apply on_message_spec in Hm. cbn [mbind outcome_bind omap list_omap].
  assert (Hmore : go = true → ∀ out, (if go then '(out', st) ← connection_loop msgs h1 srv1; Ret (out1 ++ out', st)
      else Ret (out1, (h1, srv1))) = Ret (out, (h', srv')) → ∃ out', connection_loop msgs h1 srv1 = Ret (out', (h', srv'))).
  { intros -> out0. destruct (connection_loop msgs h1 srv1) as [[out' st]| |]; [|done..].
    intros [= <- ->]. by exists out'. }
  destruct (frame_of m) as [[f e]|].
  - destruct Hm as (r & Hstep & Hk). destruct go.
    + intros [out' Hrun]%Hmore; [|done]. destruct (IH _ _ _ Hrun) as (pre & rs & Hpre & Hrs & Hopen).
      exists ((f, e) :: pre), (r :: rs). split_and!; [by apply prefix_cons|by cbn; rewrite Hstep; cbn; rewrite Hrs|].
      intros [|i] r0 r'; cbn; [by intros [= <-]; auto|by apply Hopen].
    + intros [= <- <- <-]. exists [(f, e)], [r]. split_and!; [by apply prefix_cons, prefix_nil|by cbn; rewrite Hstep|].
      by intros [|i] r0 r'.
  - destruct Hm as (-> & -> & ->). destruct go; [by intros [out' Hrun]%Hmore; [eapply IH|]|].
    intros [= <- <- <-]. by exists [], []; split; [apply prefix_nil|].
Qed.

Context `{!RustFsmLaws}.

(** C9: whatever is sent on a websocket, the node does nothing to its server unless the first
    frame is a hello and the very next one a message signed by the user it names over the
    nonce the hello drew; the frames handled after these are those of this user. *)
Theorem Node_authenticated msgs srv out h' srv' :
  connection_loop msgs protocol_handler srv = Ret (out, (h', srv')) →
  srv' = srv ∨
  ∃ hello e n auth e' m post handled,
    frames_of msgs = (hello, e) :: (auth, e') :: post ∧
    from_slice hello = Some (StartProtocol_Auth ClientHello_V0) ∧ random_buf e = Some n ∧
    from_slice auth = Some m ∧ authenticates n m ∧
    broker_protocol h' = Some (ClientAuth_user m) ∧
    handled `prefix_of` post ∧ user_calls obj_fuel fuel (ClientAuth_user m) handled srv = Ret srv'.
Proof.
  intros Hloop. destruct (connection_loop_session _ _ _ _ _ _ Hloop) as (pre & rs & Hpre & Hrun & Hopen).
  destruct pre as [|[hello e] pre]; [injection Hrun as <- <- <-; by left|].
  destruct (run_session_cons _ _ _ _ _ _ _ _ _ Hrun) as (r1 & h1 & srv1 & rs1 & Hs1 & Hr1 & ->).
  assert (Hstop : ¬ keeps_open r1 → srv1 = srv → srv' = srv).
  { intros Hk ->. destruct rs1 as [|r2 rs1]; [|by destruct Hk; apply (Hopen 0 _ r2)].
    by destruct (run_session_nil _ _ _ _ _ _ Hr1) as [_ [= _ ->]]. }
  destruct (start_step _ _ _ _ _ _ _ _ Hs1) as [-> [[-> ->]|(n & Hf & Hn & Hok1 & _)]].
  { left. apply Hstop; [by intros []|done]. }
  destruct pre as [|[auth e'] pre]; [injection Hr1 as <- <- <-; by left|]. clear Hstop.
  destruct (run_session_cons _ _ _ _ _ _ _ _ _ Hr1) as (r2 & h3 & srv3 & rs2 & Hs2 & Hr2 & ->).
  destruct (auth_step _ _ _ _ _ _ _ _ _ _ Hok1 Hs2)
    as [-> [(a' & Hok' & _ & res & c & ->)|(k & m & [= <-] & Hm & Hacc & Hok' & _)]].
  - left. destruct rs2 as [|r3 rs2].
    + by destruct (run_session_nil _ _ _ _ _ _ Hr2) as [_ [= _ ->]].
    + destruct (Hopen 1 _ r3 eq_refl eq_refl) as [_ Hc]. by destruct c.
  - right. destruct (broker_session _ _ _ _ _ _ _ _ _ Hok' Hr2) as [-> Hcalls].
    destruct Hpre as [post Hpost]. cbn in Hpost.
    exists hello, e, n, auth, e', m, (pre ++ post), pre.
    split_and!; [done..|by apply accepts_authenticates|apply Hok'|by apply prefix_app_r|done].
Qed.
End Node.

(** ** Example: a connection that works, and one that is closed *)

Module Examples.
Import BareTypes.Instances NetBare.NetInstances MessageInstances MemStore LmdbMem LmdbServed LmdbExamples.
Import OverlayProps.Examples ServerProps.Examples AuthProps.Examples SessionProps.Examples.

Definition binary (f : bytes) : ws_input := (WsBinary f, env1, true).
Definition msgs : list ws_input :=
  [(WsOther, env1, true); binary hello; binary auth1; binary (to_vec (request 1 join1));
   binary (to_vec (request 2 put1)); binary [x09]; binary (to_vec (request 3 put1))].
(** The authentication is not the second frame. *)
Definition closed : list ws_input := [binary hello; binary [x09]; binary auth1; binary (to_vec (request 1 join1))].
Lemma msgs_changed :
  match connection_loop 3 3 msgs protocol_handler server0 with
  | Ret (out, (h, srv)) => bool_decide (length out = 4) && bool_decide (is_Some (disk srv !! RepoStoreId_Repo repo1))
  | _ => false
  end = true.
Proof. vm_compute. reflexivity. Qed.
Lemma Node_authenticated_witness : ∃ out h srv,
  connection_loop 3 3 msgs protocol_handler server0 = Ret (out, (h, srv)) ∧
  ∃ f e n auth e' m post done,
    frames_of msgs = (f, e) :: (auth, e') :: post ∧
    from_slice f = Some (StartProtocol_Auth ClientHello_V0) ∧ random_buf e = Some n ∧
    from_slice auth = Some m ∧ authenticates n m ∧
    broker_protocol h = Some (ClientAuth_user m) ∧
    done `prefix_of` post ∧ user_calls 3 3 (ClientAuth_user m) done server0 = Ret srv.
Proof.
  pose proof msgs_changed as Hd.
  destruct (connection_loop 3 3 msgs protocol_handler server0) as [[out [h srv]]| |] eqn:Hrun; [|done..].
  apply andb_true_iff in Hd as [_ Hd%bool_decide_eq_true].
  exists out, h, srv. split; [done|].
  destruct (Node_authenticated 3 3 msgs server0 out h srv Hrun) as [->|Hr]; [|done].
  destruct Hd as [x Hx]. discriminate Hx.
Defined.
Example closed_early :
  match connection_loop 3 3 closed protocol_handler server0 with
  | Ret (out, (h, _)) => bool_decide (length out = 3) && bool_decide (broker_protocol h = None)
  | _ => false
  end = true.
Proof. vm_compute. reflexivity. Qed.
End Examples.
