(* ===== verification/Client.v ===== *)
(** * Connections to a broker: [lofire-broker/src/connection.rs]

    The interface of a connection and what a client does with it in an overlay
    ([OverlayConnectionClient]), and its two implementations: [Local], on a server in the
    same process, and [Remote], which sends messages and waits for the replies that a task
    reads. A call on a connection has it to itself ([&mut self]), so a remote call is the
    request, the replies the task reads to it, and the result. *)

From stdpp Require Import functions.
From S2P Require Import Prelude Serde Types Block Store Object Utils Branch NetTypes NetErrors.
From S2P Require Import BrokerStore BrokerTables Auth Server Session.

(** A call on a connection *)
Definition call (C A : Type) : Type := C → outcome (result A ProtocolError * C).
Definition call_ok {C A} (a : A) : call C A := λ c, Ret (Ok a, c).
Definition call_err {C A} (e : ProtocolError) : call C A := λ c, Ret (Err e, c).
(** The [?] operator *)
Definition call_try {C A B} (m : call C A) (k : A → call C B) : call C B := λ c,
  '(r, c) ← m c;
  match r with Ok a => k a c | Err e => Ret (Err e, c) end.

(** The methods of [BrokerConnection] that are required. A stream of blocks is the list of
    the blocks it yields. *)
Class BrokerConnection (C : Type) : Type := {
  close : C → outcome C;
  add_user : PubKey → PrivKey → call C unit;
  del_user : PubKey → PrivKey → C → outcome C;
  add_client : PubKey → PrivKey → C → outcome C;
  del_client : PubKey → PrivKey → C → outcome C;
  process_overlay_request : OverlayId → BrokerOverlayRequestContentV0 → call C unit;
  process_overlay_request_stream_response :
    OverlayId → BrokerOverlayRequestContentV0 → call C (list Block);
  process_overlay_request_objectid_response :
    OverlayId → BrokerOverlayRequestContentV0 → call C ObjectId
}.

(** ** [OverlayConnectionClient] *)

Module OverlayConnectionClient.
(** The client borrows its connection, which is threaded. *)
Record OverlayConnectionClient : Type := {
  overlay_id : OverlayId;
  repo_link : RepoLink
}.

Section Client.
Context `{!Crypto, !SizeOfBlock} `{!Serde Block, !Serde BlockContentV0, !Serde ObjectContent}.

Definition overlay (repo_link : RepoLink) (public : bool) : OverlayId :=
  let id := array_list (PubKey_slice (RepoLink_id repo_link)) in
  match public with
  | true => Blake3Digest32 (blake3_hash id)
  | false =>
      let key := blake3_derive_key "LoFiRe OverlayId BLAKE3 key"
                   (array_list (SymKey_slice (RepoLink_secret repo_link))) in
      Blake3Digest32 (blake3_keyed_hash key id)
  end.

Context {C : Type} `{!BrokerConnection C}.
Implicit Types (self : OverlayConnectionClient).

(** [BrokerConnection::process_overlay_connect] *)
Definition process_overlay_connect (repo_link : RepoLink) (public : bool) : call C OverlayId := λ c,
  let overlay := overlay repo_link public in
  '(res, c) ← process_overlay_request overlay
                (BrokerOverlayRequestContentV0_OverlayConnect OverlayConnect_V0) c;
  match res with
  | Err e =>
      if decide (e = OverlayNotJoined) then
        call_try (process_overlay_request overlay
          (BrokerOverlayRequestContentV0_OverlayJoin (OverlayJoin_V0 {|
             OverlayJoinV0_secret := RepoLink_secret repo_link;
             OverlayJoinV0_repo_pubkey := Some (RepoLink_id repo_link);
             OverlayJoinV0_peers := RepoLink_peers repo_link |}))) (λ _, call_ok overlay) c
      else Ret (Err e, c)
  | Ok _ => Ret (Ok overlay, c)
  end.
(** [BrokerConnection::overlay_connect], the same in both implementations *)
Definition overlay_connect (repo : RepoLink) (public : bool) : call C OverlayConnectionClient :=
  call_try (process_overlay_connect repo public) (λ overlay,
  call_ok {| overlay_id := overlay; repo_link := repo |}).

Definition sync_branch self (heads known_heads : list ObjectId) (known_commits : BloomFilter)
    : call C (list Block) :=
  process_overlay_request_stream_response (overlay_id self)
    (BrokerOverlayRequestContentV0_BranchSyncReq (BranchSyncReq_V0 {|
       BranchSyncReqV0_heads := heads; BranchSyncReqV0_known_heads := known_heads;
       BranchSyncReqV0_known_commits := known_commits |})).
Definition leave self : unit := tt.
Definition delete_object self (id : ObjectId) : call C unit :=
  process_overlay_request (overlay_id self)
    (BrokerOverlayRequestContentV0_ObjectDel (ObjectDel_V0 {| ObjectDelV0_id := id |})).
Definition pin_object self (id : ObjectId) : call C unit :=
  process_overlay_request (overlay_id self)
    (BrokerOverlayRequestContentV0_ObjectPin (ObjectPin_V0 {| ObjectPinV0_id := id |})).
Definition unpin_object self (id : ObjectId) : call C unit :=
  process_overlay_request (overlay_id self)
    (BrokerOverlayRequestContentV0_ObjectUnpin (ObjectUnpin_V0 {| ObjectUnpinV0_id := id |})).
Definition copy_object self (id : ObjectId) (expiry : option Timestamp) : call C ObjectId :=
  process_overlay_request_objectid_response (overlay_id self)
    (BrokerOverlayRequestContentV0_ObjectCopy (ObjectCopy_V0 {|
       ObjectCopyV0_id := id; ObjectCopyV0_expiry := expiry |})).
Definition get_block self (id : BlockId) (include_children : bool) (topic : option PubKey)
    : call C (list Block) :=
  process_overlay_request_stream_response (overlay_id self)
    (BrokerOverlayRequestContentV0_BlockGet (BlockGet_V0 {|
       BlockGetV0_id := id; BlockGetV0_include_children := include_children;
       BlockGetV0_topic := topic |})).

(** [while let Some(block) = blockstream.next().await]: [put] is unwrapped *)
Fixpoint collect (blockstream : list Block) (store : HashMapRepoStore) : outcome HashMapRepoStore :=
  match blockstream with
  | [] => Ret store
  | block :: blockstream =>
      '(r, store) ← store_put block store;
      match r with
      | Ok _ => collect blockstream store
      | Err _ => Panic
      end
  end.
(** More than the height of any object, for [Object::load] *)
Variable obj_fuel : nat.
Definition get_object self (id : ObjectId) (topic : option PubKey) : call C Object :=
  call_try (get_block self id true topic) (λ blockstream c,
  store ← collect blockstream HashMapRepoStore.new;
  '(res, _) ← Object_load obj_fuel id None store;
  Ret (map_err (λ e, match e with
                     | ObjectParseError_MissingBlocks _ => MissingBlocks
                     | _ => ObjectParseError
                     end) res, c)).

Definition put_block self (block : Block) : call C BlockId :=
  call_try (process_overlay_request (overlay_id self)
              (BrokerOverlayRequestContentV0_BlockPut (BlockPut_V0 block)))
    (λ _, call_ok (Block_id block)).
(** The loop of [put_object] *)
Fixpoint put_blocks self (blocks : list Block) (deduplicated : gset ObjectId) : call C unit :=
  match blocks with
  | [] => call_ok tt
  | block :: blocks =>
      let id := Block_id block in
      if decide (id ∈ deduplicated) then put_blocks self blocks deduplicated
      else call_try (put_block self block)
             (λ _, put_blocks self blocks ({[id]} ∪ deduplicated))
  end.
Definition put_object self (content : ObjectContent) (deps : list ObjectId)
    (expiry : option Timestamp) (max_object_size : usize) (repo_pubkey : PubKey)
    (repo_secret : SymKey) : call C ObjectId := λ c,
  obj ← Object_new content deps expiry max_object_size repo_pubkey repo_secret;
  call_try (put_blocks self (Object_blocks obj) ∅) (λ _ c, id ← Object_id obj; Ret (Ok id, c)) c.
End Client.
End OverlayConnectionClient.
