(* ===== verification/Connection.v ===== *)
(** * Local and remote connections: [lofire-broker/src/connection.rs]

    [BrokerConnectionLocal] calls the server; [BrokerConnectionRemote] sends it messages,
    and a task reads the replies and hands each to the actor that waits for it. Actors are
    [xactor]'s, the sink and the stream are the transport's: interfaces. *)

From S2P Require Import Prelude Serde Types Block Store Object Utils Branch NetTypes NetErrors.
From S2P Require Import BrokerStore BrokerTables Auth Server Session Client.

(** ** [BrokerConnectionLocal] *)

(** What the environment gives at the n-th call *)
Definition environment : Type := nat → env.

(** The server, which is borrowed, and the number of the calls made *)
Record BrokerConnectionLocal {S R : Type} : Type := {
  broker : BrokerServer S R;
  local_user : PubKey;
  local_calls : nat
}.
Arguments BrokerConnectionLocal : clear implicits.

Section Local.
Context {S R : Type} `{!BrokerStore S, !RepoStore R, !ServedStore R, !RepoDirs R}.
Context `{!RwLockRelock, !Crypto, !Ed25519, !Bloom}.
Context `{!Serde Block, !Serde BlockContentV0, !Serde ObjectContent, !Serde AddUserContentV0}.
Context `{!Serde Digest, !Serde SymKey, !Serde PubKey, !Serde bool, !Serde u32}.
Context `{!Serde OverlayMeta, !Serde PeerAdvert, !Serde RepoStoreId}.
Variables (obj_fuel fuel : nat) (envs : environment).

Abbreviation conn := (BrokerConnectionLocal S R).
Implicit Types (c : conn).

(** [BrokerServer::local_connection] *)
Definition local_connection (user : PubKey) (srv : BrokerServer S R) : conn :=
  {| broker := srv; local_user := user; local_calls := 0 |}.

(** A call on the server *)
Definition on_broker {A} (m : srv (S := S) (R := R) A) : call conn A := λ c,
  '(r, srv) ← m (broker c);
  Ret (r, {| broker := srv; local_user := local_user c; local_calls := 1 + local_calls c |}).
Definition local_env c : env := envs (local_calls c).

Definition local_add_user (user_id : PubKey) (admin_user_pk : PrivKey) : call conn unit := λ c,
  match sign admin_user_pk (local_user c) (to_vec {| AddUserContentV0_user := user_id |}) with
  | Err e => Ret (Err (ProtocolError_of_LofireError e), c)
  | Ok sig => on_broker (Server.add_user (local_user c) user_id sig) c
  end.

Definition local_request (overlay : OverlayId) (request : BrokerOverlayRequestContentV0)
    : call conn unit := λ c,
  let user := local_user c in
  match request with
  | BrokerOverlayRequestContentV0_OverlayConnect _ => on_broker (connect_overlay user overlay) c
  | BrokerOverlayRequestContentV0_OverlayJoin j =>
      on_broker (join_overlay user overlay (OverlayJoin_repo_pubkey j) (OverlayJoin_secret j)
                   (OverlayJoin_peers j) (random_buf (local_env c)) (secs (local_env c))) c
  | BrokerOverlayRequestContentV0_ObjectPin op =>
      on_broker (pin_object obj_fuel user overlay (ObjectPin_id op)) c
  | BrokerOverlayRequestContentV0_ObjectUnpin op =>
      on_broker (unpin_object obj_fuel user overlay (ObjectUnpin_id op)) c
  | BrokerOverlayRequestContentV0_ObjectDel op =>
      on_broker (del_object obj_fuel user overlay (ObjectDel_id op)) c
  | BrokerOverlayRequestContentV0_BlockPut b => on_broker (put_block user overlay (BlockPut_block b)) c
  | _ => on_broker (srv_err InvalidState) c
  end.
Definition local_request_objectid (overlay : OverlayId) (request : BrokerOverlayRequestContentV0)
    : call conn ObjectId := λ c,
  match request with
  | BrokerOverlayRequestContentV0_ObjectCopy oc =>
      on_broker (copy_object (local_user c) overlay (ObjectCopy_id oc) (ObjectCopy_expiry oc)) c
  | _ => on_broker (srv_err InvalidState) c
  end.
Definition local_request_stream (overlay : OverlayId) (request : BrokerOverlayRequestContentV0)
    : call conn (list Block) := λ c,
  let user := local_user c in
  match request with
  | BrokerOverlayRequestContentV0_BlockGet b =>
      on_broker (get_block obj_fuel user overlay (BlockGet_id b) (BlockGet_include_children b)
                   (BlockGet_topic b)) c
  | BrokerOverlayRequestContentV0_BranchSyncReq b =>
      on_broker (sync_branch obj_fuel fuel user overlay (BranchSyncReq_heads b)
                   (BranchSyncReq_known_heads b) (BranchSyncReq_known_commits b)) c
  | _ => on_broker (srv_err InvalidState) c
  end.

(** The methods that are empty in both implementations are to be done. *)
Definition Local_BrokerConnection : BrokerConnection conn := {|
  close c := Ret c;
  add_user := local_add_user;
  del_user _ _ c := Ret c;
  add_client _ _ c := Ret c;
  del_client _ _ c := Ret c;
  process_overlay_request := local_request;
  process_overlay_request_stream_response := local_request_stream;
  process_overlay_request_objectid_response := local_request_objectid
|}.
End Local.

(** ** [xactor] and the transport *)

(** [Addr::actor_id] of the n-th actor that is started *)
Class XActor : Type := { actor_id : nat → u64 }.

(** A sink of frames and the stream of those that come back: sending a frame fails, or gives
    the frames the stream yields before the next one is sent or it ends. *)
Class Transport (T : Type) : Type := {
  transport_send : bytes → T → outcome (option (list bytes) * T);
  transport_close : T → outcome T
}.

(** ** Actors *)

(** An actor is alive until it is stopped; what waits for it holds its receivers. *)
Record BrokerMessageActor : Type := {
  actor_alive : bool;
  actor_s : option BrokerMessage
}.
Definition new_actor : BrokerMessageActor := {| actor_alive := true; actor_s := None |}.
(** [Handler::handle]: [resolve] and [stop]. What is sent twice is dropped. *)
Definition actor_handle (msg : BrokerMessage) (a : BrokerMessageActor) : BrokerMessageActor :=
  {| actor_alive := false;
     actor_s := match actor_s a with None => Some msg | Some m => Some m end |}.
Definition actor_stop (a : BrokerMessageActor) : BrokerMessageActor :=
  {| actor_alive := false; actor_s := actor_s a |}.

(** [stream_s] is what was sent on the channel of blocks, which is open or closed, and
    [stream_error] what was sent on the other: nothing yet, or an error or none. *)
Record BrokerMessageStreamActor : Type := {
  stream_alive : bool;
  stream_s : list Block;
  stream_open : bool;
  stream_error : option (option ProtocolError)
}.
Definition new_stream_actor : BrokerMessageStreamActor :=
  {| stream_alive := true; stream_s := []; stream_open := true; stream_error := None |}.
Definition partial (block : Block) (a : BrokerMessageStreamActor)
    : result unit ProtocolError * BrokerMessageStreamActor :=
  if stream_open a then
    (Ok tt, {| stream_alive := stream_alive a; stream_s := stream_s a ++ [block];
               stream_open := stream_open a; stream_error := stream_error a |})
  else (Err WriteError, a).
Definition send_error (err : option ProtocolError) (a : BrokerMessageStreamActor) : BrokerMessageStreamActor :=
  {| stream_alive := stream_alive a; stream_s := stream_s a; stream_open := stream_open a;
     stream_error := match stream_error a with None => Some err | Some e => Some e end |}.
(** [ctx.stop(None)] and [close] *)
Definition stream_stop (a : BrokerMessageStreamActor) : BrokerMessageStreamActor :=
  {| stream_alive := false; stream_s := stream_s a; stream_open := stream_open a;
     stream_error := stream_error a |}.
Definition stream_close (a : BrokerMessageStreamActor) : BrokerMessageStreamActor :=
  {| stream_alive := stream_alive a; stream_s := stream_s a; stream_open := false;
     stream_error := stream_error a |}.
Definition stream_handle (msg : BrokerMessage) (a : BrokerMessageStreamActor)
    : outcome BrokerMessageStreamActor :=
  res ← result_option_block msg;
  match res with
  | Err e => Ret (stream_close (stream_stop (send_error (Some e) a)))
  | Ok (Some b) =>
      let '(res, a) := partial b (send_error None a) in
      match res with
      | Err e => Ret (stream_close (stream_stop a))
      | Ok _ => Ret a
      end
  | Ok None => Ret (stream_close (stream_stop (send_error None a)))
  end.

(** ** [BrokerConnectionRemote] *)

(** [actors] and [stream_actors] map the requests that wait to their actors; [reading] is
    whether the task that reads is running, [started] how many actors were started. *)
Record BrokerConnectionRemote {T : Type} : Type := {
  writer : T;
  remote_user : PubKey;
  actors : gmap u64 BrokerMessageActor;
  stream_actors : gmap u64 BrokerMessageStreamActor;
  reading : bool;
  started : nat
}.
Arguments BrokerConnectionRemote : clear implicits.

Section Remote.
Context {T : Type} `{!XActor, !Transport T, !Ed25519}.
Context `{!Serde BrokerMessage, !Serde AddUserContentV0}.

Abbreviation conn := (BrokerConnectionRemote T).
Implicit Types (c : conn).

Definition with_writer (t : T) c : conn :=
  {| writer := t; remote_user := remote_user c; actors := actors c;
     stream_actors := stream_actors c; reading := reading c; started := started c |}.
Definition with_actors (m : gmap u64 BrokerMessageActor) c : conn :=
  {| writer := writer c; remote_user := remote_user c; actors := m;
     stream_actors := stream_actors c; reading := reading c; started := started c |}.
Definition with_stream_actors (m : gmap u64 BrokerMessageStreamActor) c : conn :=
  {| writer := writer c; remote_user := remote_user c; actors := actors c;
     stream_actors := m; reading := reading c; started := started c |}.
Definition stop_reading c : conn :=
  {| writer := writer c; remote_user := remote_user c; actors := actors c;
     stream_actors := stream_actors c; reading := false; started := started c |}.
Definition next_actor c : conn :=
  {| writer := writer c; remote_user := remote_user c; actors := actors c;
     stream_actors := stream_actors c; reading := reading c; started := 1 + started c |}.

(** ** The task that reads *)

(** The frames as messages, and back: the empty frame is [Close]. *)
Definition transform (message : BrokerMessage) : bytes :=
  if BrokerMessage_is_close message then [] else to_vec message.
Definition read_message (frame : bytes) : BrokerMessage :=
  match frame with
  | [] => BrokerMessage_Close
  | _ => default BrokerMessage_Close (from_slice (A := BrokerMessage) frame)
  end.

(** A message, in [connection_reader_loop]. A weak address is upgraded while its actor is
    alive. *)
Definition reader_message (message : BrokerMessage) c : outcome (result unit ProtocolError * conn) :=
  if BrokerMessage_is_close message then
    Ret (Err Closing, with_stream_actors (stream_stop <$> stream_actors c)
                        (with_actors (actor_stop <$> actors c) c))
  else
    is_request ← BrokerMessage_is_request message;
    if (is_request : bool) then Ret (Err Closing, c) else
    is_response ← BrokerMessage_is_response message;
    if (is_response : bool) then
      id ← BrokerMessage_id message;
      match actors c !! id with
      | Some a =>
          if actor_alive a then Ret (Ok tt, with_actors (<[id := actor_handle message a]> (actors c)) c)
          else Ret (Err Closing, c)
      | None =>
          match stream_actors c !! id with
          | Some a =>
              if stream_alive a then
                a ← stream_handle message a;
                Ret (Ok tt, with_stream_actors (<[id := a]> (stream_actors c)) c)
              else Ret (Err Closing, c)
          | None => Ret (Err Closing, c)
          end
      end
    else Ret (Ok tt, c).

(** [connection_reader_loop] on the frames that are there; when it returns an error, the task
    closes the writer. *)
Fixpoint reader_loop (frames : list bytes) c : outcome conn :=
  match frames with
  | [] => Ret c
  | frame :: frames =>
      if negb (reading c) then Ret c else
      '(r, c) ← reader_message (read_message frame) c;
      match r with
      | Ok _ => reader_loop frames c
      | Err _ => t ← transport_close (writer c); Ret (stop_reading (with_writer t c))
      end
  end.

(** [open] *)
Definition open_remote (t : T) (frames : list bytes) (user : PubKey) : outcome conn :=
  reader_loop frames {| writer := t; remote_user := user; actors := ∅; stream_actors := ∅;
                        reading := true; started := 0 |}.

(** ** Requests *)

(** [w.send(..).map_err(|_e| ProtocolError::WriteError)], and what comes back *)
Definition send (message : BrokerMessage) : call conn unit := λ c,
  '(frames, t) ← transport_send (transform message) (writer c);
  let c := with_writer t c in
  match frames with
  | None => Ret (Err WriteError, c)
  | Some frames => c ← reader_loop frames c; Ret (Ok tt, c)
  end.

(** [before!] and [after!]. An actor that is not stopped is waited for without end. *)
Definition before (request_id : u64) c : conn :=
  next_actor (with_actors (<[request_id := new_actor]> (actors c)) c).
Definition after (request_id : u64) : call conn BrokerMessage := λ c,
  a ← unwrap (actors c !! request_id);
  if actor_alive a then OutOfFuel else
  match actor_s a with
  | None => Ret (Err Closing, c)
  | Some reply => Ret (Ok reply, with_actors (delete request_id (actors c)) c)
  end.
(** The address of the actor is dropped when a request returns early: the actor stops, its
    entry stays. *)
Definition dropped (request_id : u64) c : conn :=
  with_actors (alter actor_stop request_id (actors c)) c.
Definition stream_dropped (request_id : u64) c : conn :=
  with_stream_actors (alter stream_stop request_id (stream_actors c)) c.
(** A request that has one reply *)
Definition exchange (msg : u64 → result BrokerMessage ProtocolError) : call conn BrokerMessage := λ c,
  let request_id := actor_id (started c) in
  let c := before request_id c in
  match msg request_id with
  | Err e => Ret (Err e, dropped request_id c)
  | Ok message =>
      '(res, c) ← send message c;
      match res with
      | Err e => Ret (Err e, dropped request_id c)
      | Ok _ => after request_id c
      end
  end.
(** [reply.into()] *)
Definition reply_into {A} (into : BrokerMessage → outcome (result A ProtocolError))
    (reply : BrokerMessage) : call conn A := λ c, r ← into reply; Ret (r, c).

Definition overlay_message (overlay : OverlayId) (request : BrokerOverlayRequestContentV0)
    (request_id : u64) : BrokerMessage :=
  BrokerMessage_V0 {|
    BrokerMessageV0_padding := [];
    BrokerMessageV0_content := BrokerMessageContentV0_BrokerOverlayMessage (BrokerOverlayMessage_V0 {|
      BrokerOverlayMessageV0_overlay := overlay;
      BrokerOverlayMessageV0_content := BrokerOverlayMessageContentV0_BrokerOverlayRequest
        (BrokerOverlayRequest_V0 {|
          BrokerOverlayRequestV0_id := request_id; BrokerOverlayRequestV0_content := request |}) |}) |}.

Definition remote_request (overlay : OverlayId) (request : BrokerOverlayRequestContentV0)
    : call conn unit :=
  call_try (exchange (λ id, Ok (overlay_message overlay request id))) (reply_into result_unit).
Definition remote_request_objectid (overlay : OverlayId) (request : BrokerOverlayRequestContentV0)
    : call conn ObjectId :=
  call_try (exchange (λ id, Ok (overlay_message overlay request id))) (reply_into result_object_id).

Definition add_user_message (user_id : PubKey) (sig : Sig) (request_id : u64) : BrokerMessage :=
  BrokerMessage_V0 {|
    BrokerMessageV0_padding := [];
    BrokerMessageV0_content := BrokerMessageContentV0_BrokerRequest (BrokerRequest_V0 {|
      BrokerRequestV0_id := request_id;
      BrokerRequestV0_content := BrokerRequestContentV0_AddUser (AddUser_V0 {|
        AddUserV0_content := {| AddUserContentV0_user := user_id |}; AddUserV0_sig := sig |}) |}) |}.
Definition remote_add_user (user_id : PubKey) (admin_user_pk : PrivKey) : call conn unit := λ c,
  call_try (exchange (λ id,
    sig ←? map_err ProtocolError_of_LofireError
             (sign admin_user_pk (remote_user c) (to_vec {| AddUserContentV0_user := user_id |}));
    Ok (add_user_message user_id sig id))) (reply_into result_unit) c.

(** [error_receiver.await]: the first reply says whether there is a stream. *)
Definition first_reply (request_id : u64) : call conn unit := λ c,
  a ← unwrap (stream_actors c !! request_id);
  match stream_error a with
  | None => if stream_alive a then OutOfFuel else Ret (Err Closing, c)
  | Some (Some e) => Ret (Err e, with_stream_actors (delete request_id (stream_actors c)) c)
  | Some None => Ret (Ok tt, c)
  end.
(** What the receiver of the stream yields. The entry of the actor is removed when it has
    stopped. *)
Definition received_blocks (request_id : u64) : call conn (list Block) := λ c,
  a ← unwrap (stream_actors c !! request_id);
  Ret (Ok (stream_s a),
       if stream_alive a then c
       else with_stream_actors (delete request_id (stream_actors c)) c).
(** A request that is answered by a stream *)
Definition remote_request_stream (overlay : OverlayId) (request : BrokerOverlayRequestContentV0)
    : call conn (list Block) := λ c,
  let request_id := actor_id (started c) in
  let c := next_actor (with_stream_actors (<[request_id := new_stream_actor]> (stream_actors c)) c) in
  '(res, c) ← send (overlay_message overlay request request_id) c;
  match res with
  | Err e => Ret (Err e, stream_dropped request_id c)
  | Ok _ => call_try (first_reply request_id) (λ _, received_blocks request_id) c
  end.

Definition remote_close c : outcome conn :=
  let c := stop_reading c in
  '(_, t) ← transport_send (transform BrokerMessage_Close) (writer c);
  t ← transport_close t;
  Ret (with_writer t c).

Definition Remote_BrokerConnection : BrokerConnection conn := {|
  close := remote_close;
  add_user := remote_add_user;
  del_user _ _ c := Ret c;
  add_client _ _ c := Ret c;
  del_client _ _ c := Ret c;
  process_overlay_request := remote_request;
  process_overlay_request_stream_response := remote_request_stream;
  process_overlay_request_objectid_response := remote_request_objectid
|}.
End Remote.

(** ** [ConnectionRemote] *)

Module ConnectionRemote.
Section Open.
Context {T : Type} `{!Transport T, !Ed25519}.
Context `{!Serde BrokerMessage, !Serde StartProtocol, !Serde ServerHello}.
Context `{!Serde ClientAuth, !Serde ClientAuthContentV0, !Serde AuthResult}.

(** [close]: its [writer.send] is a future that nothing polls, so nothing is sent. *)
Definition close (w : T) (err : ProtocolError) : outcome (ProtocolError * T) :=
  w ← transport_close w; Ret (err, w).

(** [ext_request]: [unimplemented!] *)
Definition ext_request (w : T) (request : ExtRequest) : outcome (result ExtResponse ProtocolError) :=
  Panic.

(** Sends a frame and reads the next that comes, with those that came before. *)
Definition send_and_next (frame : bytes) (pending : list bytes) (w : T)
    : outcome (result (option bytes * list bytes) ProtocolError * T) :=
  '(frames, w) ← transport_send frame w;
  match frames with
  | None => Ret (Err WriteError, w)
  | Some frames =>
      match pending ++ frames with
      | [] => Ret (Ok (None, []), w)
      | answer :: rest => Ret (Ok (Some answer, rest), w)
      end
  end.

(** [open_broker_connection]: a connection, or an error and what is left of the transport *)
Definition open_broker_connection (w : T) (user : PubKey) (user_pk : PrivKey) (client : PubKey)
    : outcome (result (BrokerConnectionRemote T) (ProtocolError * T)) :=
  '(answer, w) ← send_and_next (to_vec (StartProtocol_Auth ClientHello_V0)) [] w;
  match answer with
  | Err e => Ret (Err (e, w))
  | Ok (None, _) => e ← close w InvalidState; Ret (Err e)
  | Ok (Some answer, pending) =>
      match from_slice (A := ServerHello) answer with
      | None => Ret (Err (ProtocolError_of_serde_bare tt, w))
      | Some server_hello =>
          let content := {| ClientAuthContentV0_user := user; ClientAuthContentV0_client := client;
                            ClientAuthContentV0_nonce := ServerHello_nonce server_hello |} in
          match sign user_pk user (to_vec content) with
          | Err _ => Ret (Err (SignatureError, w))
          | Ok sig =>
              let auth_ser := to_vec (ClientAuth_V0 {| ClientAuthV0_content := content;
                                                       ClientAuthV0_sig := sig |}) in
              '(answer, w) ← send_and_next auth_ser pending w;
              match answer with
              | Err e => Ret (Err (e, w))
              | Ok (None, _) => e ← close w InvalidState; Ret (Err e)
              | Ok (Some answer, pending) =>
                  match from_slice (A := AuthResult) answer with
                  | None => Ret (Err (ProtocolError_of_serde_bare tt, w))
                  | Some auth_result =>
                      let err := AuthResult_result auth_result in
                      if (uint_N err =? 0)%N then
                        cnx ← open_remote w pending user; Ret (Ok cnx)
                      else
                        err ← unwrap (ProtocolError_try_from err);
                        e ← close w err; Ret (Err e)
                  end
              end
          end
      end
  end.
End Open.
End ConnectionRemote.
