(* ===== verification/ConnectionProps.v ===== *)
(** * A remote connection is as good as a local one

    A remote connection to a server that handles its frames with a session of [Session],
    compared with a local connection to the same server. *)

From S2P Require Import Bare BareTypes BrokerRows NetBare MessageBare OverlayProps LmdbRepoStore LmdbView LmdbMem LmdbProps LmdbServed ServerProps.
From S2P Require Import Prelude Serde Types Block Store Object Utils Branch NetTypes NetErrors.
From S2P Require Import ObjectTree ObjectStore ObjectSim BrokerStore BrokerTables Auth AuthProps.
From S2P Require Import Server Session SessionProps Client Connection.

(** ** What the libraries promise *)

(** The identifiers of the first 2^64 actors differ. *)
Class XActorLaws `{!XActor} : Prop := {
  actor_id_inj i j : (N.of_nat i < 2 ^ 64)%N → (N.of_nat j < 2 ^ 64)%N →
                     actor_id i = actor_id j → i = j
}.

(** ** A server at the other end *)

Record ServerTransport {S R : Type} : Type := {
  session : ProtocolHandler.ProtocolHandler;
  served : BrokerServer S R;
  handled : nat
}.
Arguments ServerTransport : clear implicits.

(** ** The calls of a connection *)

Inductive conn_call : Type :=
  | ConnRequest (overlay : OverlayId) (request : BrokerOverlayRequestContentV0)
  | ConnStream (overlay : OverlayId) (request : BrokerOverlayRequestContentV0)
  | ConnAddUser (user_id : PubKey) (admin_user_pk : PrivKey).
Inductive conn_resp : Type :=
  | ConnUnit (r : result unit ProtocolError)
  | ConnBlocks (r : result (list Block) ProtocolError).

Definition is_stream_request (r : BrokerOverlayRequestContentV0) : bool :=
  match r with
  | BrokerOverlayRequestContentV0_BlockGet _ | BrokerOverlayRequestContentV0_BranchSyncReq _ => true
  | _ => false
  end.
(** Every request is made with the method for its answer, blocks have their own hash. *)
Definition conn_call_ok `{!Crypto, !Serde Block} (c : conn_call) : Prop :=
  match c with
  | ConnRequest _ r => is_stream_request r = false ∧
      match r with BrokerOverlayRequestContentV0_BlockPut (BlockPut_V0 b) => id_ok b | _ => True end
  | ConnStream _ r => is_stream_request r = true
  | ConnAddUser _ _ => True
  end.
(** The blocks of an answer, as they arrive *)
Definition skip_blocks (r : result (list Block) ProtocolError) : result (list Block) ProtocolError :=
  match r with Ok bs => Ok (serde_skip <$> bs) | Err e => Err e end.
Definition resp_skip (r : conn_resp) : conn_resp :=
  match r with
  | ConnBlocks r => ConnBlocks (skip_blocks r)
  | ConnUnit r => ConnUnit r
  end.

Section Run.
Context {C : Type} (B : BrokerConnection C).
Definition run_conn_call (k : conn_call) (c : C) : outcome (conn_resp * C) :=
  match k with
  | ConnRequest o r => '(res, c) ← process_overlay_request o r c; Ret (ConnUnit res, c)
  | ConnStream o r => '(res, c) ← process_overlay_request_stream_response o r c; Ret (ConnBlocks res, c)
  | ConnAddUser u sk => '(res, c) ← Client.add_user u sk c; Ret (ConnUnit res, c)
  end.
Fixpoint run_conn_calls (ks : list conn_call) (c : C) : outcome (list conn_resp * C) :=
  match ks with
  | [] => Ret ([], c)
  | k :: ks => '(r, c) ← run_conn_call k c; '(rs, c) ← run_conn_calls ks c; Ret (r :: rs, c)
  end.
End Run.

Section Equivalence.
Context {S R : Type} `{!BrokerStore S, !RepoStore R, !ServedStore R, !RepoDirs R}.
Context `{!RwLockRelock, !Crypto, !Ed25519, !Bloom, !RustFsm, !XActor}.
Context `{!Serde Block, !Serde BlockContentV0, !Serde ObjectContent, !Serde AddUserContentV0}.
Context `{!Serde Digest, !Serde SymKey, !Serde PubKey, !Serde bool, !Serde u32}.
Context `{!Serde OverlayMeta, !Serde PeerAdvert, !Serde RepoStoreId}.
Context `{!Serde ServerHello, !Serde ClientAuth, !Serde ClientAuthContentV0, !Serde AuthResult}.
Context `{!Serde BrokerMessage, !Serde StartProtocol, !Serde ExtResponse}.
Variables (obj_fuel fuel : nat) (envs : environment).

Abbreviation local := (BrokerConnectionLocal S R).
Abbreviation transport := (ServerTransport S R).
Abbreviation remote := (BrokerConnectionRemote transport).
Implicit Types (cl : local) (cr : remote).

(** The frames of a session: the reply, and those of the task. *)
#[export] Instance server_transport : Transport transport := {
  transport_send frame t :=
    '((reply, task), (h, srv)) ← ProtocolHandler.handle_incoming obj_fuel fuel frame
                                   (envs (handled t)) (session t) (served t);
    Ret (match reply with
         | Ok r => Some (r :: match task with Some (frames, _) => frames | None => [] end)
         | Err _ => Some []
         end, {| session := h; served := srv; handled := 1 + handled t |});
  transport_close t := Ret t
}.
Definition local_conn : BrokerConnection local := Local_BrokerConnection obj_fuel fuel envs.
Definition remote_conn : BrokerConnection remote := Remote_BrokerConnection.

Context `{!SerdeLaws Block, !SerdeLaws BrokerMessage, !SerdeTagged BrokerMessage}.
Context `{!XActorLaws, !SerializingStore R}.

(** The remote connection is that of an authenticated user to the server the local one calls,
    and the identifiers of the actors to come are free. *)
Definition conn_ok cl cr : Prop :=
  served (writer cr) = broker cl ∧ session_ok (session (writer cr)) (AtBroker (local_user cl)) ∧
  handled (writer cr) = local_calls cl ∧ remote_user cr = local_user cl ∧ reading cr = true ∧
  ∀ n, started cr ≤ n → (N.of_nat n < 2 ^ 64)%N → actors cr !! actor_id n = None.

(** ** Frames *)

Lemma to_vec_message_nil (m : BrokerMessage) : ∃ b l, to_vec m = b :: l.
Proof. pose proof (to_vec_nonempty m). destruct (to_vec m); [done|eauto]. Qed.
Lemma read_to_vec (m : BrokerMessage) : read_message (to_vec m) = serde_skip m.
Proof.
  unfold read_message. destruct (to_vec_message_nil m) as (b & l & Hm). rewrite Hm, <- Hm.
  by rewrite from_slice_to_vec.
Qed.

Lemma send_message cr u m :
  session_ok (session (writer cr)) (AtBroker u) → BrokerMessage_is_close m = false →
  send m cr =
    ('((reply, t), srv) ← BrokerProtocolHandler.handle_incoming obj_fuel fuel u (serde_skip m)
                            (envs (handled (writer cr))) (served (writer cr));
     c ← reader_loop (to_vec reply :: match t with Some (frames, _) => frames | None => [] end)
           (with_writer {| session := session (writer cr); served := srv;
                           handled := 1 + handled (writer cr) |} cr);
     Ret (Ok tt, c)).
Proof.
  intros [Hp Hb] Hm. unfold send, transform. rewrite Hm. cbn [transport_send server_transport].
  unfold ProtocolHandler.handle_incoming. rewrite Hp, from_slice_to_vec, Hb.
  cbn [unwrap mbind outcome_bind].
  by destruct (BrokerProtocolHandler.handle_incoming _ _ _ _ _ _) as [[[reply t] srv]| |].
Qed.

(** What the server makes of a request. *)
Lemma handle_overlay_message u o r id e srv :
  BrokerProtocolHandler.handle_incoming obj_fuel fuel u (serde_skip (overlay_message o r id)) e srv =
    ('(res, srv) ← BrokerProtocolHandler.overlay_request obj_fuel fuel u o (request_skip r) e srv;
     match res with
     | inl res => Ret ((BrokerProtocolHandler.prepare_reply_broker_overlay_message res id o None 20%N, None), srv)
     | inr res => Ret (BrokerProtocolHandler.send_block_stream_response_to_client res id o 20%N, srv)
     end).
Proof. reflexivity. Qed.

(** ** Requests with one reply *)

(** The message is the reply to a request and is read as this result. *)
Definition answers {A} (into : BrokerMessage → outcome (result A ProtocolError)) (id : u64)
    (m : BrokerMessage) (res : result A ProtocolError) : Prop :=
  BrokerMessage_is_close m = false ∧ BrokerMessage_is_request m = Ret false ∧
  BrokerMessage_is_response m = Ret true ∧ BrokerMessage_id m = Ret id ∧ into m = Ret res.

(** The server's next state, at the other end of the connection *)
Definition next_served (srv : BrokerServer S R) (t : transport) : transport :=
  {| session := session t; served := srv; handled := 1 + handled t |}.
Definition replied srv cr : remote :=
  next_actor (with_writer (next_served srv (writer cr))
    (with_actors (delete (actor_id (started cr)) (actors cr)) cr)).

Lemma exchange_reply {A B} (into : BrokerMessage → outcome (result B ProtocolError))
    (ans : result A ProtocolError → result B ProtocolError) cr u msg m M
    (reply : result A ProtocolError → BrokerMessage) :
  session_ok (session (writer cr)) (AtBroker u) → reading cr = true →
  msg (actor_id (started cr)) = Ok m → BrokerMessage_is_close m = false →
  BrokerProtocolHandler.handle_incoming obj_fuel fuel u (serde_skip m)
    (envs (handled (writer cr))) (served (writer cr)) =
    ('(res, srv) ← M; Ret ((reply res, None), srv)) →
  (∀ res, answers into (actor_id (started cr)) (serde_skip (reply res)) (ans res)) →
  call_try (exchange msg) (reply_into into) cr = ('(res, srv) ← M; Ret (ans res, replied srv cr)).
Proof.
  intros Hs Hr Hmsg Hclose Hhandle Hans. unfold call_try, exchange. rewrite Hmsg.
  set (id := actor_id (started cr)) in *.
  rewrite (send_message (before id cr) u m Hs Hclose). cbn [writer before next_actor with_actors].
  rewrite Hhandle. destruct M as [[res srv]| |]; [|done..]. cbn [mbind outcome_bind reader_loop].
  cbn [reading with_writer before next_actor with_actors]. rewrite Hr. cbn [negb].
  rewrite read_to_vec. unfold reader_message.
  destruct (Hans res) as (Hc & Hreq & Hresp & Hid & Hres).
  rewrite Hc, Hreq, Hresp, Hid. cbn [mbind outcome_bind actors with_writer before next_actor with_actors].
  rewrite lookup_insert_eq. cbn [actor_alive new_actor mbind outcome_bind].
  unfold after. cbn [actors with_actors with_writer next_actor before].
  rewrite lookup_insert_eq.
  cbn [unwrap mbind outcome_bind actor_alive actor_s actor_handle new_actor].
  unfold reply_into. rewrite Hres. cbn [mbind outcome_bind]. do 3 f_equal.
  unfold replied, before, next_actor, with_writer, with_actors. cbn.
  by rewrite !delete_insert_eq.
Qed.

Lemma message_answers res id n :
  answers result_unit id (serde_skip (BrokerProtocolHandler.prepare_reply_broker_message res id n)) res.
Proof. split_and!; [done..|]. by destruct res as [[]|[]]. Qed.
Lemma overlay_answers res id o n :
  answers result_unit id (serde_skip (BrokerProtocolHandler.prepare_reply_broker_overlay_message res id o None n)) res.
Proof. split_and!; [done..|]. by destruct res as [[]|[]]. Qed.

(** ** Streams *)

Abbreviation stream_frame o id r :=
  (to_vec (BrokerProtocolHandler.prepare_reply_broker_overlay_message_stream r id o 20%N)).
(** What is sent for a result: the blocks and an end, or an error. *)
Definition stream_frames (o : OverlayId) (id : u64) (res : result (list Block) ProtocolError) : list bytes :=
  match res with
  | Ok bs => ((λ b, stream_frame o id (Ok b)) <$> bs) ++ [stream_frame o id (Err EndOfStream)]
  | Err e => [stream_frame o id (Err e)]
  end.
Lemma stream_frames_eq res id o :
  let '(reply, t) := BrokerProtocolHandler.send_block_stream_response_to_client res id o 20%N in
  to_vec reply :: match t with Some (frames, _) => frames | None => [] end = stream_frames o id res.
Proof. by destruct res as [[|b bs]|e]. Qed.

(** A frame that reaches its stream actor. *)
Lemma reader_stream_frame {T} `{!Transport T} o id r frames (cr : BrokerConnectionRemote T) a a' :
  reading cr = true → actors cr !! id = None → stream_actors cr !! id = Some a →
  stream_alive a = true →
  stream_handle (serde_skip (BrokerProtocolHandler.prepare_reply_broker_overlay_message_stream r id o 20%N)) a = Ret a' →
  reader_loop (stream_frame o id r :: frames) cr =
  reader_loop frames (with_stream_actors (<[id := a']> (stream_actors cr)) cr).
Proof.
  intros Hr Hno Ha Hal Hh. cbn [reader_loop]. rewrite Hr. cbn [negb]. rewrite read_to_vec.
  unfold reader_message.
  change (BrokerMessage_is_close (serde_skip _)) with false.
  change (BrokerMessage_is_request (serde_skip _)) with (Ret false).
  change (BrokerMessage_is_response (serde_skip _)) with (Ret true).
  change (BrokerMessage_id (serde_skip _)) with (Ret id). cbn [mbind outcome_bind].
  rewrite Hno, Ha, Hal, Hh. done.
Qed.

Lemma handle_block o id b a : stream_open a = true →
  stream_handle (serde_skip (BrokerProtocolHandler.prepare_reply_broker_overlay_message_stream (Ok b) id o 20%N)) a
  = Ret {| stream_alive := stream_alive a; stream_s := stream_s a ++ [serde_skip b];
           stream_open := true; stream_error := Some (default None (stream_error a)) |}.
Proof.
  intros Ho. destruct a as [al bs op er]; cbn in Ho; subst op. by destruct er.
Qed.
Lemma handle_error o id e a :
  stream_handle (serde_skip (BrokerProtocolHandler.prepare_reply_broker_overlay_message_stream (Err e) id o 20%N)) a
  = match e with
    | PartialContent | EndOfStream =>
        Ret {| stream_alive := false; stream_s := stream_s a; stream_open := false;
               stream_error := Some (default None (stream_error a)) |}
    | _ => Ret {| stream_alive := false; stream_s := stream_s a; stream_open := false;
                  stream_error := Some (default (Some e) (stream_error a)) |}
    end.
Proof. destruct a as [al bs op er]. by destruct e, er. Qed.

Lemma reader_stream_blocks o id bs cr a :
  reading cr = true → actors cr !! id = None → stream_actors cr !! id = Some a →
  stream_alive a = true → stream_open a = true →
  reader_loop (stream_frames o id (Ok bs)) cr =
  Ret (with_stream_actors (<[id := {| stream_alive := false; stream_s := stream_s a ++ (serde_skip <$> bs);
         stream_open := false; stream_error := Some (default None (stream_error a)) |}]> (stream_actors cr)) cr).
Proof.
  intros Hr Hno Ha Hal Ho. cbn [stream_frames]. revert cr a Hr Hno Ha Hal Ho.
  induction bs as [|b bs IH]; intros cr a Hr Hno Ha Hal Ho.
  - change (reader_loop [stream_frame o id (Err EndOfStream)] cr = Ret (with_stream_actors (<[id := {|
      stream_alive := false; stream_s := stream_s a ++ []; stream_open := false;
      stream_error := Some (default None (stream_error a)) |}]> (stream_actors cr)) cr)).
    rewrite (reader_stream_frame o id (Err EndOfStream) [] cr a _ Hr Hno Ha Hal (handle_error _ _ _ _)).
    by rewrite app_nil_r.
  - rewrite fmap_cons, <- app_comm_cons.
    rewrite (reader_stream_frame o id (Ok b) _ cr a _ Hr Hno Ha Hal (handle_block _ _ _ _ Ho)).
    erewrite IH; [|exact Hr|exact Hno|by apply lookup_insert_eq|exact Hal|done].
    unfold with_stream_actors. cbn. by rewrite insert_insert_eq, <- (assoc_L (++)).
Qed.

Definition stream_replied srv cr : remote :=
  next_actor (with_writer (next_served srv (writer cr))
    (with_stream_actors (delete (actor_id (started cr)) (stream_actors cr)) cr)).

Lemma stream_request o r cr u (M : outcome (result (list Block) ProtocolError * BrokerServer S R)) :
  session_ok (session (writer cr)) (AtBroker u) → reading cr = true →
  actors cr !! actor_id (started cr) = None →
  BrokerProtocolHandler.overlay_request obj_fuel fuel u o (request_skip r)
    (envs (handled (writer cr))) (served (writer cr)) = ('(res, srv) ← M; Ret (inr res, srv)) →
  (∀ e srv, M = Ret (Err e, srv) → ProtocolError_is_stream e = false) →
  remote_request_stream o r cr =
    ('(res, srv) ← M;
     Ret (skip_blocks res, stream_replied srv cr)).
Proof.
  intros Hs Hr Hno Hreq Herr. unfold remote_request_stream.
  set (id := actor_id (started cr)) in *.
  rewrite (send_message (next_actor (with_stream_actors (<[id := new_stream_actor]> (stream_actors cr)) cr))
    u (overlay_message o r id) Hs eq_refl).
  rewrite handle_overlay_message. cbn [writer next_actor with_stream_actors].
  rewrite Hreq. destruct M as [[res srv]| |]; [|done..]. cbn [mbind outcome_bind].
  pose proof (stream_frames_eq res id o) as Hframes.
  destruct (BrokerProtocolHandler.send_block_stream_response_to_client res id o 20%N) as [reply t].
  match goal with |- context [reader_loop ?l _] => replace l with (stream_frames o id res) by exact (eq_sym Hframes) end.
  clear Hframes reply t. destruct res as [bs|e].
  - rewrite (reader_stream_blocks o id bs _ new_stream_actor); [|done|done|by apply lookup_insert_eq|done..].
    unfold call_try, first_reply, received_blocks.
    cbn [mbind outcome_bind stream_actors with_stream_actors with_writer next_actor].
    rewrite !lookup_insert_eq. cbn. rewrite lookup_insert_eq. cbn. do 3 f_equal.
    unfold stream_replied, next_actor, with_writer, with_stream_actors. cbn. by rewrite !delete_insert_eq.
  - specialize (Herr e srv eq_refl). cbn [stream_frames].
    set (a := {| stream_alive := false; stream_s := []; stream_open := false;
                 stream_error := Some (Some e) |}).
    rewrite (reader_stream_frame o id (Err e) [] _ new_stream_actor a);
      [|done|done|by apply lookup_insert_eq|done|by rewrite handle_error; destruct e].
    unfold call_try, first_reply.
    cbn [reader_loop mbind outcome_bind stream_actors with_stream_actors with_writer next_actor].
    rewrite !lookup_insert_eq. cbn. do 3 f_equal.
    unfold stream_replied, next_actor, with_writer, with_stream_actors. cbn. by rewrite !delete_insert_eq.
Qed.

(** ** The calls, at both ends *)

Definition no_stream (e : ProtocolError) : Prop := ProtocolError_is_stream e = false.
Lemma send_objects_err ids d r e r' :
  send_objects obj_fuel ids d r = Ret (Err e, r') → no_stream e.
Proof.
  revert d r e r'. induction ids as [|id ids IH]; intros d r e r'; cbn; [done|].
  destruct (Object_load _ _ _ _) as [[[o|e1] r1]| |]; cbn; [|by intros [= <- _]|done..].
  destruct (send_blocks _ _) as [sent d1].
  destruct (send_objects _ ids d1 r1) as [[[l|e1] r2]| |] eqn:Hs; cbn; [done| |done..].
  intros [= <- _]. by eapply IH.
Qed.
Lemma load_object_err {A} id (k : Object → on_repo (R := R) A) r e r' :
  (∀ o r e r', k o r = Ret (Err e, r') → no_stream e) →
  load_object obj_fuel id k r = Ret (Err e, r') → no_stream e.
Proof.
  intros Hk. unfold load_object. destruct (Object_load _ _ _ _) as [[[o|e1] r1]| |]; cbn; [|by intros [= <- _]|done..].
  apply Hk.
Qed.
Lemma stream_call_err u o req ev srv e srv' :
  BrokerProtocolHandler.overlay_request obj_fuel fuel u o req ev srv = Ret (inr (Err e), srv') →
  no_stream e.
Proof.
  destruct req; cbn [BrokerProtocolHandler.overlay_request]; try done;
    match goal with |- ('(_, _) ← ?m _; _) = _ → _ =>
      destruct (m srv) as [[[bs|e1] srv1]| |] eqn:Hm; cbn; try done; intros [= <- _]; revert Hm end.
  - apply get_repostore_err; try done. intros r e r'. unfold get_block_in.
    destruct (BlockGet_include_children _); cbn [negb].
    + by apply load_object_err.
    + destruct (store_get _ _) as [[[b|e2] r1]| |]; cbn; [done| |done..]. intros [= <- _]. by destruct e2.
  - apply get_repostore_err; try done. intros r e r'. unfold sync_branch_in.
    destruct (sync_req _ _ _ _ _ _) as [[[ids r1]|e2]| |]; cbn; [|by intros [= <- _]|done..].
    apply send_objects_err.
Qed.

Definition local_next srv cl : local :=
  {| broker := srv; local_user := local_user cl; local_calls := 1 + local_calls cl |}.

Lemma put_block_skip u o b srv : id_ok b → put_block u o (serde_skip b) srv = put_block u o b srv.
Proof.
  intros Hb. apply get_repostore_ext. intros r. unfold put_block_in. by rewrite store_put_skip.
Qed.
Lemma local_request_eq o r cl :
  conn_call_ok (ConnRequest o r) → ∃ M : outcome (result unit ProtocolError * BrokerServer S R),
  BrokerProtocolHandler.overlay_request obj_fuel fuel (local_user cl) o (request_skip r)
    (envs (local_calls cl)) (broker cl) = ('(res, srv) ← M; Ret (inl res, srv)) ∧
  local_request obj_fuel envs o r cl = ('(res, srv) ← M; Ret (res, local_next srv cl)).
Proof.
  intros [Hs Hb]. destruct r; try done; cbn [request_skip BrokerProtocolHandler.overlay_request
    local_request]; try (eexists; split; reflexivity);
    try (exists (Ret (Err InvalidState, broker cl)); split; reflexivity).
  destruct x as [b]. cbn [BlockPut_block BrokerProtocolHandler.overlay_request].
  exists (put_block (local_user cl) o b (broker cl)).
  by rewrite put_block_skip.
Qed.
Lemma local_stream_eq o r cl :
  is_stream_request r = true → ∃ M : outcome (result (list Block) ProtocolError * BrokerServer S R),
  BrokerProtocolHandler.overlay_request obj_fuel fuel (local_user cl) o (request_skip r)
    (envs (local_calls cl)) (broker cl) = ('(res, srv) ← M; Ret (inr res, srv)) ∧
  local_request_stream obj_fuel fuel o r cl = ('(res, srv) ← M; Ret (res, local_next srv cl)).
Proof. intros Hs. destruct r; try done; eexists; split; reflexivity. Qed.

(** ** The connections *)

Lemma next_ok cl cr srv :
  conn_ok cl cr → ∀ m, (∀ n, Datatypes.S (started cr) ≤ n → (N.of_nat n < 2 ^ 64)%N → m !! actor_id n = None) →
  ∀ sm, conn_ok (local_next srv cl) {| writer := next_served srv (writer cr); remote_user := remote_user cr;
    actors := m; stream_actors := sm; reading := reading cr; started := 1 + started cr |}.
Proof.
  intros (Hsrv & Hs & Hn & Hu & Hr & Hfree) m Hm sm. split_and!; try done. cbn. by rewrite Hn.
Qed.
Lemma free_delete cl cr i : conn_ok cl cr →
  ∀ n, Datatypes.S (started cr) ≤ n → (N.of_nat n < 2 ^ 64)%N → delete i (actors cr) !! actor_id n = None.
Proof.
  intros (_ & _ & _ & _ & _ & Hfree) n Hn Hb. apply lookup_delete_None. right. apply Hfree; [lia|done].
Qed.

Definition conn_sim (x : conn_resp * local) (y : conn_resp * remote) : Prop :=
  y.1 = resp_skip x.1 ∧ conn_ok x.2 y.2.

Lemma conn_call_sim k cl cr :
  conn_ok cl cr → conn_call_ok k → (N.of_nat (started cr) < 2 ^ 64)%N →
  osim (λ x y, conn_sim x y ∧ started y.2 = 1 + started cr)
       (run_conn_call local_conn k cl) (run_conn_call remote_conn k cr).
Proof.
  intros Hok Hk Hb. pose proof Hok as (Hsrv & Hs & Hn & Hu & Hr & Hfree).
  destruct k as [o r|o r|user_id sk]; cbn [run_conn_call local_conn remote_conn process_overlay_request
    process_overlay_request_stream_response Client.add_user Local_BrokerConnection Remote_BrokerConnection].
  - destruct (local_request_eq o r cl Hk) as (M & Hreq & Hloc). rewrite Hloc.
    unfold remote_request. rewrite (exchange_reply result_unit id cr (local_user cl) _ (overlay_message o r (actor_id (started cr))) M
      (λ res, BrokerProtocolHandler.prepare_reply_broker_overlay_message res (actor_id (started cr)) o None 20%N));
      [|done..| |intros res; apply overlay_answers].
    + destruct M as [[res srv]| |]; constructor. split; [|done]. split; [done|].
      apply (next_ok cl cr srv Hok _ (free_delete cl cr _ Hok)).
    + rewrite Hn, Hsrv, handle_overlay_message, Hreq. by destruct M as [[res srv]| |].
  - destruct (local_stream_eq o r cl Hk) as (M & Hreq & Hloc). rewrite Hloc.
    rewrite (stream_request o r cr (local_user cl) M); [|done|done|by apply Hfree|by rewrite Hn, Hsrv|].
    + destruct M as [[res srv]| |]; constructor. split; [|done]. split; [by destruct res|].
      apply (next_ok cl cr srv Hok). intros n Hle Hlt. apply Hfree; [lia|done].
    + intros e srv ->. by apply (stream_call_err _ _ _ _ _ _ _ Hreq).
  - unfold local_add_user, remote_add_user. rewrite Hu.
    destruct (sign _ _ _) as [sig|e]; cbn [map_err try_bind].
    + rewrite (exchange_reply result_unit id cr (local_user cl) _ (add_user_message user_id sig (actor_id (started cr)))
        (Server.add_user (local_user cl) user_id sig (broker cl))
        (λ res, BrokerProtocolHandler.prepare_reply_broker_message res (actor_id (started cr)) 20%N));
        [|done..| |intros res; apply message_answers].
      * unfold on_broker. destruct (Server.add_user _ _ _ _) as [[res srv]| |]; constructor.
        split; [|done]. split; [done|]. apply (next_ok cl cr srv Hok _ (free_delete cl cr _ Hok)).
      * by rewrite Hn, Hsrv.
    + constructor. split; [|done]. split; [done|]. split_and!; try done. intros n Hle Hlt. cbn.
      cbn in Hle. rewrite lookup_alter_ne, lookup_insert_ne; [apply Hfree; [lia|done]|..];
        intros Heq%actor_id_inj; try done; lia.
Qed.

(** [copy_object] is to be done: over a local connection it panics, over a remote one to the
    same server it is answered that the state is invalid, and the server has not changed. *)
Theorem Copy_object_connections self cl cr oid expiry : conn_ok cl cr →
  OverlayConnectionClient.copy_object (BrokerConnection0 := local_conn) self oid expiry cl = Panic ∧
  ∃ cr', OverlayConnectionClient.copy_object (BrokerConnection0 := remote_conn) self oid expiry cr
           = Ret (Err InvalidState, cr') ∧
         conn_ok (local_next (broker cl) cl) cr'.
Proof.
  intros Hok. split; [done|]. pose proof Hok as (Hsrv & Hs & Hn & _ & Hr & _).
  exists (replied (broker cl) cr). unfold OverlayConnectionClient.copy_object.
  cbn [process_overlay_request_objectid_response remote_conn Remote_BrokerConnection].
  unfold remote_request_objectid.
  rewrite (exchange_reply result_object_id (λ _, Err InvalidState) cr (local_user cl) _
    (overlay_message (OverlayConnectionClient.overlay_id self)
       (BrokerOverlayRequestContentV0_ObjectCopy (ObjectCopy_V0 {|
          ObjectCopyV0_id := oid; ObjectCopyV0_expiry := expiry |})) (actor_id (started cr)))
    (Ret (@Err unit _ InvalidState, broker cl))
    (λ _, BrokerProtocolHandler.prepare_reply_broker_overlay_message (Err InvalidState)
            (actor_id (started cr)) (OverlayConnectionClient.overlay_id self) None 20%N)); try done.
  - split; [done|]. apply (next_ok cl cr (broker cl) Hok _ (free_delete cl cr _ Hok)).
  - by rewrite Hn, Hsrv, handle_overlay_message.
Qed.

(** C10: a remote connection of a user who authenticated, to a server at the other end that
    handles its frames, answers any calls as a local connection of this user to the same
    server does, errors included, returns when it returns, and leaves the server in the same
    state; the blocks it yields are those of the local one without the skipped fields. Every
    request is to be made with the method for its kind of answer. *)
Theorem Remote_as_local ks cl cr :
  conn_ok cl cr → Forall conn_call_ok ks → (N.of_nat (started cr + length ks) <= 2 ^ 64)%N →
  osim (λ x y, y.1 = resp_skip <$> x.1 ∧ conn_ok x.2 y.2)
       (run_conn_calls local_conn ks cl) (run_conn_calls remote_conn ks cr).
Proof.
  intros Hok Hks. revert cl cr Hok. induction Hks as [|k ks Hk Hks IH]; intros cl cr Hok Hb.
  { by constructor. }
  cbn [length] in Hb. cbn [run_conn_calls]. eapply osim_bind; [apply conn_call_sim; [done..|lia]|].
  intros [r cl1] [r' cr1] [[Hr Hok1] Hst]. cbn in Hr, Hok1, Hst. subst r'.
  eapply osim_bind; [apply IH; [done|rewrite Hst; lia]|].
  intros [rs cl2] [rs' cr2] [Hrs Hok2]. cbn in Hrs, Hok2. subst rs'. by constructor.
Qed.

(** ** The handshake *)

Context `{!RustFsmLaws, !Ed25519Laws}.
Context `{!SerdeLaws StartProtocol, !SerdeLaws ServerHello, !SerdeLaws ClientAuth, !SerdeLaws AuthResult}.

Lemma send_start w n : random_buf (envs (handled w)) = Some n → session w = ProtocolHandler.protocol_handler →
  ∃ h, session_ok h (AtAuth (Waiting (array_list n))) ∧
  ConnectionRemote.send_and_next (to_vec (StartProtocol_Auth ClientHello_V0)) [] w =
    Ret (Ok (Some (to_vec (ServerHello_V0 {| ServerHelloV0_nonce := array_list n |})), []),
         {| session := h; served := served w; handled := 1 + handled w |}).
Proof.
  intros Hn Hs. unfold ConnectionRemote.send_and_next. cbn [transport_send server_transport]. rewrite Hs.
  assert (Hrun : ∃ h, ProtocolHandler.handle_incoming obj_fuel fuel (to_vec (StartProtocol_Auth ClientHello_V0))
    (envs (handled w)) ProtocolHandler.protocol_handler (served w) =
    Ret ((Ok (to_vec (ServerHello_V0 {| ServerHelloV0_nonce := array_list n |})), None), (h, served w)) ∧
    session_ok h (AtAuth (Waiting (array_list n)))).
  { unfold ProtocolHandler.handle_incoming.
    cbn [ProtocolHandler.protocol ProtocolHandler.protocol_handler]. rewrite from_slice_to_vec.
    cbn [serde_skip serde_skip_default]. rewrite Hn.
    destruct (run_call_ok (Init n) Auth.new Fresh eq_refl) as (auth & Hrun & Hok).
    cbn [run_call spec_call fst snd] in Hrun, Hok.
    destruct (handle_init _ _ _) as [[res auth']| |]; [|done..]. injection Hrun as -> ->.
    eexists. split; [reflexivity|]. split_and!; [done..|]. by exists auth. }
  destruct Hrun as (h & -> & Hok). by exists h.
Qed.

Lemma send_auth w n m : session_ok (session w) (AtAuth (Waiting n)) → accepts n m = true → ∃ h,
  session_ok h (AtBroker (ClientAuth_user m)) ∧
  ConnectionRemote.send_and_next (to_vec m) [] w =
    Ret (Ok (Some (to_vec (prepare_reply (Ok []))), []),
         {| session := h; served := served w; handled := 1 + handled w |}).
Proof.
  intros (Hp & Hb & _ & auth & Hauth & Hok) Hacc. unfold ConnectionRemote.send_and_next.
  cbn [transport_send server_transport]. unfold ProtocolHandler.handle_incoming. rewrite Hp, Hauth.
  cbn [unwrap mbind outcome_bind].
  destruct (run_call_ok (Incoming (to_vec m)) auth _ Hok) as (auth' & Hrun & Hok').
  cbn [run_call spec_call] in Hrun, Hok'. rewrite from_slice_to_vec in Hrun, Hok'.
  change (serde_skip m) with m in Hrun, Hok'. rewrite Hacc in Hrun, Hok'.
  destruct (Auth.handle_incoming _ auth) as [[[res close] auth1]| |]; [|done..].
  injection Hrun as -> -> ->. cbn [mbind outcome_bind].
  destruct Hok' as [Hu _]. unfold get_user. cbn [snd] in Hu. rewrite Hu.
  eexists. split; [|reflexivity]. done.
Qed.

(** The client's message is accepted. *)
Lemma client_accepts seed sk u client n : generate_keypair seed = (sk, u) → ∃ sig,
  let content := {| ClientAuthContentV0_user := u; ClientAuthContentV0_client := client;
                    ClientAuthContentV0_nonce := n |} in
  sign sk u (to_vec content) = Ok sig ∧
  accepts n (ClientAuth_V0 {| ClientAuthV0_content := content; ClientAuthV0_sig := sig |}) = true.
Proof.
  intros Hk. pose proof (sign_verify_bytes seed (to_vec {| ClientAuthContentV0_user := u;
    ClientAuthContentV0_client := client; ClientAuthContentV0_nonce := n |})) as Hsv.
  rewrite Hk in Hsv. destruct Hsv as (sig & Hs & Hv). exists sig. cbv zeta.
  unfold sign, accepts, verify. rewrite Hs.
  cbn [ClientAuth_content_v0 ClientAuth_sig ClientAuth_user ClientAuth_nonce ClientAuthV0_content
    ClientAuthV0_sig ClientAuthContentV0_user ClientAuthContentV0_nonce]. rewrite Hv.
  split; [done|]. by rewrite bool_decide_eq_true_2.
Qed.

(** C16: a client with the keys of a user gets a connection from a server that has not heard
    from it, whoever it says it is the client of, if the server can draw a nonce: both sides
    come to an end of the handshake, the server knows the user, was not changed, and what
    is called on the connection is answered as on a local one. *)
Theorem Open_broker_connection seed sk u client srv k n :
  generate_keypair seed = (sk, u) → random_buf (envs k) = Some n → ∃ cr,
  ConnectionRemote.open_broker_connection
    {| session := ProtocolHandler.protocol_handler; served := srv; handled := k |} u sk client =
    Ret (Ok cr) ∧
  conn_ok {| broker := srv; local_user := u; local_calls := 2 + k |} cr ∧ started cr = 0.
Proof.
  intros Hk Hn. unfold ConnectionRemote.open_broker_connection.
  destruct (send_start {| session := ProtocolHandler.protocol_handler; served := srv; handled := k |} n)
    as (h & Hh & ->); [done..|]. cbn [mbind outcome_bind].
  rewrite from_slice_to_vec. cbn [serde_skip serde_skip_default ServerHello_nonce ServerHelloV0_nonce].
  destruct (client_accepts seed sk u client (array_list n) Hk) as (sig & -> & Hacc).
  destruct (send_auth {| session := h; served := srv; handled := Datatypes.S k |} _ _ Hh Hacc)
    as (h' & Hh' & Hsend). cbn [served handled] in Hsend |- *.
  match goal with |- context [ConnectionRemote.send_and_next ?f [] ?w] =>
    change (ConnectionRemote.send_and_next f [] w) with
      (ConnectionRemote.send_and_next f [] {| session := h; served := srv; handled := Datatypes.S k |}) end.
  rewrite Hsend. cbn [mbind outcome_bind]. rewrite from_slice_to_vec.
  eexists. split; [reflexivity|]. split; [|done]. by split_and!.
Qed.
End Equivalence.

(** ** Example: the same calls on both connections *)

Module Examples.
Import BareTypes.Instances NetBare.NetInstances MessageInstances MemStore LmdbMem LmdbServed LmdbExamples.
Import OverlayProps.Examples ServerProps.Examples AuthProps.Examples SessionProps.Examples.

#[export] Instance counted : XActor := { actor_id n := uint_wrap 64 (N.of_nat n) }.
#[export] Instance counted_laws : XActorLaws.
Proof.
  split. intros i j Hi Hj Heq. apply (f_equal uint_N) in Heq. cbn [actor_id counted] in Heq.
  rewrite !uint_wrap_small in Heq by done. lia.
Qed.
Definition envs1 : environment := λ _, env1.
Definition transport0 : ServerTransport ms_db LmdbRepoStore :=
  {| session := ProtocolHandler.protocol_handler; served := server0; handled := 0 |}.
Definition local0 : BrokerConnectionLocal ms_db LmdbRepoStore :=
  {| broker := server0; local_user := user1; local_calls := 2 |}.
Definition get1 (o : OverlayId) : conn_call :=
  ConnStream o (BrokerOverlayRequestContentV0_BlockGet (BlockGet_V0 {|
    BlockGetV0_id := Block_id b1; BlockGetV0_include_children := false; BlockGetV0_topic := None |})).
Definition conn_calls : list conn_call :=
  [get1 overlay1; ConnAddUser user1 user_key; ConnAddUser user1 user_key;
   ConnRequest overlay1 join1; ConnRequest overlay1 put1; get1 overlay1].

Lemma conn_calls_ok : Forall conn_call_ok conn_calls.
Proof.
  unfold conn_calls. repeat (apply Forall_cons; split); try apply Forall_nil; try done;
    (split; [done|]); try exact I; exact b1_ok.
Qed.
Lemma seed_keys : generate_keypair seed = (user_key, user1).
Proof. apply surjective_pairing. Qed.

Lemma Open_broker_connection_witness : ∃ cr,
  ConnectionRemote.open_broker_connection (Transport0 := server_transport 3 3 envs1)
    transport0 user1 user_key user1 = Ret (Ok cr) ∧ conn_ok local0 cr ∧ started cr = 0.
Proof.
  apply (Open_broker_connection 3 3 envs1 seed user_key user1 user1 server0 0 nonce1);
    [exact seed_keys|reflexivity].
Defined.

Definition remote0 : BrokerConnectionRemote (ServerTransport ms_db LmdbRepoStore) :=
  {| writer := {| session := ProtocolHandler.in_broker user1 ProtocolHandler.protocol_handler;
                  served := server0; handled := 2 |};
     remote_user := user1; actors := ∅; stream_actors := ∅; reading := true; started := 0 |}.
Lemma remote0_ok : conn_ok local0 remote0.
Proof. by split_and!. Qed.

Definition link : RepoLink := RepoLink_V0 {|
  RepoLinkV0_id := repo1; RepoLinkV0_secret := key1; RepoLinkV0_peers := [] |}.
Definition client : OverlayConnectionClient.OverlayConnectionClient :=
  {| OverlayConnectionClient.overlay_id := OverlayConnectionClient.overlay link true;
     OverlayConnectionClient.repo_link := link |}.
Lemma Copy_object_connections_witness : ∃ cr,
  OverlayConnectionClient.copy_object (BrokerConnection0 := remote_conn 3 3 envs1)
    client (Block_id b1) None remote0 = Ret (Err InvalidState, cr).
Proof.
  destruct (Copy_object_connections 3 3 envs1 client local0 remote0 (Block_id b1) None remote0_ok)
    as (_ & cr & Hcr & _). by exists cr.
Defined.

(** What is answered: the error, or how many blocks *)
Definition conn_answer (r : conn_resp) : option ProtocolError * nat :=
  match r with
  | ConnUnit (Err e) | ConnBlocks (Err e) => (Some e, 0)
  | ConnUnit (Ok _) => (None, 0)
  | ConnBlocks (Ok l) => (None, length l)
  end.
Definition conn_answers : list (option ProtocolError * nat) :=
  [(Some NotFound, 0); (None, 0); (Some UserAlreadyExists, 0); (None, 0); (None, 0); (None, 1)].
Lemma local_answers :
  match run_conn_calls (local_conn 3 3 envs1) conn_calls local0 with
  | Ret (rs, _) => bool_decide (conn_answer <$> rs = conn_answers)
  | _ => false
  end = true.
Proof. vm_compute. reflexivity. Qed.
Lemma answer_skip r : conn_answer (resp_skip r) = conn_answer r.
Proof. destruct r as [[]|[]]; try done. cbn. by rewrite length_fmap. Qed.

Lemma Remote_as_local_witness : ∃ rs cr,
  run_conn_calls (remote_conn 3 3 envs1) conn_calls remote0 = Ret (rs, cr) ∧
  conn_answer <$> rs = conn_answers.
Proof.
  pose proof local_answers as Ha.
  destruct (Remote_as_local 3 3 envs1 conn_calls local0 remote0 remote0_ok conn_calls_ok ltac:(done))
    as [[rs cl] [rs' cr] [Hrs _]| |]; [|done..].
  apply bool_decide_eq_true in Ha. cbn in Hrs. subst rs'.
  exists (resp_skip <$> rs), cr. split; [done|]. rewrite <- Ha, <- list_fmap_compose.
  apply list_fmap_ext. intros i x _. apply answer_skip.
Defined.
End Examples.
