(* ===== verification/ClientProps.v ===== *)
(** * A client puts objects and gets them back

    What a client needs of a connection to put and get objects is an interface, which local
    and remote connections implement; over it, an object that was put is got back. *)

From stdpp Require Import functions.
From S2P Require Import ObjectProps ObjectStoreProps Bare BareTypes BrokerRows NetBare MessageBare OverlayProps LmdbRepoStore LmdbView LmdbMem LmdbProps LmdbServed ServerTables ServerSim ServerProps.
From S2P Require Import Prelude Serde Types Block Store Object Utils Branch NetTypes NetErrors.
From S2P Require Import ObjectTree ObjectStore ObjectSim BrokerStore BrokerTables Auth AuthProps.
From S2P Require Import Server Session SessionProps Client Connection ConnectionProps.

Abbreviation put_req b := (BrokerOverlayRequestContentV0_BlockPut (BlockPut_V0 b)).
Abbreviation get_req id topic :=
  (BrokerOverlayRequestContentV0_BlockGet (BlockGet_V0 {|
     BlockGetV0_id := id; BlockGetV0_include_children := true; BlockGetV0_topic := topic |})).

(** ** A map as a store *)

Section Map.
Context `{!Crypto, !Serde Block, !SerdeLaws Block}.
Definition map_wf (V : gmap BlockId Block) : Prop :=
  ∀ id b, V !! id = Some b → serde_skip b = b ∧ Block_get_id b = id.
#[export, refine] Instance map_store_spec : RepoStoreSpec (gmap BlockId Block) := {
  store_inv := map_wf;
  store_view V := V
}.
Proof.
  - intros V id b HV. apply HV.
  - intros V id r V' HV [= <- <-]. split; [done|]. split; [done|].
    destruct (V !! id) as [b|] eqn:Hb; [|done]. destruct (HV id b Hb) as [Hs _].
    exists b. split_and!; [done..| |]; rewrite <- Hs; [apply id_ok_skip|by destruct b].
  - intros V b r V' HV Hid [= <- <-]. split; [done|]. split; [|done].
    intros i b'. intros [[<- <-]|[_ Hi]]%lookup_insert_Some; [|by apply HV].
    split; [apply skip_idemp|]. by rewrite get_id_skip, <- Hid.
  - intros V id r V' HV [= <- <-]. split.
    { intros i b [_ Hi]%lookup_delete_Some. by apply HV. }
    destruct (V !! id) as [b|] eqn:Hb; [|by split; [|apply delete_id]].
    destruct (HV id b Hb) as [Hs _]. by exists b, 0%N.
Defined.
#[export] Instance map_store_total : RepoStoreTotal (gmap BlockId Block).
Proof. split; intros; by eexists. Qed.
End Map.

(** ** The interface *)

(** A connection, on the map of the blocks of an overlay, with a number of calls left: blocks
    are put, and objects are sent as the server sends them. *)
Class ObjectConnection (C : Type) (obj_fuel : nat) `{!BrokerConnection C}
    `{!Crypto, !Serde Block, !Serde BlockContentV0, !Serde ObjectContent} : Type := {
  oc_inv : OverlayId → nat → C → gmap BlockId Block → Prop;
  oc_less o n c V : oc_inv o (S n) c V → oc_inv o n c V;
  oc_wf o n c V : oc_inv o n c V → map_wf V;
  oc_put o n c V b : oc_inv o (S n) c V → id_ok b → ∃ c',
    process_overlay_request o (put_req b) c = Ret (Ok tt, c') ∧
    oc_inv o n c' (<[Block_id b := serde_skip b]> V);
  oc_get o n c V id topic : oc_inv o (S n) c V →
    osim (λ x y, result_like (Forall2 same) x.1 y.1 ∧ oc_inv o n y.2 x.2)
      (get_block_in obj_fuel id true V) (process_overlay_request_stream_response o (get_req id topic) c)
}.

(** ** Objects in a store *)

Section Load.
Context `{!Crypto, !CryptoLaws}.
Context `{!Serde Block, !Serde BlockContentV0, !Serde ObjectContent}.
Context `{!SerdeLaws Block, !SerdeLaws BlockContentV0, !SerdeLaws ObjectContent}.
Context `{!SerdeTagged ObjectContent}.

(** A new object is loaded from any store that has its blocks, without its key; with it, its
    content is there. *)
Lemma load_new_object {St} `{!RepoStore St, !RepoStoreSpec St, !RepoStoreTotal St}
    content deps expiry bs pk sk o (s : St) :
  (bs + HEADER < usize_max)%N → (len deps <= 8)%N → store_inv s →
  Object_new content deps expiry bs pk sk = Ret o → Forall (stored s) (Object_blocks o) →
  ∃ root k, Object_root o = Ret root ∧ Block_key root = Some k ∧
  ∀ fuel, (length (Object_blocks o) < fuel)%nat → ∃ bs' s2,
    Object_load fuel (Block_id root) None s = Ret (Ok {| Object_blocks := bs'; Object_deps := deps |}, s2) ∧
    Forall2 loaded (Object_blocks o) bs' ∧ store_inv s2 ∧ store_view s2 = store_view s ∧
    Object_content {| Object_blocks := set_root_key (Some k) bs'; Object_deps := deps |} =
      Ret (Ok (serde_skip content)).
Proof.
  intros Hbs Hdeps Hinv Hnew Hst.
  destruct (new_sealed content deps expiry bs pk sk o Hbs Hnew)
    as (cs & root & Hseal & Hcs & Hok & _ & Hroot & Hd).
  rewrite (proj2 (N.leb_le _ _) Hdeps) in Hd.
  destruct (sealed_reference o cs Hseal) as (root' & k & Hroot' & Hk & _).
  assert (root' = root) as -> by congruence. exists root, k. split_and!; [done..|].
  intros [|fuel] Hf; [lia|].
  destruct (Object_load_blocks o cs fuel s Hseal Hok Hinv Hst)
    as (root' & k' & bs' & s2 & Hr' & Hk' & Hlt & Hinv2 & Hv2 & (b & Hb & Hdb) & Hrep); [lia|].
  assert (root' = root) as -> by congruence. assert (k' = k) as -> by congruence.
  exists bs', s2. rewrite (Object_load_found fuel _ None s bs' s2 b Hlt Hb), Hdb, Hd.
  split_and!; [done| |done|done|].
  - destruct Hseal as (ns & r & Hns & Hrepr & Hlast & _ & Hcl). rewrite Hns in *.
    rewrite length_fmap in Hf.
    destruct (load_tree_sealed ns cs fuel s Hrepr Hcl) as (root2 & bs2 & s3 & Hroot2 & Hlt2 & Hl & _);
      [lia|done..|].
    assert (Hr1 : Object_root o = Ret r.1) by (by eapply Object_root_repr).
    assert (root2 = r) as -> by congruence. assert (root = r.1) as -> by congruence.
    rewrite Hlt in Hlt2. by injection Hlt2 as -> _.
  - rewrite (Object_content_holds _ cs (object_repr_holds _ _ (Hrep _))), Hcs.
    by rewrite from_slice_to_vec.
Qed.
End Load.

(** ** Blocks sent and collected *)

Section Client.
Context `{!Crypto, !CryptoLaws, !SizeOfBlock}.
Context `{!Serde Block, !Serde BlockContentV0, !Serde ObjectContent}.
Context `{!SerdeLaws Block, !SerdeLaws BlockContentV0, !SerdeLaws ObjectContent}.
Context `{!SerdeTagged ObjectContent}.
Import OverlayConnectionClient.

(** Every identifier is sent once. *)
Lemma send_blocks_ids bs d :
  (∀ b, b ∈ (send_blocks bs d).1 → b ∈ bs) ∧
  (∀ b, b ∈ bs → Block_id b ∈ d ∨ ∃ b', b' ∈ (send_blocks bs d).1 ∧ Block_id b' = Block_id b).
Proof.
  revert d. induction bs as [|b bs IH]; intros d; cbn [send_blocks].
  { split; [done|by intros b ?%elem_of_nil]. }
  destruct (decide (Block_id b ∈ d)) as [Hin|Hin].
  - destruct (IH d) as [Hs1 Hs2]. split; [intros b' Hb'; right; by apply Hs1|].
    intros b' [->|Hb']%elem_of_cons; [by left|by apply Hs2].
  - destruct (IH ({[Block_id b]} ∪ d)) as [Hs1 Hs2].
    destruct (send_blocks bs _) as [sent d']. cbn [fst] in *. split.
    + intros b' [->|Hb']%elem_of_cons; [left|right; by apply Hs1].
    + intros b' [->|Hb']%elem_of_cons; [right; exists b; split; [left|done]|].
      destruct (Hs2 b' Hb') as [[?%elem_of_singleton|?]%elem_of_union|(b2 & Hb2 & ?)];
        [right; exists b; split; [left|done]|by left|right; exists b2; split; [by right|done]].
Qed.

Lemma collect_spec bs (s : HashMapRepoStore) :
  collision_free bs → Forall id_ok bs → store_inv s → ∃ s',
  collect bs s = Ret s' ∧ store_inv s' ∧ store_view s' = blocks_map bs ∪ store_view s.
Proof.
  revert s. induction bs as [|b bs IH]; intros s Hc Hok Hinv.
  { exists s. split_and!; [done..|]. symmetry. apply (left_id_L ∅ (∪)). }
  apply Forall_cons in Hok as [Hb Hok]. cbn [collect]. rewrite blocks_map_cons by done.
  destruct (store_put_returns s b Hinv Hb) as [[r s1] Hput]. rewrite Hput.
  destruct (store_put_spec s b r s1 Hinv Hb Hput) as (-> & Hinv1 & <-).
  cbn [mbind outcome_bind]. by apply IH; [eapply collision_free_cons| |].
Qed.

(** Blocks that are those of a list up to what is cached collide as little. *)
Lemma same_collision_free bs bs' :
  (∀ b', b' ∈ bs' → ∃ b, b ∈ bs ∧ same b b') → collision_free bs → collision_free bs'.
Proof.
  intros Hin Hc b1' b2' Hin1 Hin2 Heq.
  destruct (Hin _ Hin1) as (b1 & Hb1 & Hs1), (Hin _ Hin2) as (b2 & Hb2 & Hs2).
  rewrite (proj1 Hs1), (proj1 Hs2). apply Hc; [done..|].
  by rewrite <- (same_id _ _ Hs1), <- (same_id _ _ Hs2).
Qed.

(** What arrives of an object that was loaded is enough to load it again. *)
Lemma sent_stored bs bs1 arrived :
  collision_free bs → Forall2 loaded bs bs1 →
  Forall2 same (send_blocks bs1 ∅).1 arrived → ∃ s : HashMapRepoStore,
  collect arrived HashMapRepoStore.new = Ret s ∧ store_inv s ∧ Forall (stored s) bs.
Proof.
  intros Hc Hl Ha. destruct (send_blocks_ids bs1 ∅) as [Hsub Hall].
  assert (Hsame : ∀ b', b' ∈ arrived → ∃ b, b ∈ bs ∧ same b b').
  { intros b' Hb'. apply list_elem_of_lookup in Hb' as [i Hi].
    destruct (Forall2_lookup_r _ _ _ _ _ Ha Hi) as (b1 & Hb1 & Hs1).
    apply list_elem_of_lookup_2, Hsub, list_elem_of_lookup in Hb1 as [j Hj].
    destruct (Forall2_lookup_r _ _ _ _ _ Hl Hj) as (b & Hb & Hs & _).
    exists b. split; [by eapply list_elem_of_lookup_2|].
    destruct Hs as (? & ? & ?), Hs1 as (? & ? & ?). split_and!; congruence. }
  pose proof (same_collision_free _ _ Hsame Hc) as Hc'.
  destruct (collect_spec arrived HashMapRepoStore.new Hc') as (s & Hs & Hinv & Hv).
  { apply Forall_forall. intros b' Hb'. by destruct (Hsame b' Hb') as (b & _ & _ & _ & ?). }
  { apply HashMapRepoStore_new_inv. }
  exists s. split_and!; [done..|]. apply Forall_forall. intros b Hb. unfold stored. rewrite Hv.
  apply list_elem_of_lookup in Hb as [i Hi].
  destruct (Forall2_lookup_l _ _ _ _ _ Hl Hi) as (b1 & Hb1 & Hs1 & _).
  destruct (Hall b1 (list_elem_of_lookup_2 _ _ _ Hb1)) as [?%not_elem_of_empty|(b2 & Hb2 & Hid)]; [done|].
  apply list_elem_of_lookup in Hb2 as [j Hj].
  destruct (Forall2_lookup_l _ _ _ _ _ Ha Hj) as (b' & Hb' & Hs').
  apply list_elem_of_lookup_2 in Hb'.
  destruct (Hsame b' Hb') as (b0 & Hb0 & Hs0).
  assert (Heq : Block_id b' = Block_id b)
    by (by rewrite (same_id _ _ Hs'), Hid, (same_id _ _ Hs1)).
  rewrite <- Heq, (lookup_union_Some_l _ _ _ _ (blocks_map_lookup arrived b' Hc' Hb')). f_equal.
  rewrite (proj1 Hs0). apply Hc; [done|by eapply list_elem_of_lookup_2|].
  by rewrite <- (same_id _ _ Hs0).
Qed.

(** ** Putting and getting *)

Context {C : Type} {obj_fuel : nat} `{!BrokerConnection C, !ObjectConnection C obj_fuel}.
Implicit Types (self : OverlayConnectionClient) (c : C).

Lemma call_try_ok {A B} (m : call C A) (k : A → call C B) c a c' :
  m c = Ret (Ok a, c') → call_try m k c = k a c'.
Proof. intros Hm. unfold call_try. by rewrite Hm. Qed.

Lemma put_blocks_ok self bs D n c V :
  collision_free bs → Forall id_ok bs → oc_inv (overlay_id self) (length bs + n) c V →
  (∀ b, b ∈ bs → Block_id b ∈ D → stored V b) → ∃ c',
  put_blocks self bs D c = Ret (Ok tt, c') ∧ oc_inv (overlay_id self) n c' (blocks_map bs ∪ V).
Proof.
  revert D c V. induction bs as [|b bs IH]; intros D c V Hc Hok Hinv HD.
  { exists c. split; [done|]. change (blocks_map []) with (∅ : gmap BlockId Block). by rewrite (left_id_L ∅ (∪)). }
  apply Forall_cons in Hok as [Hb Hok]. cbn [put_blocks length Nat.add] in *.
  pose proof (collision_free_cons _ _ Hc) as Hc'. rewrite blocks_map_cons by done.
  destruct (decide (Block_id b ∈ D)) as [Hin|Hin].
  - rewrite insert_id by (apply HD; [left|done]).
    apply IH; [done..|by apply oc_less|]. intros b' Hb' ?. apply HD; [by right|done].
  - destruct (oc_put _ _ _ _ _ Hinv Hb) as (c1 & Hput & Hinv1).
    rewrite (call_try_ok _ _ c (Block_id b) c1) by 
      (by unfold put_block; rewrite (call_try_ok _ _ _ tt c1 Hput)).
    apply IH; [done..|]. intros b' Hb' HDb'. unfold stored. cbn [store_view map_store_spec].
    destruct (decide (Block_id b = Block_id b')) as [Heq|Hne].
    + rewrite Heq, lookup_insert_eq. f_equal. apply Hc; [left|by right|done].
    + rewrite lookup_insert_ne by done. apply HD; [by right|].
      by apply elem_of_union in HDb' as [?%elem_of_singleton|?]; [congruence|].
Qed.

(** An object is put, *)
Lemma put_object_ok self c V n content deps expiry size pk sk o :
  (size + HEADER < usize_max)%N → Object_new content deps expiry size pk sk = Ret o →
  collision_free (Object_blocks o) → oc_inv (overlay_id self) (length (Object_blocks o) + n) c V →
  ∃ root c1, Object_root o = Ret root ∧
  put_object self content deps expiry size pk sk c = Ret (Ok (Block_id root), c1) ∧
  oc_inv (overlay_id self) n c1 (blocks_map (Object_blocks o) ∪ V) ∧
  Forall (stored (blocks_map (Object_blocks o) ∪ V)) (Object_blocks o).
Proof.
  intros Hsize Hnew Hc Hinv.
  destruct (new_sealed content deps expiry size pk sk o Hsize Hnew) as (cs & root & _ & _ & Hok & _ & Hroot & _).
  destruct (put_blocks_ok self (Object_blocks o) ∅ n c V Hc Hok Hinv) as (c1 & Hput & Hinv1).
  { by intros b _ ?%not_elem_of_empty. }
  exists root, c1. split_and!; [done| |done|].
  - unfold put_object. rewrite Hnew. cbn [mbind outcome_bind].
    rewrite (call_try_ok _ _ _ tt c1 Hput). unfold Object_id. by rewrite Hroot.
  - apply Forall_forall. intros b Hb. apply lookup_union_Some_l. by apply blocks_map_lookup.
Qed.
(** and an object whose blocks are there is got. *)
Lemma get_object_ok self c V n content deps expiry size pk sk topic o :
  (size + HEADER < usize_max)%N → (len deps <= 8)%N →
  Object_new content deps expiry size pk sk = Ret o → collision_free (Object_blocks o) →
  (length (Object_blocks o) < obj_fuel)%nat → oc_inv (overlay_id self) (S n) c V →
  Forall (stored V) (Object_blocks o) → ∃ root k c2 o',
  Object_root o = Ret root ∧ Block_key root = Some k ∧
  get_object obj_fuel self (Block_id root) topic c = Ret (Ok o', c2) ∧ Object_deps o' = deps ∧
  Object_content {| Object_blocks := set_root_key (Some k) (Object_blocks o'); Object_deps := deps |} =
    Ret (Ok (serde_skip content)) ∧
  oc_inv (overlay_id self) n c2 V.
Proof.
  intros Hsize Hdeps Hnew Hc Hfuel Hinv Hst.
  assert (Hwf : store_inv V) by exact (oc_wf _ _ _ _ Hinv).
  destruct (load_new_object content deps expiry size pk sk o V Hsize Hdeps Hwf Hnew Hst)
    as (root & k & Hroot & Hk & Hload). exists root, k.
  destruct (Hload obj_fuel Hfuel) as (bs1 & V2 & Hl1 & Hbs1 & _ & Hv2 & _). cbn in Hv2. subst V2.
  pose proof (oc_get _ _ _ _ (Block_id root) topic Hinv) as Hget.
  unfold get_block_in, load_object in Hget. cbn [negb] in Hget. rewrite Hl1 in Hget.
  cbn [mbind outcome_bind Object_blocks] in Hget.
  inversion Hget as [x [res c2] [Hres Hinv2] Hx Hy| |]; subst x; [|done..].
  cbn [fst snd] in Hres, Hinv2. destruct res as [arrived|]; [|done].
  destruct (sent_stored _ _ _ Hc Hbs1 Hres) as (s & Hcol & Hsinv & Hsst).
  destruct (load_new_object content deps expiry size pk sk o s Hsize Hdeps Hsinv Hnew Hsst)
    as (root2 & k2 & Hroot2 & Hk2 & Hload2).
  assert (root2 = root) as -> by congruence. assert (k2 = k) as -> by congruence.
  destruct (Hload2 obj_fuel Hfuel) as (bs2 & s2 & Hl2 & _ & _ & _ & Hcontent).
  exists c2, {| Object_blocks := bs2; Object_deps := deps |}.
  split_and!; [done|done| |done|exact Hcontent|exact Hinv2].
  unfold get_object. rewrite (call_try_ok _ _ _ arrived c2) by exact (eq_sym Hy).
  by rewrite Hcol; cbn [mbind outcome_bind]; rewrite Hl2.
Qed.

(** C8: over a local connection, a remote one, or any that puts blocks and sends objects, a
    client puts an object of at most eight dependencies and whatever size, gets its
    identifier, and gets by it an object that has the dependencies and, with the key the
    first object had, the content. No two different blocks of it may have the same hash. *)
Theorem Client_put_get self c V n content deps expiry size pk sk topic o :
  (size + HEADER < usize_max)%N → (len deps <= 8)%N →
  Object_new content deps expiry size pk sk = Ret o → collision_free (Object_blocks o) →
  (length (Object_blocks o) < obj_fuel)%nat →
  oc_inv (overlay_id self) (length (Object_blocks o) + S n) c V → ∃ r c1 c2 o',
  Object_reference o = Ret (Some r) ∧
  put_object self content deps expiry size pk sk c = Ret (Ok (BlockRef_id r), c1) ∧
  get_object obj_fuel self (BlockRef_id r) topic c1 = Ret (Ok o', c2) ∧
  Object_deps o' = deps ∧
  Object_content {| Object_blocks := set_root_key (Some (BlockRef_key r)) (Object_blocks o');
                    Object_deps := deps |} = Ret (Ok (serde_skip content)) ∧
  oc_inv (overlay_id self) n c2 (blocks_map (Object_blocks o) ∪ V).
Proof.
  intros Hsize Hdeps Hnew Hc Hfuel Hinv.
  destruct (put_object_ok self c V (S n) content deps expiry size pk sk o Hsize Hnew Hc Hinv)
    as (root & c1 & Hroot & Hput & Hinv1 & Hst).
  destruct (get_object_ok self c1 _ n content deps expiry size pk sk topic o Hsize Hdeps Hnew Hc Hfuel Hinv1 Hst)
    as (root' & k & c2 & o' & Hroot' & Hk & Hget & Hd & Hcontent & Hinv2).
  assert (root' = root) as -> by congruence. exists {| BlockRef_id := Block_id root; BlockRef_key := k |}, c1, c2, o'.
  split_and!; try done. unfold Object_reference, Object_id, Object_key. rewrite Hroot. cbn. by rewrite Hk.
Qed.
End Client.

(** ** The connections implement the interface *)

Section Instances.
Context {S R : Type} `{!BrokerStore S, !BrokerStoreSpec S}.
Context `{!RwLockRelock, !Crypto, !Ed25519, !Bloom, !RustFsm, !XActor}.
Context `{!Serde Block, !Serde BlockContentV0, !Serde ObjectContent, !Serde AddUserContentV0}.
Context `{!Serde Digest, !Serde SymKey, !Serde PubKey, !Serde bool, !Serde u32}.
Context `{!Serde OverlayMeta, !Serde PeerAdvert, !Serde RepoStoreId}.
Context `{!Serde ServerHello, !Serde ClientAuth, !Serde ClientAuthContentV0, !Serde AuthResult}.
Context `{!Serde BrokerMessage, !Serde StartProtocol, !Serde ExtResponse}.
Context `{!SerdeLaws Block, !SerdeLaws BrokerMessage, !SerdeTagged BrokerMessage}.
Context `{!SerdeLaws Digest, !SerdeLaws SymKey, !SerdeLaws PubKey, !SerdeLaws bool, !SerdeLaws u32}.
Context `{!SerdeLaws OverlayMeta, !SerdeLaws PeerAdvert, !SerdeLaws RepoStoreId}.
Context `{!RepoStore R, !RepoStoreSpec R, !RepoStoreTotal R, !ServedStore R, !RepoDirs R, !ServedSpec R}.
Context `{!XActorLaws, !SerializingStore R}.
Variables (obj_fuel fuel : nat) (envs : environment).
Context (Hdirs : ∀ id, dir_create id = true).

Abbreviation local := (BrokerConnectionLocal S R).
Abbreviation remote := (BrokerConnectionRemote (ServerTransport S R)).

(** The overlay was joined, and its repository has these blocks. *)
Definition overlay_blocks (o : OverlayId) (cl : local) (V : gmap BlockId Block) : Prop :=
  ∃ T B repo, server_ok (broker cl) (T, B) ∧ repo_of T o = Some repo ∧ B (RepoStoreId_Repo repo) = V.

Lemma overlay_blocks_wf o cl V : overlay_blocks o cl V → map_wf V.
Proof.
  intros (T & B & repo & (_ & _ & _ & HB & Hd & _) & _ & <-). rewrite <- HB. unfold blocks_in.
  destruct (disk (broker cl) !! _) as [[k r]|] eqn:Hr; [|by intros id b ?].
  destruct (Hd _ _ _ Hr) as [Hinv _]. intros id b. by apply store_view_skip.
Qed.
(** A call on the blocks of an overlay, on both sides *)
Lemma overlay_blocks_call {A} (RA : A → A → Prop) (f : on_repo A) (g : on_repo (R := R) A) o cl V :
  repo_sim RA f g → overlay_blocks o cl V →
  osim (λ x y, result_like RA x.1 y.1 ∧ overlay_blocks o y.2 x.2)
    (f V) (on_broker (get_repostore_from_overlay_id o g) cl).
Proof.
  intros Hsim (T & B & repo & Hok & Hrepo & <-). unfold on_broker.
  destruct (overlay_call_sim Hdirs RA f g _ T B o repo Hsim Hok Hrepo)
    as [[res V'] [res' srv] [Hres Hok']| |]; constructor.
  split; [done|]. exists T, (<[RepoStoreId_Repo repo := V']> B), repo. split; [done|].
  split; [done|]. apply fn_lookup_insert.
Qed.

#[export, refine] Instance Local_ObjectConnection :
  ObjectConnection local obj_fuel (BrokerConnection0 := local_conn obj_fuel fuel envs) := {
  oc_inv o _ := overlay_blocks o
}.
Proof.
  - done.
  - intros o n c V. apply overlay_blocks_wf.
  - intros o _ cl V b Hinv Hb.
    pose proof (overlay_blocks_call eq _ _ o cl V (put_block_in_sim b Hb) Hinv) as Hsim.
    inversion Hsim as [x [res cl'] [Hres Hinv'] Hx Hy| |]; subst x. exists cl'.
    cbn in Hres. destruct res as [[]|]; [|done]. split; [exact (eq_sym Hy)|exact Hinv'].
  - intros o _ cl V id topic Hinv.
    eapply osim_impl; [apply (overlay_blocks_call (Forall2 like) _ _ o cl V (get_block_in_sim obj_fuel id true) Hinv)|].
    intros [[bs|e] V'] [[bs'|e'] cl'] [Hres Hinv']; cbn in Hres; try done. split; [|done].
    eapply Forall2_impl; [exact Hres|]. by intros b b' [Hs _].
Defined.

(** The remote connection, which has identifiers of actors left. *)
Definition remote_blocks (o : OverlayId) (n : nat) (cr : remote) (V : gmap BlockId Block) : Prop :=
  ∃ cl, conn_ok cl cr ∧ overlay_blocks o cl V ∧ (N.of_nat (started cr + n) <= 2 ^ 64)%N.

#[export, refine] Instance Remote_ObjectConnection :
  ObjectConnection remote obj_fuel (BrokerConnection0 := remote_conn obj_fuel fuel envs) := {
  oc_inv := remote_blocks
}.
Proof.
  - intros o n cr V (cl & Hok & Hinv & Hn). exists cl. split_and!; [done..|lia].
  - intros o n cr V (cl & _ & Hinv & _). by eapply overlay_blocks_wf.
  - intros o n cr V b (cl & Hok & Hinv & Hn) Hb.
    destruct (oc_put (ObjectConnection := Local_ObjectConnection) o n cl V b Hinv Hb) as (cl' & Hput & Hinv').
    pose proof (conn_call_sim obj_fuel fuel envs (ConnRequest o (put_req b)) cl cr Hok (conj eq_refl Hb)
      ltac:(lia)) as Hsim.
    cbn [run_conn_call] in Hsim. rewrite Hput in Hsim. cbn [mbind outcome_bind] in Hsim.
    destruct (process_overlay_request o (put_req b) cr) as [[res cr']| |]; [|by inversion Hsim..].
    inversion Hsim as [x y [[Hres Hok'] Hst] Hx Hy| |]; subst x y. cbn in Hres, Hok', Hst.
    injection Hres as ->. exists cr'. split; [done|]. exists cl'. split_and!; [done..|lia].
  - intros o n cr V id topic (cl & Hok & Hinv & Hn).
    pose proof (oc_get (ObjectConnection := Local_ObjectConnection) o n cl V id topic Hinv) as Hloc.
    pose proof (conn_call_sim obj_fuel fuel envs (ConnStream o (get_req id topic)) cl cr Hok eq_refl
      ltac:(lia)) as Hsim.
    cbn [run_conn_call] in Hsim.
    destruct Hloc as [[res V'] [res' cl'] [Hres Hinv']| |]; cbn [mbind outcome_bind] in Hsim;
      destruct (process_overlay_request_stream_response o (get_req id topic) cr) as [[res2 cr']| |];
      try (by inversion Hsim); [|constructor..].
    inversion Hsim as [x y [[Hres2 Hok'] Hst] Hx Hy| |]; subst x y. cbn in Hres2, Hok', Hst, Hres, Hinv'.
    injection Hres2 as ->. constructor. split; [|exists cl'; split_and!; [done..|cbn; lia]].
    destruct res as [bs|e], res' as [bs'|e']; cbn in *; try done.
    apply Forall2_fmap_r. eapply Forall2_impl; [exact Hres|]. intros b b' (? & ? & ?).
    split_and!; [|done|apply id_ok_skip]. by rewrite skip_idemp.
Defined.
End Instances.

(** ** A file on a joined overlay *)

Module Examples.
Import BareTypes.Instances NetBare.NetInstances MessageInstances MemStore LmdbMem LmdbServed LmdbExamples.
Import AuthProps.Examples SessionProps.Examples ObjectProps.Examples ObjectStoreProps.Examples.
Import OverlayProps.Examples ServerProps.Examples ConnectionProps.Examples.

Abbreviation remote := (BrokerConnectionRemote (ServerTransport ms_db LmdbRepoStore)).
#[local] Instance remote_connection : BrokerConnection remote := remote_conn 4 3 envs1.
#[local] Instance object_connection : ObjectConnection remote 4 :=
  Remote_ObjectConnection 4 3 envs1 (λ _, eq_refl).

Definition joins : list server_call :=
  [join (OverlayConnectionClient.overlay_id client) (Some repo1)].
Lemma joins_ok : Forall (ServerProps.call_ok (S := ms_db)) joins.
Proof. apply Forall_cons. split; [apply join_ok|by apply Forall_nil]. Qed.
(** The overlay is joined and its repository is empty. *)
Lemma joins_spec :
  match ServerProps.spec_calls 4 3 user1 joins (tables0, λ _, ∅) with
  | Ret (_, (T, B)) =>
      bool_decide (repo_of T (OverlayConnectionClient.overlay_id client) = Some repo1 ∧
                   B (RepoStoreId_Repo repo1) = ∅)
  | _ => false
  end = true.
Proof. vm_compute. reflexivity. Qed.

Lemma joined : ∃ cr : remote, oc_inv (obj_fuel := 4) (OverlayConnectionClient.overlay_id client) 8 cr (∅ : gmap BlockId Block).
Proof.
  pose proof (run_calls_sim 4 3 ltac:(done) mem_fits user1 joins server0 (tables0, λ _, ∅)
    server0_ok joins_ok) as Hsim.
  pose proof joins_spec as Hspec.
  destruct Hsim as [[rs [T B]] [rs' srv] [_ Hok]| |]; [|done..].
  apply bool_decide_eq_true in Hspec as [Hrepo HB]. cbn [fst snd] in Hok.
  exists {| writer := {| session := session (writer remote0); served := srv; handled := 2 |};
            remote_user := remote_user remote0; actors := ∅; stream_actors := ∅; reading := true;
            started := 0 |}.
  exists {| broker := srv; local_user := local_user local0; local_calls := 2 |}.
  split; [by split_and!|]. split; [by exists T, B, repo1|done].
Qed.

Lemma Client_put_get_witness : ∃ (cr c1 c2 : remote) id o',
  OverlayConnectionClient.put_object client file (ids 3) (Some (uint_wrap 32 7)) 0 pk sk cr
    = Ret (Ok id, c1) ∧
  OverlayConnectionClient.get_object 4 client id None c1 = Ret (Ok o', c2) ∧
  Object_deps o' = ids 3.
Proof.
  destruct joined as [cr Hcr].
  destruct (Client_put_get client cr ∅ 4 file (ids 3) (Some (uint_wrap 32 7)) 0 pk sk None file_object)
    as (r & c1 & c2 & o' & _ & Hput & Hget & Hdeps & _).
  - reflexivity.
  - vm_compute. discriminate.
  - vm_compute. reflexivity.
  - apply collision_free_dec. vm_compute. reflexivity.
  - vm_compute. lia.
  - replace (length (Object_blocks file_object) + 5) with 8 by (vm_compute; reflexivity). exact Hcr.
  - exists cr, c1, c2, (BlockRef_id r), o'. by split_and!.
Defined.
End Examples.
