(* ===== verification/NodeSteps.v ===== *)
(** * The node daemon as a whole: the connections of [run_server]

    [run_server] accepts connections and spawns a task for each, which spawns another one
    that sends what comes through a channel. The node is a transition system: a step is the
    acceptance of a connection, a message that is handled, a frame that leaves a channel, or
    the end of a task, on any connection at any time. *)

From S2P Require Import Bare BareTypes BrokerRows NetBare MessageBare OverlayProps LmdbRepoStore LmdbView LmdbMem LmdbProps LmdbServed ServerProps.
From S2P Require Import Prelude Serde Types Block Store Object Utils Branch NetTypes NetErrors.
From S2P Require Import BrokerStore BrokerTables Auth AuthProps Server Session SessionProps Node.
Import ProtocolHandler.

(** A connection: its handler, whether the loop that reads is running, the channel of frames
    and whether the task that empties it is running, what went out on the websocket, and the
    binary messages that were handled. *)
Record connection : Type := {
  handler : ProtocolHandler;
  running : bool;
  channel : list bytes;
  sending : bool;
  wire : list bytes;
  received : list (bytes * env)
}.
Definition accepted : connection :=
  {| handler := protocol_handler; running := true; channel := []; sending := true; wire := [];
     received := [] |}.
(** A reply goes out on the websocket, the frames of a task into the channel. *)
Definition emit (c : connection) (out : ws_output) : connection :=
  {| handler := handler c; running := running c;
     channel := match out with Reply _ => channel c | AsyncFrames fs => channel c ++ fs end;
     sending := sending c;
     wire := match out with Reply f => wire c ++ [f] | AsyncFrames _ => wire c end;
     received := received c |}.
(** After a message *)
Definition handled_by (h : ProtocolHandler) (go : bool) (fe : option (bytes * env)) (c : connection)
    : connection :=
  {| handler := h; running := go; channel := channel c; sending := sending c; wire := wire c;
     received := received c ++ option_list fe |}.
Definition ended (c : connection) : connection :=
  {| handler := handler c; running := false; channel := channel c; sending := sending c;
     wire := wire c; received := received c |}.
Definition flushed (frame : bytes) (rest : list bytes) (c : connection) : connection :=
  {| handler := handler c; running := running c; channel := rest; sending := sending c;
     wire := wire c ++ [frame]; received := received c |}.
Definition stopped (c : connection) : connection :=
  {| handler := handler c; running := running c; channel := []; sending := false;
     wire := wire c; received := received c |}.

Section Node.
Context {S R : Type} `{!BrokerStore S, !RepoStore R, !ServedStore R, !RepoDirs R}.
Context `{!RwLockRelock, !Crypto, !Ed25519, !Bloom, !RustFsm}.
Context `{!Serde Block, !Serde BlockContentV0, !Serde ObjectContent, !Serde AddUserContentV0}.
Context `{!Serde Digest, !Serde SymKey, !Serde PubKey, !Serde bool, !Serde u32}.
Context `{!Serde OverlayMeta, !Serde PeerAdvert, !Serde RepoStoreId}.
Context `{!Serde ServerHello, !Serde ClientAuth, !Serde ClientAuthContentV0, !Serde AuthResult}.
Context `{!Serde BrokerMessage, !Serde StartProtocol, !Serde ExtResponse}.
Variables obj_fuel fuel : nat.

(** The server every task shares, and the connections accepted. *)
Record node : Type := {
  shared : BrokerServer S R;
  connections : gmap nat connection
}.
Implicit Types (n : node) (srv : BrokerServer S R) (c : connection).

Definition starting srv : node := {| shared := srv; connections := ∅ |}.
Definition at_connection (i : nat) c n : node :=
  {| shared := shared n; connections := <[i := c]> (connections n) |}.

(** A message that makes a task panic has no step. *)
Inductive node_step n : node → Prop :=
  | node_accept i :
      connections n !! i = None → node_step n (at_connection i accepted n)
  | node_message i c m go out h srv :
      connections n !! i = Some c → running c = true →
      on_message obj_fuel fuel m (handler c) (shared n) = Ret ((go, out), (h, srv)) →
      node_step n (at_connection i (foldl emit (handled_by h go (frame_of m) c) out)
                     {| shared := srv; connections := connections n |})
  | node_end i c :
      connections n !! i = Some c → running c = true → node_step n (at_connection i (ended c) n)
  | node_flush i c frame rest :
      connections n !! i = Some c → sending c = true → channel c = frame :: rest →
      node_step n (at_connection i (flushed frame rest c) n)
  | node_stop i c :
      connections n !! i = Some c → sending c = true → node_step n (at_connection i (stopped c) n).

(** A schedule, run *)
Inductive node_event : Type :=
  | EvAccept
  | EvMessage (m : ws_input)
  | EvFlush
  | EvEnd.
Definition run_event (i : nat) (ev : node_event) n : option node :=
  match ev, connections n !! i with
  | EvAccept, None => Some (at_connection i accepted n)
  | EvMessage m, Some c =>
      if running c then
        match on_message obj_fuel fuel m (handler c) (shared n) with
        | Ret ((go, out), (h, srv)) =>
            Some (at_connection i (foldl emit (handled_by h go (frame_of m) c) out)
                    {| shared := srv; connections := connections n |})
        | _ => None
        end
      else None
  | EvFlush, Some c =>
      if sending c then
        match channel c with
        | frame :: rest => Some (at_connection i (flushed frame rest c) n)
        | [] => None
        end
      else None
  | EvEnd, Some c => if running c then Some (at_connection i (ended c) n) else None
  | _, _ => None
  end.
Lemma run_event_step i ev n n' : run_event i ev n = Some n' → node_step n n'.
Proof.
  unfold run_event. destruct ev as [|m| |], (connections n !! i) as [c|] eqn:Hc; try done.
  - intros [= <-]. by constructor.
  - destruct (running c) eqn:Hr; [|done].
    destruct (on_message _ _ _ _ _) as [[[go out] [h srv]]| |] eqn:Hm; [|done..].
    intros [= <-]. by eapply node_message.
  - destruct (sending c) eqn:Hs; [|done]. destruct (channel c) eqn:Hch; [done|].
    intros [= <-]. by eapply node_flush.
  - destruct (running c) eqn:Hr; [|done]. intros [= <-]. by eapply node_end.
Qed.
Fixpoint run_events (evs : list (nat * node_event)) n : option node :=
  match evs with
  | [] => Some n
  | (i, ev) :: evs => n ← run_event i ev n; run_events evs n
  end.
Lemma run_events_steps evs n n' : run_events evs n = Some n' → rtc node_step n n'.
Proof.
  revert n. induction evs as [|[i ev] evs IH]; intros n; cbn [run_events]; [by intros [= ->]|].
  destruct (run_event i ev n) as [n1|] eqn:Hev; [|done]. intros Hrun.
  eapply rtc_l; [by eapply run_event_step|by apply IH].
Qed.

(** ** Calls and who made them *)

(** The messages handled for a user: on which connection, of which user, and the frame *)
Definition call_log : Type := list (nat * (PubKey * (bytes * env))).
Fixpoint logged_calls (log : call_log) srv : outcome (BrokerServer S R) :=
  match log with
  | [] => Ret srv
  | (_, (user, input)) :: log =>
      srv ← user_calls obj_fuel fuel user [input] srv; logged_calls log srv
  end.
(** Those of one connection *)
Definition calls_of (i : nat) (log : call_log) : list (PubKey * (bytes * env)) :=
  omap (λ '(j, call), if decide (j = i) then Some call else None) log.

Lemma logged_calls_snoc log j u input srv srv' :
  logged_calls log srv = Ret srv' →
  logged_calls (log ++ [(j, (u, input))]) srv = user_calls obj_fuel fuel u [input] srv'.
Proof.
  revert srv. induction log as [|[i [u' input']] log IH]; intros srv; cbn [app logged_calls].
  - intros [= <-]. by destruct (user_calls obj_fuel fuel u [input] srv).
  - destruct (user_calls obj_fuel fuel u' [input'] srv) as [srv1| |]; cbn [mbind outcome_bind]; [apply IH|done..].
Qed.
Lemma calls_of_snoc i log j call :
  calls_of i (log ++ [(j, call)]) = calls_of i log ++ if decide (j = i) then [call] else [].
Proof. unfold calls_of. rewrite omap_app. f_equal. cbn. by destruct (decide (j = i)). Qed.

(** ** The invariant *)

(** How far a connection is, and the calls made on it: none before a user has authenticated
    by its first two frames, and one for every frame after these. *)
Inductive conn_calls c : list (PubKey * (bytes * env)) → Prop :=
  | calls_start :
      received c = [] → handler c = protocol_handler → conn_calls c []
  | calls_hello hello e r :
      received c = [(hello, e)] →
      from_slice hello = Some (StartProtocol_Auth ClientHello_V0) → random_buf e = Some r →
      session_ok (handler c) (AtAuth (Waiting (array_list r))) → conn_calls c []
  | calls_refused :
      running c = false → broker_protocol (handler c) = None → conn_calls c []
  | calls_user hello e r auth e' m post :
      received c = (hello, e) :: (auth, e') :: post →
      from_slice hello = Some (StartProtocol_Auth ClientHello_V0) → random_buf e = Some r →
      from_slice auth = Some m → authenticates r m →
      session_ok (handler c) (AtBroker (ClientAuth_user m)) →
      conn_calls c (pair (ClientAuth_user m) <$> post).

Definition node_inv srv0 n : Prop := ∃ log,
  logged_calls log srv0 = Ret (shared n) ∧
  ∀ i, match connections n !! i with
       | Some c => conn_calls c (calls_of i log)
       | None => calls_of i log = []
       end.

(** What does not touch the handler or the frames received leaves the calls as they are. *)
Lemma conn_calls_same c c' l :
  handler c' = handler c → received c' = received c → (running c = false → running c' = false) →
  conn_calls c l → conn_calls c' l.
Proof.
  intros Hh Hr Hrun [].
  - by apply calls_start; rewrite ?Hh, ?Hr.
  - eapply calls_hello; rewrite ?Hh, ?Hr; done.
  - apply calls_refused; rewrite ?Hh; auto.
  - eapply calls_user; rewrite ?Hh, ?Hr; done.
Qed.
Lemma conn_calls_emit c out l : conn_calls (foldl emit c out) l ↔ conn_calls c l.
Proof.
  revert c. induction out as [|o out IH]; intros c; [done|]. cbn [foldl]. rewrite IH.
  by split; apply conn_calls_same.
Qed.

Lemma node_inv_conn srv0 n i c c' :
  connections n !! i = Some c → (∀ l, conn_calls c l → conn_calls c' l) →
  node_inv srv0 n → node_inv srv0 (at_connection i c' n).
Proof.
  intros Hc Hl (log & Hlog & Hconns). exists log. split; [done|]. intros j. cbn.
  destruct (decide (i = j)) as [<-|Hij].
  - rewrite lookup_insert_eq. apply Hl. specialize (Hconns i). by rewrite Hc in Hconns.
  - rewrite lookup_insert_ne by done. apply Hconns.
Qed.

Context `{!RustFsmLaws}.

(** A message of a connection: a call of its user, or none. *)
Lemma conn_calls_message c m go out h srv srv' l :
  conn_calls c l → running c = true →
  on_message obj_fuel fuel m (handler c) srv = Ret ((go, out), (h, srv')) →
  (srv' = srv ∧ conn_calls (handled_by h go (frame_of m) c) l) ∨
  ∃ u input, user_calls obj_fuel fuel u [input] srv = Ret srv' ∧
             conn_calls (handled_by h go (frame_of m) c) (l ++ [(u, input)]).
Proof.
  intros Hl Hrun Hm%on_message_spec. destruct (frame_of m) as [[f e]|].
  2: { destruct Hm as (-> & -> & _). left. split; [done|]. eapply conn_calls_same; [..|exact Hl]; cbn;
       [done|by rewrite app_nil_r|by rewrite Hrun]. }
  destruct Hm as (r & Hstep & Hgo).
  assert (Hrefused : ¬ keeps_open r → broker_protocol h = None →
    conn_calls (handled_by h go (Some (f, e)) c) []).
  { intros Hk Hb. apply calls_refused; [|done]. cbn. destruct go; [by destruct Hk; apply Hgo|done]. }
  destruct Hl as [Hrec Hh|hello e0 n Hrec Hf Hn Hok|Hno|hello e0 n auth e1 m' post Hrec Hf Hn Hauth Hm Hok].
  - rewrite Hh in Hstep. destruct (start_step _ _ _ _ _ _ _ _ Hstep) as [-> [[-> ->]|(n & Hf & Hn & Hok & _)]];
      left; (split; [done|]); [apply Hrefused; [by intros []|done]|].
    apply (calls_hello _ f e n); [by cbn; rewrite Hrec|done..].
  - destruct (auth_step _ _ _ _ _ _ _ _ _ _ Hok Hstep)
      as [-> [(a' & Hok' & _ & res & code & ->)|(k & m' & [= <-] & Hm & Hacc & Hok' & _)]];
      left; (split; [done|]).
    + apply Hrefused; [by intros [_ Hc]; destruct code|]. apply Hok'.
    + apply (calls_user _ hello e0 n f e m' []); [by cbn; rewrite Hrec|done..| |done].
      by apply accepts_authenticates.
  - by rewrite Hrun in Hno.
  - right. exists (ClientAuth_user m'), (f, e).
    assert (Hs : run_session obj_fuel fuel [(f, e)] (handler c) srv = Ret ([r], (h, srv')))
      by (cbn; by rewrite Hstep).
    destruct (broker_session _ _ _ _ _ _ _ _ _ Hok Hs) as [-> Hcall]. split; [done|].
    change [(ClientAuth_user m', (f, e))] with (pair (ClientAuth_user m') <$> [(f, e)]).
    rewrite <- fmap_app.
    apply (calls_user _ hello e0 n auth e1 m' (post ++ [(f, e)])); [by cbn; rewrite Hrec|done..].
Qed.

Lemma node_inv_step srv0 n n' : node_inv srv0 n → node_step n n' → node_inv srv0 n'.
Proof.
  intros Hinv [i Hi|i c m go out h srv Hc Hrun Hm|i c Hc Hrun|i c frame rest Hc Hs Hch|i c Hc Hs].
  - destruct Hinv as (log & Hlog & Hconns). exists log. split; [done|]. intros j. cbn.
    destruct (decide (i = j)) as [<-|Hij]; [|rewrite lookup_insert_ne by done; apply Hconns].
    rewrite lookup_insert_eq. specialize (Hconns i). rewrite Hi in Hconns. rewrite Hconns.
    by apply calls_start.
  - destruct Hinv as (log & Hlog & Hconns). pose proof (Hconns i) as Hl. rewrite Hc in Hl.
    destruct (conn_calls_message _ _ _ _ _ _ _ _ Hl Hrun Hm) as [[-> Hl']|(u & input & Hcall & Hl')].
    + exists log. split; [done|]. intros j. cbn. destruct (decide (i = j)) as [<-|Hij].
      * rewrite lookup_insert_eq. by apply conn_calls_emit.
      * rewrite lookup_insert_ne by done. apply Hconns.
    + exists (log ++ [(i, (u, input))]). split; [by rewrite (logged_calls_snoc _ _ _ _ _ _ Hlog)|].
      intros j. cbn. rewrite calls_of_snoc. destruct (decide (i = j)) as [<-|Hij].
      * rewrite lookup_insert_eq. by apply conn_calls_emit.
      * rewrite lookup_insert_ne, app_nil_r by done. apply Hconns.
  - apply (node_inv_conn _ _ _ c); [done| |done]. intros l. by apply conn_calls_same.
  - apply (node_inv_conn _ _ _ c); [done| |done]. intros l. by apply conn_calls_same.
  - apply (node_inv_conn _ _ _ c); [done| |done]. intros l. by apply conn_calls_same.
Qed.

Lemma node_inv_reachable srv0 n : rtc node_step (starting srv0) n → node_inv srv0 n.
Proof.
  apply (rtc_ind_r (node_inv srv0)).
  - exists []. split; [done|]. intros i. cbn [starting connections]. by rewrite lookup_empty.
  - intros n1 n2 _ Hstep Hinv. by eapply node_inv_step.
Qed.

(** C7: however the messages of any connections interleave, the server of a node is as a
    sequence of calls leaves it in which the calls of every connection are all its frames but
    the first two, in order, and in the name of one user, who signed the second frame over
    the nonce the first one drew on this connection; of a connection whose first two frames
    are not such, there are none. *)
Theorem Node_connections srv0 n : rtc node_step (starting srv0) n → ∃ log,
  logged_calls log srv0 = Ret (shared n) ∧
  (∀ i, connections n !! i = None → calls_of i log = []) ∧
  ∀ i c, connections n !! i = Some c →
    (calls_of i log = [] ∧ broker_protocol (handler c) = None) ∨
    ∃ hello e r auth e' m post,
      received c = (hello, e) :: (auth, e') :: post ∧
      from_slice hello = Some (StartProtocol_Auth ClientHello_V0) ∧ random_buf e = Some r ∧
      from_slice auth = Some m ∧ authenticates r m ∧
      broker_protocol (handler c) = Some (ClientAuth_user m) ∧
      calls_of i log = pair (ClientAuth_user m) <$> post.
Proof.
  intros (log & Hlog & Hconns)%node_inv_reachable. exists log. split; [done|]. split.
  - intros i Hi. specialize (Hconns i). by rewrite Hi in Hconns.
  - intros i c Hi. specialize (Hconns i). rewrite Hi in Hconns.
    destruct Hconns as [_ ->|hello e r _ _ _ (_ & ? & _)|_ ?|hello e r auth e' m post Hrec Hf Hn Ha Hm Hok];
      [by left..|]. right. exists hello, e, r, auth, e', m, post. split_and!; try done. apply Hok.
Qed.
End Node.

(** [run_server], once the store is open: the node as it starts; a server that cannot be made
    stops it. *)
Section Start.
Context {S R : Type} `{!BrokerStore S, !Serde (array 5), !Serde ConfigMode}.

Definition run_server (s : S) (dirs : gmap RepoStoreId (array 32 * R)) : outcome (node (S := S) (R := R)) :=
  '(server, _) ← Server.new s ConfigMode_Local dirs;
  match server with
  | Err _ => Panic
  | Ok server => Ret (starting server)
  end.
End Start.

(** ** Example: two connections at once *)

Module Examples.
Import BareTypes.Instances NetBare.NetInstances MessageInstances MemStore LmdbMem LmdbServed LmdbExamples.
Import OverlayProps.Examples ServerProps.Examples AuthProps.Examples SessionProps.Examples Node.Examples.

Definition get1_children : BrokerOverlayRequestContentV0 :=
  BrokerOverlayRequestContentV0_BlockGet (BlockGet_V0 {|
    BlockGetV0_id := Block_id b1; BlockGetV0_include_children := false; BlockGetV0_topic := None |}).
(** The second connection sends a message before it authenticates, and is closed. *)
Definition schedule : list (nat * node_event) :=
  [(0, EvAccept); (0, EvMessage (binary hello)); (1, EvAccept); (1, EvMessage (binary hello));
   (0, EvMessage (binary auth1)); (1, EvMessage (binary (to_vec (request 1 join1))));
   (0, EvMessage (binary (to_vec (request 1 join1)))); (0, EvMessage (binary (to_vec (request 2 put1))));
   (0, EvMessage (binary (to_vec (request 3 get1_children)))); (0, EvMessage (binary (to_vec (request 4 put1))));
   (0, EvFlush); (0, EvEnd)].
Lemma schedule_runs :
  match run_events 3 3 schedule (starting server0) with
  | Some n => match connections n !! 0, connections n !! 1 with
              | Some c0, Some c1 =>
                  bool_decide (length (wire c0) = 7 ∧ length (received c0) = 6 ∧ channel c0 = [] ∧
                               running c0 = false ∧ length (wire c1) = 2 ∧ running c1 = false ∧
                               broker_protocol (handler c1) = None ∧
                               is_Some (broker_protocol (handler c0)))
              | _, _ => false
              end
  | None => false
  end = true.
Proof. vm_compute. reflexivity. Qed.
Lemma Node_connections_witness : ∃ n c log,
  rtc (node_step 3 3) (starting server0) n ∧ connections n !! 0 = Some c ∧
  logged_calls 3 3 log server0 = Ret (shared n) ∧ length (calls_of 0 log) = 4.
Proof.
  pose proof schedule_runs as Hd.
  destruct (run_events 3 3 schedule (starting server0)) as [n|] eqn:Hrun; [|done].
  apply run_events_steps in Hrun.
  destruct (connections n !! 0) as [c|] eqn:Hc; [|done].
  destruct (connections n !! 1) as [c1|]; [|done].
  apply bool_decide_eq_true in Hd as (_ & Hlen & _ & _ & _ & _ & _ & Hu).
  destruct (Node_connections 3 3 server0 n Hrun) as (log & Hlog & _ & Hconns).
  exists n, c, log. split_and!; [done..|].
  destruct (Hconns 0 c Hc) as [[_ Hno]|(hello & e & r & auth & e' & m & post & Hrec & _ & _ & _ & _ & _ & ->)].
  - rewrite Hno in Hu. by destruct Hu.
  - rewrite Hrec in Hlen. rewrite length_fmap. cbn in Hlen. lia.
Defined.
End Examples.
