(* ===== verification/Async.v ===== *)
(** * A client and a node, with frames on their way

    In [Connection] a call returns after the frames that answer it were read. Here the
    client, the task that reads for it, the loop of the node's connection and the task that
    empties its channel take their steps in any order: a stream goes on while the client makes
    its next calls, and their replies overtake its blocks. *)

From S2P Require Import Prelude Serde Types Block Store Object Utils Branch NetTypes NetErrors.
From S2P Require Import BrokerStore BrokerTables Auth Server Session Client Connection ConnectionProps.
From S2P Require Import Node NodeSteps.

(** What is sent goes into a queue: sending is a step of its own. *)
#[export] Instance queue_end : Transport unit :=
  { transport_send _ w := Ret (None, w); transport_close w := Ret w }.

Section Async.
Context {S R : Type} `{!BrokerStore S, !RepoStore R, !ServedStore R, !RepoDirs R}.
Context `{!RwLockRelock, !Crypto, !Ed25519, !Bloom, !RustFsm, !XActor}.
Context `{!Serde Block, !Serde BlockContentV0, !Serde ObjectContent, !Serde AddUserContentV0}.
Context `{!Serde Digest, !Serde SymKey, !Serde PubKey, !Serde bool, !Serde u32}.
Context `{!Serde OverlayMeta, !Serde PeerAdvert, !Serde RepoStoreId}.
Context `{!Serde ServerHello, !Serde ClientAuth, !Serde ClientAuthContentV0, !Serde AuthResult}.
Context `{!Serde BrokerMessage, !Serde StartProtocol, !Serde ExtResponse}.
Variables (obj_fuel fuel : nat) (envs : environment).

Abbreviation client := (BrokerConnectionRemote unit).

(** The client with the calls it has still to make, the call it waits in with the identifier
    of its request, the streams whose receivers it holds, and what the calls answered; the
    frames on their way to the node; the node's end of the connection, its server, and how
    many frames it handled; and how many of the frames that went out the client has read. *)
Record system : Type := {
  cl : client;
  calls : list conn_call;
  called : nat;
  waiting : option (nat * u64);
  receivers : gmap nat u64;
  answered : gmap nat conn_resp;
  up : list bytes;
  peer : connection;
  at_server : BrokerServer S R;
  frames_handled : nat;
  frames_read : nat
}.
Implicit Types (s : system) (c : client).

Definition is_stream (k : conn_call) : bool := match k with ConnStream _ _ => true | _ => false end.
(** The message of a call *)
Definition request_of (k : conn_call) (user : PubKey) (id : u64) : result BrokerMessage ProtocolError :=
  match k with
  | ConnRequest o r | ConnStream o r => Ok (overlay_message o r id)
  | ConnAddUser user_id admin_user_pk =>
      sig ←? map_err ProtocolError_of_LofireError
               (sign admin_user_pk user (to_vec {| AddUserContentV0_user := user_id |}));
      Ok (add_user_message user_id sig id)
  end.
(** The actor of a call is started before its message is made. *)
Definition begin (k : conn_call) c : client :=
  let id := actor_id (started c) in
  if is_stream k
  then next_actor (with_stream_actors (<[id := new_stream_actor]> (stream_actors c)) c)
  else before id c.

Definition with_client c s : system :=
  {| cl := c; calls := calls s; called := called s; waiting := waiting s;
     receivers := receivers s; answered := answered s; up := up s; peer := peer s;
     at_server := at_server s; frames_handled := frames_handled s; frames_read := frames_read s |}.
(** The next call is made: its frame goes up, and the client waits. *)
Definition make_call (ks : list conn_call) (id : u64) (frame : bytes) s : system :=
  {| cl := cl s; calls := ks; called := 1 + called s; waiting := Some (called s, id);
     receivers := receivers s; answered := answered s; up := up s ++ [frame]; peer := peer s;
     at_server := at_server s; frames_handled := frames_handled s; frames_read := frames_read s |}.
(** It fails before anything is sent. *)
Definition refuse_call (ks : list conn_call) (r : conn_resp) s : system :=
  {| cl := cl s; calls := ks; called := 1 + called s; waiting := None;
     receivers := receivers s; answered := <[called s := r]> (answered s); up := up s; peer := peer s;
     at_server := at_server s; frames_handled := frames_handled s; frames_read := frames_read s |}.
Definition answer_call (j : nat) (r : conn_resp) s : system :=
  {| cl := cl s; calls := calls s; called := called s; waiting := None;
     receivers := receivers s; answered := <[j := r]> (answered s); up := up s; peer := peer s;
     at_server := at_server s; frames_handled := frames_handled s; frames_read := frames_read s |}.
Definition hold_receiver (j : nat) (id : u64) s : system :=
  {| cl := cl s; calls := calls s; called := called s; waiting := None;
     receivers := <[j := id]> (receivers s); answered := answered s; up := up s; peer := peer s;
     at_server := at_server s; frames_handled := frames_handled s; frames_read := frames_read s |}.
Definition close_receiver (j : nat) (bs : list Block) s : system :=
  {| cl := cl s; calls := calls s; called := called s; waiting := waiting s;
     receivers := delete j (receivers s); answered := <[j := ConnBlocks (Ok bs)]> (answered s);
     up := up s; peer := peer s;
     at_server := at_server s; frames_handled := frames_handled s; frames_read := frames_read s |}.
Definition node_handles (frames : list bytes) (c : connection) (srv : BrokerServer S R) s : system :=
  {| cl := cl s; calls := calls s; called := called s; waiting := waiting s;
     receivers := receivers s; answered := answered s; up := frames; peer := c;
     at_server := srv; frames_handled := 1 + frames_handled s; frames_read := frames_read s |}.
Definition node_flushes (c : connection) s : system :=
  {| cl := cl s; calls := calls s; called := called s; waiting := waiting s;
     receivers := receivers s; answered := answered s; up := up s; peer := c;
     at_server := at_server s; frames_handled := frames_handled s; frames_read := frames_read s |}.
Definition reads_frame c s : system :=
  {| cl := c; calls := calls s; called := called s; waiting := waiting s;
     receivers := receivers s; answered := answered s; up := up s; peer := peer s;
     at_server := at_server s; frames_handled := frames_handled s; frames_read := 1 + frames_read s |}.

(** A call waits for its only reply, a stream for its first; blocks are received until the
    channel is closed. *)
Inductive async_step s : system → Prop :=
  | async_call k ks m :
      calls s = k :: ks → waiting s = None →
      request_of k (remote_user (cl s)) (actor_id (started (cl s))) = Ok m →
      async_step s (make_call ks (actor_id (started (cl s))) (transform m)
                      (with_client (begin k (cl s)) s))
  | async_refused k ks e :
      calls s = k :: ks → waiting s = None →
      request_of k (remote_user (cl s)) (actor_id (started (cl s))) = Err e →
      async_step s (refuse_call ks (ConnUnit (Err e))
                      (with_client (dropped (actor_id (started (cl s))) (begin k (cl s))) s))
  | async_handle frame frames go out h srv :
      up s = frame :: frames → running (peer s) = true →
      on_message obj_fuel fuel (WsBinary frame, envs (frames_handled s), true)
        (handler (peer s)) (at_server s) = Ret ((go, out), (h, srv)) →
      async_step s (node_handles frames
        (foldl emit (handled_by h go (Some (frame, envs (frames_handled s))) (peer s)) out) srv s)
  | async_flush frame rest :
      sending (peer s) = true → channel (peer s) = frame :: rest →
      async_step s (node_flushes (flushed frame rest (peer s)) s)
  | async_read frame c :
      wire (peer s) !! frames_read s = Some frame → reader_loop [frame] (cl s) = Ret c →
      async_step s (reads_frame c s)
  | async_answer j id r c :
      waiting s = Some (j, id) → is_Some (actors (cl s) !! id) →
      call_try (after id) (reply_into result_unit) (cl s) = Ret (r, c) →
      async_step s (answer_call j (ConnUnit r) (with_client c s))
  | async_no_stream j id e c :
      waiting s = Some (j, id) → is_Some (stream_actors (cl s) !! id) →
      first_reply id (cl s) = Ret (Err e, c) →
      async_step s (answer_call j (ConnBlocks (Err e)) (with_client c s))
  | async_stream j id c :
      waiting s = Some (j, id) → is_Some (stream_actors (cl s) !! id) →
      first_reply id (cl s) = Ret (Ok tt, c) →
      async_step s (hold_receiver j id (with_client c s))
  | async_received j id a bs c :
      receivers s !! j = Some id → stream_actors (cl s) !! id = Some a → stream_open a = false →
      received_blocks id (cl s) = Ret (Ok bs, c) →
      async_step s (close_receiver j bs (with_client c s)).

(** An authenticated connection, on which calls are to be made *)
Definition async_start (ks : list conn_call) (user : PubKey) (h : ProtocolHandler.ProtocolHandler)
    (srv : BrokerServer S R) (handled : nat) : system :=
  {| cl := {| writer := tt; remote_user := user; actors := ∅; stream_actors := ∅; reading := true;
              started := 0 |};
     calls := ks; called := 0; waiting := None; receivers := ∅; answered := ∅; up := [];
     peer := {| handler := h; running := true; channel := []; sending := true; wire := [];
                received := [] |};
     at_server := srv; frames_handled := handled; frames_read := 0 |}.
(** All calls were made and have their answers. *)
Definition async_done s : Prop :=
  calls s = [] ∧ waiting s = None ∧ receivers s = ∅.
End Async.
