(* ===== verification/AsyncViews.v ===== *)
(** * One call of a client, among others

    What the node makes of a call, and the call's view of the system: its frames on their
    way, its actor and its answer. The frames belong to calls by the identifiers of their
    requests; what the client does with one of them changes this view only. *)

From stdpp Require Import functions.
From S2P Require Import Bare BareTypes BrokerRows NetBare MessageBare OverlayProps LmdbRepoStore LmdbView LmdbMem LmdbProps LmdbServed ServerTables ServerSim ServerProps.
From S2P Require Import Prelude Serde Types Block Store Object Utils Branch NetTypes NetErrors.
From S2P Require Import BrokerStore BrokerTables Auth AuthProps Server Session SessionProps Client Connection ConnectionProps.
From S2P Require Import Node NodeSteps Async.

Section Async.
Context {S R : Type} `{!BrokerStore S, !RepoStore R, !ServedStore R, !RepoDirs R}.
Context `{!RwLockRelock, !Crypto, !Ed25519, !Bloom, !RustFsm, !XActor}.
Context `{!Serde Block, !Serde BlockContentV0, !Serde ObjectContent, !Serde AddUserContentV0}.
Context `{!Serde Digest, !Serde SymKey, !Serde PubKey, !Serde bool, !Serde u32}.
Context `{!Serde OverlayMeta, !Serde PeerAdvert, !Serde RepoStoreId}.
Context `{!Serde ServerHello, !Serde ClientAuth, !Serde ClientAuthContentV0, !Serde AuthResult}.
Context `{!Serde BrokerMessage, !Serde StartProtocol, !Serde ExtResponse}.
Variables (obj_fuel fuel : nat) (envs : environment).
Context `{!SerdeLaws Block, !SerdeLaws BrokerMessage, !SerdeTagged BrokerMessage}.
Context `{!XActorLaws, !SerializingStore R}.

Abbreviation local := (BrokerConnectionLocal S R).
Abbreviation client := (BrokerConnectionRemote unit).
Abbreviation system := (system (S := S) (R := R)).
Abbreviation local_conn := (local_conn (S := S) (R := R) obj_fuel fuel envs).
Implicit Types (s : system) (c : client) (lc : local).

(** ** What the node makes of a call *)

(** The frames a call is answered by *)
Definition call_frames (k : conn_call) (id : u64) (r : conn_resp) : list bytes :=
  match k, r with
  | ConnRequest o _, ConnUnit res =>
      [to_vec (BrokerProtocolHandler.prepare_reply_broker_overlay_message res id o None 20%N)]
  | ConnAddUser _ _, ConnUnit res =>
      [to_vec (BrokerProtocolHandler.prepare_reply_broker_message res id 20%N)]
  | ConnStream o _, ConnBlocks res => stream_frames o id res
  | _, _ => []
  end.

Lemma session_message m e h u (srv : BrokerServer S R) :
  session_ok h (AtBroker u) → BrokerMessage_is_close m = false →
  on_message obj_fuel fuel (WsBinary (transform m), e, true) h srv =
    ('((reply, t), srv) ← BrokerProtocolHandler.handle_incoming obj_fuel fuel u (serde_skip m) e srv;
     Ret (match t with
          | Some (frames, errcode) => (negb (0 <? uint_N errcode)%N, [Reply (to_vec reply); AsyncFrames frames])
          | None => (true, [Reply (to_vec reply)])
          end, (h, srv))).
Proof.
  intros [Hp Hb] Hm. unfold on_message, transform. rewrite Hm.
  unfold ProtocolHandler.handle_incoming. rewrite Hp, from_slice_to_vec, Hb.
  cbn [unwrap mbind outcome_bind].
  destruct (BrokerProtocolHandler.handle_incoming _ _ _ _ _ _) as [[[reply [[]|]] srv1]| |]; done.
Qed.

(** The reply and the stream that go out for these frames *)
Definition outputs (frames : list bytes) (out : list ws_output) : Prop :=
  match frames with
  | [] => False
  | f :: rest => (out = [Reply f] ∧ rest = []) ∨ out = [Reply f; AsyncFrames rest]
  end.
Lemma emit_outputs frames out (c : connection) :
  outputs frames out →
  ∃ f rest, frames = f :: rest ∧
    foldl emit c out = {| handler := handler c; running := running c; channel := channel c ++ rest;
                          sending := sending c; wire := wire c ++ [f]; received := received c |}.
Proof.
  destruct frames as [|f rest]; [done|]. intros Ho. exists f, rest. split; [done|].
  destruct Ho as [[-> ->]| ->]; cbn; unfold emit; cbn; by rewrite ?app_nil_r.
Qed.

Lemma handle_call k lc r lc' id m h :
  run_conn_call local_conn k lc = Ret (r, lc') → conn_call_ok k →
  request_of k (local_user lc) id = Ok m → session_ok h (AtBroker (local_user lc)) →
  ∃ out, on_message obj_fuel fuel (WsBinary (transform m), envs (local_calls lc), true) h (broker lc)
           = Ret ((true, out), (h, broker lc')) ∧
         outputs (call_frames k id r) out ∧
         local_user lc' = local_user lc ∧ local_calls lc' = 1 + local_calls lc ∧
         match r with
         | ConnUnit _ => is_stream k = false
         | ConnBlocks res => is_stream k = true ∧ ∀ e, res = Err e → no_stream e
         end.
Proof.
  intros Hrun Hk Hm Hh. destruct k as [o req|o req|user_id sk]; cbn [request_of] in Hm.
  - injection Hm as <-. cbn [run_conn_call process_overlay_request local_conn
      ConnectionProps.local_conn Local_BrokerConnection] in Hrun.
    destruct (local_request_eq obj_fuel fuel envs o req lc Hk) as (M & Hreq & Hloc).
    rewrite Hloc in Hrun. destruct M as [[res srv]| |]; [|done..]. injection Hrun as <- <-.
    rewrite (session_message _ _ _ (local_user lc)), handle_overlay_message, Hreq by done.
    eexists. split; [reflexivity|]. split; [by left|]. done.
  - injection Hm as <-. cbn [run_conn_call process_overlay_request_stream_response local_conn
      ConnectionProps.local_conn Local_BrokerConnection] in Hrun.
    destruct (local_stream_eq obj_fuel fuel envs o req lc Hk) as (M & Hreq & Hloc).
    rewrite Hloc in Hrun. destruct M as [[res srv]| |]; [|done..]. injection Hrun as <- <-.
    rewrite (session_message _ _ _ (local_user lc)), handle_overlay_message, Hreq by done.
    cbn [mbind outcome_bind].
    pose proof (stream_frames_eq res id o) as Hf.
    destruct (BrokerProtocolHandler.send_block_stream_response_to_client res id o 20%N) as [reply t] eqn:Ht.
    assert (Hcode : match t with Some (_, code) => uint_N code = 0%N | None => True end).
    { unfold BrokerProtocolHandler.send_block_stream_response_to_client in Ht.
      by destruct res as [[|b bs]|e]; injection Ht as _ <-. }
    destruct t as [[frames code]|]; [rewrite Hcode|]; (eexists; split; [reflexivity|]);
      (split; [cbn [call_frames]; rewrite <- Hf; by (left + right)|]);
      (do 2 (split; [done|])); (split; [done|]); intros e ->; by eapply stream_call_err.
  - cbn [run_conn_call local_conn ConnectionProps.local_conn Client.add_user Local_BrokerConnection] in Hrun.
    unfold local_add_user in Hrun. destruct (sign _ _ _) as [sig|e]; [|done].
    injection Hm as <-. unfold on_broker in Hrun.
    destruct (Server.add_user _ _ _ _) as [[res srv]| |] eqn:Hadd; [|done..]. injection Hrun as <- <-.
    rewrite (session_message _ _ _ (local_user lc)) by done. cbn. rewrite Hadd.
    eexists. split; [reflexivity|]. split; [by left|]. done.
Qed.

(** ** A call's view of the system *)

Definition frame_id (frame : bytes) : option u64 :=
  match BrokerMessage_id (read_message frame) with Ret id => Some id | _ => None end.
Definition frames_for (id : u64) (frames : list bytes) : list bytes :=
  filter (λ f, frame_id f = Some id) frames.

(** Its frames on their way, its actor, its answer, its receiver, and whether it waits. *)
Record view : Type := {
  v_frames : list bytes;
  v_actor : option BrokerMessageActor;
  v_stream : option BrokerMessageStreamActor;
  v_answer : option conn_resp;
  v_receives : option u64;
  v_waits : option u64
}.
Definition in_flight s : list bytes := drop (frames_read s) (wire (peer s)) ++ channel (peer s).
Definition view_of (j : nat) s : view := {|
  v_frames := frames_for (actor_id j) (in_flight s);
  v_actor := actors (cl s) !! actor_id j;
  v_stream := stream_actors (cl s) !! actor_id j;
  v_answer := answered s !! j;
  v_receives := receivers s !! j;
  v_waits := match waiting s with Some (i, id) => if decide (i = j) then Some id else None | None => None end
|}.

(** A stream whose blocks [got] have arrived, and one that ended *)
Definition stream_at (got : list Block) : BrokerMessageStreamActor :=
  {| stream_alive := true; stream_s := serde_skip <$> got; stream_open := true;
     stream_error := match got with [] => None | _ => Some None end |}.
Definition stream_ended (bs : list Block) (e : option ProtocolError) : BrokerMessageStreamActor :=
  {| stream_alive := false; stream_s := serde_skip <$> bs; stream_open := false;
     stream_error := Some e |}.

(** A call whose request was not handled yet *)
Definition sent_view (id : u64) (k : conn_call) : view := {|
  v_frames := [];
  v_actor := if is_stream k then None else Some new_actor;
  v_stream := if is_stream k then Some new_stream_actor else None;
  v_answer := None; v_receives := None; v_waits := Some id
|}.
(** One that was, with this result. [streams] is whether the first reply was read. *)
Inductive call_view (id : u64) : conn_call → conn_resp → view → Prop :=
  | view_reply k res f :
      is_stream k = false → answers result_unit id (read_message f) res →
      call_view id k (ConnUnit res)
        {| v_frames := [f]; v_actor := Some new_actor; v_stream := None; v_answer := None;
           v_receives := None; v_waits := Some id |}
  | view_replied k res m :
      is_stream k = false → answers result_unit id m res →
      call_view id k (ConnUnit res)
        {| v_frames := []; v_actor := Some (actor_handle m new_actor); v_stream := None;
           v_answer := None; v_receives := None; v_waits := Some id |}
  | view_stream o r got rest (streams : bool) :
      (streams = true → got ≠ []) →
      call_view id (ConnStream o r) (ConnBlocks (Ok (got ++ rest)))
        {| v_frames := stream_frames o id (Ok rest); v_actor := None; v_stream := Some (stream_at got);
           v_answer := None; v_receives := if streams then Some id else None;
           v_waits := if streams then None else Some id |}
  | view_ended o r bs (streams : bool) :
      call_view id (ConnStream o r) (ConnBlocks (Ok bs))
        {| v_frames := []; v_actor := None; v_stream := Some (stream_ended bs None);
           v_answer := None; v_receives := if streams then Some id else None;
           v_waits := if streams then None else Some id |}
  | view_error o r e :
      no_stream e →
      call_view id (ConnStream o r) (ConnBlocks (Err e))
        {| v_frames := stream_frames o id (Err e); v_actor := None; v_stream := Some new_stream_actor;
           v_answer := None; v_receives := None; v_waits := Some id |}
  | view_failed o r e :
      call_view id (ConnStream o r) (ConnBlocks (Err e))
        {| v_frames := []; v_actor := None; v_stream := Some (stream_ended [] (Some e));
           v_answer := None; v_receives := None; v_waits := Some id |}
  | view_done k r a st :
      call_view id k r
        {| v_frames := []; v_actor := a; v_stream := st; v_answer := Some (resp_skip r);
           v_receives := None; v_waits := None |}.


(** The node's answer to a call that was sent *)
Lemma call_frames_view id k r :
  match r with
  | ConnUnit _ => is_stream k = false
  | ConnBlocks res => is_stream k = true ∧ ∀ e, res = Err e → no_stream e
  end →
  Forall (λ f, frame_id f = Some id) (call_frames k id r) ∧
  ∀ v, v = sent_view id k →
    call_view id k r {| v_frames := call_frames k id r; v_actor := v_actor v; v_stream := v_stream v;
                        v_answer := v_answer v; v_receives := v_receives v; v_waits := v_waits v |}.
Proof.
  intros Hr. destruct r as [res|res].
  - destruct k as [o q|o q|u sk]; [|done|]; cbn [call_frames is_stream] in *.
    + pose proof (overlay_answers res id o 20%N) as Ha. split.
      * constructor; [|done]. unfold frame_id. rewrite read_to_vec. by destruct Ha as (_ & _ & _ & -> & _).
      * intros v ->. apply view_reply; [done|]. by rewrite read_to_vec.
    + pose proof (message_answers res id 20%N) as Ha. split.
      * constructor; [|done]. unfold frame_id. rewrite read_to_vec. by destruct Ha as (_ & _ & _ & -> & _).
      * intros v ->. apply view_reply; [done|]. by rewrite read_to_vec.
  - destruct Hr as [Hk Herr]. destruct k as [o q|o q|u sk]; try done. cbn [call_frames].
    assert (Hid : ∀ x, frame_id (to_vec (BrokerProtocolHandler.prepare_reply_broker_overlay_message_stream
      x id o 20%N)) = Some id)
      by (intros x; unfold frame_id; by rewrite read_to_vec).
    destruct res as [bs|e].
    + split; [apply Forall_app; split; [apply Forall_fmap, Forall_true; intros b; apply Hid|by constructor]|].
      intros v ->. apply (view_stream id o q [] bs false). done.
    + split; [by constructor|]. intros v ->. apply view_error. by apply Herr.
Qed.

(** ** What the client does with the frames of one call *)

(** Nothing but the actors of this request changes. *)
Definition only (id : u64) c c' : Prop :=
  reading c' = reading c ∧ started c' = started c ∧ remote_user c' = remote_user c ∧
  ∀ i, i ≠ id → actors c' !! i = actors c !! i ∧ stream_actors c' !! i = stream_actors c !! i.
Lemma only_actor id a c : only id c (with_actors (<[id := a]> (actors c)) c).
Proof. split_and!; try done. intros i Hi. cbn. by rewrite lookup_insert_ne. Qed.
Lemma only_actor_deleted id c : only id c (with_actors (delete id (actors c)) c).
Proof. split_and!; try done. intros i Hi. cbn. by rewrite lookup_delete_ne. Qed.
Lemma only_stream id a c : only id c (with_stream_actors (<[id := a]> (stream_actors c)) c).
Proof. split_and!; try done. intros i Hi. cbn. by rewrite lookup_insert_ne. Qed.
Lemma only_stream_deleted id c : only id c (with_stream_actors (delete id (stream_actors c)) c).
Proof. split_and!; try done. intros i Hi. cbn. by rewrite lookup_delete_ne. Qed.

Lemma read_reply id f res c :
  reading c = true → actors c !! id = Some new_actor → answers result_unit id (read_message f) res →
  reader_loop [f] c =
    Ret (with_actors (<[id := actor_handle (read_message f) new_actor]> (actors c)) c).
Proof.
  intros Hr Ha (Hc & Hreq & Hresp & Hid & _). cbn [reader_loop]. rewrite Hr. cbn [negb].
  unfold reader_message. rewrite Hc, Hreq, Hresp, Hid. cbn [mbind outcome_bind].
  by rewrite Ha.
Qed.

(** A frame of a call changes its view and nothing else. *)
Lemma read_frame id k r v f rest c :
  call_view id k r v → v_frames v = f :: rest → reading c = true →
  actors c !! id = v_actor v → stream_actors c !! id = v_stream v → ∃ c',
  reader_loop [f] c = Ret c' ∧ only id c c' ∧
  call_view id k r {| v_frames := rest; v_actor := actors c' !! id; v_stream := stream_actors c' !! id;
                      v_answer := v_answer v; v_receives := v_receives v; v_waits := v_waits v |}.
Proof.
  intros Hv Hf Hr Ha Hs. destruct Hv as [k res f' Hk Hans|k res m Hk Hans|o q got [|b bs] streams Hgot
    |o q bs streams|o q e He|o q e|k r a st]; cbn [v_frames v_actor v_stream v_answer v_receives v_waits] in *;
    try done.
  - injection Hf as -> <-. rewrite (read_reply id f res c Hr Ha Hans). eexists. split; [done|].
    split; [apply only_actor|]. cbn. rewrite lookup_insert_eq, Hs. by eapply view_replied.
  - injection Hf as <- <-.
    rewrite (reader_stream_frame o id (Err EndOfStream) [] c _ _ Hr Ha Hs eq_refl (handle_error _ _ _ _)).
    eexists. split; [done|]. split; [apply only_stream|]. cbn. rewrite lookup_insert_eq, Ha, app_nil_r.
    assert (default None (match got with [] => None | _ => Some None end) = (None : option ProtocolError)) as ->
      by (by destruct got).
    apply (view_ended id o q got streams).
  - injection Hf as <- <-.
    rewrite (reader_stream_frame o id (Ok b) [] c _ _ Hr Ha Hs eq_refl (handle_block _ _ _ (stream_at got) eq_refl)).
    eexists. split; [done|]. split; [apply only_stream|]. cbn. rewrite lookup_insert_eq, Ha.
    pose proof (view_stream id o q (got ++ [b]) bs streams) as Hv.
    rewrite <- (assoc_L (++)) in Hv. cbn [app] in Hv. unfold stream_at in Hv.
    rewrite fmap_app in Hv.
    replace (match got ++ [b] with [] => None | _ => Some None end) with (Some (None : option ProtocolError)) in Hv
      by (by destruct got).
    replace (default None (match got with [] => None | _ => Some None end)) with (None : option ProtocolError)
      by (by destruct got).
    apply Hv. by destruct got.
  - injection Hf as <- <-.
    rewrite (reader_stream_frame o id (Err e) [] c new_stream_actor (stream_ended [] (Some e)) Hr Ha Hs eq_refl)
      by (rewrite handle_error; by destruct e).
    eexists. split; [done|]. split; [apply only_stream|]. cbn. rewrite lookup_insert_eq, Ha. apply view_failed.
Qed.

(** ** How calls end *)

Definition done_view (r : conn_resp) (v : view) : view :=
  {| v_frames := v_frames v; v_actor := v_actor v; v_stream := v_stream v;
     v_answer := Some (resp_skip r); v_receives := None; v_waits := None |}.
Lemma done_call_view id k r v : v_frames v = [] → call_view id k r (done_view r v).
Proof. intros Hf. unfold done_view. rewrite Hf. apply view_done. Qed.

Lemma after_call_view id k r v c x c' :
  call_view id k r v → v_waits v = Some id → actors c !! id = v_actor v → is_Some (actors c !! id) →
  call_try (after id) (reply_into result_unit) c = Ret (x, c') →
  r = ConnUnit x ∧ v_frames v = [] ∧ only id c c'.
Proof.
  intros Hv Hw Ha Hs. unfold call_try, after. destruct Hs as [a Hs]. rewrite Ha in Hs |- *.
  destruct Hv as [k res f Hk Hans|k res m Hk Hans|o q got bs streams Hgot|o q bs streams|o q e He|o q e|k r a' st];
    cbn [v_actor v_frames v_waits] in *; try done.
  cbn. destruct Hans as (_ & _ & _ & _ & Hres). unfold reply_into. rewrite Hres. cbn.
  intros [= <- <-]. split; [done|]. split; [done|]. apply only_actor_deleted.
Qed.
Lemma no_stream_view id k r v c e c' :
  call_view id k r v → v_waits v = Some id → stream_actors c !! id = v_stream v →
  is_Some (stream_actors c !! id) → first_reply id c = Ret (Err e, c') →
  r = ConnBlocks (Err e) ∧ v_frames v = [] ∧ only id c c'.
Proof.
  intros Hv Hw Ha [a Hs]. unfold first_reply. rewrite Ha in Hs |- *.
  destruct Hv as [k res f Hk Hans|k res m Hk Hans|o q [|b got] bs streams Hgot|o q bs streams|o q e' He|o q e'|k r a' st];
    cbn [v_stream v_frames v_waits] in *; try done.
  cbn. intros [= <- <-]. split; [done|]. split; [done|]. apply only_stream_deleted.
Qed.
Lemma stream_view id k r v c c' :
  call_view id k r v → v_waits v = Some id → stream_actors c !! id = v_stream v →
  is_Some (stream_actors c !! id) → first_reply id c = Ret (Ok tt, c') →
  c' = c ∧ is_stream k = true ∧
  call_view id k r {| v_frames := v_frames v; v_actor := v_actor v; v_stream := v_stream v;
                      v_answer := v_answer v; v_receives := Some id; v_waits := None |}.
Proof.
  intros Hv Hw Ha [a Hs]. unfold first_reply. rewrite Ha in Hs |- *.
  destruct Hv as [k res f Hk Hans|k res m Hk Hans|o q [|b got] bs streams Hgot|o q bs streams|o q e' He|o q e'|k r a' st];
    cbn [v_stream v_frames v_waits] in *; try done; cbn; intros [= <-]; (split; [done|]); (split; [done|]).
  - by apply (view_stream id o q (b :: got) bs true).
  - apply (view_ended id o q bs true).
Qed.
Lemma received_view id k r v c a bs c' :
  call_view id k r v → v_receives v = Some id → stream_actors c !! id = v_stream v →
  stream_actors c !! id = Some a → stream_open a = false → received_blocks id c = Ret (Ok bs, c') →
  resp_skip r = ConnBlocks (Ok bs) ∧ v_frames v = [] ∧ only id c c'.
Proof.
  intros Hv Hw Ha Hs Ho. unfold received_blocks. rewrite Ha in Hs |- *.
  destruct Hv as [k res f Hk Hans|k res m Hk Hans|o q got bs' streams Hgot|o q bs' streams|o q e' He|o q e'|k r a' st];
    cbn [v_stream v_frames v_receives] in *; try done; injection Hs as <-; [done|].
  cbn. intros [= <- <-]. split; [done|]. split; [done|]. apply only_stream_deleted.
Qed.

(** A call none of whose frames is on its way can end. *)
Lemma waiting_ends id k r v c :
  call_view id k r v → v_frames v = [] → v_waits v = Some id →
  actors c !! id = v_actor v → stream_actors c !! id = v_stream v →
  (is_Some (actors c !! id) ∧ ∃ x c', call_try (after id) (reply_into result_unit) c = Ret (x, c')) ∨
  (is_Some (stream_actors c !! id) ∧ ∃ x c', first_reply id c = Ret (x, c')).
Proof.
  intros Hv Hf Hw Ha Hs. unfold call_try, after, first_reply. rewrite Ha, Hs.
  destruct Hv as [k res f Hk Hans|k res m Hk Hans|o q got bs streams Hgot|o q bs streams|o q e He|o q e|k r a st];
    cbn [v_actor v_stream v_frames v_waits] in *; try done.
  - left. split; [done|]. cbn. destruct Hans as (_ & _ & _ & _ & Hres). unfold reply_into. rewrite Hres. eauto.
  - by apply app_nil in Hf as [_ ?].
  - right. split; [done|]. cbn. eauto.
  - right. split; [done|]. cbn. eauto.
Qed.
Lemma receiving_ends id k r v c :
  call_view id k r v → v_frames v = [] → v_receives v = Some id → stream_actors c !! id = v_stream v →
  ∃ a bs c', stream_actors c !! id = Some a ∧ stream_open a = false ∧ received_blocks id c = Ret (Ok bs, c').
Proof.
  intros Hv Hf Hw Hs. unfold received_blocks. rewrite Hs.
  destruct Hv as [k res f Hk Hans|k res m Hk Hans|o q got bs streams Hgot|o q bs streams|o q e He|o q e|k r a st];
    cbn [v_stream v_frames v_receives] in *; try done.
  - by apply app_nil in Hf as [_ ?].
  - eexists _, _, _. split; [done|]. split; [done|]. reflexivity.
Qed.
(** A call that neither waits nor receives is answered. *)
Lemma idle_answered id k r v :
  call_view id k r v → v_waits v = None → v_receives v = None → v_answer v = Some (resp_skip r).
Proof. destruct 1 as [| |? ? ? ? []|? ? ? []| | |]; cbn; done. Qed.
End Async.
