(* ===== verification/AsyncProps.v ===== *)
(** * Any schedule of a client and a node answers as a local connection

    Each call is followed on its own view of the system ([AsyncViews]), whatever the others
    do; what is left to be done gets less with every step. *)

From stdpp Require Import functions.
From S2P Require Import Bare BareTypes BrokerRows NetBare MessageBare OverlayProps LmdbRepoStore LmdbView LmdbMem LmdbProps LmdbServed ServerTables ServerSim ServerProps.
From S2P Require Import Prelude Serde Types Block Store Object Utils Branch NetTypes NetErrors.
From S2P Require Import BrokerStore BrokerTables Auth AuthProps Server Session SessionProps Client Connection ConnectionProps.
From S2P Require Import Node NodeSteps Async AsyncViews.

Section Async.
Context {S R : Type} `{!BrokerStore S, !RepoStore R, !ServedStore R, !RepoDirs R}.
Context `{!RwLockRelock, !Crypto, !Ed25519, !Bloom, !RustFsm, !XActor}.
Context `{!Serde Block, !Serde BlockContentV0, !Serde ObjectContent, !Serde AddUserContentV0}.
Context `{!Serde Digest, !Serde SymKey, !Serde PubKey, !Serde bool, !Serde u32}.
Context `{!Serde OverlayMeta, !Serde PeerAdvert, !Serde RepoStoreId}.
Context `{!Serde ServerHello, !Serde ClientAuth, !Serde ClientAuthContentV0, !Serde AuthResult}.
Context `{!Serde BrokerMessage, !Serde StartProtocol, !Serde ExtResponse}.
Variables (obj_fuel fuel : nat) (envs : environment).
Context `{!SerdeLaws Block, !SerdeLaws BrokerMessage, !SerdeTagged BrokerMessage}.
Context `{!XActorLaws, !SerializingStore R}.

Abbreviation local := (BrokerConnectionLocal S R).
Abbreviation client := (BrokerConnectionRemote unit).
Abbreviation system := (system (S := S) (R := R)).
Abbreviation local_conn := (local_conn (S := S) (R := R) obj_fuel fuel envs).
Implicit Types (s : system) (c : client) (lc : local).

(** ** The invariant *)

(** [pre] are the calls the node has handled, with their results [rs1]; the local connection
    [lc] has run these, and runs the others, [ks], to [lc1] with results [rs2]. At most one of
    them is on its way. *)
Record async_at lc1 (pre ks : list conn_call) (rs1 rs2 : list conn_resp) lc s : Prop := {
  at_run : run_conn_calls local_conn ks lc = Ret (rs2, lc1);
  at_ok : Forall conn_call_ok ks;
  at_results : length rs1 = length pre;
  at_bound : (N.of_nat (length pre + length ks) <= 2 ^ 64)%N;
  at_broker : at_server s = broker lc;
  at_handled : frames_handled s = local_calls lc;
  at_session : session_ok (handler (peer s)) (AtBroker (local_user lc));
  at_running : running (peer s) = true;
  at_sending : sending (peer s) = true;
  at_reading : reading (cl s) = true;
  at_user : remote_user (cl s) = local_user lc;
  at_started : started (cl s) = called s;
  at_views j k r : pre !! j = Some k → rs1 !! j = Some r → call_view (actor_id j) k r (view_of j s);
  at_fresh j : called s ≤ j → (N.of_nat j < 2 ^ 64)%N →
    actors (cl s) !! actor_id j = None ∧ stream_actors (cl s) !! actor_id j = None;
  at_unused j : called s ≤ j → answered s !! j = None ∧ receivers s !! j = None;
  at_waiting j id : waiting s = Some (j, id) → called s = Datatypes.S j ∧ id = actor_id j;
  at_read : frames_read s ≤ length (wire (peer s));
  at_frames : Forall (λ f, ∃ j, j < length pre ∧ frame_id f = Some (actor_id j)) (in_flight s);
  at_phase :
    (up s = [] ∧ calls s = ks ∧ called s = length pre) ∨
    ∃ k ks' m, ks = k :: ks' ∧ calls s = ks' ∧ up s = [transform m] ∧
      request_of k (local_user lc) (actor_id (length pre)) = Ok m ∧
      called s = Datatypes.S (length pre) ∧
      view_of (length pre) s = sent_view (actor_id (length pre)) k
}.

(** How many steps are left, of which a call on its way has taken some already *)
Definition frame_count (r : conn_resp) : nat :=
  match r with ConnBlocks (Ok bs) => 1 + length bs | _ => 1 end.
Definition work (rs2 : list conn_resp) s : nat :=
  sum_list ((λ r, 5 + 2 * frame_count r) <$> rs2) + 2 * length (channel (peer s)) +
  (length (wire (peer s)) - frames_read s) + match waiting s with Some _ => 3 | None => 0 end +
  size (receivers s).
Definition taken s : nat := match up s with [] => 0 | _ => 4 end.

Lemma ids_differ lc1 pre ks rs1 rs2 lc s i j :
  async_at lc1 pre ks rs1 rs2 lc s → i < length pre + length ks → j < length pre + length ks →
  i ≠ j → actor_id i ≠ actor_id j.
Proof.
  intros Hat Hi Hj Hij Heq. pose proof (at_bound _ _ _ _ _ _ _ Hat).
  apply Hij, actor_id_inj; [lia..|done].
Qed.

Lemma called_bound lc1 pre ks rs1 rs2 lc s :
  async_at lc1 pre ks rs1 rs2 lc s →
  length pre ≤ called s ∧ called s + length (calls s) = length pre + length ks.
Proof.
  intros Hat. destruct (at_phase _ _ _ _ _ _ _ Hat) as [(_ & -> & ->)|(k & ks' & m & -> & -> & _ & _ & -> & _)];
    cbn; lia.
Qed.

(** What concerns one call only leaves the view of any other as it is. *)
Lemma view_of_other i j s s' :
  actor_id i ≠ actor_id j →
  (actors (cl s') !! actor_id i = actors (cl s) !! actor_id i ∧
   stream_actors (cl s') !! actor_id i = stream_actors (cl s) !! actor_id i) →
  frames_for (actor_id i) (in_flight s') = frames_for (actor_id i) (in_flight s) →
  answered s' !! i = answered s !! i → receivers s' !! i = receivers s !! i →
  v_waits (view_of i s') = v_waits (view_of i s) → view_of i s' = view_of i s.
Proof.
  intros Hid [Ho1 Ho2] Hf Ha Hr Hw.
  unfold view_of in *. cbn in Hw. by rewrite Hf, Ha, Hr, Ho1, Ho2, Hw.
Qed.
Lemma waits_other i j id s : i ≠ j → waiting s = Some (j, id) → v_waits (view_of i s) = None.
Proof. intros Hij Hw. cbn. rewrite Hw. by rewrite decide_False. Qed.
Lemma waits_none i s : waiting s = None → v_waits (view_of i s) = None.
Proof. intros Hw. cbn. by rewrite Hw. Qed.
Lemma waits_self j id s : waiting s = Some (j, id) → v_waits (view_of j s) = Some id.
Proof. intros Hw. cbn. rewrite Hw. by rewrite decide_True. Qed.

(** A frame of a call on its way is of no other call. *)
Lemma frames_for_nil id frames :
  Forall (λ f, frame_id f ≠ Some id) frames → frames_for id frames = [].
Proof.
  intros Hf. induction Hf as [|f fs Hne _ IH]; [done|]. unfold frames_for in *.
  by rewrite filter_cons_False.
Qed.
Lemma frames_for_app id l1 l2 : frames_for id (l1 ++ l2) = frames_for id l1 ++ frames_for id l2.
Proof. apply filter_app. Qed.
Lemma frames_for_all id frames :
  Forall (λ f, frame_id f = Some id) frames → frames_for id frames = frames.
Proof.
  intros Hf. induction Hf as [|f fs Heq _ IH]; [done|]. unfold frames_for in *.
  rewrite filter_cons_True by done. by f_equal.
Qed.
Lemma no_frames lc1 pre ks rs1 rs2 lc s j :
  async_at lc1 pre ks rs1 rs2 lc s → length pre ≤ j → j < length pre + length ks →
  frames_for (actor_id j) (in_flight s) = [].
Proof.
  intros Hat Hj Hj'. apply frames_for_nil. eapply Forall_impl; [apply (at_frames _ _ _ _ _ _ _ Hat)|].
  intros f (i & Hi & ->) [= Heq]. by eapply ids_differ in Heq; [|done|..]; [|lia..].
Qed.

(** ** The steps keep it *)

Lemma work_taken lc1 pre ks rs1 rs2 lc s : async_at lc1 pre ks rs1 rs2 lc s → taken s ≤ work rs2 s.
Proof.
  intros Hat. unfold taken, work.
  destruct (at_phase _ _ _ _ _ _ _ Hat) as [(-> & _)|(k & ks' & m & -> & _ & -> & _)]; [lia|].
  pose proof (at_run _ _ _ _ _ _ _ Hat) as Hrun. cbn [run_conn_calls] in Hrun.
  destruct (run_conn_call _ k lc) as [[r lc2]| |]; [|done..]. cbn [mbind outcome_bind] in Hrun.
  destruct (run_conn_calls _ ks' lc2) as [[rs lc3]| |]; [|done..]. injection Hrun as <- _. cbn. lia.
Qed.

Lemma in_flight_flush frame rest s :
  frames_read s ≤ length (wire (peer s)) → channel (peer s) = frame :: rest →
  in_flight (node_flushes (flushed frame rest (peer s)) s) = in_flight s.
Proof.
  intros Hr Hc. unfold in_flight. cbn. rewrite Hc, drop_app_le by done. by rewrite <- (assoc_L (++)).
Qed.
Lemma step_flush lc1 pre ks rs1 rs2 lc s frame rest :
  async_at lc1 pre ks rs1 rs2 lc s → channel (peer s) = frame :: rest →
  async_at lc1 pre ks rs1 rs2 lc (node_flushes (flushed frame rest (peer s)) s) ∧
  work rs2 (node_flushes (flushed frame rest (peer s)) s) < work rs2 s.
Proof.
  intros Hat Hc. pose proof (in_flight_flush frame rest s (at_read _ _ _ _ _ _ _ Hat) Hc) as Hin.
  assert (Hview : ∀ j, view_of j (node_flushes (flushed frame rest (peer s)) s) = view_of j s)
    by (intros j; unfold view_of; by rewrite Hin).
  split.
  - destruct Hat. constructor; try done; cbn [frames_read node_flushes wire peer flushed].
    + intros j k r. rewrite Hview. apply at_views0.
    + rewrite length_app. lia.
    + by rewrite Hin.
    + destruct at_phase0 as [?|(k & ks' & m & ? & ? & ? & ? & ? & ?)]; [by left|right].
      exists k, ks', m. rewrite Hview. done.
  - pose proof (at_read _ _ _ _ _ _ _ Hat). unfold work. cbn. rewrite Hc, length_app. cbn. lia.
Qed.

(** A step of one call that was handled *)
Lemma step_one_call lc1 pre ks rs1 rs2 lc s s' j :
  async_at lc1 pre ks rs1 rs2 lc s → j < length pre → only (actor_id j) (cl s) (cl s') →
  peer s' = peer s → at_server s' = at_server s → frames_handled s' = frames_handled s →
  up s' = up s → calls s' = calls s → called s' = called s →
  frames_read s' ≤ length (wire (peer s)) → in_flight s' ⊆ in_flight s →
  (waiting s' = waiting s ∨ waiting s' = None ∧ called s = Datatypes.S j) →
  (∀ i, i ≠ j → i < length pre + length ks → view_of i s' = view_of i s) →
  (∀ i, i ≠ j → answered s' !! i = answered s !! i ∧ receivers s' !! i = receivers s !! i) →
  (∀ k r, call_view (actor_id j) k r (view_of j s) → pre !! j = Some k → rs1 !! j = Some r →
          call_view (actor_id j) k r (view_of j s')) →
  async_at lc1 pre ks rs1 rs2 lc s'.
Proof.
  intros Hat Hj (Hr & Hst & Hu & Ho) Hp Hsrv Hh Hup Hcs Hcd Hread Hin Hw Hviews Hans Hview.
  pose proof (called_bound _ _ _ _ _ _ _ Hat) as [Hcb1 Hcb2].
  destruct Hat. constructor; rewrite ?Hp, ?Hsrv, ?Hh, ?Hup, ?Hcs, ?Hcd, ?Hr, ?Hst, ?Hu; try done.
  - intros i k r Hi Hri. destruct (decide (i = j)) as [->|Hij]; [by apply Hview; auto|].
    rewrite Hviews; [by apply at_views0|done|]. apply lookup_lt_Some in Hi. lia.
  - intros i Hi Hb. destruct (Ho (actor_id i)) as [-> ->]; [|by apply at_fresh0].
    intros Heq%actor_id_inj; lia.
  - intros i Hi. destruct (Hans i) as [-> ->]; [lia|]. by apply at_unused0.
  - destruct Hw as [->|[-> _]]; [done|]. by intros i id.
  - rewrite Forall_forall in at_frames0 |- *. intros f Hf. by apply at_frames0, Hin.
  - destruct at_phase0 as [?|(k & ks' & m & ? & ? & ? & ? & ? & ?)]; [by left|right].
    exists k, ks', m. subst ks. rewrite Hviews; [done|lia|cbn; lia].
Qed.

Lemma step_read lc1 pre ks rs1 rs2 lc s frame c :
  async_at lc1 pre ks rs1 rs2 lc s → wire (peer s) !! frames_read s = Some frame →
  (∃ c', reader_loop [frame] (cl s) = Ret c') ∧
  (reader_loop [frame] (cl s) = Ret c →
   async_at lc1 pre ks rs1 rs2 lc (reads_frame c s) ∧
   work rs2 (reads_frame c s) < work rs2 s).
Proof.
  intros Hat Hf. pose proof (drop_S _ _ _ Hf) as Hdrop.
  assert (Hin : in_flight s = frame :: in_flight (reads_frame c s))
    by (unfold in_flight; cbn; by rewrite Hdrop).
  pose proof (at_frames _ _ _ _ _ _ _ Hat) as Hfr. rewrite Hin in Hfr.
  apply Forall_cons in Hfr as [(j & Hj & Hid) _].
  destruct (lookup_lt_is_Some_2 pre j Hj) as [k Hk].
  destruct (lookup_lt_is_Some_2 rs1 j) as [r Hrj]; [by rewrite (at_results _ _ _ _ _ _ _ Hat)|].
  pose proof (at_views _ _ _ _ _ _ _ Hat j k r Hk Hrj) as Hv.
  destruct (read_frame (actor_id j) k r (view_of j s) frame
    (frames_for (actor_id j) (in_flight (reads_frame c s))) (cl s) Hv)
    as (c' & Hc' & Honly & Hv'); [|apply (at_reading _ _ _ _ _ _ _ Hat)|done..|].
  { cbn. rewrite Hin. unfold frames_for. by rewrite filter_cons_True. }
  split; [by eexists|]. rewrite Hc'. intros [= <-]. apply lookup_lt_Some in Hf. split.
  - apply (step_one_call _ _ _ _ _ _ s _ j); try done.
    + intros x Hx. rewrite Hin. by constructor.
    + by left.
    + intros i Hij Hi. assert (Hne : actor_id i ≠ actor_id j) by (eapply ids_differ; [done|lia..|done]).
      apply (view_of_other i j); try done; [by apply Honly|]. rewrite Hin. unfold frames_for at 2.
      rewrite filter_cons_False; [done|]. rewrite Hid. by intros [= ?].
    + intros k' r' _ Hk' Hr'. simplify_eq. exact Hv'.
  - unfold work. cbn. lia.
Qed.

Lemma waits_or_receives id k r v :
  call_view id k r v →
  (∀ i, v_waits v = Some i → v_receives v = None ∧ v_answer v = None) ∧
  (∀ i, v_receives v = Some i → i = id ∧ v_waits v = None ∧ v_answer v = None).
Proof. destruct 1 as [| |? ? ? ? []|? ? ? []| | |]; cbn; split; intros i; try done; by intros [= <-]. Qed.

Lemma waiting_handled lc1 pre ks rs1 rs2 lc s j id :
  async_at lc1 pre ks rs1 rs2 lc s → up s = [] → waiting s = Some (j, id) →
  id = actor_id j ∧ v_waits (view_of j s) = Some id ∧
  ∃ k r, pre !! j = Some k ∧ rs1 !! j = Some r ∧ call_view id k r (view_of j s).
Proof.
  intros Hat Hup Hw. destruct (at_waiting _ _ _ _ _ _ _ Hat j id Hw) as [Hc ->].
  split; [done|]. split; [by apply waits_self|].
  destruct (at_phase _ _ _ _ _ _ _ Hat) as [(_ & _ & Hcd)|(k & ks' & m & _ & _ & Hno & _)];
    [|by rewrite Hup in Hno].
  destruct (lookup_lt_is_Some_2 pre j) as [k Hk]; [lia|].
  destruct (lookup_lt_is_Some_2 rs1 j) as [r Hr]; [rewrite (at_results _ _ _ _ _ _ _ Hat); lia|].
  exists k, r. split_and!; [done..|]. by eapply at_views.
Qed.

(** The call the client waits in was handled, or it is on its way. *)
Lemma waiting_view lc1 pre ks rs1 rs2 lc s j id :
  async_at lc1 pre ks rs1 rs2 lc s → waiting s = Some (j, id) →
  id = actor_id j ∧ v_waits (view_of j s) = Some id ∧
  ((∃ k r, pre !! j = Some k ∧ rs1 !! j = Some r ∧ call_view id k r (view_of j s)) ∨
   ∃ k, view_of j s = sent_view id k).
Proof.
  intros Hat Hw. destruct (up s) as [|f fs] eqn:Hup.
  { destruct (waiting_handled _ _ _ _ _ _ _ _ _ Hat Hup Hw) as (? & ? & ?). auto. }
  destruct (at_waiting _ _ _ _ _ _ _ Hat j id Hw) as [Hc ->].
  split; [done|]. split; [by apply waits_self|]. right.
  destruct (at_phase _ _ _ _ _ _ _ Hat) as [(Hno & _)|(k & ks' & m & _ & _ & _ & _ & Hcd & Hv)];
    [by rewrite Hno in Hup|].
  exists k. assert (j = length pre) as -> by lia. done.
Qed.

(** A call that ends with its answer *)
Lemma step_ends lc1 pre ks rs1 rs2 lc s s' j k r :
  async_at lc1 pre ks rs1 rs2 lc s → pre !! j = Some k → rs1 !! j = Some r →
  v_frames (view_of j s) = [] → only (actor_id j) (cl s) (cl s') →
  peer s' = peer s → at_server s' = at_server s → frames_handled s' = frames_handled s →
  up s' = up s → calls s' = calls s → called s' = called s → frames_read s' = frames_read s →
  answered s' = <[j := resp_skip r]> (answered s) → receivers s' = delete j (receivers s) →
  (∀ i, i ≠ j → v_waits (view_of i s') = v_waits (view_of i s)) →
  (waiting s' = waiting s ∧ v_waits (view_of j s) = None ∨ waiting s' = None ∧ called s = Datatypes.S j) →
  async_at lc1 pre ks rs1 rs2 lc s'.
Proof.
  intros Hat Hk Hr Hf Honly Hp Hsrv Hh Hup Hcs Hcd Hread Ha Hrec Hw1 Hw2.
  pose proof (lookup_lt_Some _ _ _ Hk) as Hj.
  assert (Hin : in_flight s' = in_flight s) by (unfold in_flight; by rewrite Hread, Hp).
  apply (step_one_call _ _ _ _ _ _ s s' j); try done.
  - rewrite Hread. by apply (at_read _ _ _ _ _ _ _ Hat).
  - by rewrite Hin.
  - destruct Hw2 as [[? _]|?]; [by left|by right].
  - intros i Hij Hi. assert (Hne : actor_id i ≠ actor_id j) by (eapply ids_differ; [done|lia..|done]).
    apply (view_of_other i j); [done|by apply Honly|..].
    + by rewrite Hin.
    + by rewrite Ha, lookup_insert_ne.
    + by rewrite Hrec, lookup_delete_ne.
    + by apply Hw1.
  - intros i Hij. by rewrite Ha, Hrec, lookup_insert_ne, lookup_delete_ne.
  - intros k' r' _ Hk' Hr'. simplify_eq.
    assert (Hwn : v_waits (view_of j s') = None).
    { destruct Hw2 as [[Hw ?]|[Hw _]]; [|by apply waits_none]. cbn in *. by rewrite Hw. }
    unfold view_of in Hwn |- *. cbn in Hwn. rewrite Hwn, Hin, Ha, Hrec, lookup_insert_eq, lookup_delete_eq.
    cbn in Hf. rewrite Hf. apply view_done.
Qed.

Lemma step_answer lc1 pre ks rs1 rs2 lc s j id k r r' c :
  async_at lc1 pre ks rs1 rs2 lc s → waiting s = Some (j, id) →
  pre !! j = Some k → rs1 !! j = Some r → call_view id k r (view_of j s) →
  v_frames (view_of j s) = [] → only id (cl s) c → r' = resp_skip r →
  async_at lc1 pre ks rs1 rs2 lc (answer_call j r' (with_client c s)) ∧
  work rs2 (answer_call j r' (with_client c s)) < work rs2 s.
Proof.
  intros Hat Hw Hk Hr Hv Hf Honly ->.
  destruct (at_waiting _ _ _ _ _ _ _ Hat j id Hw) as [Hc ->]. split.
  - apply (step_ends _ _ _ _ _ _ s _ j k r); try done.
    + cbn. rewrite delete_id; [done|].
      destruct (proj1 (waits_or_receives _ _ _ _ Hv) _ (waits_self _ _ _ Hw)) as [Hn _]. exact Hn.
    + intros i Hij. by rewrite (waits_other i j _ s Hij Hw).
    + by right.
  - unfold work. cbn. rewrite Hw. lia.
Qed.
Lemma step_hold lc1 pre ks rs1 rs2 lc s j id k r :
  async_at lc1 pre ks rs1 rs2 lc s → waiting s = Some (j, id) →
  pre !! j = Some k → rs1 !! j = Some r → call_view id k r (view_of j s) →
  (let v := view_of j s in call_view id k r
     {| v_frames := v_frames v; v_actor := v_actor v; v_stream := v_stream v;
        v_answer := v_answer v; v_receives := Some id; v_waits := None |}) →
  async_at lc1 pre ks rs1 rs2 lc (hold_receiver j id s) ∧ work rs2 (hold_receiver j id s) < work rs2 s.
Proof.
  intros Hat Hw Hk Hr Hv Hv'.
  destruct (at_waiting _ _ _ _ _ _ _ Hat j id Hw) as [Hc ->].
  destruct (proj1 (waits_or_receives _ _ _ _ Hv) _ (waits_self _ _ _ Hw)) as [Hn _]. cbn in Hn. split.
  - apply (step_one_call _ _ _ _ _ _ s _ j); try done.
    + by eapply lookup_lt_Some.
    + apply (at_read _ _ _ _ _ _ _ Hat).
    + by right.
    + intros i Hij Hi. apply (view_of_other i j); try done.
      * eapply ids_differ; [done|lia| |done]. apply lookup_lt_Some in Hk. lia.
      * cbn. by rewrite lookup_insert_ne.
      * by rewrite (waits_other i j _ s Hij Hw).
    + intros i Hij. cbn. by rewrite lookup_insert_ne.
    + intros k' r' _ Hk' Hr'. simplify_eq. cbn in Hv'. unfold view_of. cbn. by rewrite lookup_insert_eq.
  - unfold work. cbn. rewrite Hw, map_size_insert_None by done. lia.
Qed.
Lemma step_received lc1 pre ks rs1 rs2 lc s j k r bs c :
  async_at lc1 pre ks rs1 rs2 lc s → receivers s !! j = Some (actor_id j) →
  pre !! j = Some k → rs1 !! j = Some r → call_view (actor_id j) k r (view_of j s) →
  v_frames (view_of j s) = [] → only (actor_id j) (cl s) c → resp_skip r = ConnBlocks (Ok bs) →
  async_at lc1 pre ks rs1 rs2 lc (close_receiver j bs (with_client c s)) ∧
  work rs2 (close_receiver j bs (with_client c s)) < work rs2 s.
Proof.
  intros Hat Hrec Hk Hr Hv Hf Honly Hbs. split.
  - apply (step_ends _ _ _ _ _ _ s _ j k r); try done; [cbn; by rewrite Hbs|].
    left. split; [done|]. by destruct (proj2 (waits_or_receives _ _ _ _ Hv) (actor_id j) Hrec) as (_ & ? & _).
  - unfold work. cbn. rewrite map_size_delete_Some by (by eexists).
    assert (size (receivers s) ≠ 0) by (intros Hs%map_size_empty_inv; rewrite Hs in Hrec; by rewrite lookup_empty in Hrec).
    lia.
Qed.

(** ** A call that is made *)

Lemma idle_phase lc1 pre ks rs1 rs2 lc s :
  async_at lc1 pre ks rs1 rs2 lc s → waiting s = None →
  up s = [] ∧ calls s = ks ∧ called s = length pre.
Proof.
  intros Hat Hw. destruct (at_phase _ _ _ _ _ _ _ Hat) as [?|(k & ks' & m & _ & _ & _ & _ & _ & Hv)]; [done|].
  apply (f_equal v_waits) in Hv. by rewrite waits_none in Hv.
Qed.
Lemma begin_spec k c :
  reading (begin k c) = reading c ∧ remote_user (begin k c) = remote_user c ∧
  started (begin k c) = 1 + started c ∧
  actors (begin k c) = (if is_stream k then actors c else <[actor_id (started c) := new_actor]> (actors c)) ∧
  stream_actors (begin k c) =
    (if is_stream k then <[actor_id (started c) := new_stream_actor]> (stream_actors c) else stream_actors c).
Proof. unfold begin. by destruct (is_stream k). Qed.
Lemma begin_others k c i : i ≠ actor_id (started c) →
  actors (begin k c) !! i = actors c !! i ∧ stream_actors (begin k c) !! i = stream_actors c !! i.
Proof.
  intros Hi. destruct (begin_spec k c) as (_ & _ & _ & -> & ->).
  destruct (is_stream k); by rewrite ?lookup_insert_ne.
Qed.

Lemma run_cons_inv k ks lc rs lc1 :
  run_conn_calls local_conn (k :: ks) lc = Ret (rs, lc1) → ∃ r lc' rs',
  run_conn_call local_conn k lc = Ret (r, lc') ∧ run_conn_calls local_conn ks lc' = Ret (rs', lc1) ∧
  rs = r :: rs'.
Proof.
  cbn [run_conn_calls]. destruct (run_conn_call local_conn k lc) as [[r lc']| |]; [|done..].
  cbn [mbind outcome_bind]. destruct (run_conn_calls local_conn ks lc') as [[rs' lc2]| |] eqn:Hrun; [|done..].
  intros [= <- <-]. by exists r, lc', rs'.
Qed.

Lemma step_call lc1 pre ks rs1 rs2 lc s k ks' m :
  async_at lc1 pre ks rs1 rs2 lc s → calls s = k :: ks' → waiting s = None →
  request_of k (remote_user (cl s)) (actor_id (started (cl s))) = Ok m →
  let s' := make_call ks' (actor_id (started (cl s))) (transform m) (with_client (begin k (cl s)) s) in
  async_at lc1 pre ks rs1 rs2 lc s' ∧ work rs2 s' + taken s < work rs2 s + taken s'.
Proof.
  intros Hat Hcs Hw Hm s'. destruct (idle_phase _ _ _ _ _ _ _ Hat Hw) as (Hup & Hks & Hcd).
  rewrite Hks in Hcs. pose proof (at_started _ _ _ _ _ _ _ Hat) as Hst.
  destruct (begin_spec k (cl s)) as (Hr & Hu & Hs & Ha & Hsa). rewrite Hcd in Hst.
  pose proof (at_bound _ _ _ _ _ _ _ Hat) as Hb.
  assert (Hlt : length pre < length pre + length ks) by (rewrite Hcs; cbn; lia).
  assert (Hview : view_of (length pre) s' = sent_view (actor_id (length pre)) k).
  { unfold view_of. change (in_flight s') with (in_flight s).
    rewrite (no_frames _ _ _ _ _ _ _ _ Hat (le_n _) Hlt).
    unfold s', sent_view. cbn. rewrite Hcd, decide_True by done. rewrite Ha, Hsa, Hst.
    destruct (at_unused _ _ _ _ _ _ _ Hat (length pre)) as [-> ->]; [lia|].
    destruct (at_fresh _ _ _ _ _ _ _ Hat (length pre)) as [Hf1 Hf2]; [lia..|].
    destruct (is_stream k); by rewrite lookup_insert_eq, ?Hf1, ?Hf2. }
  split.
  - destruct Hat. constructor; try done.
    + cbn. by rewrite Hr.
    + cbn. by rewrite Hu.
    + cbn. rewrite Hs. lia.
    + intros j k' r Hk Hrj. pose proof (lookup_lt_Some _ _ _ Hk) as Hj.
      rewrite (view_of_other j (length pre) s s'); [by apply at_views0|..|done|done|done|].
      * intros Heq%actor_id_inj; lia.
      * apply begin_others. rewrite Hst. intros Heq%actor_id_inj; lia.
      * unfold s'. cbn. rewrite Hw, Hcd. rewrite decide_False; [done|lia].
    + intros j Hj Hbj. unfold s' in Hj |- *. cbn in Hj |- *.
      destruct (begin_others k (cl s) (actor_id j)) as [-> ->]; [|apply at_fresh0; [lia|done]].
      rewrite Hst. intros Heq%actor_id_inj; lia.
    + intros j Hj. apply at_unused0. unfold s' in Hj. cbn in Hj. lia.
    + intros j id. unfold s'. cbn. intros [= <- <-]. rewrite Hst, Hcd. done.
    + right. exists k, ks', m. split_and!; [done|done| | | |done].
      * unfold s'. cbn. by rewrite Hup.
      * by rewrite <- at_user0, <- Hst.
      * unfold s'. cbn. by rewrite Hcd.
  - unfold work, taken, s'. cbn. rewrite Hw, Hup. cbn. lia.
Qed.

(** A request that is not made is answered the same at once. *)
Lemma refused_local k lc user id e :
  user = local_user lc → request_of k user id = Err e →
  is_stream k = false ∧ run_conn_call local_conn k lc = Ret (ConnUnit (Err e), lc).
Proof.
  intros -> He. destruct k as [|o r|user_id sk]; try done. split; [done|]. cbn in He |- *.
  unfold local_add_user. destruct (sign _ _ _) as [sig|e']; [done|]. by injection He as <-.
Qed.

(** The calls handled are one more. *)
Lemma at_views_snoc pre rs1 k r s s' :
  length rs1 = length pre →
  (∀ j k r, pre !! j = Some k → rs1 !! j = Some r → call_view (actor_id j) k r (view_of j s)) →
  (∀ j, j < length pre → view_of j s' = view_of j s) →
  call_view (actor_id (length pre)) k r (view_of (length pre) s') →
  ∀ j k' r', (pre ++ [k]) !! j = Some k' → (rs1 ++ [r]) !! j = Some r' →
             call_view (actor_id j) k' r' (view_of j s').
Proof.
  intros Hlen Hviews Hsame Hnew j k' r' Hk Hr. pose proof (lookup_lt_Some _ _ _ Hk) as Hj.
  rewrite length_app in Hj. cbn in Hj. destruct (decide (j = length pre)) as [->|Hne].
  - rewrite lookup_app_r, Nat.sub_diag in Hk by lia. injection Hk as <-.
    rewrite lookup_app_r, Hlen, Nat.sub_diag in Hr by lia. by injection Hr as <-.
  - rewrite lookup_app_l in Hk by lia. rewrite lookup_app_l in Hr by lia.
    rewrite Hsame by lia. by apply Hviews.
Qed.
Lemma at_frames_snoc pre (k : conn_call) frames :
  Forall (λ f, ∃ j, j < length pre ∧ frame_id f = Some (actor_id j)) frames →
  Forall (λ f, ∃ j, j < length (pre ++ [k]) ∧ frame_id f = Some (actor_id j)) frames.
Proof.
  intros Hf. eapply Forall_impl; [exact Hf|]. intros f (j & Hj & Hid). exists j. split; [|done].
  rewrite length_app. lia.
Qed.

Lemma step_refused lc1 pre ks rs1 rs2 lc s k ks' e :
  async_at lc1 pre ks rs1 rs2 lc s → calls s = k :: ks' → waiting s = None →
  request_of k (remote_user (cl s)) (actor_id (started (cl s))) = Err e →
  let s' := refuse_call ks' (ConnUnit (Err e))
              (with_client (dropped (actor_id (started (cl s))) (begin k (cl s))) s) in
  ∃ r rs2', rs2 = r :: rs2' ∧ ks = k :: ks' ∧
    async_at lc1 (pre ++ [k]) ks' (rs1 ++ [r]) rs2' lc s' ∧
    work rs2' s' + taken s < work rs2 s + taken s'.
Proof.
  intros Hat Hcs Hw Hm s'. destruct (idle_phase _ _ _ _ _ _ _ Hat Hw) as (Hup & Hks & Hcd).
  rewrite Hks in Hcs. subst ks. pose proof (at_started _ _ _ _ _ _ _ Hat) as Hst. rewrite Hcd in Hst.
  destruct (refused_local _ _ _ _ _ (at_user _ _ _ _ _ _ _ Hat) Hm) as [Hns Hloc].
  destruct (run_cons_inv _ _ _ _ _ (at_run _ _ _ _ _ _ _ Hat)) as (r & lc' & rs' & Hrun & Hrest & ->).
  rewrite Hloc in Hrun. injection Hrun as <- <-. exists (ConnUnit (Err e)), rs'.
  split; [done|]. split; [done|].
  destruct (begin_spec k (cl s)) as (Hr & Hu & Hs & Ha & Hsa).
  pose proof (at_bound _ _ _ _ _ _ _ Hat) as Hb. cbn [length] in Hb.
  assert (Hothers : ∀ i, i ≠ actor_id (started (cl s)) →
    actors (cl s') !! i = actors (cl s) !! i ∧ stream_actors (cl s') !! i = stream_actors (cl s) !! i).
  { intros i Hi. unfold s', dropped. cbn. rewrite lookup_alter_ne by done. by apply begin_others. }
  split.
  - pose proof (no_frames _ _ _ _ _ _ _ (length pre) Hat (le_n _) ltac:(cbn; lia)) as Hnf.
    destruct Hat. constructor; try done.
    + by apply Forall_cons in at_ok0 as [_ ?].
    + rewrite !length_app. cbn. lia.
    + rewrite length_app. cbn. lia.
    + cbn. by rewrite Hr.
    + cbn. by rewrite Hu.
    + cbn. rewrite Hs. lia.
    + apply (at_views_snoc _ _ _ _ s); [done|done|..].
      * intros j Hj. apply (view_of_other j (length pre)); [intros Heq%actor_id_inj; lia| |done| |done|].
        -- apply Hothers. rewrite Hst. intros Heq%actor_id_inj; lia.
        -- unfold s'. cbn. rewrite Hcd, lookup_insert_ne; [done|lia].
        -- unfold s'. cbn. by rewrite Hw.
      * unfold view_of. change (in_flight s') with (in_flight s). rewrite Hnf.
        unfold s'. cbn. rewrite Hcd, lookup_insert_eq. destruct (at_unused0 (length pre)) as [_ ->]; [lia|].
        apply (view_done _ k (ConnUnit (Err e))).
    + intros j Hj Hbj. unfold s' in Hj. cbn in Hj.
      destruct (Hothers (actor_id j)) as [-> ->]; [|apply at_fresh0; [lia|done]].
      rewrite Hst. intros Heq%actor_id_inj; lia.
    + intros j Hj. unfold s' in Hj |- *. cbn in Hj |- *. rewrite lookup_insert_ne by lia. apply at_unused0. lia.
    + by apply at_frames_snoc.
    + left. unfold s'. cbn. rewrite length_app. cbn. split_and!; [done|done|lia].
  - unfold work, taken, s'. cbn. rewrite Hw, Hup. cbn. lia.
Qed.

Lemma call_frames_count k id r :
  match r with ConnUnit _ => is_stream k = false | ConnBlocks _ => is_stream k = true end →
  length (call_frames k id r) = frame_count r.
Proof.
  destruct k, r as [res|[bs|e]]; try done. intros _. cbn. rewrite length_app, length_fmap. cbn. lia.
Qed.

(** The peer after its reply and the frames of a task *)
Definition replied_peer (f : bytes) (rest : list bytes) (c0 c : connection) : Prop :=
  handler c = handler c0 ∧ running c = running c0 ∧ sending c = sending c0 ∧
  wire c = wire c0 ++ [f] ∧ channel c = channel c0 ++ rest.
Lemma in_flight_handled f rest (c : connection) srv s :
  frames_read s ≤ length (wire (peer s)) → replied_peer f rest (peer s) c →
  in_flight (node_handles [] c srv s) =
    (drop (frames_read s) (wire (peer s)) ++ [f]) ++ channel (peer s) ++ rest.
Proof.
  intros Hr (_ & _ & _ & Hw & Hc). unfold in_flight. cbn. by rewrite Hw, Hc, drop_app_le.
Qed.
(** The frames of a call that is handled are added, those of the others stay. *)
Lemma frames_for_handled id f rest (c : connection) srv s :
  frames_read s ≤ length (wire (peer s)) → replied_peer f rest (peer s) c →
  (frame_id f ≠ Some id → Forall (λ f, frame_id f ≠ Some id) rest →
   frames_for id (in_flight (node_handles [] c srv s)) = frames_for id (in_flight s)) ∧
  (frame_id f = Some id → Forall (λ f, frame_id f = Some id) rest → frames_for id (in_flight s) = [] →
   frames_for id (in_flight (node_handles [] c srv s)) = f :: rest).
Proof.
  intros Hr Hc. rewrite (in_flight_handled f rest c srv s Hr Hc). unfold in_flight.
  rewrite !frames_for_app. split.
  - intros Hf Hrest. rewrite (frames_for_nil _ [f]), (frames_for_nil _ rest), !app_nil_r; [done..|].
    by constructor.
  - intros Hf Hrest [-> ->]%app_nil. rewrite (frames_for_all _ [f]), (frames_for_all _ rest); [done..|].
    by constructor.
Qed.

Lemma step_handled lc1 pre k ks rs1 r rs2 lc lc' s m f rest (c : connection) :
  let id := actor_id (length pre) in
  async_at lc1 pre (k :: ks) rs1 (r :: rs2) lc s → run_conn_calls local_conn ks lc' = Ret (rs2, lc1) →
  local_user lc' = local_user lc → local_calls lc' = 1 + local_calls lc →
  up s = [m] → calls s = ks → called s = Datatypes.S (length pre) →
  call_view id k r {| v_frames := f :: rest; v_actor := v_actor (view_of (length pre) s);
    v_stream := v_stream (view_of (length pre) s); v_answer := v_answer (view_of (length pre) s);
    v_receives := v_receives (view_of (length pre) s); v_waits := v_waits (view_of (length pre) s) |} →
  frame_id f = Some id → Forall (λ f, frame_id f = Some id) rest → replied_peer f rest (peer s) c →
  async_at lc1 (pre ++ [k]) ks (rs1 ++ [r]) rs2 lc' (node_handles [] c (broker lc') s).
Proof.
  intros id Hat Hrun Huser Hcalls Hup Hcs Hcd Hview Hf Hrest Hc.
  pose proof (at_bound _ _ _ _ _ _ _ Hat) as Hb. cbn [length] in Hb.
  pose proof (at_read _ _ _ _ _ _ _ Hat) as Hread.
  pose proof (no_frames _ _ _ _ _ _ _ (length pre) Hat (le_n _) ltac:(cbn; lia)) as Hnf.
  pose proof (λ id, frames_for_handled id f rest c (broker lc') s Hread Hc) as Hfor.
  pose proof (in_flight_handled f rest c (broker lc') s Hread Hc) as Hin.
  destruct Hc as (Hch & Hcr & Hcsd & Hcw & Hcc).
  destruct Hat. constructor; try done; cbn [cl peer node_handles frames_handled frames_read]; try by congruence.
  - by apply Forall_cons in at_ok0 as [_ ?].
  - rewrite !length_app. cbn. lia.
  - rewrite length_app. cbn. lia.
  - apply (at_views_snoc _ _ _ _ s); [done|done|..].
    + intros j Hj. assert (Hne : id ≠ actor_id j) by (intros Heq%actor_id_inj; lia).
      unfold view_of. rewrite (proj1 (Hfor (actor_id j))); [done|rewrite Hf; by intros [= ?]|].
      eapply Forall_impl; [exact Hrest|]. intros f' ->. by intros [= ?].
    + unfold view_of. fold id. rewrite (proj2 (Hfor id) Hf Hrest Hnf). exact Hview.
  - rewrite Hcw, length_app. lia.
  - assert (Hnew : ∀ f', frame_id f' = Some id → ∃ j, j < length (pre ++ [k]) ∧ frame_id f' = Some (actor_id j))
      by (intros f' Hf'; exists (length pre); rewrite length_app; cbn; split; [lia|done]).
    unfold in_flight in at_frames0. apply Forall_app in at_frames0 as [Hd Hcf].
    rewrite Hin, !Forall_app. split_and!; try by apply at_frames_snoc.
    + constructor; [|done]. by apply Hnew.
    + eapply Forall_impl; [exact Hrest|]. exact Hnew.
  - left. cbn. rewrite length_app. cbn. split_and!; [done|done|lia].
Qed.

Lemma step_handle lc1 pre ks rs1 rs2 lc s frame frames go out h srv :
  async_at lc1 pre ks rs1 rs2 lc s → up s = frame :: frames →
  ∃ k ks' r rs2', ks = k :: ks' ∧ rs2 = r :: rs2' ∧
  (∃ go out h srv, on_message obj_fuel fuel (WsBinary frame, envs (frames_handled s), true)
     (handler (peer s)) (at_server s) = Ret ((go, out), (h, srv))) ∧
  (on_message obj_fuel fuel (WsBinary frame, envs (frames_handled s), true)
     (handler (peer s)) (at_server s) = Ret ((go, out), (h, srv)) →
   let s' := node_handles frames
     (foldl emit (handled_by h go (Some (frame, envs (frames_handled s))) (peer s)) out) srv s in
   ∃ lc', async_at lc1 (pre ++ [k]) ks' (rs1 ++ [r]) rs2' lc' s' ∧
     work rs2' s' + taken s < work rs2 s + taken s').
Proof.
  intros Hat Hup.
  destruct (at_phase _ _ _ _ _ _ _ Hat) as [(Hno & _)|(k & ks' & m & -> & Hks & Hup' & Hm & Hcd & Hsent)];
    [by rewrite Hno in Hup|].
  rewrite Hup' in Hup. injection Hup as <- <-.
  destruct (run_cons_inv _ _ _ _ _ (at_run _ _ _ _ _ _ _ Hat)) as (r & lc' & rs2' & Hrun & Hrest & ->).
  pose proof (at_ok _ _ _ _ _ _ _ Hat) as [Hk Hok]%Forall_cons.
  destruct (handle_call obj_fuel fuel envs k lc r lc' (actor_id (length pre)) m _ Hrun Hk Hm (at_session _ _ _ _ _ _ _ Hat))
    as (out' & Hon & Hout & Huser & Hcalls & Hkind).
  exists k, ks', r, rs2'. split; [done|]. split; [done|].
  rewrite (at_handled _ _ _ _ _ _ _ Hat), (at_broker _ _ _ _ _ _ _ Hat), Hon. split; [by do 4 eexists|].
  intros [= <- <- <- <-] s'. exists lc'.
  destruct (emit_outputs _ _ (handled_by (handler (peer s)) true (Some (transform m, envs (local_calls lc))) (peer s)) Hout)
    as (f & rest & Hframes & Hemit).
  destruct (call_frames_view (actor_id (length pre)) k r Hkind) as [Hids Hview].
  pose proof (call_frames_count k (actor_id (length pre)) r ltac:(destruct r; [done|apply Hkind])) as Hcount.
  rewrite Hframes in Hids, Hview, Hcount. apply Forall_cons in Hids as [Hf Hidrest]. split.
  - apply (step_handled _ _ _ _ _ _ _ lc lc' s (transform m) f rest); try done; [by apply Hview|].
    rewrite Hemit. split_and!; try done. by rewrite (at_running _ _ _ _ _ _ _ Hat).
  - pose proof (at_read _ _ _ _ _ _ _ Hat) as Hread.
    unfold work, taken, s'. cbn [peer node_handles channel wire frames_read waiting receivers up].
    rewrite Hemit, Hup'. cbn in Hcount |- *. rewrite !length_app. cbn.
    destruct (waiting s) as [[]|]; lia.
Qed.

(** ** Every schedule *)

Abbreviation step := (async_step obj_fuel fuel envs).

(** Of all calls, with all their results *)
Definition async_inv lc1 (all : list conn_call) (rs : list conn_resp) (n : nat) s : Prop :=
  ∃ pre ks rs1 rs2 lc, all = pre ++ ks ∧ rs = rs1 ++ rs2 ∧
    async_at lc1 pre ks rs1 rs2 lc s ∧ n + taken s = work rs2 s.

Lemma async_inv_intro lc1 pre ks rs1 rs2 lc s n0 :
  async_at lc1 pre ks rs1 rs2 lc s → work rs2 s < n0 + taken s →
  ∃ n, n < n0 ∧ async_inv lc1 (pre ++ ks) (rs1 ++ rs2) n s.
Proof.
  intros Hat Hn. pose proof (work_taken _ _ _ _ _ _ _ Hat). exists (work rs2 s - taken s).
  split; [lia|]. exists pre, ks, rs1, rs2, lc. split_and!; [done..|lia].
Qed.

(** The receivers are those of calls that were handled. *)
Lemma receivers_view lc1 pre ks rs1 rs2 lc s j id :
  async_at lc1 pre ks rs1 rs2 lc s → receivers s !! j = Some id → ∃ k r,
  id = actor_id j ∧ pre !! j = Some k ∧ rs1 !! j = Some r ∧ call_view (actor_id j) k r (view_of j s).
Proof.
  intros Hat Hrec. assert (Hj : j < length pre).
  { destruct (decide (called s ≤ j)) as [Hle|Hlt].
    - destruct (at_unused _ _ _ _ _ _ _ Hat j Hle) as [_ Hn]. by rewrite Hn in Hrec.
    - destruct (at_phase _ _ _ _ _ _ _ Hat) as [(_ & _ & Hcd)|(k & ks' & m & _ & _ & _ & _ & Hcd & Hv)]; [lia|].
      destruct (decide (j = length pre)) as [->|]; [|lia].
      apply (f_equal v_receives) in Hv. cbn in Hv. by rewrite Hv in Hrec. }
  destruct (lookup_lt_is_Some_2 pre j Hj) as [k Hk].
  destruct (lookup_lt_is_Some_2 rs1 j) as [r Hr]; [by rewrite (at_results _ _ _ _ _ _ _ Hat)|].
  pose proof (at_views _ _ _ _ _ _ _ Hat j k r Hk Hr) as Hv. exists k, r.
  split_and!; [|done..]. by apply (proj2 (waits_or_receives _ _ _ _ Hv) id).
Qed.

(** A call that was not handled does not end. *)
Lemma sent_waits id k s j :
  id = actor_id j → view_of j s = sent_view id k →
  (is_Some (actors (cl s) !! id) → ∀ x c, call_try (after id) (reply_into result_unit) (cl s) ≠ Ret (x, c)) ∧
  (is_Some (stream_actors (cl s) !! id) → ∀ x c, first_reply id (cl s) ≠ Ret (x, c)).
Proof.
  intros -> Hv. pose proof (f_equal v_actor Hv) as Ha. pose proof (f_equal v_stream Hv) as Hs.
  cbn in Ha, Hs. unfold call_try, after, first_reply. rewrite Ha, Hs.
  destruct (is_stream k); split; intros Hsome x c; try (by destruct Hsome); done.
Qed.

Local Ltac less_work Hat :=
  apply (async_inv_intro _ _ _ _ _ _ _ _ Hat); unfold taken in *; cbn in *; lia.

Lemma async_inv_step lc1 all rs n s s' :
  async_inv lc1 all rs n s → step s s' → ∃ n', n' < n ∧ async_inv lc1 all rs n' s'.
Proof.
  intros (pre & ks & rs1 & rs2 & lc & -> & -> & Hat & Hn) Hstep.
  destruct Hstep as [k ks' m Hcs Hw Hm|k ks' e Hcs Hw Hm|frame frames go out h srv Hup Hrun Hon
    |frame rest Hs Hc|frame c Hf Hc|j id x c Hw Hs Hc|j id e c Hw Hs Hc|j id c Hw Hs Hc|j id a bs c Hrec Ha Ho Hc].
  - destruct (step_call _ _ _ _ _ _ _ _ _ _ Hat Hcs Hw Hm) as [Hat' Hlt].
    less_work Hat'.
  - destruct (step_refused _ _ _ _ _ _ _ _ _ _ Hat Hcs Hw Hm) as (r & rs2' & -> & -> & Hat' & Hlt).
    destruct (async_inv_intro _ _ _ _ _ _ _ n Hat') as (n' & ? & Hinv); [lia|].
    exists n'. split; [done|]. by rewrite <- !(assoc_L (++)) in Hinv.
  - destruct (step_handle _ _ _ _ _ _ _ _ _ go out h srv Hat Hup)
      as (k & ks' & r & rs2' & -> & -> & _ & Hnext).
    destruct (Hnext Hon) as (lc' & Hat' & Hlt).
    destruct (async_inv_intro _ _ _ _ _ _ _ n Hat') as (n' & ? & Hinv); [lia|].
    exists n'. split; [done|]. by rewrite <- !(assoc_L (++)) in Hinv.
  - destruct (step_flush _ _ _ _ _ _ _ _ _ Hat Hc) as [Hat' Hlt].
    less_work Hat'.
  - destruct (step_read _ _ _ _ _ _ _ _ c Hat Hf) as [_ Hnext]. destruct (Hnext Hc) as [Hat' Hlt].
    less_work Hat'.
  - destruct (waiting_view _ _ _ _ _ _ _ _ _ Hat Hw) as (-> & Hwv & [(k & r & Hk & Hr & Hv)|(k & Hv)]).
    2: { by destruct (proj1 (sent_waits _ _ _ _ eq_refl Hv) Hs x c). }
    destruct (after_call_view _ _ _ _ _ _ _ Hv Hwv eq_refl Hs Hc) as (-> & Hf & Honly).
    destruct (step_answer _ _ _ _ _ _ _ _ _ _ _ (ConnUnit x) c Hat Hw Hk Hr Hv Hf Honly eq_refl) as [Hat' Hlt].
    less_work Hat'.
  - destruct (waiting_view _ _ _ _ _ _ _ _ _ Hat Hw) as (-> & Hwv & [(k & r & Hk & Hr & Hv)|(k & Hv)]).
    2: { by destruct (proj2 (sent_waits _ _ _ _ eq_refl Hv) Hs (Err e) c). }
    destruct (no_stream_view _ _ _ _ _ _ _ Hv Hwv eq_refl Hs Hc) as (-> & Hf & Honly).
    destruct (step_answer _ _ _ _ _ _ _ _ _ _ _ (ConnBlocks (Err e)) c Hat Hw Hk Hr Hv Hf Honly eq_refl) as [Hat' Hlt].
    less_work Hat'.
  - destruct (waiting_view _ _ _ _ _ _ _ _ _ Hat Hw) as (-> & Hwv & [(k & r & Hk & Hr & Hv)|(k & Hv)]).
    2: { by destruct (proj2 (sent_waits _ _ _ _ eq_refl Hv) Hs (Ok tt) c). }
    destruct (stream_view _ _ _ _ _ _ Hv Hwv eq_refl Hs Hc) as (-> & _ & Hv').
    destruct (step_hold _ _ _ _ _ _ _ _ _ _ _ Hat Hw Hk Hr Hv Hv') as [Hat' Hlt].
    assert (Heq : with_client (cl s) s = s) by (by destruct s). rewrite Heq.
    less_work Hat'.
  - destruct (receivers_view _ _ _ _ _ _ _ _ _ Hat Hrec) as (k & r & -> & Hk & Hr & Hv).
    destruct (received_view _ _ _ _ _ _ _ _ Hv Hrec eq_refl Ha Ho Hc) as (Hbs & Hf & Honly).
    destruct (step_received _ _ _ _ _ _ _ _ _ _ _ _ Hat Hrec Hk Hr Hv Hf Honly Hbs) as [Hat' Hlt].
    less_work Hat'.
Qed.

(** What is not at its end goes on. *)
Lemma async_progress lc1 pre ks rs1 rs2 lc s :
  async_at lc1 pre ks rs1 rs2 lc s →
  (∃ s', step s s') ∨
  (async_done s ∧ ks = [] ∧ ∀ j, answered s !! j = (resp_skip <$> rs1) !! j).
Proof.
  intros Hat. destruct (up s) as [|frame frames] eqn:Hup.
  2: { left. destruct (step_handle _ _ _ _ _ _ _ _ _ true [] (handler (peer s)) (at_server s) Hat Hup)
         as (_ & _ & _ & _ & _ & _ & (go & out & h & srv & Hon) & _).
       eexists. by eapply async_handle; [|apply (at_running _ _ _ _ _ _ _ Hat)|]. }
  destruct (channel (peer s)) as [|frame rest] eqn:Hc.
  2: { left. eexists. eapply async_flush; [apply (at_sending _ _ _ _ _ _ _ Hat)|done]. }
  destruct (wire (peer s) !! frames_read s) as [frame|] eqn:Hf.
  { left. destruct (step_read _ _ _ _ _ _ _ _ (cl s) Hat Hf) as [[c Hread] _].
    eexists. by eapply async_read. }
  assert (Hin : in_flight s = []).
  { unfold in_flight. rewrite Hc, app_nil_r. apply drop_ge. by apply lookup_ge_None. }
  assert (Hfor : ∀ j, v_frames (view_of j s) = []) by (intros j; cbn; by rewrite Hin).
  destruct (waiting s) as [[j id]|] eqn:Hw.
  { left. destruct (waiting_handled _ _ _ _ _ _ _ _ _ Hat Hup Hw) as (-> & Hwv & k & r & Hk & Hr & Hv).
    destruct (waiting_ends _ _ _ _ _ Hv (Hfor j) Hwv eq_refl eq_refl)
      as [(Hs & x & c & Hx)|(Hs & [[]|e] & c & Hx)]; eexists;
      [by eapply async_answer|by eapply async_stream|by eapply async_no_stream]. }
  destruct (idle_phase _ _ _ _ _ _ _ Hat Hw) as (_ & Hks & Hcd).
  destruct ks as [|k ks].
  - destruct (decide (receivers s = ∅)) as [Hrec|(j & id & Hj)%map_choose].
    + right. unfold async_done. split_and!; [done..|]. intros j. rewrite list_lookup_fmap.
      destruct (pre !! j) as [k|] eqn:Hk.
      * destruct (lookup_lt_is_Some_2 rs1 j) as [r Hr];
          [rewrite (at_results _ _ _ _ _ _ _ Hat); by eapply lookup_lt_Some|].
        rewrite Hr. apply (idle_answered _ _ _ _ (at_views _ _ _ _ _ _ _ Hat j k r Hk Hr));
          [by apply waits_none|]. cbn. by rewrite Hrec, lookup_empty.
      * apply lookup_ge_None in Hk.
        rewrite (lookup_ge_None_2 rs1) by (by rewrite (at_results _ _ _ _ _ _ _ Hat)).
        destruct (at_unused _ _ _ _ _ _ _ Hat j) as [-> _]; [lia|done].
    + left. destruct (receivers_view _ _ _ _ _ _ _ _ _ Hat Hj) as (k & r & -> & _ & _ & Hv).
      destruct (receiving_ends _ _ _ _ _ Hv (Hfor j) Hj eq_refl) as (a & bs & c & Ha & Ho & Hx).
      eexists. by eapply async_received.
  - left. destruct (request_of k (remote_user (cl s)) (actor_id (started (cl s)))) as [m|e] eqn:Hm;
      eexists; [by eapply async_call|by eapply async_refused].
Qed.

Lemma async_start_at user h srv handled ks rs lc lc1 :
  session_ok h (AtBroker user) → Forall conn_call_ok ks → (N.of_nat (length ks) <= 2 ^ 64)%N →
  lc = {| broker := srv; local_user := user; local_calls := handled |} →
  run_conn_calls local_conn ks lc = Ret (rs, lc1) →
  async_at lc1 [] ks [] rs lc (async_start ks user h srv handled).
Proof.
  intros Hh Hok Hb -> Hrun. constructor; try done. by left.
Qed.

(** C4: whatever steps the client, the task that reads for it, the node's loop and the task
    that sends its stream frames take first, calls on a connection of a user who
    authenticated end, after a number of steps bounded before the first, with the answers
    the local connection gives to them, and leave the server as it does: replies may
    overtake the blocks of earlier streams, and no frame reaches another call. *)
Theorem Async_as_local user h srv handled ks rs lc1 :
  session_ok h (AtBroker user) → Forall conn_call_ok ks → (N.of_nat (length ks) <= 2 ^ 64)%N →
  run_conn_calls local_conn ks {| broker := srv; local_user := user; local_calls := handled |}
    = Ret (rs, lc1) → ∃ bound, ∀ n s,
  nsteps step n (async_start ks user h srv handled) s →
  n ≤ bound ∧
  ((∃ s', step s s') ∨
   (async_done s ∧ at_server s = broker lc1 ∧ ∀ j, answered s !! j = (resp_skip <$> rs) !! j)).
Proof.
  intros Hh Hok Hb Hrun.
  pose proof (async_start_at user h srv handled ks rs _ lc1 Hh Hok Hb eq_refl Hrun) as Hat.
  set (s0 := async_start ks user h srv handled) in *. exists (work rs s0).
  assert (Hinv : async_inv lc1 ks rs (work rs s0) s0).
  { exists [], ks, [], rs, {| broker := srv; local_user := user; local_calls := handled |}.
    split_and!; [done..|]. unfold taken. cbn. lia. }
  clearbody s0. generalize (work rs s0) as w, Hinv. clear Hat Hinv.
  intros w Hinv n s Hsteps. revert w Hinv.
  induction Hsteps as [s|n s s1 s2 Hstep _ IH]; intros w Hinv.
  - split; [lia|]. destruct Hinv as (pre & ks' & rs1 & rs2 & lc & -> & -> & Hat & _).
    destruct (async_progress _ _ _ _ _ _ _ Hat) as [?|(Hdone & -> & Hans)]; [by left|right].
    pose proof (at_run _ _ _ _ _ _ _ Hat) as Hend. injection Hend as <- <-.
    rewrite app_nil_r. split_and!; [done| |done]. apply (at_broker _ _ _ _ _ _ _ Hat).
  - destruct (async_inv_step _ _ _ _ _ _ Hinv Hstep) as (w' & Hw & Hinv').
    destruct (IH _ Hinv') as [Hn Hend]. split; [lia|done].
Qed.
End Async.

(** A relation whose runs are bounded is run to an end. *)
Lemma bounded_ends {A} (R : A → A → Prop) (P : A → Prop) x bound :
  (∀ n y, nsteps R n x y → n ≤ bound ∧ ((∃ z, R y z) ∨ P y)) → ∃ y, rtc R x y ∧ P y.
Proof.
  intros Hb. assert (Hrun : ∀ k n y, nsteps R n x y → bound < n + k → ∃ y, rtc R x y ∧ P y).
  { induction k as [|k IH]; intros n y Hn Hk; destruct (Hb n y Hn) as [Hle [[z Hz]|Hy]];
      [lia|lia| |exists y; split; [by eapply rtc_nsteps_2|done]].
    apply (IH (Datatypes.S n) z); [by eapply nsteps_r|lia]. }
  apply (Hrun (Datatypes.S bound) 0 x); [constructor|lia].
Qed.

(** ** Example: the calls of [ConnectionProps] *)

Module Examples.
Import BareTypes.Instances NetBare.NetInstances MessageInstances MemStore LmdbMem LmdbServed LmdbExamples.
Import OverlayProps.Examples ServerProps.Examples AuthProps.Examples SessionProps.Examples ConnectionProps.Examples.

Definition async0 : system :=
  async_start conn_calls user1 (session (writer remote0)) server0 2.
Lemma Async_as_local_witness : ∃ s,
  rtc (async_step 3 3 envs1) async0 s ∧ async_done s ∧
  (λ j, conn_answer <$> answered s !! j) <$> seq 0 6 = Some <$> conn_answers.
Proof.
  pose proof local_answers as Ha.
  destruct (run_conn_calls (local_conn 3 3 envs1) conn_calls local0) as [[rs lc1]| |] eqn:Hrun; [|done..].
  apply bool_decide_eq_true in Ha.
  destruct (Async_as_local 3 3 envs1 user1 (session (writer remote0)) server0 2 conn_calls rs lc1)
    as [bound Hb]; [by split|exact conn_calls_ok|done|exact Hrun|].
  destruct (bounded_ends _ _ _ _ Hb) as (s & Hs & Hdone & _ & Hans).
  exists s. split_and!; [done..|]. rewrite <- Ha. clear -Hans Ha.
  assert (Hlen : length rs = 6) by (apply (f_equal length) in Ha; by rewrite length_fmap in Ha).
  do 7 (destruct rs as [|? rs]; try done). cbn. rewrite !Hans. cbn. by rewrite !answer_skip.
Defined.
End Examples.
