(* ===== verification/ClientSpec.v ===== *)
(** * What a client's calls mean

    The abstract server of [ServerProps] as a connection: tables and one map of blocks per
    repository. A connection refines it when each of its requests does; local and remote
    connections do, and so does whatever a client makes of their requests. *)

From stdpp Require Import functions.
From S2P Require Import ObjectProps ObjectStoreProps Bare BareTypes BrokerRows NetBare MessageBare OverlayProps LmdbRepoStore LmdbView LmdbMem LmdbProps LmdbServed ServerTables ServerSim ServerProps.
From S2P Require Import Prelude Serde Types Block Store Object Utils Branch NetTypes NetErrors.
From S2P Require Import ObjectTree ObjectStore ObjectSim BrokerStore BrokerTables Auth AuthProps.
From S2P Require Import Server Session SessionProps Client Connection ConnectionProps ClientProps.

Abbreviation blocks := (RepoStoreId → gmap BlockId Block) (only parsing).

(** ** The abstract connection *)

Record abstract : Type := { ab_state : tables * blocks; ab_user : PubKey; ab_calls : nat }.

Section Abstract.
Context `{!Crypto, !Ed25519, !Bloom}.
Context `{!Serde Block, !Serde BlockContentV0, !Serde ObjectContent, !Serde AddUserContentV0}.
Variables (obj_fuel fuel : nat) (envs : environment).
Implicit Types a : abstract.

Definition ab_next (st : tables * blocks) a : abstract :=
  {| ab_state := st; ab_user := ab_user a; ab_calls := 1 + ab_calls a |}.
(** A call of the server, with what its kind of answer is read as *)
Definition ab_run {A} (read : server_resp → outcome A) (k : server_call) a : outcome (A * abstract) :=
  '(r, st) ← ServerProps.spec_call obj_fuel fuel (ab_user a) k (ab_state a);
  r ← read r; Ret (r, ab_next st a).
Definition read_unit (r : server_resp) : outcome (result unit ProtocolError) :=
  match r with RUnit r => Ret r | RBlocks _ => Panic end.
Definition read_blocks (r : server_resp) : outcome (result (list Block) ProtocolError) :=
  match r with RBlocks r => Ret r | RUnit _ => Panic end.

Definition ab_add_user (user_id : PubKey) (admin_user_pk : PrivKey) : call abstract unit := λ a,
  match sign admin_user_pk (ab_user a) (to_vec {| AddUserContentV0_user := user_id |}) with
  | Err e => Ret (Err (ProtocolError_of_LofireError e), a)
  | Ok sig => ab_run read_unit (CallAddUser (ab_user a) user_id sig) a
  end.
Definition ab_request (o : OverlayId) (r : BrokerOverlayRequestContentV0) : call abstract unit := λ a,
  match r with
  | BrokerOverlayRequestContentV0_OverlayConnect _ => ab_run read_unit (CallConnect o) a
  | BrokerOverlayRequestContentV0_OverlayJoin j =>
      random ← unwrap (random_buf (envs (ab_calls a)));
      ab_run read_unit (CallJoin o (OverlayJoin_repo_pubkey j) (OverlayJoin_secret j)
                          (OverlayJoin_peers j) random (secs (envs (ab_calls a)))) a
  | BrokerOverlayRequestContentV0_ObjectPin op =>
      ab_run read_unit (CallBlocks o (OpPinObject (ObjectPin_id op))) a
  | BrokerOverlayRequestContentV0_ObjectUnpin op =>
      ab_run read_unit (CallBlocks o (OpUnpinObject (ObjectUnpin_id op))) a
  | BrokerOverlayRequestContentV0_ObjectDel op =>
      ab_run read_unit (CallBlocks o (OpDelObject (ObjectDel_id op))) a
  | BrokerOverlayRequestContentV0_BlockPut b =>
      ab_run read_unit (CallBlocks o (OpPutBlock (BlockPut_block b))) a
  | _ => Ret (Err InvalidState, ab_next (ab_state a) a)
  end.
Definition ab_stream (o : OverlayId) (r : BrokerOverlayRequestContentV0)
    : call abstract (list Block) := λ a,
  match r with
  | BrokerOverlayRequestContentV0_BlockGet b =>
      ab_run read_blocks (CallBlocks o (OpGetBlock (BlockGet_id b) (BlockGet_include_children b))) a
  | BrokerOverlayRequestContentV0_BranchSyncReq b =>
      ab_run read_blocks (CallBlocks o (OpSyncBranch (BranchSyncReq_heads b)
        (BranchSyncReq_known_heads b) (BranchSyncReq_known_commits b))) a
  | _ => Ret (Err InvalidState, ab_next (ab_state a) a)
  end.
(** No meaning is given to the copy of an object, which is to be done in the code. *)
#[export] Instance abstract_connection : BrokerConnection abstract := {
  close a := Ret a;
  add_user := ab_add_user;
  del_user _ _ a := Ret a;
  add_client _ _ a := Ret a;
  del_client _ _ a := Ret a;
  process_overlay_request := ab_request;
  process_overlay_request_stream_response := ab_stream;
  process_overlay_request_objectid_response _ _ _ := Panic
}.
End Abstract.

(** ** Refinement *)

(** The requests a client makes: each with the method for its kind of answer, peers whose
    rows fit, blocks under their own hash *)
Definition request_ok `{!Crypto, !Serde Block} (fits : PeerAdvert → Prop)
    (r : BrokerOverlayRequestContentV0) : Prop :=
  match r with
  | BrokerOverlayRequestContentV0_BlockPut b => id_ok (BlockPut_block b)
  | BrokerOverlayRequestContentV0_OverlayJoin j => Forall fits (OverlayJoin_peers j)
  | _ => is_stream_request r = false
  end.

(** A connection stands for the abstract one, with a number of requests left: what returns
    there returns here, the same errors, and the same blocks up to what is cached. *)
Class Refines (C : Type) `{!Crypto, !Serde Block} (A : BrokerConnection abstract)
    `{!BrokerConnection C} : Type := {
  fits_advert : PeerAdvert → Prop;
  stands : nat → abstract → C → Prop;
  stands_less n a c : stands (S n) a c → stands n a c;
  refines_add_user n a c user_id sk : stands (S n) a c →
    osim (λ x y, x.1 = y.1 ∧ stands n x.2 y.2) (add_user user_id sk a) (add_user user_id sk c);
  refines_request n a c o r : stands (S n) a c → request_ok fits_advert r →
    osim (λ x y, x.1 = y.1 ∧ stands n x.2 y.2)
      (process_overlay_request o r a) (process_overlay_request o r c);
  refines_stream n a c o r : stands (S n) a c → is_stream_request r = true →
    osim (λ x y, result_like (Forall2 same) x.1 y.1 ∧ stands n x.2 y.2)
      (process_overlay_request_stream_response o r a) (process_overlay_request_stream_response o r c)
}.

(** ** Local and remote connections *)

Section Instances.
Context {S R : Type} `{!BrokerStore S, !BrokerStoreSpec S}.
Context `{!RwLockRelock, !Crypto, !Ed25519, !Bloom, !RustFsm, !XActor}.
Context `{!Serde Block, !Serde BlockContentV0, !Serde ObjectContent, !Serde AddUserContentV0}.
Context `{!Serde Digest, !Serde SymKey, !Serde PubKey, !Serde bool, !Serde u32}.
Context `{!Serde OverlayMeta, !Serde PeerAdvert, !Serde RepoStoreId}.
Context `{!Serde ServerHello, !Serde ClientAuth, !Serde ClientAuthContentV0, !Serde AuthResult}.
Context `{!Serde BrokerMessage, !Serde StartProtocol, !Serde ExtResponse}.
Context `{!SerdeLaws Block, !SerdeLaws BrokerMessage, !SerdeTagged BrokerMessage}.
Context `{!SerdeLaws Digest, !SerdeLaws SymKey, !SerdeLaws PubKey, !SerdeLaws bool, !SerdeLaws u32}.
Context `{!SerdeLaws OverlayMeta, !SerdeLaws PeerAdvert, !SerdeLaws RepoStoreId}.
Context `{!RepoStore R, !RepoStoreSpec R, !RepoStoreTotal R, !ServedStore R, !RepoDirs R, !ServedSpec R}.
Context `{!XActorLaws, !SerializingStore R}.
Variables (obj_fuel fuel : nat) (envs : environment).
Context (Hdirs : ∀ id, dir_create id = true) (Hfits : tables_fit (S := S)).
(** The randomness does not fail and the clock can be read. *)
Context (Hrandom : ∀ n, is_Some (random_buf (envs n))) (Hclock : ∀ n, returns (now_timestamp (secs (envs n)))).

Abbreviation local := (BrokerConnectionLocal S R).
Abbreviation remote := (BrokerConnectionRemote (ServerTransport S R)).
Abbreviation meaning := (abstract_connection obj_fuel fuel envs).

Definition local_stands (a : abstract) (cl : local) : Prop :=
  server_ok (broker cl) (ab_state a) ∧ local_user cl = ab_user a ∧ local_calls cl = ab_calls a.

(** A call of the server that one of [ServerProps] is *)
Lemma on_broker_sim {A} (RA : A → A → Prop) read make (M : Server.srv (S := S) (R := R) A) k a cl :
  (∀ srv, ServerProps.run_call obj_fuel fuel (ab_user a) k srv = ('(r, srv) ← M srv; Ret (make r, srv))) →
  (∀ x r, resp_like x (make r) → ∃ r', read x = Ret r' ∧ result_like RA r' r) →
  ServerProps.call_ok (S := S) k → local_stands a cl →
  osim (λ x y, result_like RA x.1 y.1 ∧ local_stands x.2 y.2)
    (ab_run obj_fuel fuel read k a) (on_broker M cl).
Proof.
  intros Hrun Hread Hk (Hok & Hu & Hn).
  pose proof (run_call_sim obj_fuel fuel Hdirs Hfits (ab_user a) k _ _ Hok Hk) as Hsim.
  rewrite Hrun in Hsim. unfold ab_run, on_broker.
  destruct (ServerProps.spec_call _ _ _ _ _) as [[x st]| |], (M (broker cl)) as [[r srv]| |];
    inversion Hsim as [? ? [Hx Hok']| |]; [|constructor..]. cbn in Hx, Hok'.
  cbn [mbind outcome_bind]. destruct (Hread x r Hx) as (r' & -> & Hr). cbn [mbind outcome_bind].
  constructor. split; [done|]. by split_and!; cbn; [|..|rewrite Hn].
Qed.
Lemma read_unit_like x r : resp_like x (RUnit r) → ∃ r', read_unit x = Ret r' ∧ result_like eq r' r.
Proof. destruct x as [r'|]; [|done]. intros ->. exists r. split; [done|]. by destruct r. Qed.
Lemma read_blocks_like x r : resp_like x (RBlocks r) →
  ∃ r', read_blocks x = Ret r' ∧ result_like (Forall2 same) r' r.
Proof.
  destruct x as [|r']; [done|]. intros Hr. exists r'. split; [done|].
  destruct r', r; try done. cbn in *. eapply Forall2_impl; [exact Hr|]. by intros b b' [Hs _].
Qed.
Lemma on_broker_unit (M : Server.srv (S := S) (R := R) unit) k a cl :
  (∀ srv, ServerProps.run_call obj_fuel fuel (ab_user a) k srv = ('(r, srv) ← M srv; Ret (RUnit r, srv))) →
  ServerProps.call_ok (S := S) k → local_stands a cl →
  osim (λ x y, x.1 = y.1 ∧ local_stands x.2 y.2)
    (ab_run obj_fuel fuel read_unit k a) (on_broker M cl).
Proof.
  intros Hrun Hk Hst. eapply osim_impl; [by apply (on_broker_sim eq _ RUnit), Hst; [|apply read_unit_like|]|].
  intros [[[]|e] a'] [[[]|e'] cl'] [Hr Hst']; cbn in *; try done. by subst.
Qed.

#[export, refine] Instance Local_Refines : Refines local meaning (BrokerConnection0 := local_conn obj_fuel fuel envs) := {
  fits_advert := PeerProps.advert_fits (S := S);
  stands _ := local_stands
}.
Proof.
  - done.
  - intros _ a cl user_id sk Hst. pose proof Hst as (_ & Hu & _).
    cbn [add_user abstract_connection local_conn Local_BrokerConnection]. unfold ab_add_user, local_add_user.
    rewrite Hu. destruct (sign _ _ _) as [sig|e]; [|by constructor].
    by apply on_broker_unit.
  - intros _ a cl o r Hst Hr. pose proof Hst as (_ & Hu & Hn).
    cbn [process_overlay_request abstract_connection local_conn Local_BrokerConnection].
    destruct r; cbn [ab_request local_request]; unfold local_env; rewrite ?Hu, ?Hn;
      try (by apply on_broker_unit); try (by constructor; split; [|split_and!; cbn; [apply Hst|..|rewrite Hn]]).
    destruct (Hrandom (ab_calls a)) as [random ->]. cbn [unwrap mbind outcome_bind].
    by apply on_broker_unit; [|split; [apply Hclock|]|].
  - intros _ a cl o r Hst Hr. pose proof Hst as (_ & Hu & Hn).
    cbn [process_overlay_request_stream_response abstract_connection local_conn Local_BrokerConnection].
    destruct r; try done; cbn [ab_stream local_request_stream]; rewrite Hu;
      (eapply (on_broker_sim (Forall2 same) _ RBlocks); [|apply read_blocks_like|done|done]); done.
Defined.

(** The remote connection, which has identifiers of actors left. *)
Definition remote_stands (n : nat) (a : abstract) (cr : remote) : Prop :=
  ∃ cl, local_stands a cl ∧ conn_ok cl cr ∧ (N.of_nat (started cr + n) <= 2 ^ 64)%N.
Lemma remote_step n cl cr k {A B} (RA : A → B → Prop) (m : outcome (A * abstract)) (m' : outcome (B * local))
    (m'' : outcome (B * remote)) (make : B → conn_resp) :
  conn_ok cl cr → (N.of_nat (started cr + Datatypes.S n) <= 2 ^ 64)%N → conn_call_ok k →
  osim (λ x y, RA x.1 y.1 ∧ local_stands x.2 y.2) m m' →
  run_conn_call (local_conn obj_fuel fuel envs) k cl = ('(r, c) ← m'; Ret (make r, c)) →
  run_conn_call (remote_conn obj_fuel fuel envs) k cr = ('(r, c) ← m''; Ret (make r, c)) →
  osim (λ x y, (∃ r, RA x.1 r ∧ make y.1 = resp_skip (make r)) ∧ remote_stands n x.2 y.2) m m''.
Proof.
  intros Hok Hn Hk Hm Hl Hr.
  pose proof (conn_call_sim obj_fuel fuel envs k cl cr Hok Hk ltac:(lia)) as Hsim. rewrite Hl, Hr in Hsim.
  destruct Hm as [[x a'] [y cl'] [Hx Hst]| |]; destruct m'' as [[z cr']| |];
    inversion Hsim as [? ? [[Hz Hok'] Hs]| |]; constructor.
  cbn in *. split; [by exists y|]. exists cl'. split_and!; [done..|lia].
Qed.

#[export, refine] Instance Remote_Refines : Refines remote meaning (BrokerConnection0 := remote_conn obj_fuel fuel envs) := {
  fits_advert := PeerProps.advert_fits (S := S);
  stands := remote_stands
}.
Proof.
  - intros n a cr (cl & Hst & Hok & Hn). exists cl. split_and!; [done..|lia].
  - intros n a cr user_id sk (cl & Hst & Hok & Hn).
    eapply osim_impl; [eapply (remote_step n cl cr (ConnAddUser user_id sk) eq); [done|exact Hn|done| |reflexivity|reflexivity]|].
    + by apply (refines_add_user (Refines := Local_Refines) 0).
    + intros [r a'] [r' cr'] [(r2 & -> & [= ->]) Hst']. by split.
  - intros n a cr o r (cl & Hst & Hok & Hn) Hr.
    eapply osim_impl; [eapply (remote_step n cl cr (ConnRequest o r) eq); [done|exact Hn| | |reflexivity|reflexivity]|].
    + destruct r; try done. by destruct x.
    + by apply (refines_request (Refines := Local_Refines) 0).
    + intros [x a'] [r' cr'] [(r2 & -> & [= ->]) Hst']. by split.
  - intros n a cr o r (cl & Hst & Hok & Hn) Hr.
    eapply osim_impl; [eapply (remote_step n cl cr (ConnStream o r) (result_like (Forall2 same))); [done|exact Hn|done| |reflexivity|reflexivity]|].
    + by apply (refines_stream (Refines := Local_Refines) 0).
    + intros [x a'] [r' cr'] [(r2 & Hx & [= ->]) Hst']. split; [|done]. cbn in *.
      destruct x as [bs|e], r2 as [bs'|e']; cbn in *; try done.
      apply Forall2_fmap_r. eapply Forall2_impl; [exact Hx|]. intros b b' (? & ? & ?).
      split_and!; [|done|apply id_ok_skip]. by rewrite skip_idemp.
Defined.
End Instances.
