(* ===== verification/ClientCalls.v ===== *)
(** * Clients do not see what they are connected to

    What a client makes of the requests of a connection refines what it makes of those of the
    abstract one of [ClientSpec], call by call: the calls of [OverlayConnectionClient], their
    sequence and their errors. *)

From stdpp Require Import functions.
From S2P Require Import ObjectProps ObjectStoreProps Bare BareTypes BrokerRows NetBare MessageBare OverlayProps LmdbRepoStore LmdbView LmdbMem LmdbProps LmdbServed ServerTables ServerSim ServerProps.
From S2P Require Import Prelude Serde Types Block Store Object Utils Branch NetTypes NetErrors.
From S2P Require Import ObjectTree ObjectStore ObjectSim BrokerStore BrokerTables Auth AuthProps.
From S2P Require Import Server Session SessionProps Client Connection ConnectionProps ClientProps ClientSpec.
Import OverlayConnectionClient.

(** ** What a client does *)

Inductive client_op : Type :=
  | DoAddUser (user_id : PubKey) (admin_user_pk : PrivKey)
  | DoConnect (repo : RepoLink) (public : bool)
  | DoPutBlock (self : OverlayConnectionClient) (block : Block)
  | DoPutObject (self : OverlayConnectionClient) (content : ObjectContent) (deps : list ObjectId)
      (expiry : option Timestamp) (max_object_size : usize) (repo_pubkey : PubKey) (repo_secret : SymKey)
  | DoGetBlock (self : OverlayConnectionClient) (id : BlockId) (children : bool) (topic : option PubKey)
  | DoGetObject (self : OverlayConnectionClient) (id : ObjectId) (topic : option PubKey)
  | DoDelete (self : OverlayConnectionClient) (id : ObjectId)
  | DoPin (self : OverlayConnectionClient) (id : ObjectId)
  | DoUnpin (self : OverlayConnectionClient) (id : ObjectId)
  | DoSync (self : OverlayConnectionClient) (heads known_heads : list ObjectId) (known_commits : BloomFilter).
Inductive client_answer : Type :=
  | GotUnit (r : result unit ProtocolError)
  | GotClient (r : result OverlayConnectionClient ProtocolError)
  | GotId (r : result ObjectId ProtocolError)
  | GotBlocks (r : result (list Block) ProtocolError)
  | GotObject (r : result Object ProtocolError).

Section Script.
Context `{!Crypto, !SizeOfBlock} `{!Serde Block, !Serde BlockContentV0, !Serde ObjectContent}.
Context {C : Type} (B : BrokerConnection C).
Variable obj_fuel : nat.

Definition answered {A} (make : result A ProtocolError → client_answer) (m : call C A) (c : C)
    : outcome (client_answer * C) := '(r, c) ← m c; Ret (make r, c).
Definition run_op (op : client_op) : C → outcome (client_answer * C) :=
  match op with
  | DoAddUser u sk => answered GotUnit (add_user u sk)
  | DoConnect repo public => answered GotClient (overlay_connect repo public)
  | DoPutBlock self b => answered GotId (put_block self b)
  | DoPutObject self content deps expiry size pk sk =>
      answered GotId (put_object self content deps expiry size pk sk)
  | DoGetBlock self id children topic => answered GotBlocks (get_block self id children topic)
  | DoGetObject self id topic => answered GotObject (get_object obj_fuel self id topic)
  | DoDelete self id => answered GotUnit (delete_object self id)
  | DoPin self id => answered GotUnit (pin_object self id)
  | DoUnpin self id => answered GotUnit (unpin_object self id)
  | DoSync self heads known filter => answered GotBlocks (sync_branch self heads known filter)
  end.
Fixpoint run_ops (ops : list client_op) (c : C) : outcome (list client_answer * C) :=
  match ops with
  | [] => Ret ([], c)
  | op :: ops => '(r, c) ← run_op op c; '(rs, c) ← run_ops ops c; Ret (r :: rs, c)
  end.

(** How many requests that takes, at most *)
Definition op_requests (op : client_op) : nat :=
  match op with
  | DoConnect _ _ => 2
  | DoPutObject _ content deps expiry size pk sk =>
      match Object_new content deps expiry size pk sk with Ret o => length (Object_blocks o) | _ => 0 end
  | _ => 1
  end.
Definition requests (ops : list client_op) : nat := sum_list_with op_requests ops.
(** Peers whose rows fit, blocks under their own hash, sizes that do not overflow *)
Definition op_ok (fits : PeerAdvert → Prop) (op : client_op) : Prop :=
  match op with
  | DoConnect repo _ => Forall fits (RepoLink_peers repo)
  | DoPutBlock _ b => id_ok b
  | DoPutObject _ _ _ _ size _ _ => (size + HEADER < usize_max)%N
  | _ => True
  end.
Definition answer_same (x y : client_answer) : Prop :=
  match x, y with
  | GotUnit r, GotUnit r' => r = r'
  | GotClient r, GotClient r' => r = r'
  | GotId r, GotId r' => r = r'
  | GotBlocks r, GotBlocks r' => result_like (Forall2 same) r r'
  | GotObject r, GotObject r' => result_like object_like r r'
  | _, _ => False
  end.
End Script.

Section Calls.
Context `{!Crypto, !CryptoLaws, !SizeOfBlock}.
Context `{!Serde Block, !Serde BlockContentV0, !Serde ObjectContent}.
Context `{!SerdeLaws Block, !SerdeLaws BlockContentV0, !SerdeLaws ObjectContent}.
Context `{!SerdeTagged ObjectContent}.
Context {C : Type} {A : BrokerConnection abstract} `{!BrokerConnection C, !Refines C A}.
Variable obj_fuel : nat.
Implicit Types (self : OverlayConnectionClient) (a : abstract) (c : C).

(** ** Related calls *)

Lemma stands_le n m a c : n ≤ m → stands m a c → stands n a c.
Proof. induction 1 as [|m Hle IH]; [done|]. intros Hst%stands_less. by apply IH. Qed.

(** The call on the right does what the one on the left does, in at most [n] requests. *)
Definition refines {X Y} (n : nat) (RA : X → Y → Prop) (m : call abstract X) (m' : call C Y) : Prop :=
  ∀ k a c, stands (n + k) a c →
  osim (λ x y, result_like RA x.1 y.1 ∧ stands k x.2 y.2) (m a) (m' c).

Lemma refines_more {X Y} n n' (RA : X → Y → Prop) m m' : n ≤ n' → refines n RA m m' → refines n' RA m m'.
Proof. intros Hle Hm k a c Hst. apply Hm. by eapply stands_le; [|exact Hst]; lia. Qed.
Lemma refines_result {X Y} (RA : X → Y → Prop) r r' n : result_like RA r r' →
  refines n RA (λ a, Ret (r, a)) (λ c, Ret (r', c)).
Proof. intros Hr k a c Hst. constructor. split; [done|]. by eapply stands_le; [|exact Hst]; lia. Qed.
Lemma refines_ok {X Y} n (RA : X → Y → Prop) x y : RA x y → refines n RA (call_ok x) (call_ok y).
Proof. intros Hxy. by apply refines_result. Qed.
Lemma refines_try {X Y X' Y'} n n' (RA : X → Y → Prop) (RB : X' → Y' → Prop) m m' k k' :
  refines n RA m m' → (∀ x y, RA x y → refines n' RB (k x) (k' y)) →
  refines (n + n') RB (call_try m k) (call_try m' k').
Proof.
  intros Hm Hk l a c Hst. unfold call_try. rewrite <- Nat.add_assoc in Hst.
  eapply osim_bind; [by apply Hm|]. intros [r a1] [r' c1] [Hr Hst1]. cbn in Hr, Hst1.
  destruct r as [x|e], r' as [y|e']; cbn in Hr; try done; [by apply Hk|].
  subst e'. constructor. split; [done|]. by eapply stands_le; [|exact Hst1]; lia.
Qed.
(** What is in no need of the connection *)
Lemma refines_pure {X Y X' Y'} n (RA : X → Y → Prop) (RB : X' → Y' → Prop) m m' k k' :
  osim RA m m' → (∀ x y, RA x y → refines n RB (k x) (k' y)) →
  refines n RB (λ a, x ← m; k x a) (λ c, y ← m'; k' y c).
Proof. intros Hm Hk l a c Hst. eapply osim_bind; [exact Hm|]. intros x y Hxy. by apply Hk. Qed.

Lemma result_eq {X E} (r r' : result X E) : r = r' → result_like eq r r'.
Proof. intros ->. by destruct r'. Qed.
Lemma refines_user user_id sk : refines 1 eq (add_user user_id sk) (add_user user_id sk).
Proof.
  intros k a c Hst. eapply osim_impl; [by apply refines_add_user|].
  intros ?? [Hr ?]. by split; [apply result_eq|].
Qed.
Lemma refines_unit o r : request_ok fits_advert r →
  refines 1 eq (process_overlay_request o r) (process_overlay_request o r).
Proof.
  intros Hr k a c Hst. eapply osim_impl; [by apply refines_request|].
  intros ?? [? ?]. by split; [apply result_eq|].
Qed.
Lemma refines_blocks o r : is_stream_request r = true →
  refines 1 (Forall2 same) (process_overlay_request_stream_response o r)
    (process_overlay_request_stream_response o r).
Proof. intros Hr k a c Hst. by apply refines_stream. Qed.

(** ** The calls of [OverlayConnectionClient] *)

Lemma connect_refines repo public : Forall fits_advert (RepoLink_peers repo) →
  refines 2 eq (overlay_connect repo public) (overlay_connect repo public).
Proof.
  intros Hp. apply (refines_try 2 0 eq); [|intros ? o <-; by apply refines_ok].
  intros k a c Hst. unfold process_overlay_connect.
  eapply osim_bind; [exact (refines_unit _ (BrokerOverlayRequestContentV0_OverlayConnect OverlayConnect_V0) eq_refl (1 + k) a c Hst)|].
  intros [r a1] [r' c1] [Hr Hst1]. cbn in Hr, Hst1.
  destruct r as [[]|e], r' as [[]|e']; cbn in Hr; try done; [|subst e'; destruct (decide _)].
  - constructor. split; [done|by apply stands_less].
  - refine (refines_try 1 0 eq eq _ _ _ _ _ _ k a1 c1 Hst1); [by apply refines_unit|].
    intros ? ? _. by apply refines_ok.
  - constructor. split; [done|by apply stands_less].
Qed.
Lemma put_block_refines self b : id_ok b → refines 1 eq (put_block self b) (put_block self b).
Proof.
  intros Hb. apply (refines_try 1 0 eq); [by apply refines_unit|]. intros ? ? _. by apply refines_ok.
Qed.
Lemma put_blocks_refines self bs D : Forall id_ok bs →
  refines (length bs) eq (put_blocks self bs D) (put_blocks self bs D).
Proof.
  intros Hbs. revert D. induction Hbs as [|b bs Hb Hbs IH]; intros D; [by apply refines_ok|].
  cbn [put_blocks length]. destruct (decide _); [by apply (refines_more (length bs)); [lia|]|].
  apply (refines_try 1 (length bs) eq); [by apply put_block_refines|]. intros ? ? _. apply IH.
Qed.
Lemma put_object_refines self content deps expiry size pk sk n : (size + HEADER < usize_max)%N →
  (∀ o, Object_new content deps expiry size pk sk = Ret o → length (Object_blocks o) ≤ n) →
  refines n eq (put_object self content deps expiry size pk sk) (put_object self content deps expiry size pk sk).
Proof.
  intros Hsize Hn. apply (refines_pure n (λ o o', o = o' ∧ Object_new content deps expiry size pk sk = Ret o)).
  { destruct (Object_new content deps expiry size pk sk); by constructor. }
  intros o ? [<- Ho]. destruct (new_sealed content deps expiry size pk sk o Hsize Ho) as (_ & _ & _ & _ & Hok & _).
  apply (refines_more (length (Object_blocks o) + 0)); [specialize (Hn o Ho); lia|].
  apply (refines_try _ _ eq); [by apply put_blocks_refines|]. intros [] [] _.
  apply (refines_pure 0 eq); [apply osim_eq|]. intros id ? <-. by apply refines_ok.
Qed.
Lemma get_block_refines self id children topic :
  refines 1 (Forall2 same) (get_block self id children topic) (get_block self id children topic).
Proof. by apply refines_blocks. Qed.
Lemma sync_branch_refines self heads known filter :
  refines 1 (Forall2 same) (sync_branch self heads known filter) (sync_branch self heads known filter).
Proof. by apply refines_blocks. Qed.

(** *** Objects *)

(** Stores that stand for the same map *)
Definition same_store (s s' : HashMapRepoStore) : Prop :=
  store_inv s ∧ store_inv s' ∧ store_view s = store_view s'.
Lemma collect_same bs bs' s s' : Forall2 same bs bs' → same_store s s' →
  osim same_store (collect bs s) (collect bs' s').
Proof.
  intros Hbs. revert s s'. induction Hbs as [|b b' bs bs' Hb Hbs IH]; intros s s' Hs; [by constructor|].
  destruct Hs as (Hi & Hi' & Hv). pose proof Hb as (Hsk & Hok & Hok'). cbn [collect].
  destruct (store_put_returns s b Hi Hok) as [[r s1] Hput], (store_put_returns s' b' Hi' Hok') as [[r' s1'] Hput'].
  destruct (store_put_spec s b r s1 Hi Hok Hput) as (-> & Hi1 & Hv1).
  destruct (store_put_spec s' b' r' s1' Hi' Hok' Hput') as (-> & Hi1' & Hv1').
  rewrite Hput, Hput'. apply IH. split_and!; [done..|].
  by rewrite Hv1, Hv1', Hv, Hsk, (same_id _ _ Hb).
Qed.
Lemma like_join b0 b b' : like b0 b → like b0 b' → like b b'.
Proof. intros [(? & ? & ?) ?] [(? & ? & ?) ?]. repeat split; congruence. Qed.
Lemma object_like_join o0 o o' : object_like o0 o → object_like o0 o' → object_like o o'.
Proof.
  intros [Hb Hd] [Hb' Hd']. split; [|congruence]. revert Hb'. generalize (Object_blocks o').
  induction Hb as [|b0 b bs0 bs Hb1 Hb IH]; intros bs' Hb'; inversion Hb'; subst; constructor;
    [by eapply like_join|by apply IH].
Qed.
Lemma load_same id s s' : same_store s s' →
  osim (λ x y, result_like object_like x.1 y.1) (Object_load obj_fuel id None s) (Object_load obj_fuel id None s').
Proof.
  intros (Hi & Hi' & Hv). pose proof (Object_load_sim obj_fuel id None s Hi) as Hl1.
  pose proof (Object_load_sim obj_fuel id None s' Hi') as Hl2. rewrite <- Hv in Hl2.
  destruct Hl1 as [x y [Hx _]| |]; inversion Hl2 as [? y' [Hy _]| |]; subst; constructor.
  destruct x as [[o|e] ?], y as [[o1|e1] ?], y' as [[o2|e2] ?]; cbn in *; try done;
    [by eapply object_like_join|congruence].
Qed.
Lemma get_object_refines self id topic :
  refines 1 object_like (get_object obj_fuel self id topic) (get_object obj_fuel self id topic).
Proof.
  apply (refines_try 1 0 (Forall2 same)); [apply get_block_refines|]. intros bs bs' Hbs.
  apply (refines_pure 0 same_store).
  { apply collect_same; [done|]. split_and!; [apply HashMapRepoStore_new_inv..|done]. }
  intros s s' Hs k a c Hst. eapply osim_bind; [by apply load_same|].
  intros [[o|e] ?] [[o'|e'] ?] Hr; cbn in Hr; try done; constructor; (split; [|done]); [done|]. by subst.
Qed.

(** ** Scripts *)

Lemma answered_refines {X} n (RA : X → X → Prop) make m m' k a c :
  refines n RA m m' → (∀ r r', result_like RA r r' → answer_same (make r) (make r')) →
  stands (n + k) a c →
  osim (λ x y, answer_same x.1 y.1 ∧ stands k x.2 y.2) (answered make m a) (answered make m' c).
Proof.
  intros Hm Hmake Hst. eapply osim_bind; [by apply Hm|]. intros [r a1] [r' c1] [Hr Hst1].
  constructor. split; [by apply Hmake|done].
Qed.
Lemma result_like_eq {X E} (r r' : result X E) : result_like eq r r' → r = r'.
Proof. destruct r, r'; cbn; try done; by intros ->. Qed.
Lemma run_op_refines op k a c : op_ok fits_advert op → stands (op_requests op + k) a c →
  osim (λ x y, answer_same x.1 y.1 ∧ stands k x.2 y.2) (run_op _ obj_fuel op a) (run_op _ obj_fuel op c).
Proof.
  intros Hop. destruct op; cbn [run_op op_requests]; eapply answered_refines;
    try (intros r r'; cbn; first [done|apply result_like_eq]).
  - apply refines_user.
  - by apply connect_refines.
  - by apply put_block_refines.
  - apply put_object_refines; [done|]. by intros o ->.
  - apply get_block_refines.
  - apply get_object_refines.
  - by apply refines_unit.
  - by apply refines_unit.
  - by apply refines_unit.
  - apply sync_branch_refines.
Qed.

Lemma run_ops_refines ops k a c :
  Forall (op_ok fits_advert) ops → stands (requests ops + k) a c →
  osim (λ x y, Forall2 answer_same x.1 y.1 ∧ stands k x.2 y.2)
    (run_ops _ obj_fuel ops a) (run_ops _ obj_fuel ops c).
Proof.
  intros Hops. revert a c. induction Hops as [|op ops Hop Hops IH]; intros a c Hst; [by constructor|].
  cbn [requests sum_list_with] in Hst. rewrite <- Nat.add_assoc in Hst. cbn [run_ops].
  eapply osim_bind; [by apply run_op_refines|]. intros [r a1] [r' c1] [Hr Hst1].
  eapply osim_bind; [by apply IH|]. intros [rs a2] [rs' c2] [Hrs Hst2].
  constructor. split; [by constructor|done].
Qed.
End Calls.

(** ** Over local and remote connections *)

Section Connections.
Context {S R : Type} `{!BrokerStore S, !BrokerStoreSpec S}.
Context `{!RwLockRelock, !Crypto, !CryptoLaws, !Ed25519, !SizeOfBlock, !Bloom, !RustFsm, !XActor}.
Context `{!Serde Block, !Serde BlockContentV0, !Serde ObjectContent, !Serde AddUserContentV0}.
Context `{!SerdeLaws BlockContentV0, !SerdeLaws ObjectContent, !SerdeTagged ObjectContent}.
Context `{!Serde Digest, !Serde SymKey, !Serde PubKey, !Serde bool, !Serde u32}.
Context `{!Serde OverlayMeta, !Serde PeerAdvert, !Serde RepoStoreId}.
Context `{!Serde ServerHello, !Serde ClientAuth, !Serde ClientAuthContentV0, !Serde AuthResult}.
Context `{!Serde BrokerMessage, !Serde StartProtocol, !Serde ExtResponse}.
Context `{!SerdeLaws Block, !SerdeLaws BrokerMessage, !SerdeTagged BrokerMessage}.
Context `{!SerdeLaws Digest, !SerdeLaws SymKey, !SerdeLaws PubKey, !SerdeLaws bool, !SerdeLaws u32}.
Context `{!SerdeLaws OverlayMeta, !SerdeLaws PeerAdvert, !SerdeLaws RepoStoreId}.
Context `{!RepoStore R, !RepoStoreSpec R, !RepoStoreTotal R, !ServedStore R, !RepoDirs R, !ServedSpec R}.
Context `{!XActorLaws, !SerializingStore R}.
Variables (obj_fuel fuel : nat) (envs : environment).
Context (Hdirs : ∀ id, dir_create id = true) (Hfits : tables_fit (S := S)).
Context (Hrandom : ∀ n, is_Some (random_buf (envs n))) (Hclock : ∀ n, returns (now_timestamp (secs (envs n)))).

Abbreviation local := (BrokerConnectionLocal S R).
Abbreviation remote := (BrokerConnectionRemote (ServerTransport S R)).
Abbreviation meaning := (abstract_connection obj_fuel fuel envs).

(** C6: whatever a client does over a local connection, or a remote one of the same user to a
    server that handles its frames, users, overlays, blocks, objects and synchronizations in
    any order, it is answered as by the abstract server of [ServerProps], errors included,
    with the same blocks and objects up to what is cached of them; it panics only where that
    does, and leaves the server in the state that is in. *)
Theorem Client_refinement ops a (cl : local) :
  local_stands a cl → Forall (op_ok (PeerProps.advert_fits (S := S))) ops →
  osim (λ x y, Forall2 answer_same x.1 y.1 ∧ local_stands x.2 y.2)
    (run_ops meaning obj_fuel ops a) (run_ops (local_conn obj_fuel fuel envs) obj_fuel ops cl) ∧
  ∀ cr : remote, conn_ok cl cr → (N.of_nat (started cr + requests ops) <= 2 ^ 64)%N →
  osim (λ x y, Forall2 answer_same x.1 y.1 ∧ ∃ cl', local_stands x.2 cl' ∧ conn_ok cl' y.2)
    (run_ops meaning obj_fuel ops a) (run_ops (remote_conn obj_fuel fuel envs) obj_fuel ops cr).
Proof.
  intros Hst Hops. split.
  - by apply (run_ops_refines (Refines0 := Local_Refines obj_fuel fuel envs Hdirs Hfits Hrandom Hclock) obj_fuel ops 0).
  - intros cr Hok Hn. eapply osim_impl.
    + apply (run_ops_refines (Refines0 := Remote_Refines obj_fuel fuel envs Hdirs Hfits Hrandom Hclock)
        obj_fuel ops 0 a cr); [done|]. exists cl. by rewrite Nat.add_0_r.
    + intros x y [Hr (cl' & Hst' & Hok' & _)]. split; [done|by exists cl'].
Qed.
End Connections.

(** ** Example: an object put, got, deleted and missed, over a remote connection *)

Module Examples.
Import BareTypes.Instances NetBare.NetInstances MessageInstances MemStore LmdbMem LmdbServed LmdbExamples.
Import ObjectProps.Examples ObjectStoreProps.Examples OverlayProps.Examples ServerProps.Examples.
Import AuthProps.Examples SessionProps.Examples ConnectionProps.Examples.

Abbreviation remote := (BrokerConnectionRemote (ServerTransport ms_db LmdbRepoStore)).
Abbreviation meaning := (abstract_connection 4 3 envs1).
Lemma random1 n : is_Some (random_buf (envs1 n)).
Proof. by eexists. Qed.
Lemma clock1 n : returns (now_timestamp (secs (envs1 n))).
Proof. by eexists. Qed.
Definition abstract0 : abstract := {| ab_state := (tables0, λ _, ∅); ab_user := user1; ab_calls := 2 |}.
Lemma local0_stands : local_stands abstract0 local0.
Proof. split; [exact server0_ok|done]. Qed.

Definition file_id : ObjectId :=
  match Object_id file_object with Ret id => id | _ => Blake3Digest32 (array_fill 32 x00) end.
Definition script : list client_op :=
  [DoGetObject client file_id None; DoAddUser user1 user_key; DoAddUser user1 user_key;
   DoConnect link true; DoPutBlock client b1; DoPutObject client file (ids 3) (Some (uint_wrap 32 7)) 0 pk sk;
   DoGetObject client file_id None; DoGetBlock client file_id true None; DoDelete client file_id;
   DoGetObject client file_id None; DoGetBlock client (Block_id b1) false None].
Lemma script_ok : Forall (op_ok (PeerProps.advert_fits (S := ms_db))) script.
Proof.
  unfold script. repeat (apply Forall_cons; split); try apply Forall_nil; try done.
Qed.
(** What is answered: the error, or how many blocks *)
Definition client_view (r : client_answer) : option ProtocolError * nat :=
  match r with
  | GotUnit (Err e) | GotClient (Err e) | GotId (Err e) | GotBlocks (Err e) | GotObject (Err e) => (Some e, 0)
  | GotBlocks (Ok bs) => (None, length bs)
  | GotObject (Ok o) => (None, length (Object_blocks o))
  | _ => (None, 0)
  end.
Lemma client_view_same x y : answer_same x y → client_view x = client_view y.
Proof.
  destruct x as [[]|[]|[]|[]|[]], y as [[]|[]|[]|[]|[]]; try done; cbn;
    first [by intros [= ->]|by intros ->|by intros ->%Forall2_length|by intros [->%Forall2_length _]|by intros ->].
Qed.
Definition views : list (option ProtocolError * nat) :=
  [(Some NotFound, 0); (None, 0); (Some UserAlreadyExists, 0); (None, 0); (None, 0); (None, 0);
   (None, 3); (None, 3); (None, 0); (Some NotFound, 0); (None, 1)].
Lemma script_views :
  match run_ops meaning 4 script abstract0 with
  | Ret (rs, _) => bool_decide (client_view <$> rs = views)
  | _ => false
  end = true.
Proof. vm_compute. reflexivity. Qed.
Lemma script_requests : requests script <= 100.
Proof. vm_compute. lia. Qed.

Lemma Client_refinement_witness : ∃ rs (cr : remote),
  run_ops (remote_conn 4 3 envs1) 4 script remote0 = Ret (rs, cr) ∧ client_view <$> rs = views.
Proof.
  pose proof script_views as Hv.
  destruct (Client_refinement (R := LmdbRepoStore) 4 3 envs1 ltac:(done) mem_fits random1 clock1 script abstract0 local0
    local0_stands script_ok) as [_ Hr].
  specialize (Hr remote0 remote0_ok ltac:(pose proof script_requests; cbn [started remote0]; lia)).
  destruct Hr as [[rs a] [rs' cr] [Hrs _]| |]; [|done..].
  apply bool_decide_eq_true in Hv. exists rs', cr. split; [done|]. rewrite <- Hv. cbn in Hrs. symmetry.
  clear Hv. induction Hrs as [|x y rs rs' Hxy Hrs IH]; [done|]. cbn. by rewrite IH, (client_view_same x y).
Defined.
End Examples.
