(* ===== verification/Demo.v ===== *)
(** * The demonstration client: [lofire-demo/src/main.rs]

    A script of calls on a connection, local or remote: accounts, blocks and objects of one
    repository, then a branch of commits that is sent to the broker and synchronized. Where
    the program asserts or unwraps, the model panics. Printing is left out. *)

From S2P Require Import Prelude Serde Types Block Store Object Utils Branch Commit NetTypes NetErrors.
From S2P Require Import BrokerStore BrokerTables Auth Server Session Client Connection.
Import OverlayConnectionClient.

(** [fastbloom_rs]: a filter that is built for a number of items and a probability of false
    positives, as a fraction *)
Class BloomBuilder `{!Bloom} : Type := {
  filter_new : u64 → N * N → Filter;
  filter_add : bytes → Filter → Filter;
  filter_hashes : Filter → u32;
  filter_get_u8_array : Filter → bytes
}.

(** The seeds of the key pairs of the repository, the branch and the member *)
Record demo_seeds : Type := { repo_seed : bytes; branch_seed : bytes; member_seed : bytes }.

Section Objects.
Context `{!Crypto, !Ed25519} `{!Serde Block, !Serde BlockContentV0, !Serde ObjectContent}.
Context `{!Serde CommitContentV0} {St : Type} `{!RepoStore St}.

(** ** The functions of [test_sync] *)

Definition add_obj (content : ObjectContent) (deps : list ObjectId) (expiry : option Timestamp)
    (repo_pubkey : PubKey) (repo_secret : SymKey) (store : St) : outcome (ObjectRef * St) :=
  let max_object_size := 4000%N in
  obj ← Object_new content deps expiry max_object_size repo_pubkey repo_secret;
  _ ← Object_id obj;
  '(res, store) ← Object_save obj store;
  match res with
  | Err _ => Panic
  | Ok _ => reference ← Object_reference obj; r ← unwrap reference; Ret (r, store)
  end.

Definition add_commit (branch : ObjectRef) (author_privkey : PrivKey) (author_pubkey : PubKey)
    (seq : u32) (deps acks : list ObjectRef) (body_ref : ObjectRef) (repo_pubkey : PubKey)
    (repo_secret : SymKey) (store : St) : outcome (ObjectRef * St) :=
  let obj_deps := (BlockRef_id <$> deps) ++ (BlockRef_id <$> acks) in
  let obj_ref := {| BlockRef_id := Blake3Digest32 (array_fill 32 x01);
                    BlockRef_key := ChaCha20Key (array_fill 32 x02) |} in
  let refs := [obj_ref] in
  let metadata := replicate 55 x05 in
  let expiry := None in
  match Commit_new author_privkey author_pubkey seq branch deps acks refs metadata body_ref expiry with
  | Err _ => Panic
  | Ok commit => add_obj (ObjectContent_Commit commit) obj_deps expiry repo_pubkey repo_secret store
  end.

Definition add_body_branch (branch : Branch) (repo_pubkey : PubKey) (repo_secret : SymKey)
    (store : St) : outcome (ObjectRef * St) :=
  add_obj (ObjectContent_CommitBody (CommitBody_Branch branch)) [] None repo_pubkey repo_secret store.
Definition add_body_trans (deps : list ObjectId) (repo_pubkey : PubKey) (repo_secret : SymKey)
    (store : St) : outcome (ObjectRef * St) :=
  let content := replicate 777 x07 in
  add_obj (ObjectContent_CommitBody (CommitBody_Transaction (Transaction_V0 content))) deps None
    repo_pubkey repo_secret store.
Definition add_body_ack (deps : list ObjectId) (repo_pubkey : PubKey) (repo_secret : SymKey)
    (store : St) : outcome (ObjectRef * St) :=
  add_obj (ObjectContent_CommitBody (CommitBody_Ack Ack_V0)) deps None repo_pubkey repo_secret store.
End Objects.

Section Test.
Context `{!Crypto, !Ed25519, !SizeOfBlock, !Bloom, !BloomBuilder}.
Context `{!Serde Block, !Serde BlockContentV0, !Serde ObjectContent, !Serde CommitContentV0}.
Context {C : Type} `{!BrokerConnection C}.
Variables (obj_fuel : nat) (seeds : demo_seeds).
Implicit Types (c : C) (store : HashMapRepoStore).

(** [.expect(..)] of a call *)
Definition expect {A B} (m : call C A) (k : A → C → outcome B) : C → outcome B := λ c,
  '(r, c) ← m c; match r with Ok a => k a c | Err _ => Panic end.

(** ** [test_sync] *)

Definition repo_pubkey : PubKey := (generate_keypair (repo_seed seeds)).2.
Definition repo_secret : SymKey := ChaCha20Key (array_fill 32 x09).
Definition repolink : RepoLink := RepoLink_V0 {|
  RepoLinkV0_id := repo_pubkey; RepoLinkV0_secret := repo_secret; RepoLinkV0_peers := [] |}.
Definition branch_pubkey : PubKey := (generate_keypair (branch_seed seeds)).2.
Definition member_privkey : PrivKey := (generate_keypair (member_seed seeds)).1.
Definition member_pubkey : PubKey := (generate_keypair (member_seed seeds)).2.
Definition demo_branch : Branch :=
  let metadata := replicate 64 x42 in
  let commit_types := [CommitType_Ack; CommitType_Transaction] in
  let secret := ChaCha20Key (array_fill 32 x00) in
  let member := MemberV0_new member_pubkey commit_types metadata in
  let quorum := {[ CommitType_Transaction := uint_wrap 32 3 ]} in
  let ack_delay := Minutes x03 in
  let tags := replicate 32 x63 in
  Branch_new branch_pubkey branch_pubkey secret [member] quorum ack_delay tags metadata.

(** A commit of the member, on the body of the branch *)
Definition demo_commit (branch_body : ObjectRef) (seq : N) (deps acks : list ObjectRef)
    (body_ref : ObjectRef) : HashMapRepoStore → outcome (ObjectRef * HashMapRepoStore) :=
  add_commit branch_body member_privkey member_pubkey (uint_wrap 32 seq) deps acks body_ref
    repo_pubkey repo_secret.

(** What the script refers to again *)
Record demo_refs : Type := {
  ref_branch_body : ObjectRef; ref_trans_body : ObjectRef;
  ref_br : ObjectRef; ref_t1 : ObjectRef; ref_t2 : ObjectRef; ref_t4 : ObjectRef;
  ref_a3 : ObjectRef; ref_t5 : ObjectRef; ref_a6 : ObjectRef; ref_a7 : ObjectRef
}.
Definition create_commits store : outcome (demo_refs * HashMapRepoStore) :=
  '(branch_body, store) ← add_body_branch demo_branch repo_pubkey repo_secret store;
  '(ack_body, store) ← add_body_ack [] repo_pubkey repo_secret store;
  '(trans_body, store) ← add_body_trans [] repo_pubkey repo_secret store;
  '(br, store) ← demo_commit branch_body 0 [] [] branch_body store;
  '(t1, store) ← demo_commit branch_body 1 [br] [] trans_body store;
  '(t2, store) ← demo_commit branch_body 2 [br] [] trans_body store;
  '(a3, store) ← demo_commit branch_body 3 [t1] [] ack_body store;
  '(t4, store) ← demo_commit branch_body 4 [t2] [t1] trans_body store;
  '(t5, store) ← demo_commit branch_body 5 [t1; t2] [t4] trans_body store;
  '(a6, store) ← demo_commit branch_body 6 [t4] [] ack_body store;
  '(a7, store) ← demo_commit branch_body 7 [t4] [] ack_body store;
  Ret ({| ref_branch_body := branch_body; ref_trans_body := trans_body; ref_br := br; ref_t1 := t1;
          ref_t2 := t2; ref_t4 := t4; ref_a3 := a3; ref_t5 := t5; ref_a6 := a6; ref_a7 := a7 |}, store).
(** The store of a client that has two of the commits *)
Definition some_commits (refs : demo_refs) store : outcome (list ObjectRef * HashMapRepoStore) :=
  '(br, store) ← demo_commit (ref_branch_body refs) 0 [] [] (ref_branch_body refs) store;
  '(t5, store) ← demo_commit (ref_branch_body refs) 5 [ref_t1 refs; ref_t2 refs] [ref_t4 refs]
                   (ref_trans_body refs) store;
  Ret ([br; t5], store).

Fixpoint put_all (self : OverlayConnectionClient) (blocks : list Block) (c : C) : outcome C :=
  match blocks with
  | [] => Ret c
  | v :: blocks => expect (put_block self v) (λ _, put_all self blocks) c
  end.
Definition add_refs (refs : list ObjectRef) (filter : Filter) : Filter :=
  foldl (λ f r, match BlockRef_id r with Blake3Digest32 d => filter_add (array_list d) f end) filter refs.
(** The loop that stores what is synchronized; the result of [put] is dropped. *)
Fixpoint store_blocks (blocks : list Block) store : outcome HashMapRepoStore :=
  match blocks with
  | [] => Ret store
  | b :: blocks => '(_, store) ← store_put b store; store_blocks blocks store
  end.

(** The store of the client at the end, too *)
Definition test_sync : C → outcome (HashMapRepoStore * C) := λ c,
  '(refs, store) ← create_commits HashMapRepoStore.new;
  expect (overlay_connect repolink true) (λ public_overlay_cnx c,
  c ← put_all public_overlay_cnx (HashMapRepoStore.get_all store) c;
  '(commits, store) ← some_commits refs HashMapRepoStore.new;
  let filter := add_refs commits (filter_new (uint_wrap 64 10) (1, 100)%N) in
  let known_commits := {| BloomFilter_k := filter_hashes filter;
                          BloomFilter_f := filter_get_u8_array filter |} in
  known_head ← unwrap (head commits);
  expect (sync_branch public_overlay_cnx [BlockRef_id (ref_a6 refs); BlockRef_id (ref_a7 refs)]
            [BlockRef_id known_head] known_commits) (λ synced_blocks c,
  store ← store_blocks synced_blocks store; Ret (store, c)) c) c.

(** ** [test] *)

Definition demo_user : PubKey := Ed25519PubKey (array_fill 32 x01).
Definition demo_repo : RepoLink := RepoLink_V0 {|
  RepoLinkV0_id := demo_user; RepoLinkV0_secret := ChaCha20Key (array_fill 32 x00);
  RepoLinkV0_peers := [] |}.
Definition demo_block : Block :=
  Block_new [] (ObjectIdList []) None (replicate 150 x1b) None.
Definition demo_file : ObjectContent := ObjectContent_File (File_V0 {|
  FileV0_content_type := []; FileV0_metadata := []; FileV0_content := repeat x30 (N.to_nat 69000) |}).
Definition block_size : usize := store_max_value_size.

(** [assert_eq!(r.err().unwrap(), e)] *)
Definition assert_error {A B} (m : call C A) (e : ProtocolError) (k : C → outcome B) : C → outcome B := λ c,
  '(r, c) ← m c;
  match r with Ok _ => Panic | Err e' => if decide (e' = e) then k c else Panic end.

Definition test (pub_key : PubKey) (priv_key : PrivKey) : call C unit :=
  call_try (add_user demo_user priv_key) (λ _,
  call_try (add_user pub_key priv_key) (λ _,
  assert_error (add_user demo_user priv_key) UserAlreadyExists (
  call_try (overlay_connect demo_repo true) (λ public_overlay_cnx,
  call_try (put_block public_overlay_cnx demo_block) (λ my_block_id,
  call_try (put_object public_overlay_cnx demo_file [] None block_size
              (RepoLink_id demo_repo) (RepoLink_secret demo_repo)) (λ object_id,
  call_try (get_block public_overlay_cnx my_block_id true None) (λ _,
  call_try (get_block public_overlay_cnx object_id true None) (λ _,
  call_try (get_object obj_fuel public_overlay_cnx object_id None) (λ _,
  call_try (delete_object public_overlay_cnx object_id) (λ _,
  assert_error (get_object obj_fuel public_overlay_cnx object_id None) NotFound (λ c,
  '(_, c) ← test_sync c; Ret (Ok tt, c)))))))))))).
End Test.

(** ** [test_local_connection] and [test_remote_connection] *)

Section Local.
Context {S R : Type} `{!BrokerStore S, !RepoStore R, !ServedStore R, !RepoDirs R}.
Context `{!RwLockRelock, !Crypto, !Ed25519, !SizeOfBlock, !Bloom, !BloomBuilder}.
Context `{!Serde Block, !Serde BlockContentV0, !Serde ObjectContent, !Serde AddUserContentV0}.
Context `{!Serde CommitContentV0}.
Context `{!Serde Digest, !Serde SymKey, !Serde PubKey, !Serde bool, !Serde u32, !Serde (array 5)}.
Context `{!Serde OverlayMeta, !Serde PeerAdvert, !Serde RepoStoreId, !Serde ConfigMode}.
Variables (obj_fuel fuel : nat) (envs : environment) (seeds : demo_seeds).

(** On a store that was opened, with what it and the directories hold. *)
Definition test_local_connection (s : S) (dirs : gmap RepoStoreId (array 32 * R)) (seed : bytes)
    : outcome (result unit ProtocolError * BrokerConnectionLocal S R) :=
  '(server, _) ← Server.new s ConfigMode_Local dirs;
  match server with
  | Err _ => Panic
  | Ok server =>
      let '(priv_key, pub_key) := generate_keypair seed in
      test (BrokerConnection0 := Local_BrokerConnection obj_fuel fuel envs) obj_fuel seeds pub_key priv_key
        (local_connection pub_key server)
  end.
End Local.

(** [test_remote_connection], once [connect_async] has opened the transport. An error is
    printed and dropped; only a test that passes closes its connection. *)
Section Remote.
Context {T : Type} `{!XActor, !Transport T, !Crypto, !Ed25519, !SizeOfBlock, !Bloom, !BloomBuilder}.
Context `{!Serde Block, !Serde BlockContentV0, !Serde ObjectContent, !Serde AddUserContentV0}.
Context `{!Serde CommitContentV0, !Serde BrokerMessage, !Serde StartProtocol, !Serde ServerHello}.
Context `{!Serde ClientAuth, !Serde ClientAuthContentV0, !Serde AuthResult}.
Variables (obj_fuel : nat) (seeds : demo_seeds).

Definition test_remote_connection (w : T) (seed : bytes)
    : outcome (result unit ProtocolError * option (BrokerConnectionRemote T)) :=
  let '(priv_key, pub_key) := generate_keypair seed in
  cnx_res ← ConnectionRemote.open_broker_connection w pub_key priv_key demo_user;
  match cnx_res with
  | Ok cnx =>
      '(res, cnx) ← test (BrokerConnection0 := Remote_BrokerConnection) obj_fuel seeds pub_key priv_key cnx;
      match res with
      | Err e => Ret (Err e, Some cnx)
      | Ok _ => cnx ← remote_close cnx; Ret (Ok tt, Some cnx)
      end
  | Err (e, _) => Ret (Err e, None)
  end.
End Remote.
