(* ===== verification/DemoProps.v ===== *)
(** * The demonstration client, on any connection

    The script of [Demo], over any connection that refines the abstract one, so over local
    and remote ones: it ends as on the abstract server. [DemoRun] says how it ends there. *)

From stdpp Require Import functions.
From S2P Require Import ObjectProps ObjectStoreProps Bare BareTypes BrokerRows NetBare MessageBare OverlayProps LmdbRepoStore LmdbView LmdbMem LmdbProps LmdbServed ServerTables ServerSim ServerProps.
From S2P Require Import Prelude Serde Types Block Store Object Utils Branch Commit NetTypes NetErrors.
From S2P Require Import ObjectTree ObjectStore ObjectSim BrokerStore BrokerTables Auth AuthProps.
From S2P Require Import Server Session SessionProps Client Connection ConnectionProps ClientProps ClientSpec ClientCalls Demo.
Import OverlayConnectionClient.

(** ** The objects of the script *)

Section Objects.
Context `{!Crypto, !CryptoLaws, !Ed25519, !SizeOfBlock}.
Context `{!Serde Block, !Serde BlockContentV0, !Serde ObjectContent, !Serde CommitContentV0}.
Context `{!SerdeLaws Block, !SerdeLaws BlockContentV0, !SerdeLaws ObjectContent}.
Context `{!SerdeTagged ObjectContent}.
Implicit Types (s : HashMapRepoStore).

(** If it returns, then with this. *)
Definition ends {X} (P : X → Prop) (m : outcome X) : Prop := osim (λ x y, x = y ∧ P y) m m.
Definition keeps {X} (m : HashMapRepoStore → outcome (X * HashMapRepoStore)) : Prop :=
  ∀ s, store_inv s → ends (λ x, store_inv x.2) (m s).

Lemma ends_ret {X} (P : X → Prop) x : P x → ends P (Ret x).
Proof. by constructor. Qed.
Lemma ends_bind {X Y} (P : X → Prop) (Q : Y → Prop) m k :
  ends P m → (∀ x, P x → ends Q (k x)) → ends Q (m ≫= k).
Proof. intros Hm Hk. eapply osim_bind; [exact Hm|]. intros x ? [<- Hx]. by apply Hk. Qed.
Lemma ends_any {X} (m : outcome X) : ends (λ _, True) m.
Proof. destruct m; by constructor. Qed.
Lemma ends_eq {X} (m : outcome X) : ends (λ x, m = Ret x) m.
Proof. destruct m; by constructor. Qed.

Lemma save_blocks_keeps bs D : Forall id_ok bs → keeps (save_blocks bs D).
Proof.
  intros Hbs. revert D. induction Hbs as [|b bs Hb Hbs IH]; intros D s Hs; [by apply ends_ret|].
  cbn [save_blocks]. destruct (decide _); [by apply IH|].
  apply (ends_bind (λ x, store_inv x.2)); [|intros [[id|e] s1] Hs1; [by apply IH|by apply ends_ret]].
  destruct (store_put_returns s b Hs Hb) as [[r s1] Hput]. rewrite Hput. apply ends_ret.
  by destruct (store_put_spec s b r s1 Hs Hb Hput) as (_ & ? & _).
Qed.
Lemma add_obj_keeps content deps expiry pk sk : keeps (add_obj content deps expiry pk sk).
Proof.
  intros s Hs. unfold add_obj. eapply ends_bind; [apply ends_eq|]. intros o Ho.
  destruct (new_sealed content deps expiry 4000 pk sk o ltac:(vm_compute; reflexivity) Ho)
    as (_ & _ & _ & _ & Hok & _).
  eapply ends_bind; [apply ends_any|]. intros id _.
  eapply ends_bind; [by apply save_blocks_keeps|]. intros [[[]|e] s1] Hs1; [|constructor].
  eapply ends_bind; [apply ends_any|]. intros r _.
  eapply ends_bind; [apply ends_any|]. intros r' _. by apply ends_ret.
Qed.
Lemma add_commit_keeps branch sk pk seq deps acks body rpk rsk :
  keeps (add_commit branch sk pk seq deps acks body rpk rsk).
Proof.
  intros s Hs. unfold add_commit. destruct (Commit_new _ _ _ _ _ _ _ _ _ _); [|constructor].
  by apply add_obj_keeps.
Qed.
(** The next object of a script *)
Lemma keeps_next {X Y} (P : Y → Prop) (m : HashMapRepoStore → outcome (X * HashMapRepoStore)) k s :
  keeps m → store_inv s → (∀ x s, store_inv s → ends P (k x s)) →
  ends P ('(x, s) ← m s; k x s).
Proof. intros Hm Hs Hk. eapply ends_bind; [by apply Hm|]. intros [x s1] Hs1. by apply Hk. Qed.

Variable seeds : demo_seeds.
Lemma create_commits_keeps : keeps (create_commits seeds).
Proof.
  intros s Hs. unfold create_commits, demo_commit, add_body_branch, add_body_ack, add_body_trans.
  repeat (apply keeps_next; [apply add_obj_keeps || apply add_commit_keeps|done|];
          clear dependent s; intros ? s Hs).
  by apply ends_ret.
Qed.
Lemma some_commits_keeps refs : keeps (some_commits seeds refs).
Proof.
  intros s Hs. unfold some_commits, demo_commit.
  repeat (apply keeps_next; [apply add_commit_keeps|done|]; clear dependent s; intros ? s Hs).
  by apply ends_ret.
Qed.
Lemma get_all_ok s : store_inv s → Forall id_ok (HashMapRepoStore.get_all s).
Proof.
  intros Hs. unfold HashMapRepoStore.get_all. apply Forall_fmap, Forall_forall.
  intros [id b] Hb%elem_of_map_to_list. by destruct (Hs id b Hb).
Qed.
End Objects.

(** ** The script *)

Section Demo.
Context `{!Crypto, !CryptoLaws, !Ed25519, !SizeOfBlock, !Bloom, !BloomBuilder}.
Context `{!Serde Block, !Serde BlockContentV0, !Serde ObjectContent, !Serde CommitContentV0}.
Context `{!SerdeLaws Block, !SerdeLaws BlockContentV0, !SerdeLaws ObjectContent}.
Context `{!SerdeTagged ObjectContent}.
Context {C : Type} {A : BrokerConnection abstract} `{!BrokerConnection C, !Refines C A}.
Variables (obj_fuel : nat) (seeds : demo_seeds).
Implicit Types (self : OverlayConnectionClient) (a : abstract) (c : C).

(** As [refines], for what does not return an error *)
Definition does {X Y} (n : nat) (RX : X → Y → Prop) (m : abstract → outcome (X * abstract))
    (m' : C → outcome (Y * C)) : Prop :=
  ∀ k a c, stands (n + k) a c → osim (λ x y, RX x.1 y.1 ∧ stands k x.2 y.2) (m a) (m' c).

Lemma expect_does {X X' Y Y'} n n' (RA : X → X' → Prop) (RB : Y → Y' → Prop) m m' k k' :
  refines n RA m m' → (∀ x y, RA x y → does n' RB (k x) (k' y)) →
  does (n + n') RB (expect m k) (expect m' k').
Proof.
  intros Hm Hk l a c Hst. unfold expect. rewrite <- Nat.add_assoc in Hst.
  eapply osim_bind; [by apply Hm|]. intros [[x|e] a1] [[y|e'] c1] [Hr Hst1]; cbn in Hr; try done; [|constructor].
  by apply Hk.
Qed.
Lemma assert_error_does {X X' Y Y'} n n' (RA : X → X' → Prop) (RB : Y → Y' → Prop) m m' e k k' :
  refines n RA m m' → does n' RB k k' → does (n + n') RB (assert_error m e k) (assert_error m' e k').
Proof.
  intros Hm Hk l a c Hst. unfold assert_error. rewrite <- Nat.add_assoc in Hst.
  eapply osim_bind; [by apply Hm|]. intros [[x|e1] a1] [[y|e2] c1] [Hr Hst1]; cbn in Hr; try done; [constructor|].
  subst e2. destruct (decide _); [by apply Hk|constructor].
Qed.
Lemma assert_error_refines {X X' Y Y'} n n' (RA : X → X' → Prop) (RB : Y → Y' → Prop) m m' e
    (k : call abstract Y) (k' : call C Y') :
  refines n RA m m' → refines n' RB k k' → refines (n + n') RB (assert_error m e k) (assert_error m' e k').
Proof. intros Hm Hk. exact (assert_error_does n n' RA (result_like RB) m m' e k k' Hm Hk). Qed.

Lemma put_all_refines self bs k a c : Forall id_ok bs → stands (length bs + k) a c →
  osim (stands k) (put_all self bs a) (put_all self bs c).
Proof.
  intros Hbs. revert a c. induction Hbs as [|b bs Hb Hbs IH]; intros a c Hst; [by constructor|].
  cbn [put_all]. unfold expect.
  eapply osim_bind; [exact (put_block_refines self b Hb (length bs + k) a c Hst)|].
  intros [[id|e] a1] [[id'|e'] c1] [Hr Hst1]; cbn in Hr; try done; [by apply IH|constructor].
Qed.
Lemma store_blocks_same bs bs' s s' : Forall2 same bs bs' → same_store s s' →
  osim same_store (store_blocks bs s) (store_blocks bs' s').
Proof.
  intros Hbs. revert s s'. induction Hbs as [|b b' bs bs' Hb Hbs IH]; intros s s' Hs; [by constructor|].
  cbn [store_blocks]. cbn [store_put HashMapRepoStore_RepoStore mbind outcome_bind].
  unfold HashMapRepoStore.put. apply IH. destruct Hs as (Hi & Hi' & Hv). pose proof Hb as (Hsk & Hok & Hok').
  destruct (store_put_spec s b _ _ Hi Hok eq_refl) as (_ & Hi1 & Hv1).
  destruct (store_put_spec s' b' _ _ Hi' Hok' eq_refl) as (_ & Hi1' & Hv1').
  split; [exact Hi1|split; [exact Hi1'|]].
  etransitivity; [exact Hv1|]. rewrite Hv, <- Hsk.
  rewrite <- (same_id _ _ Hb). exact (eq_sym Hv1').
Qed.

(** How many requests the synchronization takes, and the whole script *)
Definition sync_requests : nat :=
  match create_commits seeds HashMapRepoStore.new with
  | Ret (_, s) => length (HashMapRepoStore.get_all s) + 3
  | _ => 3
  end.
Definition put_requests : nat :=
  op_requests (DoPutObject {| overlay_id := overlay demo_repo true; repo_link := demo_repo |} demo_file [] None
    block_size (RepoLink_id demo_repo) (RepoLink_secret demo_repo)).
Definition demo_requests : nat := 11 + put_requests + sync_requests.

Lemma test_sync_does : does sync_requests (λ s s', same_store s s') (test_sync seeds) (test_sync seeds).
Proof.
  intros k a c Hst. unfold test_sync.
  apply (osim_bind (λ x y, x = y ∧ store_inv y.2 ∧ create_commits seeds HashMapRepoStore.new = Ret x)).
  { pose proof (create_commits_keeps seeds _ HashMapRepoStore_new_inv) as Hk. unfold ends in Hk.
    destruct (create_commits seeds HashMapRepoStore.new); constructor.
    split; [done|]. inversion Hk as [? ? [_ ?]| |]. by split. }
  intros [refs s] ? [<- [Hs Hc]]. cbn [snd] in Hs. unfold sync_requests in Hst. rewrite Hc in Hst.
  pose proof (get_all_ok s Hs) as Hbs. revert Hst Hbs. generalize (HashMapRepoStore.get_all s). intros bs Hst Hbs.
  refine (expect_does 2 (length bs + 1) eq same_store _ _ _ _ _ _ k a c _); [by apply connect_refines| |].
  2: eapply stands_le; [|exact Hst]; lia.
  clear Hst. intros self ? <- l a1 c1 Hst.
  apply (osim_bind (stands (1 + l))); [apply put_all_refines; [done|]|].
  { eapply stands_le; [|exact Hst]. lia. }
  intros a2 c2 Hst2. apply (osim_bind (λ x y, x = y ∧ store_inv y.2)).
  { exact (some_commits_keeps seeds refs _ HashMapRepoStore_new_inv). }
  intros [commits st] ? [<- Hst']. cbn [snd] in Hst'.
  apply (osim_bind eq); [apply osim_eq|]. intros known ? <-.
  refine (expect_does 1 0 (Forall2 same) same_store _ _ _ _ (sync_branch_refines _ _ _ _) _ l a2 c2 Hst2).
  intros bs1 bs2 Hbs' l' a3 c3 Hst3.
  eapply osim_bind; [by apply (store_blocks_same bs1 bs2 st st)|].
  intros st1 st2 Hst12. by constructor.
Qed.

Lemma test_refines pub_key priv_key k a c :
  stands (demo_requests + k) a c →
  osim (λ x y, x.1 = y.1 ∧ stands k x.2 y.2)
    (test obj_fuel seeds pub_key priv_key a) (test obj_fuel seeds pub_key priv_key c).
Proof.
  intros Hst. assert (Hput : ∀ o, Object_new demo_file [] None block_size (RepoLink_id demo_repo)
    (RepoLink_secret demo_repo) = Ret o → length (Object_blocks o) ≤ put_requests).
  { intros o Ho. unfold put_requests. cbn [op_requests]. by rewrite Ho. }
  unfold demo_requests in Hst. revert Hst Hput. generalize put_requests. intros n Hst Hput.
  assert (Htest : refines (1 + (1 + (1 + (2 + (1 + (n + (1 + (1 + (1 + (1 + (1 + sync_requests)))))))))))
    eq (test obj_fuel seeds pub_key priv_key) (test obj_fuel seeds pub_key priv_key)).
  { unfold test.
    eapply refines_try; [apply refines_user|intros [] [] _].
    eapply refines_try; [apply refines_user|intros [] [] _].
    eapply assert_error_refines; [apply refines_user|].
    eapply refines_try; [by apply connect_refines|intros self ? <-].
    eapply refines_try; [by apply put_block_refines, id_ok_new|intros bid ? <-].
    eapply refines_try.
    { apply (put_object_refines self demo_file [] None block_size _ _ n); [vm_compute; reflexivity|exact Hput]. }
    intros oid ? <-.
    eapply refines_try; [apply get_block_refines|intros ? ? _].
    eapply refines_try; [apply get_block_refines|intros ? ? _].
    eapply refines_try; [apply get_object_refines|intros ? ? _].
    eapply refines_try; [by apply refines_unit|intros ? ? _].
    eapply assert_error_refines; [apply get_object_refines|].
    intros l a1 c1 Hst1. eapply osim_bind; [by apply test_sync_does|].
    intros [s a2] [s' c2] [_ Hst2]. by constructor. }
  eapply osim_impl; [apply (Htest k a c); eapply stands_le; [|exact Hst]; lia|].
  intros [r a'] [r' c'] [Hr Hst']. split; [by apply result_like_eq|done].
Qed.
End Demo.

(** ** Example: a filter, and how many requests the script takes *)

Module Examples.
Import BareTypes.Instances NetBare.NetInstances MessageInstances MemStore LmdbMem LmdbServed LmdbExamples.
Import ObjectProps.Examples ObjectStoreProps.Examples OverlayProps.Examples ServerProps.Examples.
Import AuthProps.Examples SessionProps.Examples ConnectionProps.Examples.

(** The digests that were added, one after the other *)
Fixpoint digests (n : nat) (f : bytes) : list bytes :=
  match n with O => [] | S n => take 32 f :: digests n (drop 32 f) end.
#[export] Instance exact_bloom : Bloom := {
  Filter := bytes;
  filter_from_u8_array b k := b;
  filter_contains f d := bool_decide (d ∈ digests (length f / 32) f)
}.
#[export] Instance exact_builder : BloomBuilder := {
  filter_new n p := [];
  filter_add d f := f ++ d;
  filter_hashes f := uint_wrap 32 1;
  filter_get_u8_array f := f
}.
Definition seeds1 : demo_seeds :=
  {| repo_seed := [x10]; branch_seed := [x11]; member_seed := [x12] |}.
Abbreviation remote := (BrokerConnectionRemote (ServerTransport ms_db LmdbRepoStore)).
Abbreviation abstract0 := ClientCalls.Examples.abstract0.
Lemma remote0_demo : conn_ok local0 remote0.
Proof. by split_and!. Qed.
Lemma requests1 : (demo_requests seeds1 <=? 1000) = true.
Proof. vm_compute. reflexivity. Qed.
End Examples.
