(* ===== verification/DemoGraph.v ===== *)
(** * The graph of the demonstration

    The commits that [test_sync] makes are given as the graph they are meant to be; the
    script builds the objects of this graph, and a synchronization over it, from the heads
    and to the root that [test_sync] names, answers what it should. *)

From stdpp Require Import functions.
From S2P Require Import ObjectProps ObjectStoreProps Bare BareTypes BrokerRows NetBare MessageBare OverlayProps LmdbRepoStore LmdbView LmdbMem LmdbProps LmdbServed ServerTables ServerSim ServerProps.
From S2P Require Import Prelude Serde Types Block Store Object Utils Branch Commit NetTypes NetErrors.
From S2P Require Import ObjectTree ObjectStore ObjectSim BranchSync BrokerStore BrokerTables Auth AuthProps.
From S2P Require Import Server Session SessionProps Client Connection ConnectionProps ClientProps ClientSpec ClientCalls Demo DemoProps.
Import OverlayConnectionClient.

(** ** The graph of commits *)

(** The dependencies and the acknowledgements of a commit, and its body, by number *)
Record graph_row : Type := { row_deps : list nat; row_acks : list nat; row_body : nat }.
(** The root, two transactions, an acknowledgement, two transactions that acknowledge, two
    acknowledgements: the graph that [test_sync] prints *)
Definition demo_graph : list graph_row :=
  [ {| row_deps := []; row_acks := []; row_body := 0 |};
    {| row_deps := [0]; row_acks := []; row_body := 2 |};
    {| row_deps := [0]; row_acks := []; row_body := 2 |};
    {| row_deps := [1]; row_acks := []; row_body := 1 |};
    {| row_deps := [2]; row_acks := [1]; row_body := 2 |};
    {| row_deps := [1; 2]; row_acks := [4]; row_body := 2 |};
    {| row_deps := [4]; row_acks := []; row_body := 1 |};
    {| row_deps := [4]; row_acks := []; row_body := 1 |} ].

Section Graph.
Context `{!Crypto, !Ed25519} `{!Serde Block, !Serde BlockContentV0, !Serde ObjectContent}.
Context `{!Serde CommitContentV0}.
Variable seeds : demo_seeds.

Definition demo_object (content : ObjectContent) (deps : list ObjectId) : outcome Object :=
  Object_new content deps None 4000 (repo_pubkey seeds) repo_secret.
Definition object_ref (o : Object) : outcome ObjectRef := r ← Object_reference o; unwrap r.
Definition demo_bodies : list CommitBody :=
  [CommitBody_Branch (demo_branch seeds); CommitBody_Ack Ack_V0;
   CommitBody_Transaction (Transaction_V0 (replicate 777 x07))].
(** What is at some places of a list *)
Definition at_places {A} (l : list A) (places : list nat) : list A := omap (l !!.) places.

(** The object of a commit, given the bodies and the commits before it *)
Definition commit_object (bodies refs : list ObjectRef) (row : graph_row) : outcome Object :=
  branch ← unwrap (bodies !! 0);
  body ← unwrap (bodies !! row_body row);
  let deps := at_places refs (row_deps row) in
  let acks := at_places refs (row_acks row) in
  let other := {| BlockRef_id := Blake3Digest32 (array_fill 32 x01);
                  BlockRef_key := ChaCha20Key (array_fill 32 x02) |} in
  match Commit_new (member_privkey seeds) (member_pubkey seeds) (uint_wrap 32 (N.of_nat (length refs)))
          branch deps acks [other] (replicate 55 x05) body None with
  | Ok c => demo_object (ObjectContent_Commit c) (BlockRef_id <$> deps ++ acks)
  | Err _ => Panic
  end.
Fixpoint graph_objects (bodies refs : list ObjectRef) (rows : list graph_row) : outcome (list Object) :=
  match rows with
  | [] => Ret []
  | row :: rows =>
      o ← commit_object bodies refs row;
      r ← object_ref o;
      os ← graph_objects bodies (refs ++ [r]) rows;
      Ret (o :: os)
  end.
(** The objects of the bodies and of the commits *)
Definition demo_objects : outcome (list Object * list Object) :=
  bodies ← mapM (λ b, demo_object (ObjectContent_CommitBody b) []) demo_bodies;
  refs ← mapM object_ref bodies;
  commits ← graph_objects refs [] demo_graph;
  Ret (bodies, commits).
End Graph.

(** ** Building them *)

Section Build.
Context `{!Crypto, !CryptoLaws, !Ed25519, !SizeOfBlock}.
Context `{!Serde Block, !Serde BlockContentV0, !Serde ObjectContent, !Serde CommitContentV0}.
Context `{!SerdeLaws Block, !SerdeLaws BlockContentV0, !SerdeLaws ObjectContent}.
Context `{!SerdeTagged ObjectContent}.
Variable seeds : demo_seeds.
Implicit Types (s : HashMapRepoStore).

Lemma collision_free_app_l bs bs' : collision_free (bs ++ bs') → collision_free bs.
Proof. intros Hc b1 b2 ??. apply Hc; apply elem_of_app; by left. Qed.
Lemma collision_free_app_r bs bs' : collision_free (bs ++ bs') → collision_free bs'.
Proof. intros Hc b1 b2 ??. apply Hc; apply elem_of_app; by right. Qed.
Lemma collision_free_sub bs bs' : (∀ b, b ∈ bs → b ∈ bs') → collision_free bs' → collision_free bs.
Proof. intros Hsub Hc b1 b2 ??. apply Hc; by apply Hsub. Qed.

Lemma blocks_map_Some bs i b : collision_free bs →
  blocks_map bs !! i = Some b ↔ ∃ b', b' ∈ bs ∧ Block_id b' = i ∧ serde_skip b' = b.
Proof.
  intros Hc. split.
  - intros (b' & [= -> ->] & Hb')%elem_of_list_to_map_2%list_elem_of_fmap. by exists b'.
  - intros (b' & Hb' & <- & <-). by apply blocks_map_lookup.
Qed.
Lemma blocks_map_app bs bs' : collision_free (bs ++ bs') →
  blocks_map bs' ∪ blocks_map bs = blocks_map (bs ++ bs').
Proof.
  intros Hc. pose proof (collision_free_app_l _ _ Hc) as Hl. pose proof (collision_free_app_r _ _ Hc) as Hr.
  apply map_eq. intros i. apply option_eq. intros b.
  rewrite (blocks_map_Some _ _ _ Hc), lookup_union_Some_raw, !blocks_map_Some by done.
  setoid_rewrite elem_of_app. split.
  - intros [(b' & ? & ?)|[_ (b' & ? & ?)]]; exists b'; naive_solver.
  - intros (b' & [Hb'|Hb'] & <- & <-); [|left; by exists b'].
    destruct (blocks_map bs' !! Block_id b') as [b2|] eqn:Hb2; [left|right; split; [done|by exists b']].
    apply blocks_map_Some in Hb2 as (b3 & Hb3 & Hid & <-); [|done]. exists b3. split_and!; [done..|].
    apply Hc; [by apply elem_of_app; right|by apply elem_of_app; left|done].
Qed.

(** A store that holds some blocks and no others *)
Definition has_blocks s (bs : list Block) : Prop := store_inv s ∧ store_view s = blocks_map bs.
Lemma has_blocks_new : has_blocks HashMapRepoStore.new [].
Proof. split; [apply HashMapRepoStore_new_inv|apply HashMapRepoStore_new_view]. Qed.

Lemma add_obj_ok content deps o bs s :
  demo_object seeds content deps = Ret o → collision_free (bs ++ Object_blocks o) → has_blocks s bs →
  ∃ r s', object_ref o = Ret r ∧
  add_obj content deps None (repo_pubkey seeds) repo_secret s = Ret (r, s') ∧
  has_blocks s' (bs ++ Object_blocks o).
Proof.
  intros Hnew Hc [Hinv Hv].
  destruct (new_sealed content deps None 4000 _ _ o ltac:(vm_compute; reflexivity) Hnew)
    as (cs & root & Hseal & _ & Hok & _ & Hroot & _).
  destruct (sealed_reference o cs Hseal) as (root' & k & Hroot' & Hk & Href).
  destruct (save_blocks_stored o s (collision_free_app_r _ _ Hc) Hok Hinv) as (s' & Hsave & Hinv' & Hv' & _).
  eexists _, s'. unfold object_ref, add_obj, demo_object in *. rewrite Hnew, Href.
  cbn [mbind outcome_bind unwrap]. unfold Object_id. rewrite Hroot. cbn [mbind outcome_bind].
  rewrite Hsave. cbn [mbind outcome_bind]. try rewrite Href. cbn [mbind outcome_bind unwrap].
  split; [done|]. split; [done|]. split; [done|]. by rewrite Hv', Hv, blocks_map_app.
Qed.
Lemma demo_commit_ok bodies refs row o bs s branch body deps acks seq :
  commit_object seeds bodies refs row = Ret o →
  bodies !! 0 = Some branch → bodies !! row_body row = Some body →
  at_places refs (row_deps row) = deps → at_places refs (row_acks row) = acks →
  N.of_nat (length refs) = seq → collision_free (bs ++ Object_blocks o) → has_blocks s bs → ∃ r s',
  object_ref o = Ret r ∧ demo_commit seeds branch seq deps acks body s = Ret (r, s') ∧
  has_blocks s' (bs ++ Object_blocks o).
Proof.
  intros Ho Hbranch Hbody <- <- <- Hc Hs. unfold commit_object in Ho. rewrite Hbranch, Hbody in Ho.
  cbn [unwrap mbind outcome_bind] in Ho. unfold demo_commit, add_commit.
  destruct (Commit_new _ _ _ _ _ _ _ _ _ _) as [c|e]; [|done]. rewrite fmap_app in Ho.
  by apply add_obj_ok.
Qed.
Lemma graph_cons bodies refs row rows os : graph_objects seeds bodies refs (row :: rows) = Ret os →
  ∃ o r os', commit_object seeds bodies refs row = Ret o ∧ object_ref o = Ret r ∧
  graph_objects seeds bodies (refs ++ [r]) rows = Ret os' ∧ os = o :: os'.
Proof.
  cbn [graph_objects]. destruct (commit_object _ _ _ _) as [o| |]; cbn [mbind outcome_bind]; [|done..].
  destruct (object_ref o) as [r| |] eqn:Hr; cbn [mbind outcome_bind]; [|done..].
  destruct (graph_objects _ _ _ rows) as [os'| |] eqn:Hg; cbn [mbind outcome_bind]; [|done..].
  intros [= <-]. by exists o, r, os'.
Qed.

(** What the script refers to, as the list it is in the graph *)
Definition refs_list (refs : demo_refs) : list ObjectRef :=
  [ref_br refs; ref_t1 refs; ref_t2 refs; ref_a3 refs; ref_t4 refs; ref_t5 refs; ref_a6 refs; ref_a7 refs].
Definition all_blocks (os : list Object) : list Block := concat (Object_blocks <$> os).
Lemma all_blocks_app os os' : all_blocks (os ++ os') = all_blocks os ++ all_blocks os'.
Proof. unfold all_blocks. by rewrite fmap_app, concat_app. Qed.
Lemma all_blocks_snoc os o : all_blocks (os ++ [o]) = all_blocks os ++ Object_blocks o.
Proof. rewrite all_blocks_app. unfold all_blocks. cbn. by rewrite app_nil_r. Qed.
Lemma elem_of_all_blocks b os : b ∈ all_blocks os ↔ ∃ o, o ∈ os ∧ b ∈ Object_blocks o.
Proof.
  induction os as [|o os IH]; [split; [by intros ?%elem_of_nil|by intros (? & ?%elem_of_nil & _)]|].
  change (all_blocks (o :: os)) with (Object_blocks o ++ all_blocks os). rewrite elem_of_app, IH.
  setoid_rewrite elem_of_cons. naive_solver.
Qed.
Lemma all_blocks_free os o os' :
  collision_free (all_blocks (os ++ o :: os')) → collision_free (all_blocks os ++ Object_blocks o).
Proof.
  change (o :: os') with ([o] ++ os'). rewrite (assoc_L (++)), all_blocks_app, all_blocks_snoc.
  apply collision_free_app_l.
Qed.

(** The next object is added to the store. *)
Lemma add_next content deps prev o r s rest :
  demo_object seeds content deps = Ret o → object_ref o = Ret r →
  collision_free (all_blocks (prev ++ o :: rest)) → has_blocks s (all_blocks prev) → ∃ s',
  add_obj content deps None (repo_pubkey seeds) repo_secret s = Ret (r, s') ∧
  has_blocks s' (all_blocks (prev ++ [o])).
Proof.
  intros Ho Hr Hc%all_blocks_free Hs. rewrite all_blocks_snoc.
  destruct (add_obj_ok _ _ _ _ _ Ho Hc Hs) as (r' & s' & Hr' & ? & ?).
  assert (r' = r) as -> by congruence. by exists s'.
Qed.
Lemma commit_next bodies refs row prev o r s rest branch body seq deps acks :
  commit_object seeds bodies refs row = Ret o → object_ref o = Ret r →
  collision_free (all_blocks (prev ++ o :: rest)) → has_blocks s (all_blocks prev) →
  bodies !! 0 = Some branch → bodies !! row_body row = Some body → N.of_nat (length refs) = seq →
  at_places refs (row_deps row) = deps → at_places refs (row_acks row) = acks → ∃ s',
  demo_commit seeds branch seq deps acks body s = Ret (r, s') ∧ has_blocks s' (all_blocks (prev ++ [o])).
Proof.
  intros Ho Hr Hc%all_blocks_free Hs Hb0 Hb Hseq Hdeps Hacks. rewrite all_blocks_snoc.
  destruct (demo_commit_ok _ _ _ _ _ _ _ _ _ _ _ Ho Hb0 Hb Hdeps Hacks Hseq Hc Hs) as (r' & s' & Hr' & ? & ?).
  assert (r' = r) as -> by congruence. by exists s'.
Qed.
Lemma mapM_cons_Ret {A B} (f : A → outcome B) x l ys : mapM f (x :: l) = Ret ys →
  ∃ y ys', f x = Ret y ∧ mapM f l = Ret ys' ∧ ys = y :: ys'.
Proof.
  cbn [mapM]. intros (y & Hy & (ys' & Hys & [= <-])%bind_Ret)%bind_Ret. by exists y, ys'.
Qed.
Lemma demo_objects_inv bodies commits : demo_objects seeds = Ret (bodies, commits) →
  ∃ b0 b1 b2 q0 q1 q2, bodies = [b0; b1; b2] ∧
  demo_object seeds (ObjectContent_CommitBody (CommitBody_Branch (demo_branch seeds))) [] = Ret b0 ∧
  demo_object seeds (ObjectContent_CommitBody (CommitBody_Ack Ack_V0)) [] = Ret b1 ∧
  demo_object seeds (ObjectContent_CommitBody (CommitBody_Transaction
    (Transaction_V0 (replicate 777 x07)))) [] = Ret b2 ∧
  object_ref b0 = Ret q0 ∧ object_ref b1 = Ret q1 ∧ object_ref b2 = Ret q2 ∧
  graph_objects seeds [q0; q1; q2] [] demo_graph = Ret commits.
Proof.
  unfold demo_objects, demo_bodies.
  intros (bs & (b0 & ? & Hb0 & (b1 & ? & Hb1 & (b2 & ? & Hb2 & [= <-] & ->)%mapM_cons_Ret & ->)%mapM_cons_Ret & ->)%mapM_cons_Ret &
    (qs & (q0 & ? & Hq0 & (q1 & ? & Hq1 & (q2 & ? & Hq2 & [= <-] & ->)%mapM_cons_Ret & ->)%mapM_cons_Ret & ->)%mapM_cons_Ret &
    (cs & Hcs & [= <- <-])%bind_Ret)%bind_Ret)%bind_Ret.
  by exists b0, b1, b2, q0, q1, q2.
Qed.

(** An object with the dependencies it was made with *)
Definition made_with (o : Object) (r : ObjectRef) (deps : list ObjectRef) : Prop :=
  object_ref o = Ret r ∧ ∃ content, demo_object seeds content (BlockRef_id <$> deps) = Ret o.
Lemma commit_made bodies refs row o r deps :
  commit_object seeds bodies refs row = Ret o → object_ref o = Ret r →
  at_places refs (row_deps row) ++ at_places refs (row_acks row) = deps → made_with o r deps.
Proof.
  intros (branch & _ & (body & _ & Ho)%bind_Ret)%bind_Ret Hr <-. split; [done|].
  cbv zeta in Ho. destruct (Commit_new _ _ _ _ _ _ _ _ _ _); [by eexists|done].
Qed.

(** The next call of the script makes the object [o] on a store with the objects [prev]. *)
Ltac run_next next s Hs :=
  destruct next as (s & -> & Hs); cbn [mbind outcome_bind app] in *.
Ltac run_commit next s Hs :=
  run_next (next eq_refl eq_refl eq_refl eq_refl eq_refl) s Hs.

(** The script's commits are those of the graph. *)
Lemma create_commits_ok bodies commits :
  demo_objects seeds = Ret (bodies, commits) → collision_free (all_blocks (bodies ++ commits)) →
  ∃ refs s s' br t1 t2 a3 t4 t5 a6 a7,
  create_commits seeds HashMapRepoStore.new = Ret (refs, s) ∧ has_blocks s (all_blocks (bodies ++ commits)) ∧
  some_commits seeds refs HashMapRepoStore.new = Ret ([ref_br refs; ref_t5 refs], s') ∧
  has_blocks s' (all_blocks [br; t5]) ∧
  commits = [br; t1; t2; a3; t4; t5; a6; a7] ∧
  made_with br (ref_br refs) [] ∧ made_with t1 (ref_t1 refs) [ref_br refs] ∧
  made_with t2 (ref_t2 refs) [ref_br refs] ∧ made_with a3 (ref_a3 refs) [ref_t1 refs] ∧
  made_with t4 (ref_t4 refs) [ref_t2 refs; ref_t1 refs] ∧
  made_with t5 (ref_t5 refs) [ref_t1 refs; ref_t2 refs; ref_t4 refs] ∧
  made_with a6 (ref_a6 refs) [ref_t4 refs] ∧ made_with a7 (ref_a7 refs) [ref_t4 refs].
Proof.
  intros (b0 & b1 & b2 & q0 & q1 & q2 & -> & Hb0 & Hb1 & Hb2 & Hq0 & Hq1 & Hq2 & Hg)%demo_objects_inv Hc.
  unfold demo_graph in Hg.
  apply graph_cons in Hg as (c0 & r0 & ? & Hc0 & Hr0 & Hg & ->).
  apply graph_cons in Hg as (c1 & r1 & ? & Hc1 & Hr1 & Hg & ->).
  apply graph_cons in Hg as (c2 & r2 & ? & Hc2 & Hr2 & Hg & ->).
  apply graph_cons in Hg as (c3 & r3 & ? & Hc3 & Hr3 & Hg & ->).
  apply graph_cons in Hg as (c4 & r4 & ? & Hc4 & Hr4 & Hg & ->).
  apply graph_cons in Hg as (c5 & r5 & ? & Hc5 & Hr5 & Hg & ->).
  apply graph_cons in Hg as (c6 & r6 & ? & Hc6 & Hr6 & Hg & ->).
  apply graph_cons in Hg as (c7 & r7 & ? & Hc7 & Hr7 & Hg & ->).
  injection Hg as <-. cbn [app] in *.
  unfold create_commits, add_body_branch, add_body_ack, add_body_trans.
  run_next (add_next _ _ [] b0 q0 _ _ Hb0 Hq0 Hc has_blocks_new) s0 Hs0.
  run_next (add_next _ _ [b0] b1 q1 s0 _ Hb1 Hq1 Hc Hs0) s1 Hs1.
  run_next (add_next _ _ [b0; b1] b2 q2 s1 _ Hb2 Hq2 Hc Hs1) s2 Hs2.
  run_commit (commit_next _ _ _ [b0; b1; b2] c0 r0 s2 _ q0 q0 0 [] [] Hc0 Hr0 Hc Hs2) s3 Hs3.
  run_commit (commit_next _ _ _ [b0; b1; b2; c0] c1 r1 s3 _ q0 q2 1 [r0] [] Hc1 Hr1 Hc Hs3) s4 Hs4.
  run_commit (commit_next _ _ _ [b0; b1; b2; c0; c1] c2 r2 s4 _ q0 q2 2 [r0] [] Hc2 Hr2 Hc Hs4) s5 Hs5.
  run_commit (commit_next _ _ _ [b0; b1; b2; c0; c1; c2] c3 r3 s5 _ q0 q1 3 [r1] [] Hc3 Hr3 Hc Hs5) s6 Hs6.
  run_commit (commit_next _ _ _ [b0; b1; b2; c0; c1; c2; c3] c4 r4 s6 _ q0 q2 4 [r2] [r1] Hc4 Hr4 Hc Hs6) s7 Hs7.
  run_commit (commit_next _ _ _ [b0; b1; b2; c0; c1; c2; c3; c4] c5 r5 s7 _ q0 q2 5 [r1; r2] [r4] Hc5 Hr5 Hc Hs7) s8 Hs8.
  run_commit (commit_next _ _ _ [b0; b1; b2; c0; c1; c2; c3; c4; c5] c6 r6 s8 _ q0 q1 6 [r4] [] Hc6 Hr6 Hc Hs8) s9 Hs9.
  run_commit (commit_next _ _ _ [b0; b1; b2; c0; c1; c2; c3; c4; c5; c6] c7 r7 s9 _ q0 q1 7 [r4] [] Hc7 Hr7 Hc Hs9) s10 Hs10.
  assert (Hc' : collision_free (all_blocks ([] ++ [c0; c5]))).
  { eapply collision_free_sub; [|exact Hc]. intros b Hb. unfold all_blocks in *. cbn in *.
    rewrite !elem_of_app in *. tauto. }
  destruct (commit_next _ _ _ [] c0 r0 HashMapRepoStore.new _ q0 q0 0 [] [] Hc0 Hr0 Hc' has_blocks_new
    eq_refl eq_refl eq_refl eq_refl eq_refl) as (s11 & Hrun1 & Hs11).
  destruct (commit_next _ _ _ [c0] c5 r5 s11 _ q0 q2 5 [r1; r2] [r4] Hc5 Hr5 Hc' Hs11
    eq_refl eq_refl eq_refl eq_refl eq_refl) as (s12 & Hrun2 & Hs12).
  eexists _, s10, s12, c0, c1, c2, c3, c4, c5, c6, c7. split; [reflexivity|]. split; [exact Hs10|].
  split; [unfold some_commits; cbn; by rewrite Hrun1; cbn [mbind outcome_bind]; rewrite Hrun2|].
  split; [exact Hs12|]. split; [done|].
  split_and!; (eapply commit_made; [eassumption|eassumption|reflexivity]).
Qed.
End Build.

(** ** Walking them *)

Section Walk.
Context `{!Crypto, !Bloom} `{!Serde Block, !Serde BlockContentV0, !Serde ObjectContent}.
Context `{!SerdeLaws Block}.
Variables (obj_fuel : nat) (V : gmap BlockId Block).

(** An object with these dependencies is there. *)
Definition at_deps (i : ObjectId) (deps : list ObjectId) : Prop :=
  ∃ o, object_at obj_fuel V i = Ret (Ok o) ∧ Object_deps o = deps.
Lemma at_deps_eq i deps deps' : at_deps i deps → at_deps i deps' → deps = deps'.
Proof. intros (o & Ho & <-) (o' & Ho' & <-). congruence. Qed.
Lemma at_deps_reach T i deps j j' :
  at_deps i deps → (i ∉ T) → j ∈ deps → (∃ d, at_deps j d) → sync_reach obj_fuel V T j j' →
  sync_reach obj_fuel V T i j'.
Proof.
  intros (o & Ho & <-) HT Hj (d & o' & Ho' & _) Hr. eapply rtc_l; [|exact Hr].
  split_and!; [done|by exists o|by exists o'].
Qed.
Lemma edge_deps T i j deps : at_deps i deps → sync_edge obj_fuel V T i j → j ∈ deps.
Proof. intros (o & Ho & <-) (_ & (o' & Ho' & Hj) & _). congruence. Qed.

Variables br t1 t2 t4 a6 a7 : ObjectId.
Hypotheses (Hbr : at_deps br []) (Ht1 : at_deps t1 [br]) (Ht2 : at_deps t2 [br]).
Hypotheses (Ht4 : at_deps t4 [t2; t1]) (Ha6 : at_deps a6 [t4]) (Ha7 : at_deps a7 [t4]).

Lemma not_root i deps : at_deps i deps → deps ≠ [] → i ∉ [br].
Proof. intros Hi Hne ->%list_elem_of_singleton. by rewrite (at_deps_eq br deps []) in Hne. Qed.
Lemma walked i deps h : at_deps i deps → deps ≠ [] →
  sync_reach obj_fuel V [br] h i → sync_walk obj_fuel V [br] h i.
Proof.
  intros Hi Hne Hr. split; [done|]. split; [by eapply not_root|].
  destruct Hi as (o & Ho & <-). by exists o.
Qed.

Lemma demo_walk j :
  (∃ h, h ∈ [a6; a7] ∧ sync_walk obj_fuel V [br] h j) ↔ j ∈ [a6; a7; t4; t2; t1].
Proof.
  split.
  - intros (h & Hh & Hr & HT & o & Ho & Hne).
    assert (Hin : j ∈ [a6; a7; t4; t2; t1; br]).
    { revert j Hr HT o Ho Hne. refine (rtc_ind_r (λ j, ∀ (_ : j ∉ [br]) o, object_at obj_fuel V j = Ret (Ok o) →
        Object_deps o ≠ [] → j ∈ [a6; a7; t4; t2; t1; br]) h _ _); [set_solver|].
      intros i j _ Hedge IH _ _ _ _. pose proof Hedge as (HiT & (oi & Hoi & Hji) & _).
      assert (Hne : Object_deps oi ≠ []) by (by intros Hnil; rewrite Hnil in Hji; apply elem_of_nil in Hji).
      specialize (IH HiT oi Hoi Hne). rewrite !elem_of_cons in IH.
      destruct IH as [->|[->|[->|[->|[->|[->|[]%elem_of_nil]]]]]];
        [apply (edge_deps _ _ _ _ Ha6) in Hedge|apply (edge_deps _ _ _ _ Ha7) in Hedge|
         apply (edge_deps _ _ _ _ Ht4) in Hedge|apply (edge_deps _ _ _ _ Ht2) in Hedge|
         apply (edge_deps _ _ _ _ Ht1) in Hedge|apply (edge_deps _ _ _ _ Hbr) in Hedge]; set_solver. }
    clear -Hin HT. set_solver.
  - assert (Hheads : ∀ h, h ∈ [a6; a7] → at_deps h [t4]) by (by intros h [->|[->|[]%elem_of_nil]%elem_of_cons]%elem_of_cons).
    assert (H6 : ∀ k, sync_reach obj_fuel V [br] t4 k → sync_reach obj_fuel V [br] a6 k).
    { intros k. apply (at_deps_reach _ _ _ _ _ Ha6); [by eapply not_root|by left|by eexists]. }
    assert (Hbelow : ∀ k, k ∈ [t2; t1] → sync_reach obj_fuel V [br] t4 k).
    { intros k Hk. apply (at_deps_reach _ _ _ k _ Ht4); [by eapply not_root|done| |constructor].
      rewrite !elem_of_cons in Hk. destruct Hk as [->|[->|[]%elem_of_nil]]; by eexists. }
    rewrite !elem_of_cons. intros [->|[->|[->|[->|[->|[]%elem_of_nil]]]]];
      [exists a6|exists a7|exists a6|exists a6|exists a6]; (split; [set_solver|]);
      (eapply walked; [eassumption|done|]); [constructor|constructor|apply H6; constructor|
        apply H6, Hbelow; set_solver..].
Qed.
Lemma demo_known j : ¬ ∃ h, h ∈ [br] ∧ sync_walk obj_fuel V [] h j.
Proof.
  intros (h & ->%list_elem_of_singleton & Hr & _ & o & Ho & Hne).
  apply rtc_inv in Hr as [<-|(k & Hedge & _)].
  - destruct Hbr as (o' & Ho' & Hnil). congruence.
  - by apply (edge_deps _ _ _ _ Hbr), elem_of_nil in Hedge.
Qed.

Lemma at_deep n i deps : at_deps i deps → (∀ d, d ∈ deps → deep obj_fuel V n d) → deep obj_fuel V (S n) i.
Proof. intros (o & Ho & <-) Hd. by exists o. Qed.
Lemma demo_deep h : h ∈ [a6; a7] ++ [br] → deep obj_fuel V 3 h.
Proof.
  assert (Hd0 : ∀ n, deep obj_fuel V n br).
  { destruct Hbr as (o & Ho & Hnil). intros [|n]; exists o; (split; [done|]); [done|].
    rewrite Hnil. by intros d ?%elem_of_nil. }
  assert (Hd1 : ∀ i, i ∈ [t2; t1] → deep obj_fuel V 1 i).
  { intros i Hi. rewrite !elem_of_cons in Hi. destruct Hi as [->|[->|[]%elem_of_nil]];
      (eapply at_deep; [eassumption|]); by intros d ->%list_elem_of_singleton. }
  assert (Hd2 : deep obj_fuel V 2 t4) by by eapply at_deep.
  cbn [app]. rewrite !elem_of_cons. intros [->|[->|[->|[]%elem_of_nil]]]; [| |done];
    (eapply at_deep; [eassumption|]); by intros d ->%list_elem_of_singleton.
Qed.
End Walk.

(** ** What a synchronization sends of them *)

Section Answer.
Context `{!Crypto, !CryptoLaws, !Ed25519, !SizeOfBlock, !Bloom}.
Context `{!Serde Block, !Serde BlockContentV0, !Serde ObjectContent, !Serde CommitContentV0}.
Context `{!SerdeLaws Block, !SerdeLaws BlockContentV0, !SerdeLaws ObjectContent}.
Context `{!SerdeTagged ObjectContent}.
Variables (seeds : demo_seeds) (obj_fuel : nat).
Implicit Types (V : gmap BlockId Block).

(** The object is loaded from here. *)
Definition loads V (o : Object) (r : ObjectRef) (deps : list ObjectRef) : Prop := ∃ bs,
  Object_load obj_fuel (BlockRef_id r) None V =
    Ret (Ok {| Object_blocks := bs; Object_deps := BlockRef_id <$> deps |}, V) ∧
  Forall2 loaded (Object_blocks o) bs.
Definition there V (o : Object) : Prop :=
  Forall (stored V) (Object_blocks o) ∧ (length (Object_blocks o) < obj_fuel)%nat.

Lemma made_loads V o r deps :
  map_wf V → (len deps <= 8)%N → there V o → made_with seeds o r deps → loads V o r deps.
Proof.
  intros Hwf Hdeps [Hst Hf] [Hr [content Ho]].
  assert (Hdeps' : (len (BlockRef_id <$> deps) <= 8)%N) by (unfold len; by rewrite length_fmap).
  destruct (load_new_object content _ None 4000 _ _ o V ltac:(vm_compute; reflexivity)
    Hdeps' Hwf Ho Hst) as (root & k & Hroot & Hk & Hload).
  destruct (Hload obj_fuel Hf) as (bs & V2 & Hl & Hbs & _ & Hv2 & _). cbn in Hv2. subst V2.
  exists bs. split; [|done]. unfold object_ref, Object_reference, Object_key, Object_id in Hr.
  rewrite Hroot in Hr. cbn in Hr. rewrite Hk in Hr. cbn in Hr. by injection Hr as <-.
Qed.
Lemma loads_at V o r deps : loads V o r deps → at_deps obj_fuel V (BlockRef_id r) (BlockRef_id <$> deps).
Proof. intros (bs & Hl & _). eexists. unfold object_at. by rewrite Hl. Qed.

Lemma send_blocks_sent bs d i : i ∈ (send_blocks bs d).2 →
  i ∈ d ∨ ∃ b, b ∈ (send_blocks bs d).1 ∧ Block_id b = i.
Proof.
  revert d. induction bs as [|b bs IH]; intros d; cbn [send_blocks]; [by left|].
  destruct (decide (Block_id b ∈ d)); [apply IH|]. specialize (IH ({[Block_id b]} ∪ d)).
  destruct (send_blocks bs _) as [sent d']. cbn [fst snd] in *.
  intros [[->%elem_of_singleton|?]%elem_of_union|(b' & Hb' & ?)]%IH;
    [right; exists b; split; [left|done]|by left|right; exists b'; split; [by right|done]].
Qed.
Lemma send_objects_ok V ids d :
  (∀ id, id ∈ ids → ∃ o, Object_load obj_fuel id None V = Ret (Ok o, V)) → ∃ sent,
  send_objects obj_fuel ids d V = Ret (Ok sent, V) ∧
  (∀ b, b ∈ sent → ∃ id o, id ∈ ids ∧ Object_load obj_fuel id None V = Ret (Ok o, V) ∧ b ∈ Object_blocks o) ∧
  (∀ id o b, id ∈ ids → Object_load obj_fuel id None V = Ret (Ok o, V) → b ∈ Object_blocks o →
     Block_id b ∈ d ∨ ∃ b', b' ∈ sent ∧ Block_id b' = Block_id b).
Proof.
  revert d. induction ids as [|id ids IH]; intros d Hids; cbn [send_objects].
  { exists []. split_and!; [done|by intros b ?%elem_of_nil|by intros ??? ?%elem_of_nil]. }
  destruct (Hids id ltac:(left)) as [o Ho]. rewrite Ho. cbn [mbind outcome_bind].
  destruct (send_blocks_ids (Object_blocks o) d) as [Hsub Hall].
  pose proof (send_blocks_sent (Object_blocks o) d) as Hd.
  destruct (send_blocks (Object_blocks o) d) as [sent d'] eqn:Hs. cbn [fst snd] in *.
  destruct (IH d') as (rest & -> & Hrest & Hall'); [intros; apply Hids; by right|]. cbn [mbind outcome_bind].
  exists (sent ++ rest). split; [done|]. split.
  - intros b [Hb|Hb]%elem_of_app.
    + exists id, o. split; [left|]. split; [done|by apply Hsub].
    + destruct (Hrest b Hb) as (id' & o' & ? & ?). exists id', o'. split; [by right|done].
  - intros id' o' b Hid' Ho' Hb.
    assert (Hcases : Block_id b ∈ d' ∨ (∃ b', b' ∈ sent ++ rest ∧ Block_id b' = Block_id b) ∨ Block_id b ∈ d).
    { apply elem_of_cons in Hid' as [->|Hid'].
      - rewrite Ho in Ho'. injection Ho' as <-. destruct (Hall b Hb) as [?|(b' & ? & ?)]; [by right; right|].
        right; left. exists b'. split; [apply elem_of_app; by left|done].
      - destruct (Hall' id' o' b Hid' Ho' Hb) as [?|(b' & ? & ?)]; [by left|].
        right; left. exists b'. split; [apply elem_of_app; by right|done]. }
    destruct Hcases as [[?|(b' & ? & ?)]%Hd|[?|?]]; [by left| |by right|by left].
    right. exists b'. split; [apply elem_of_app; by left|done].
Qed.

(** Not in a filter *)
Definition kept_by (f : BloomFilter) (o : Object) : bool :=
  match object_ref o with
  | Ret r => bloom_keep (filter_from_u8_array (BloomFilter_f f) (uint_wrap 64 (uint_N (BloomFilter_k f)))) (BlockRef_id r)
  | _ => false
  end.
(** Blocks that arrive for those of some objects *)
Definition arrive_for (bs sent : list Block) : Prop :=
  (∀ b, b ∈ sent → ∃ b0, b0 ∈ bs ∧ same b0 b) ∧
  (∀ b0, b0 ∈ bs → ∃ b, b ∈ sent ∧ Block_id b = Block_id b0).

(** The objects of a list of identifiers are sent. *)
Lemma objects_sent V f (l : list (Object * ObjectRef)) (ids : list ObjectId) (sent : list Block) :
  Forall (λ x, object_ref x.1 = Ret x.2 ∧ ∃ deps, loads V x.1 x.2 deps) l →
  (∀ i, i ∈ ids ↔ i ∈ (BlockRef_id ∘ snd <$> l) ∧
     bloom_keep (filter_from_u8_array (BloomFilter_f f) (uint_wrap 64 (uint_N (BloomFilter_k f)))) i = true) →
  (∀ b, b ∈ sent → ∃ id o, id ∈ ids ∧ Object_load obj_fuel id None V = Ret (Ok o, V) ∧ b ∈ Object_blocks o) →
  (∀ id o b, id ∈ ids → Object_load obj_fuel id None V = Ret (Ok o, V) → b ∈ Object_blocks o →
     Block_id b ∈ (∅ : gset BlockId) ∨ ∃ b', b' ∈ sent ∧ Block_id b' = Block_id b) →
  arrive_for (all_blocks (base.filter (λ o, kept_by f o = true) l.*1)) sent.
Proof.
  intros Hl Hids Hsub Hall. rewrite Forall_forall in Hl.
  assert (Hin : ∀ b0, b0 ∈ all_blocks (base.filter (λ o, kept_by f o = true) l.*1) ↔
    ∃ x, x ∈ l ∧ BlockRef_id x.2 ∈ ids ∧ b0 ∈ Object_blocks x.1).
  { intros b0. rewrite elem_of_all_blocks. setoid_rewrite list_elem_of_filter. split.
    - intros (o & [Hk (x & -> & Hx)%list_elem_of_fmap] & Hb0). exists x. split; [done|]. split; [|done].
      destruct (Hl x Hx) as [Hr _]. unfold kept_by in Hk. rewrite Hr in Hk.
      apply Hids. split; [|done]. apply list_elem_of_fmap. by exists x.
    - intros (x & Hx & Hi & Hb0). destruct (Hl x Hx) as [Hr _]. apply Hids in Hi as [_ Hi].
      exists x.1. split; [|done]. split; [unfold kept_by; by rewrite Hr|].
      apply list_elem_of_fmap. by exists x. }
  split.
  - intros b (id & o & Hid & Ho & Hb)%Hsub. pose proof Hid as [(x & -> & Hx)%list_elem_of_fmap _]%Hids.
    destruct (Hl x Hx) as (_ & deps & bs & Hload & Hbs). cbn in Ho. rewrite Hload in Ho. injection Ho as <-.
    apply list_elem_of_lookup in Hb as [i Hi].
    destruct (Forall2_lookup_r _ _ _ _ _ Hbs Hi) as (b0 & Hb0 & Hs & _).
    exists b0. split; [|done]. apply Hin. exists x. split; [done|]. split; [done|].
    by eapply list_elem_of_lookup_2.
  - intros b0 (x & Hx & Hi & Hb0)%Hin. destruct (Hl x Hx) as (_ & deps & bs & Hload & Hbs).
    apply list_elem_of_lookup in Hb0 as [i Hb0].
    destruct (Forall2_lookup_l _ _ _ _ _ Hbs Hb0) as (b & Hb & Hs & _).
    destruct (Hall _ _ b Hi Hload) as [?%not_elem_of_empty|(b' & ? & Hb')];
      [by eapply list_elem_of_lookup_2|done|].
    exists b'. split; [done|]. by rewrite Hb', (same_id _ _ Hs).
Qed.

Lemma sync_branch_ok V fuel f br t1 t2 t4 a6 a7 rbr rt1 rt2 rt4 ra6 ra7 :
  map_wf V → (3 < fuel)%nat → Forall (there V) [br; t1; t2; t4; a6; a7] →
  made_with seeds br rbr [] → made_with seeds t1 rt1 [rbr] → made_with seeds t2 rt2 [rbr] →
  made_with seeds t4 rt4 [rt2; rt1] → made_with seeds a6 ra6 [rt4] → made_with seeds a7 ra7 [rt4] →
  ∃ sent,
  sync_branch_in obj_fuel fuel [BlockRef_id ra6; BlockRef_id ra7] [BlockRef_id rbr] f V = Ret (Ok sent, V) ∧
  arrive_for (all_blocks (base.filter (λ o, kept_by f o = true) [a6; a7; t4; t2; t1])) sent.
Proof.
  intros Hwf Hfuel Hst Mbr Mt1 Mt2 Mt4 Ma6 Ma7.
  rewrite !Forall_cons in Hst. destruct Hst as (Sbr & St1 & St2 & St4 & Sa6 & Sa7 & _).
  pose proof (made_loads V br rbr [] Hwf ltac:(done) Sbr Mbr) as Lbr.
  pose proof (made_loads V t1 rt1 [rbr] Hwf ltac:(done) St1 Mt1) as Lt1.
  pose proof (made_loads V t2 rt2 [rbr] Hwf ltac:(done) St2 Mt2) as Lt2.
  pose proof (made_loads V t4 rt4 [rt2; rt1] Hwf ltac:(done) St4 Mt4) as Lt4.
  pose proof (made_loads V a6 ra6 [rt4] Hwf ltac:(done) Sa6 Ma6) as La6.
  pose proof (made_loads V a7 ra7 [rt4] Hwf ltac:(done) Sa7 Ma7) as La7.
  pose proof (loads_at _ _ _ _ Lbr) as Abr. pose proof (loads_at _ _ _ _ Lt1) as At1.
  pose proof (loads_at _ _ _ _ Lt2) as At2. pose proof (loads_at _ _ _ _ Lt4) as At4.
  pose proof (loads_at _ _ _ _ La6) as Aa6. pose proof (loads_at _ _ _ _ La7) as Aa7. cbn [fmap list_fmap] in *.
  assert (Hinv : store_inv V) by exact Hwf.
  destruct (sync_req_deep obj_fuel V 3 fuel [BlockRef_id ra6; BlockRef_id ra7] [BlockRef_id rbr] f Hfuel Hinv)
    as (ids & V' & Hrun & _); [exact (demo_deep obj_fuel V _ _ _ _ _ _ Abr At1 At2 At4 Aa6 Aa7)|].
  destruct (sync_req_walks (S := gmap BlockId Block) obj_fuel V fuel _ _ f ids V' Hinv Hrun) as (_ & Hv & Hids). cbn in Hv. subst V'.
  set (l := [(a6, ra6); (a7, ra7); (t4, rt4); (t2, rt2); (t1, rt1)]).
  assert (Hl : Forall (λ x, object_ref x.1 = Ret x.2 ∧ ∃ deps, loads V x.1 x.2 deps) l).
  { subst l. repeat (apply Forall_cons; split); [..|by apply Forall_nil];
      (split; [by first [apply Ma6|apply Ma7|apply Mt4|apply Mt2|apply Mt1]|eexists; eassumption]). }
  assert (Hin : ∀ i, i ∈ ids ↔ i ∈ (BlockRef_id ∘ snd <$> l) ∧ bloom_keep
     (filter_from_u8_array (BloomFilter_f f) (uint_wrap 64 (uint_N (BloomFilter_k f)))) i = true).
  { intros i. rewrite Hids.
    rewrite (demo_walk obj_fuel V _ _ _ _ _ _ Abr At1 At2 At4 Aa6 Aa7).
    pose proof (demo_known obj_fuel V _ Abr i). tauto. }
  destruct (send_objects_ok V ids ∅) as (sent & Hsend & Hsub & Hall).
  { intros i [(x & -> & Hx)%list_elem_of_fmap _]%Hin. rewrite Forall_forall in Hl.
    destruct (Hl x Hx) as (_ & deps & bs & Hload & _). by eexists. }
  exists sent. split; [unfold sync_branch_in; by rewrite Hrun|].
  by eapply (objects_sent V f l ids).
Qed.
End Answer.
