(* ===== verification/DemoRun.v ===== *)
(** * The demonstration passes

    On any server where its accounts and its overlays are new, the script of [Demo] ends
    without an error: every call returns what the script wants or the error it asserts, the
    file is gone from the first repository and its block is there, the second repository
    holds the graph of commits of [DemoGraph], and the client is sent what it has not. *)

From stdpp Require Import functions.
From S2P Require Import ObjectProps ObjectStoreProps Bare BareTypes BrokerRows NetBare MessageBare AccountProps OverlayProps LmdbRepoStore LmdbView LmdbMem LmdbProps LmdbServed ServerTables ServerSim ServerProps.
From S2P Require Import Prelude Serde Types Block Store Object Utils Branch Commit NetTypes NetErrors.
From S2P Require Import ObjectTree ObjectStore ObjectSim BranchSync BrokerStore BrokerTables Auth AuthProps.
From S2P Require Import Server Session SessionProps Client Connection ConnectionProps ClientProps ClientSpec ClientCalls Demo DemoProps DemoGraph.
Import OverlayConnectionClient.

(** ** On a map of blocks *)

Section Maps.
Context `{!Crypto, !CryptoLaws}.
Context `{!Serde Block, !Serde BlockContentV0, !Serde ObjectContent}.
Context `{!SerdeLaws Block, !SerdeLaws BlockContentV0, !SerdeLaws ObjectContent}.
Context `{!SerdeTagged ObjectContent}.
Variable obj_fuel : nat.
Implicit Types (V : gmap BlockId Block) (b : Block).

(** A block without children is sent alone. *)
Lemma get_leaf V b :
  V !! Block_id b = Some (serde_skip b) → Block_children b = [] → Block_deps b = ObjectIdList [] →
  (2 <= obj_fuel)%nat → ∃ bs, get_block_in obj_fuel (Block_id b) true V = Ret (Ok bs, V).
Proof.
  intros Hb Hc Hd Hf. destruct obj_fuel as [|[|n]]; [lia..|].
  unfold get_block_in, load_object. cbn [negb].
  assert (Hlt : load_tree (S n) [Block_id b] V [] [] = Ret ([serde_skip b], [], V)).
  { cbn [load_tree load_parents store_get map_store mbind outcome_bind]. rewrite Hb.
    cbn [mbind outcome_bind]. by rewrite children_skip, Hc. }
  rewrite (Object_load_found (S n) _ None V _ _ (serde_skip b) Hlt) by done.
  rewrite deps_skip, Hd. cbn [mbind outcome_bind]. by eexists.
Qed.
Lemma get_absent V id : map_wf V → V !! id = None → (2 <= obj_fuel)%nat →
  get_block_in obj_fuel id true V = Ret (Err NotFound, V).
Proof.
  intros Hwf Hid Hf. destruct obj_fuel as [|[|n]]; [lia..|].
  unfold get_block_in, load_object. cbn [negb].
  assert (Hlt : load_tree (S n) [id] V [] [] = Ret ([], [id], V)).
  { cbn [load_tree load_parents store_get map_store mbind outcome_bind]. by rewrite Hid. }
  by rewrite (Object_load_missing (S n) _ None V _ _ _ _ Hlt).
Qed.

(** The loop that deletes *)
Lemma del_blocks_gone bs d V :
  (∀ b, b ∈ bs → Block_id b ∉ d → is_Some (V !! Block_id b)) → ∃ V',
  each_block del_block bs d V = Ret (Ok tt, V') ∧
  (∀ i, i ∈ Block_id <$> bs → i ∉ d → V' !! i = None) ∧
  (∀ i, i ∉ Block_id <$> bs ∨ i ∈ d → V' !! i = V !! i).
Proof.
  revert d V. induction bs as [|b bs IH]; intros d V HV.
  { exists V. split_and!; [done|by intros i ?%elem_of_nil|done]. }
  cbn [each_block]. destruct (decide (Block_id b ∈ d)) as [Hin|Hin].
  - destruct (IH d V) as (V' & -> & Hgone & Hkept); [intros b' Hb'; apply HV; by right|].
    exists V'. split; [done|]. cbn [fmap list_fmap]. split.
    + intros i [->|Hi]%elem_of_cons Hd; [done|by apply Hgone].
    + intros i [Hi|Hi]; apply Hkept; [left|by right]. intros ?. apply Hi. by right.
  - destruct (HV b ltac:(left) Hin) as [b0 Hb0].
    assert (Hdel : del_block (Block_id b) V = Ret (Ok tt, delete (Block_id b) V))
      by (unfold del_block; cbn [store_del map_store mbind outcome_bind]; by rewrite Hb0).
    rewrite Hdel. cbn [mbind outcome_bind].
    destruct (IH ({[Block_id b]} ∪ d) (delete (Block_id b) V)) as (V' & -> & Hgone & Hkept).
    { intros b' Hb' [Hne Hd]%not_elem_of_union. rewrite lookup_delete_ne by set_solver. apply HV; [by right|done]. }
    exists V'. split; [done|]. cbn [fmap list_fmap]. split.
    + intros i Hi Hd. destruct (decide (i = Block_id b)) as [->|Hne].
      * rewrite Hkept by set_solver. apply lookup_delete_eq.
      * apply Hgone; set_solver.
    + intros i Hi. destruct (decide (i = Block_id b)) as [->|Hne]; [set_solver|].
      rewrite Hkept by set_solver. apply lookup_delete_ne. done.
Qed.

Lemma loaded_ids bs bs' : Forall2 loaded bs bs' → Block_id <$> bs' = Block_id <$> bs.
Proof.
  induction 1 as [|b b' l l' [Hb _] Hl IH]; [done|]. cbn. by rewrite IH, (same_id _ _ Hb).
Qed.
(** A new object that was put is sent, and deleted with the blocks it has. *)
Lemma new_object_deleted content expiry bs pk sk o V :
  (bs + HEADER < usize_max)%N → Object_new content [] expiry bs pk sk = Ret o →
  collision_free (Object_blocks o) → (length (Object_blocks o) < obj_fuel)%nat →
  map_wf (blocks_map (Object_blocks o) ∪ V) → (∀ b, b ∈ Object_blocks o → V !! Block_id b = None) →
  ∃ root, Object_root o = Ret root ∧ root ∈ Object_blocks o ∧
  (∃ sent, get_block_in obj_fuel (Block_id root) true (blocks_map (Object_blocks o) ∪ V) =
     Ret (Ok sent, blocks_map (Object_blocks o) ∪ V)) ∧
  del_object_in obj_fuel (Block_id root) (blocks_map (Object_blocks o) ∪ V) = Ret (Ok tt, V).
Proof.
  intros Hbs Hnew Hc Hf Hwf Hfresh. set (V1 := blocks_map (Object_blocks o) ∪ V) in *.
  assert (Hst : Forall (stored V1) (Object_blocks o)).
  { apply Forall_forall. intros b Hb. apply lookup_union_Some_l. by apply blocks_map_lookup. }
  destruct (load_new_object content [] expiry bs pk sk o V1 Hbs ltac:(done) Hwf Hnew Hst)
    as (root & k & Hroot & _ & Hload).
  destruct (Hload obj_fuel Hf) as (bs' & V2 & Hl & Hbs' & _ & Hv2 & _). cbn in Hv2. subst V2.
  exists root. split; [done|].
  assert (Hin : root ∈ Object_blocks o).
  { unfold Object_root in Hroot. destruct (last (Object_blocks o)) as [r|] eqn:Hlast; [|done].
    injection Hroot as <-. by apply last_Some_elem_of. }
  split; [done|]. split.
  { unfold get_block_in, load_object. cbn [negb]. rewrite Hl. by eexists. }
  pose proof (loaded_ids _ _ Hbs') as Hids.
  unfold del_object_in, load_object. rewrite Hl. cbn [mbind outcome_bind Object_blocks].
  destruct (del_blocks_gone bs' ∅ V1) as (V' & -> & Hgone & Hkept).
  { intros b Hb _. assert (Hb' : Block_id b ∈ Block_id <$> bs') by by apply list_elem_of_fmap_2.
    rewrite Hids in Hb'. apply list_elem_of_fmap in Hb' as (b0 & -> & Hb0). rewrite Forall_forall in Hst.
    specialize (Hst b0 Hb0). by eexists. }
  do 2 f_equal. apply map_eq. intros i. rewrite Hids in *.
  destruct (decide (i ∈ Block_id <$> Object_blocks o)) as [Hi|Hi].
  - rewrite Hgone by (done || apply not_elem_of_empty).
    apply list_elem_of_fmap in Hi as (b & -> & Hb). by rewrite Hfresh.
  - rewrite Hkept by by left. subst V1. rewrite lookup_union_r; [done|].
    apply eq_None_not_Some. intros [b Hb].
    apply elem_of_list_to_map_2, list_elem_of_fmap in Hb as (b' & [= -> _] & Hb').
    apply Hi. by apply list_elem_of_fmap_2.
Qed.
End Maps.

(** ** What a store holds, and what is added to it *)

Section Stores.
Context `{!Crypto, !CryptoLaws, !SizeOfBlock}.
Context `{!Serde Block, !Serde BlockContentV0, !Serde ObjectContent}.
Context `{!SerdeLaws Block, !SerdeLaws BlockContentV0, !SerdeLaws ObjectContent}.
Context `{!SerdeTagged ObjectContent}.
Implicit Types (s : HashMapRepoStore) (bs : list Block).

Lemma get_all_elem s b : store_inv s →
  b ∈ HashMapRepoStore.get_all s ↔ HashMapRepoStore_blocks s !! Block_id b = Some b.
Proof.
  intros Hs. unfold HashMapRepoStore.get_all. rewrite list_elem_of_fmap. split.
  - intros ([id b'] & -> & Hb%elem_of_map_to_list). destruct (Hs id b' Hb) as (_ & Hid & _).
    cbn [snd]. by rewrite Hid.
  - intros Hb. exists (Block_id b, b). split; [done|]. by apply elem_of_map_to_list.
Qed.
Lemma get_all_free s : store_inv s → collision_free (HashMapRepoStore.get_all s).
Proof.
  intros Hs b b' Hb%get_all_elem Hb'%get_all_elem Heq; [|done..]. rewrite Heq in Hb. congruence.
Qed.
Lemma get_all_view s : store_inv s → blocks_map (HashMapRepoStore.get_all s) = store_view s.
Proof.
  intros Hs. apply map_eq. intros i. apply option_eq. intros b.
  rewrite blocks_map_Some by by apply get_all_free.
  cbn [store_view HashMapRepoStore_RepoStoreSpec]. unfold HashMapRepoStore_view.
  rewrite lookup_fmap, fmap_Some. split.
  - intros (b' & Hb' & <- & <-). exists b'. split; [by apply get_all_elem|done].
  - intros (b' & Hb' & ->). destruct (Hs i b' Hb') as (_ & Hid & _).
    exists b'. split_and!; [|done..]. apply get_all_elem; [done|]. by rewrite Hid.
Qed.

(** Blocks that arrive for others are those others. *)
Lemma arrive_map bs sent : collision_free bs → arrive_for bs sent →
  collision_free sent ∧ Forall id_ok sent ∧ blocks_map sent = blocks_map bs.
Proof.
  intros Hc [Hsub Hall]. pose proof (same_collision_free _ _ Hsub Hc) as Hc'. split; [done|]. split.
  { apply Forall_forall. intros b Hb. by destruct (Hsub b Hb) as (? & _ & _ & _ & ?). }
  apply map_eq. intros i. apply option_eq. intros b. rewrite !blocks_map_Some by done. split.
  - intros (b' & (b0 & Hb0 & Hs)%Hsub & <- & <-). exists b0. split; [done|].
    rewrite <- (same_id _ _ Hs). split; [done|]. by destruct Hs as [-> _].
  - intros (b0 & Hb0 & <- & <-). destruct (Hall b0 Hb0) as (b' & Hb' & Hid). exists b'. split_and!; [done..|].
    destruct (Hsub b' Hb') as (b1 & Hb1 & Hs). rewrite (proj1 Hs). apply Hc; [done..|].
    by rewrite <- (same_id _ _ Hs).
Qed.
Lemma store_blocks_ok s bs bs' sent :
  has_blocks s bs → collision_free (bs ++ bs') → arrive_for bs' sent → ∃ s',
  store_blocks sent s = Ret s' ∧ has_blocks s' (bs ++ bs').
Proof.
  intros [Hi Hv] Hc Ha. destruct (arrive_map bs' sent (collision_free_app_r _ _ Hc) Ha) as (Hc' & Hok & Hm).
  assert (Hrun : ∃ s', store_blocks sent s = Ret s' ∧ store_inv s' ∧
    store_view s' = blocks_map sent ∪ store_view s).
  { clear Hv Ha Hm Hc. revert s Hi. induction Hok as [|b sent Hb Hok IH]; intros s Hi.
    { exists s. split_and!; [done..|]. symmetry. apply (left_id_L ∅ (∪)). }
    cbn [store_blocks]. rewrite blocks_map_cons by done.
    destruct (store_put_returns s b Hi Hb) as [[r s1] Hput]. rewrite Hput.
    destruct (store_put_spec s b r s1 Hi Hb Hput) as (-> & Hi1 & <-).
    cbn [mbind outcome_bind]. by apply IH; [eapply collision_free_cons|]. }
  destruct Hrun as (s' & -> & Hi' & Hv'). exists s'. split; [done|]. split; [done|].
  by rewrite Hv', Hv, Hm, blocks_map_app.
Qed.
End Stores.

(** ** One call of the abstract server at a time *)

Section Steps.
Context `{!Crypto, !CryptoLaws, !Ed25519, !Ed25519Laws, !SizeOfBlock, !Bloom}.
Context `{!Serde Block, !Serde BlockContentV0, !Serde ObjectContent, !Serde AddUserContentV0}.
Context `{!SerdeLaws Block, !SerdeLaws BlockContentV0, !SerdeLaws ObjectContent}.
Context `{!SerdeTagged ObjectContent}.
Variables (obj_fuel fuel : nat) (envs : environment).
Context (Hrandom : ∀ n, is_Some (random_buf (envs n))) (Hclock : ∀ n, returns (now_timestamp (secs (envs n)))).
Abbreviation meaning := (abstract_connection obj_fuel fuel envs).
Implicit Types (a : abstract) (T : tables) (B : blocks) (u : PubKey).

(** The abstract server of a user, with these tables and these blocks *)
Definition at_state a u T B : Prop :=
  ab_user a = u ∧ (ab_state a).1 = T ∧ ∀ k, (ab_state a).2 k = B k.
(** A call of the server *)
Lemma ab_run_at {A} (read : server_resp → outcome A) k a u T B resp r T' B' :
  at_state a u T B → read resp = Ret r →
  (∀ B0, (∀ i, B0 i = B i) → ∃ B1,
     ServerProps.spec_call obj_fuel fuel u k (T, B0) = Ret (resp, (T', B1)) ∧ ∀ i, B1 i = B' i) →
  ∃ a', ab_run obj_fuel fuel read k a = Ret (r, a') ∧ at_state a' u T' B'.
Proof.
  intros (<- & HT & HB) Hr Hk. unfold ab_run. destruct (ab_state a) as [T0 B0] eqn:Hst.
  cbn [fst snd] in *. subst T0. destruct (Hk B0 HB) as (B1 & -> & HB1).
  cbn [mbind outcome_bind]. rewrite Hr. by eexists.
Qed.

Definition new_account : account := {| acc_admin := false; acc_clients := ∅; acc_overlays := ∅ |}.
Lemma ab_run_add_user a u T B sk seed user :
  generate_keypair seed = (sk, u) → at_state a u T B →
  let r := match tb_accounts T !! user with Some _ => Err UserAlreadyExists | None => Ok tt end in
  let T' := match tb_accounts T !! user with
            | Some _ => T
            | None => with_tb_account T user new_account
            end in
  ∃ a', add_user (BrokerConnection := meaning) user sk a = Ret (r, a') ∧ at_state a' u T' B.
Proof.
  intros Hk Ha. cbn [add_user abstract_connection]. unfold ab_add_user.
  pose proof (sign_verify_bytes seed (to_vec {| AddUserContentV0_user := user |})) as Hsv.
  rewrite Hk in Hsv. destruct Hsv as (sig & Hsign & Hverify).
  unfold sign. rewrite (proj1 Ha), Hsign. cbn [map_err].
  eapply (ab_run_at read_unit _ _ _ _ _ (RUnit _)); [done|reflexivity|]. intros B0 HB. exists B0.
  split; [|done]. cbn [ServerProps.spec_call]. unfold ServerProps.spec_add_user, verify.
  rewrite Hverify. cbn [map_err]. by destruct (tb_accounts T !! user).
Qed.

(** An overlay that nobody joined *)
Definition new_overlay T (o : OverlayId) (repo : PubKey) : Prop :=
  ov_secret (tb_overlays T o) = None ∧ ov_repos (tb_overlays T o) = ∅ ∧
  tb_keys T !! RepoStoreId_Repo repo = None.
(** The user joins one, for a repository. *)
Record joined T (u : PubKey) (o : OverlayId) (repo : PubKey) T' : Prop := {
  joined_repo : repo_of T' o = Some repo;
  joined_accounts : ∃ x, tb_accounts T !! u = Some x ∧
    tb_accounts T' = <[u := with_overlays x ({[o]} ∪ acc_overlays x)]> (tb_accounts T);
  joined_other o' : o' ≠ o → tb_overlays T' o' = tb_overlays T o';
  joined_keys r : r ≠ repo → tb_keys T' !! RepoStoreId_Repo r = tb_keys T !! RepoStoreId_Repo r
}.
Lemma ab_run_connect a u T B repo public x :
  at_state a u T B → tb_accounts T !! u = Some x → RepoLink_peers repo = [] →
  new_overlay T (overlay repo public) (RepoLink_id repo) → ∃ a' T',
  overlay_connect (BrokerConnection0 := meaning) repo public a =
    Ret (Ok {| overlay_id := overlay repo public; repo_link := repo |}, a') ∧
  at_state a' u T' B ∧ joined T u (overlay repo public) (RepoLink_id repo) T'.
Proof.
  intros Ha Hx Hpeers (Hsec & Hrepos & Hkey).
  unfold overlay_connect, process_overlay_connect, call_try. cbn [process_overlay_request abstract_connection ab_request].
  destruct (ab_run_at read_unit (CallConnect (overlay repo public)) a u T B (RUnit (Err OverlayNotJoined))
    (Err OverlayNotJoined) T B Ha eq_refl) as (a1 & -> & Ha1); [by intros B0 HB; exists B0|].
  cbn [mbind outcome_bind]. rewrite decide_True by done.
  destruct (Hrandom (ab_calls a1)) as [random ->]. cbn [unwrap mbind outcome_bind].
  destruct (Hclock (ab_calls a1)) as [t Ht].
  set (T1 := ServerProps.spec_new_overlay (overlay repo public) (RepoLink_id repo) (RepoLink_secret repo) t T).
  set (T2 := with_tb_key T1 (RepoStoreId_Repo (RepoLink_id repo)) (ChaCha20Key random)).
  set (T3 := with_tb_account T2 u (with_overlays x ({[overlay repo public]} ∪ acc_overlays x))).
  edestruct (ab_run_at read_unit) as (a2 & -> & Ha2);
    [exact Ha1|instantiate (1 := Ok tt); instantiate (1 := RUnit (Ok tt)); done| |].
  { intros B0 HB. exists B0. split; [|exact HB]. cbn [ServerProps.spec_call]. rewrite Ht. cbn [mbind outcome_bind].
    unfold OverlayJoin_repo_pubkey, OverlayJoin_secret, OverlayJoin_peers.
    cbn [OverlayJoinV0_repo_pubkey OverlayJoinV0_secret OverlayJoinV0_peers]. rewrite Hpeers.
    unfold ServerProps.spec_join. rewrite Hsec. fold T1.
    assert (HK : tb_keys T1 !! RepoStoreId_Repo (RepoLink_id repo) = None) by exact Hkey. rewrite HK.
    unfold ServerProps.spec_join_account, ServerProps.spec_new_key. cbn [foldl]. rewrite HK. fold T2.
    assert (HA : tb_accounts T2 !! u = Some x) by exact Hx. rewrite HA. fold T3. reflexivity. }
  cbn [mbind outcome_bind]. exists a2, T3. split; [reflexivity|]. split; [exact Ha2|]. split.
  - unfold ServerProps.repo_of. subst T3 T2 T1. unfold ServerProps.spec_new_overlay. cbn.
    rewrite fn_lookup_insert. cbn. rewrite Hrepos, (right_id_L ∅ (∪)), elements_singleton. done.
  - by exists x.
  - intros o' Ho. subst T3 T2 T1. cbn. by rewrite fn_lookup_insert_ne.
  - intros r Hr. subst T3 T2 T1. cbn. rewrite lookup_insert_ne; [done|congruence].
Qed.
(** ** The blocks of a repository that was joined *)

Variables (T : tables) (B : blocks) (u repo : PubKey).

Definition on_overlay (o : OverlayId) (n : nat) a (V : gmap BlockId Block) : Prop :=
  map_wf V ∧ repo_of T o = Some repo ∧ at_state a u T (<[RepoStoreId_Repo repo := V]> B).
Lemma on_overlay_start o n a V :
  at_state a u T B → repo_of T o = Some repo → B (RepoStoreId_Repo repo) = V → map_wf V →
  on_overlay o n a V.
Proof.
  intros (Hu & HT & HB) Ho HV Hwf. split; [done|]. split; [done|]. split_and!; [done..|].
  intros k. rewrite HB. destruct (decide (RepoStoreId_Repo repo = k)) as [<-|Hne];
    [by rewrite fn_lookup_insert|by rewrite fn_lookup_insert_ne].
Qed.

Lemma on_blocks {A} (read : server_resp → outcome A) op o n a V resp r V' :
  on_overlay o n a V → ServerProps.spec_blocks obj_fuel fuel op V = Ret (resp, V') → map_wf V' →
  read resp = Ret r → ∃ a',
  ab_run obj_fuel fuel read (CallBlocks o op) a = Ret (r, a') ∧ on_overlay o n a' V'.
Proof.
  intros (Hwf & Ho & Ha) Hop Hwf' Hr.
  destruct (ab_run_at read (CallBlocks o op) a u T _ resp r T (<[RepoStoreId_Repo repo := V']> B) Ha Hr)
    as (a' & Hrun & Ha'); [|by exists a'].
  intros B0 HB. cbn [ServerProps.spec_call]. rewrite Ho, HB, fn_lookup_insert, Hop.
  eexists. split; [reflexivity|]. intros k.
  destruct (decide (RepoStoreId_Repo repo = k)) as [<-|Hne]; [by rewrite !fn_lookup_insert|].
  by rewrite !fn_lookup_insert_ne, HB, fn_lookup_insert_ne.
Qed.

Lemma put_wf V b : map_wf V → id_ok b → map_wf (<[Block_id b := serde_skip b]> V).
Proof.
  intros HV Hb. assert (Hi : store_inv V) by exact HV.
  by destruct (store_put_spec V b _ _ Hi Hb eq_refl) as (_ & ? & _).
Qed.
#[export, refine] Instance abstract_objects :
  ObjectConnection abstract obj_fuel (BrokerConnection0 := meaning) := { oc_inv := on_overlay }.
Proof.
  - done.
  - by intros o n a V [? _].
  - intros o n a V b Hinv Hb.
    apply (on_blocks read_unit (OpPutBlock b) o n a V (RUnit (Ok tt)) (Ok tt)); [done..| |done].
    by apply put_wf; [apply Hinv|].
  - intros o n a V id topic Hinv. cbn [process_overlay_request_stream_response abstract_connection ab_stream].
    pose proof (get_block_in_sim (R := gmap BlockId Block) obj_fuel id true V (proj1 Hinv)) as Hsim.
    cbn [store_view map_store_spec] in Hsim. unfold BlockGet_id, BlockGet_include_children.
    cbn [BlockGetV0_id BlockGetV0_include_children].
    destruct (get_block_in obj_fuel id true V) as [[res V']| |] eqn:Hget.
    1: { inversion Hsim as [x y [Hres [Hwf _]] Hx Hy| |]; subst x y. cbn [fst snd] in *.
      destruct (on_blocks read_blocks (OpGetBlock id true) o n a V (RBlocks res) res V' Hinv) as (a' & -> & Ha');
        [by cbn [ServerProps.spec_blocks]; rewrite Hget|done..|].
      constructor. split; [|done]. cbn [fst]. destruct res as [bs|e]; cbn in *; [|done].
      eapply Forall2_impl; [exact Hres|]. by intros b b' [Hs _]. }
    all: unfold ab_run; destruct Hinv as (_ & Ho & <- & HT & HB); destruct (ab_state a) as [T0 B0];
      cbn [fst snd] in *; subst T0; cbn [ServerProps.spec_call]; rewrite Ho, HB, fn_lookup_insert;
      cbn [ServerProps.spec_blocks]; rewrite Hget; constructor.
Defined.
End Steps.

(** ** The synchronization *)

Section Sync.
Context `{!Crypto, !CryptoLaws, !Ed25519, !Ed25519Laws, !SizeOfBlock, !Bloom, !BloomBuilder}.
Context `{!Serde Block, !Serde BlockContentV0, !Serde ObjectContent, !Serde AddUserContentV0}.
Context `{!Serde CommitContentV0}.
Context `{!SerdeLaws Block, !SerdeLaws BlockContentV0, !SerdeLaws ObjectContent}.
Context `{!SerdeTagged ObjectContent}.
Variables (obj_fuel fuel : nat) (envs : environment) (seeds : demo_seeds).
Context (Hrandom : ∀ n, is_Some (random_buf (envs n))) (Hclock : ∀ n, returns (now_timestamp (secs (envs n)))).
Abbreviation meaning := (abstract_connection obj_fuel fuel envs).
Implicit Types (a : abstract) (T : tables) (B : blocks) (u : PubKey).

(** The client has the root and one more commit, and says so by a filter. *)
Definition demo_filter (known : list ObjectRef) : BloomFilter :=
  let filter := add_refs known (filter_new (uint_wrap 64 10) (1, 100)%N) in
  {| BloomFilter_k := filter_hashes filter; BloomFilter_f := filter_get_u8_array filter |}.
Definition client_places : list nat := [0; 5].
(** What it is missing of the dependencies and the acknowledgements of the two heads *)
Definition sent_places : list nat := [6; 7; 4; 2; 1].
Definition synced (commits : list Object) (known : list ObjectRef) : list Object :=
  at_places commits client_places ++
  base.filter (λ o, kept_by (demo_filter known) o = true) (at_places commits sent_places).

Lemma put_all_ok T B u repo self bs n a V :
  collision_free bs → Forall id_ok bs → on_overlay T B u repo (overlay_id self) n a V → ∃ a',
  put_all (BrokerConnection0 := meaning) self bs a = Ret a' ∧
  on_overlay T B u repo (overlay_id self) n a' (blocks_map bs ∪ V).
Proof.
  intros Hc Hok. revert a V. induction Hok as [|b bs Hb Hok IH]; intros a V Hinv.
  { exists a. split; [done|]. change (blocks_map []) with (∅ : gmap BlockId Block). by rewrite (left_id_L ∅ (∪)). }
  cbn [put_all]. unfold expect, put_block. rewrite blocks_map_cons by done.
  destruct (oc_put (ObjectConnection := abstract_objects obj_fuel fuel envs T B u repo) _ n a V b Hinv Hb)
    as (a1 & Hput & Hinv1).
  rewrite (call_try_ok _ _ a tt a1 Hput). cbn [call_ok mbind outcome_bind].
  by apply IH; [eapply collision_free_cons|].
Qed.

Lemma test_sync_ok a T B u x bodies commits :
  at_state a u T B → tb_accounts T !! u = Some x →
  new_overlay T (overlay (repolink seeds) true) (repo_pubkey seeds) →
  B (RepoStoreId_Repo (repo_pubkey seeds)) = ∅ →
  demo_objects seeds = Ret (bodies, commits) → collision_free (all_blocks (bodies ++ commits)) →
  Forall (λ o, length (Object_blocks o) < obj_fuel)%nat commits → (3 < fuel)%nat →
  ∃ s a' T' known,
  test_sync (BrokerConnection0 := meaning) seeds a = Ret (s, a') ∧
  at_state a' u T'
    (<[RepoStoreId_Repo (repo_pubkey seeds) := blocks_map (all_blocks (bodies ++ commits))]> B) ∧
  joined T u (overlay (repolink seeds) true) (repo_pubkey seeds) T' ∧
  mapM object_ref (at_places commits client_places) = Ret known ∧
  has_blocks s (all_blocks (synced commits known)).
Proof.
  intros Ha Hx Hnew HB Hobjs Hc Hlen Hfuel.
  destruct (create_commits_ok seeds bodies commits Hobjs Hc)
    as (refs & s & s' & br & t1 & t2 & a3 & t4 & t5 & a6 & a7 & Hcreate & Hs & Hsome & Hs' & -> &
        Mbr & Mt1 & Mt2 & _ & Mt4 & Mt5 & Ma6 & Ma7).
  destruct (ab_run_connect obj_fuel fuel envs Hrandom Hclock a u T B (repolink seeds) true x Ha Hx eq_refl Hnew)
    as (a1 & T' & Hcon & Ha1 & Hj).
  destruct Hs as [Hi Hv].
  pose proof (on_overlay_start T' B u (repo_pubkey seeds) (overlay (repolink seeds) true) 0 a1 ∅ Ha1
    (joined_repo _ _ _ _ _ Hj) HB ltac:(by intros i b ?)) as Hon.
  destruct (put_all_ok T' B u (repo_pubkey seeds) {| overlay_id := overlay (repolink seeds) true; repo_link := repolink seeds |}
    (HashMapRepoStore.get_all s) 0 a1 ∅ (get_all_free s Hi) (get_all_ok s Hi) Hon) as (a2 & Hput & Hon2).
  rewrite (get_all_view s Hi), Hv, (right_id_L ∅ (∪)) in Hon2.
  set (V := blocks_map (all_blocks _)) in *.
  assert (Hthere : Forall (there obj_fuel V) [br; t1; t2; t4; a6; a7]).
  { apply Forall_forall. intros o Ho.
    assert (Hin : o ∈ [br; t1; t2; a3; t4; t5; a6; a7]) by (clear -Ho; set_solver).
    rewrite Forall_forall in Hlen. split; [|by apply Hlen].
    apply Forall_forall. intros b Hb. apply blocks_map_lookup; [done|].
    apply elem_of_all_blocks. exists o. split; [apply elem_of_app; by right|done]. }
  set (known := [ref_br refs; ref_t5 refs]) in *.
  destruct (sync_branch_ok seeds obj_fuel V fuel (demo_filter known) br t1 t2 t4 a6 a7 _ _ _ _ _ _
    (proj1 Hon2) Hfuel Hthere Mbr Mt1 Mt2 Mt4 Ma6 Ma7) as (sent & Hsync & Harrive).
  destruct (on_blocks obj_fuel fuel T' B u (repo_pubkey seeds) read_blocks
    (OpSyncBranch [BlockRef_id (ref_a6 refs); BlockRef_id (ref_a7 refs)] [BlockRef_id (ref_br refs)] (demo_filter known))
    _ 0 a2 V (RBlocks (Ok sent)) (Ok sent) V Hon2) as (a3' & Hrun & Hon3);
    [by cbn [ServerProps.spec_blocks]; rewrite Hsync|exact (proj1 Hon2)|done|].
  assert (Hfree : collision_free (all_blocks [br; t5] ++
    all_blocks (base.filter (λ o, kept_by (demo_filter known) o = true) [a6; a7; t4; t2; t1]))).
  { rewrite <- all_blocks_app. eapply collision_free_sub; [|exact Hc].
    intros b (o & Ho & Hb)%elem_of_all_blocks. apply elem_of_all_blocks. exists o. split; [|done].
    apply elem_of_app. right. rewrite elem_of_app, list_elem_of_filter in Ho. clear -Ho. set_solver. }
  destruct (store_blocks_ok s' _ _ sent Hs' Hfree Harrive) as (s2 & Hstore & Hs2).
  exists s2, a3', T', known. split.
  { unfold test_sync. rewrite Hcreate. cbn [mbind outcome_bind]. unfold expect at 1. rewrite Hcon.
    cbn [mbind outcome_bind]. rewrite Hput. cbn [mbind outcome_bind]. rewrite Hsome. cbn [mbind outcome_bind head unwrap].
    unfold expect. change (sync_branch (BrokerConnection0 := meaning)
      {| overlay_id := overlay (repolink seeds) true; repo_link := repolink seeds |}
      [BlockRef_id (ref_a6 refs); BlockRef_id (ref_a7 refs)] [BlockRef_id (ref_br refs)] (demo_filter known) a2
      = Ret (Ok sent, a3')) in Hrun.
    change (unwrap (head known)) with (Ret (ref_br refs)). cbn [mbind outcome_bind]. unfold demo_filter in Hrun. rewrite Hrun. cbn [mbind outcome_bind]. by rewrite Hstore. }
  destruct Hon3 as (_ & _ & Ha3). split; [exact Ha3|]. split; [exact Hj|]. split.
  { unfold at_places, client_places. cbn. destruct Mbr as [-> _]. cbn. by destruct Mt5 as [-> _]. }
  unfold synced. rewrite all_blocks_app. exact Hs2.
Qed.

(** ** The whole script *)

Lemma get_block_ok T B u repo self id topic n a V r :
  on_overlay T B u repo (overlay_id self) n a V → get_block_in obj_fuel id true V = Ret (r, V) → ∃ a',
  get_block (BrokerConnection0 := meaning) self id true topic a = Ret (r, a') ∧
  on_overlay T B u repo (overlay_id self) n a' V.
Proof.
  intros Hon Hget. apply (on_blocks obj_fuel fuel T B u repo read_blocks (OpGetBlock id true) _ n a V (RBlocks r));
    [done|by cbn [ServerProps.spec_blocks]; rewrite Hget|exact (proj1 Hon)|done].
Qed.
Lemma delete_object_ok T B u repo self id n a V V' :
  on_overlay T B u repo (overlay_id self) n a V → del_object_in obj_fuel id V = Ret (Ok tt, V') → map_wf V' →
  ∃ a', delete_object (BrokerConnection0 := meaning) self id a = Ret (Ok tt, a') ∧
  on_overlay T B u repo (overlay_id self) n a' V'.
Proof.
  intros Hon Hdel Hwf. apply (on_blocks obj_fuel fuel T B u repo read_unit (OpDelObject id) _ n a V (RUnit (Ok tt)));
    [done|by cbn [ServerProps.spec_blocks]; rewrite Hdel|done|done].
Qed.
Lemma assert_error_ok {C A X} (m : call C A) e (k : C → outcome X) c c' :
  m c = Ret (Err e, c') → assert_error m e k c = k c'.
Proof. intros Hm. unfold assert_error. rewrite Hm. cbn [mbind outcome_bind]. by rewrite decide_True. Qed.

(** The block and the file of the first repository *)
Definition first_client : OverlayConnectionClient :=
  {| overlay_id := overlay demo_repo true; repo_link := demo_repo |}.
Definition block_map (b : Block) : gmap BlockId Block := {[Block_id b := serde_skip b]}.
Lemma block_map_wf b : id_ok b → map_wf (block_map b).
Proof.
  unfold block_map. intros Hb i b' [<- <-]%lookup_singleton_Some. split; [apply skip_idemp|].
  by rewrite get_id_skip.
Qed.

(** The part of the script that is about one repository, then another part *)
Lemma test_objects_ok T B u n a b content size file {X} (k : abstract → outcome (result X ProtocolError * abstract)) :
  on_overlay T B u demo_user (overlay demo_repo true) n a ∅ →
  id_ok b → Block_children b = [] → Block_deps b = ObjectIdList [] → (size + HEADER < usize_max)%N →
  Object_new content [] None size (RepoLink_id demo_repo) (RepoLink_secret demo_repo) = Ret file →
  collision_free (Object_blocks file) → Block_id b ∉ Block_id <$> Object_blocks file →
  (length (Object_blocks file) < obj_fuel)%nat → (2 <= obj_fuel)%nat → ∃ a',
  call_try (put_block (BrokerConnection0 := meaning) first_client b) (λ my_block_id,
  call_try (put_object (BrokerConnection0 := meaning) first_client content [] None size
              (RepoLink_id demo_repo) (RepoLink_secret demo_repo)) (λ object_id,
  call_try (get_block (BrokerConnection0 := meaning) first_client my_block_id true None) (λ _,
  call_try (get_block (BrokerConnection0 := meaning) first_client object_id true None) (λ _,
  call_try (get_object (BrokerConnection0 := meaning) obj_fuel first_client object_id None) (λ _,
  call_try (delete_object (BrokerConnection0 := meaning) first_client object_id) (λ _,
  assert_error (get_object (BrokerConnection0 := meaning) obj_fuel first_client object_id None) NotFound k)))))) a
  = k a' ∧ on_overlay T B u demo_user (overlay demo_repo true) n a' (block_map b).
Proof.
  intros Hon Hok Hch Hd Hsize Hnew Hc Hid Hlen Hf. change (overlay demo_repo true) with (overlay_id first_client) in Hon.
  set (objects := abstract_objects obj_fuel fuel envs T B u demo_user).
  destruct (oc_put (ObjectConnection := objects) _ n a ∅ b Hon Hok) as (a1 & Hput & Hon1).
  change (<[Block_id b := serde_skip b]> ∅) with (block_map b) in Hon1.
  rewrite (call_try_ok _ _ a (Block_id b) a1) by
    (by unfold put_block; rewrite (call_try_ok _ _ a tt a1 Hput)).
  destruct (put_object_ok (ObjectConnection0 := objects) first_client a1 (block_map b) n content [] None size
    (RepoLink_id demo_repo) (RepoLink_secret demo_repo) file Hsize Hnew Hc Hon1) as (root & a2 & Hroot & Hputo & Hon2 & Hst).
  rewrite (call_try_ok _ _ a1 _ a2 Hputo).
  assert (Hfresh : ∀ b', b' ∈ Object_blocks file → block_map b !! Block_id b' = None).
  { intros b' Hb. apply lookup_singleton_ne. intros Heq. apply Hid. rewrite Heq. by apply list_elem_of_fmap_2. }
  destruct (new_object_deleted obj_fuel content None size _ _ file (block_map b) Hsize Hnew Hc Hlen
    (proj1 Hon2) Hfresh) as (root' & Hroot' & Hin & (sent & Hget) & Hdel).
  assert (root' = root) as -> by congruence.
  destruct (get_leaf obj_fuel (blocks_map (Object_blocks file) ∪ block_map b) b) as [bs Hleaf];
    [|done|done|done|].
  { rewrite lookup_union_r; [apply lookup_singleton_eq|]. apply eq_None_not_Some. intros [b0 Hb].
    apply elem_of_list_to_map_2, list_elem_of_fmap in Hb as (b' & [= Heq _] & Hb').
    apply Hid. rewrite Heq. by apply list_elem_of_fmap_2. }
  destruct (get_block_ok _ _ _ _ first_client _ None n a2 _ _ Hon2 Hleaf) as (a3 & Hget3 & Hon3).
  rewrite (call_try_ok _ _ a2 _ a3 Hget3).
  destruct (get_block_ok _ _ _ _ first_client _ None n a3 _ _ Hon3 Hget) as (a4 & Hget4 & Hon4).
  rewrite (call_try_ok _ _ a3 _ a4 Hget4).
  destruct (get_object_ok (ObjectConnection0 := objects) first_client a4 _ n content [] None size
    (RepoLink_id demo_repo) (RepoLink_secret demo_repo) None file Hsize ltac:(done) Hnew Hc Hlen Hon4 Hst)
    as (root2 & _ & a5 & o' & Hroot2 & _ & Hget5 & _ & _ & Hon5).
  assert (root2 = root) as -> by congruence. rewrite (call_try_ok _ _ a4 _ a5 Hget5).
  destruct (delete_object_ok _ _ _ _ first_client _ n a5 _ _ Hon5 Hdel (block_map_wf b Hok)) as (a6 & Hdel6 & Hon6).
  rewrite (call_try_ok _ _ a5 _ a6 Hdel6).
  destruct (get_block_ok _ _ _ _ first_client (Block_id root) None n a6 _ _ Hon6
    (get_absent _ _ _ (block_map_wf b Hok) (Hfresh root Hin) Hf)) as (a7 & Hget7 & Hon7).
  exists a7. split; [|exact Hon7]. apply assert_error_ok. unfold get_object, call_try at 1. by rewrite Hget7.
Qed.

(** What the script finds: its user, accounts and overlays that are new, and the objects it
    makes, whose blocks have a hash of their own each *)
Record demo_ready (sk : PrivKey) u a T B (file : Object) (bodies commits : list Object) : Prop := {
  ready_state : at_state a u T B;
  ready_keys : ∃ seed, generate_keypair seed = (sk, u);
  ready_accounts : tb_accounts T !! demo_user = None ∧ tb_accounts T !! u = None ∧ u ≠ demo_user;
  ready_first : new_overlay T (overlay demo_repo true) demo_user ∧ B (RepoStoreId_Repo demo_user) = ∅;
  ready_second : new_overlay T (overlay (repolink seeds) true) (repo_pubkey seeds) ∧
    B (RepoStoreId_Repo (repo_pubkey seeds)) = ∅;
  ready_other : overlay demo_repo true ≠ overlay (repolink seeds) true ∧ demo_user ≠ repo_pubkey seeds;
  ready_file : Object_new demo_file [] None block_size (RepoLink_id demo_repo) (RepoLink_secret demo_repo) = Ret file;
  ready_blocks : collision_free (Object_blocks file) ∧ Block_id demo_block ∉ Block_id <$> Object_blocks file;
  ready_commits : demo_objects seeds = Ret (bodies, commits);
  ready_objects : collision_free (all_blocks (bodies ++ commits));
  ready_fuel : (3 < fuel)%nat ∧ (2 <= obj_fuel)%nat ∧
    Forall (λ o, length (Object_blocks o) < obj_fuel)%nat (file :: commits)
}.
(** What it leaves: two accounts, one of which is in both overlays, the block in the one
    repository and the graph in the other *)
Definition user_account : account :=
  {| acc_admin := false; acc_clients := ∅;
     acc_overlays := {[overlay (repolink seeds) true]} ∪ ({[overlay demo_repo true]} ∪ ∅) |}.
Record demo_done u a T B (bodies commits : list Object) : Prop := {
  done_accounts : tb_accounts (ab_state a).1 = <[u := user_account]> (<[demo_user := new_account]> (tb_accounts T));
  done_first : repo_of (ab_state a).1 (overlay demo_repo true) = Some demo_user;
  done_second : repo_of (ab_state a).1 (overlay (repolink seeds) true) = Some (repo_pubkey seeds);
  done_block : (ab_state a).2 (RepoStoreId_Repo demo_user) = block_map demo_block;
  done_graph : (ab_state a).2 (RepoStoreId_Repo (repo_pubkey seeds)) = blocks_map (all_blocks (bodies ++ commits));
  done_other r : r ≠ demo_user → r ≠ repo_pubkey seeds →
    (ab_state a).2 (RepoStoreId_Repo r) = B (RepoStoreId_Repo r)
}.

Lemma test_ok sk u a T B file bodies commits : demo_ready sk u a T B file bodies commits → ∃ a0 s a' known,
  test (BrokerConnection0 := meaning) obj_fuel seeds u sk a =
    ('(_, c) ← test_sync (BrokerConnection0 := meaning) seeds a0; Ret (Ok tt, c)) ∧
  test_sync (BrokerConnection0 := meaning) seeds a0 = Ret (s, a') ∧
  demo_done u a' T B bodies commits ∧
  mapM object_ref (at_places commits client_places) = Ret known ∧
  has_blocks s (all_blocks (synced commits known)).
Proof.
  intros [Ha [seed Hk] (Hau & Hu & Hne) [Hn1 HB1] [Hn2 HB2] [Hno Hnr] Hfile [Hc Hid] Hobjs Hcs (Hf & Hf2 & [Hlen Hlens]%Forall_cons)].
  destruct (ab_run_add_user obj_fuel fuel envs a u T B sk seed demo_user Hk Ha) as (a1 & Hadd1 & Ha1).
  rewrite Hau in Hadd1, Ha1. set (T1 := with_tb_account T demo_user new_account) in *.
  assert (Hu1 : tb_accounts T1 !! u = None) by (cbn; by rewrite lookup_insert_ne).
  destruct (ab_run_add_user obj_fuel fuel envs a1 u T1 B sk seed u Hk Ha1) as (a2 & Hadd2 & Ha2).
  rewrite Hu1 in Hadd2, Ha2. set (T2 := with_tb_account T1 u new_account) in *.
  assert (Hau2 : tb_accounts T2 !! demo_user = Some new_account)
    by (cbn; by rewrite lookup_insert_ne, lookup_insert_eq).
  destruct (ab_run_add_user obj_fuel fuel envs a2 u T2 B sk seed demo_user Hk Ha2) as (a3 & Hadd3 & Ha3).
  rewrite Hau2 in Hadd3, Ha3.
  destruct (ab_run_connect obj_fuel fuel envs Hrandom Hclock a3 u T2 B demo_repo true new_account Ha3
    ltac:(apply lookup_insert_eq) eq_refl Hn1) as (a4 & T3 & Hcon & Ha4 & [Hrepo3 (x3 & Hx3 & Hacc3) Hov3 Hkeys3]).
  pose proof (on_overlay_start T3 B u demo_user (overlay demo_repo true) 0 a4 ∅ Ha4 Hrepo3 HB1
    ltac:(by intros i b ?)) as Hon4.
  destruct (test_objects_ok T3 B u 0 a4 demo_block demo_file block_size file
    (λ c, '(_, c) ← test_sync (BrokerConnection0 := meaning) seeds c; Ret (Ok tt, c)) Hon4
    ltac:(apply id_ok_new) eq_refl eq_refl ltac:(vm_compute; reflexivity) Hfile Hc Hid Hlen Hf2)
    as (a5 & Hobj & (_ & _ & Ha5)).
  assert (Hn3 : new_overlay T3 (overlay (repolink seeds) true) (repo_pubkey seeds)).
  { destruct Hn2 as (? & ? & ?). split_and!; [by rewrite Hov3..|by rewrite Hkeys3]. }
  destruct (test_sync_ok a5 T3 _ u (with_overlays x3 ({[overlay demo_repo true]} ∪ acc_overlays x3)) bodies commits Ha5
    ltac:(by rewrite Hacc3, lookup_insert_eq) Hn3 ltac:(by rewrite fn_lookup_insert_ne by congruence) Hobjs Hcs Hlens Hf)
    as (s & a6 & T4 & known & Hsync & (Hu6 & HT6 & HB6) & [Hrepo4 (x4 & Hx4 & Hacc4) Hov4 _] & Hknown & Hs).
  exists a5, s, a6, known. split.
  { unfold test. rewrite (call_try_ok _ _ a tt a1 Hadd1), (call_try_ok _ _ a1 tt a2 Hadd2).
    rewrite (assert_error_ok _ _ _ a2 a3 Hadd3), (call_try_ok _ _ a3 _ a4 Hcon). fold first_client. exact Hobj. }
  split; [exact Hsync|]. split; [|by split].
  assert (x3 = new_account) as -> by (cbn in Hx3; rewrite lookup_insert_eq in Hx3; congruence).
  split; rewrite ?HT6.
  - rewrite Hacc3, lookup_insert_eq in Hx4. injection Hx4 as <-. rewrite Hacc4, Hacc3. cbn. by rewrite !insert_insert_eq.
  - unfold ServerProps.repo_of in *. by rewrite Hov4.
  - done.
  - rewrite HB6. by rewrite fn_lookup_insert_ne, fn_lookup_insert by congruence.
  - by rewrite HB6, fn_lookup_insert.
  - intros r Hr1 Hr2. by rewrite HB6, !fn_lookup_insert_ne by congruence.
Qed.
End Sync.

(** ** Over local and remote connections *)

Section Connections.
Context {S R : Type} `{!BrokerStore S, !BrokerStoreSpec S}.
Context `{!RwLockRelock, !Crypto, !CryptoLaws, !Ed25519, !Ed25519Laws, !SizeOfBlock}.
Context `{!Bloom, !BloomBuilder, !RustFsm, !XActor}.
Context `{!Serde Block, !Serde BlockContentV0, !Serde ObjectContent, !Serde AddUserContentV0}.
Context `{!Serde CommitContentV0}.
Context `{!SerdeLaws BlockContentV0, !SerdeLaws ObjectContent, !SerdeTagged ObjectContent}.
Context `{!Serde Digest, !Serde SymKey, !Serde PubKey, !Serde bool, !Serde u32}.
Context `{!Serde OverlayMeta, !Serde PeerAdvert, !Serde RepoStoreId}.
Context `{!Serde ServerHello, !Serde ClientAuth, !Serde ClientAuthContentV0, !Serde AuthResult}.
Context `{!Serde BrokerMessage, !Serde StartProtocol, !Serde ExtResponse}.
Context `{!SerdeLaws Block, !SerdeLaws BrokerMessage, !SerdeTagged BrokerMessage}.
Context `{!SerdeLaws Digest, !SerdeLaws SymKey, !SerdeLaws PubKey, !SerdeLaws bool, !SerdeLaws u32}.
Context `{!SerdeLaws OverlayMeta, !SerdeLaws PeerAdvert, !SerdeLaws RepoStoreId}.
Context `{!RepoStore R, !RepoStoreSpec R, !RepoStoreTotal R, !ServedStore R, !RepoDirs R, !ServedSpec R}.
Context `{!XActorLaws, !SerializingStore R}.
Variables (obj_fuel fuel : nat) (envs : environment) (seeds : demo_seeds).
Context (Hdirs : ∀ id, dir_create id = true) (Hfits : tables_fit (S := S)).
Context (Hrandom : ∀ n, is_Some (random_buf (envs n))) (Hclock : ∀ n, returns (now_timestamp (secs (envs n)))).

(** C11: on a server where its two accounts and two overlays are new, the demonstration
    passes, over a local connection and over a remote one of the same user: no call fails
    that it expects to succeed, the second account of one name is refused as already there,
    and the file is got before it is deleted and not found after. At the end there are the
    two accounts, the caller's in both overlays, the block of the first repository without
    the file, and in the second repository the graph of eight commits, each with the
    dependencies and the acknowledgements it is drawn with. The synchronization brings the
    client, which has the root and one commit and names the root as known, the two heads
    and the three commits under them, less those its filter takes for known, and nothing
    else. *)
Theorem Demo_passes sk u a T B file bodies commits (cl : BrokerConnectionLocal S R) :
  local_stands a cl → demo_ready obj_fuel fuel seeds sk u a T B file bodies commits →
  ∃ a0 a' known,
  (test (BrokerConnection0 := abstract_connection obj_fuel fuel envs) obj_fuel seeds u sk a =
    '(_, c) ← test_sync (BrokerConnection0 := abstract_connection obj_fuel fuel envs) seeds a0; Ret (Ok tt, c)) ∧
  demo_done seeds u a' T B bodies commits ∧
  mapM object_ref (at_places commits client_places) = Ret known ∧
  (∀ cl0 : BrokerConnectionLocal S R, local_stands a0 cl0 → ∃ s cl',
     test_sync (BrokerConnection0 := local_conn obj_fuel fuel envs) seeds cl0 = Ret (s, cl') ∧
     local_stands a' cl' ∧ has_blocks s (all_blocks (synced commits known))) ∧
  (∃ cl', test (BrokerConnection0 := local_conn obj_fuel fuel envs) obj_fuel seeds u sk cl = Ret (Ok tt, cl') ∧
     local_stands a' cl') ∧
  ∀ cr : BrokerConnectionRemote (ServerTransport S R),
  conn_ok cl cr → (N.of_nat (started cr + demo_requests seeds) <= 2 ^ 64)%N → ∃ cr' cl',
    test (BrokerConnection0 := remote_conn obj_fuel fuel envs) obj_fuel seeds u sk cr = Ret (Ok tt, cr') ∧
    local_stands a' cl' ∧ conn_ok cl' cr'.
Proof.
  intros Hst Hready.
  destruct (test_ok obj_fuel fuel envs seeds Hrandom Hclock sk u a T B file bodies commits Hready)
    as (a0 & s & a' & known & Htest & Hsync & Hdone & Hknown & Hs).
  exists a0, a', known. split; [exact Htest|]. rewrite Hsync in Htest. cbn [mbind outcome_bind] in Htest.
  split; [exact Hdone|]. split; [exact Hknown|]. split_and!.
  - intros cl0 Hst0.
    pose proof (test_sync_does (Refines0 := Local_Refines obj_fuel fuel envs Hdirs Hfits Hrandom Hclock)
      seeds 0 a0 cl0 Hst0) as Hsim.
    rewrite Hsync in Hsim. inversion Hsim as [x [s' cl'] [(_ & Hi & Hv) Hst'] Hx Hy| |]; subst x.
    cbn [fst snd] in *. exists s', cl'. split; [done|]. split; [exact Hst'|]. destruct Hs as [_ Hs]. split; [done|]. by rewrite <- Hv.
  - pose proof (test_refines (Refines0 := Local_Refines obj_fuel fuel envs Hdirs Hfits Hrandom Hclock)
      obj_fuel seeds u sk 0 a cl Hst) as Hsim.
    rewrite Htest in Hsim. inversion Hsim as [x [r cl'] [Hr Hst'] Hx Hy| |]; subst x.
    cbn in Hr, Hst'. subst r. by exists cl'.
  - intros cr Hok Hn.
    pose proof (test_refines (Refines0 := Remote_Refines obj_fuel fuel envs Hdirs Hfits Hrandom Hclock)
      obj_fuel seeds u sk 0 a cr) as Hsim.
    specialize (Hsim ltac:(exists cl; by rewrite Nat.add_0_r)). rewrite Htest in Hsim.
    inversion Hsim as [x [r cr'] [Hr (cl' & Hst' & Hok' & _)] Hx Hy| |]; subst x.
    cbn in Hr, Hst'. subst r. by exists cr', cl'.
Qed.
End Connections.

(** ** Example: a server that nobody used *)

Module Examples.
Import BareTypes.Instances NetBare.NetInstances MessageInstances MemStore LmdbMem LmdbServed LmdbExamples.
Import ObjectProps.Examples ObjectStoreProps.Examples OverlayProps.Examples ServerProps.Examples.
Import AuthProps.Examples SessionProps.Examples ConnectionProps.Examples DemoProps.Examples.

Definition file1 : Object :=
  out {| Object_blocks := []; Object_deps := [] |} (Object_new demo_file [] None block_size (RepoLink_id demo_repo) (RepoLink_secret demo_repo)).
Definition objects1 : list Object * list Object := out ([], []) (demo_objects seeds1).

Lemma file1_made :
  match Object_new demo_file [] None block_size (RepoLink_id demo_repo) (RepoLink_secret demo_repo) with
  | Ret _ => true | _ => false end = true.
Proof. vm_compute. reflexivity. Qed.
Lemma objects1_made : match demo_objects seeds1 with Ret _ => true | _ => false end = true.
Proof. vm_compute. reflexivity. Qed.
Lemma out_Ret {A} (d : A) m : (match m with Ret _ => true | _ => false end) = true → m = Ret (out d m).
Proof. by destruct m. Qed.
(** The filter of this example has no false positives: all five commits are sent. *)
Example all_sent :
  length (synced objects1.2 (out [] (mapM object_ref (at_places objects1.2 client_places)))) = 7.
Proof. vm_compute. reflexivity. Qed.
Lemma blocks1 : bool_decide (Block_id demo_block ∉ Block_id <$> Object_blocks file1) = true.
Proof. vm_compute. reflexivity. Qed.
Lemma fuel1 : forallb (λ o, length (Object_blocks o) <? 40) (file1 :: objects1.2) = true.
Proof. vm_compute. reflexivity. Qed.

Lemma ready1 : demo_ready 40 40 seeds1 user_key user1 abstract0 tables0 (λ _, ∅) file1 objects1.1 objects1.2.
Proof.
  split.
  - by split_and!.
  - exists AuthProps.Examples.seed. exact seed_keys.
  - split_and!; [done|done|]. apply (bool_decide_unpack _). vm_compute. done.
  - by split_and!.
  - by split_and!.
  - split; apply (bool_decide_unpack _); vm_compute; done.
  - apply out_Ret, file1_made.
  - split; [apply collision_free_dec; vm_compute; reflexivity|exact (proj1 (bool_decide_eq_true _) blocks1)].
  - rewrite <- surjective_pairing. apply out_Ret, objects1_made.
  - apply collision_free_dec. vm_compute. reflexivity.
  - split; [lia|]. split; [lia|]. apply Forall_forall. intros o Ho. apply Nat.ltb_lt.
    pose proof fuel1 as Hf. rewrite forallb_forall in Hf. apply Hf. by apply list_elem_of_In.
Qed.

Lemma Demo_passes_witness : ∃ (cr : remote) a',
  test (BrokerConnection0 := remote_conn 40 40 envs1) 40 seeds1 user1 user_key remote0 = Ret (Ok tt, cr) ∧
  demo_done seeds1 user1 a' tables0 (λ _, ∅) objects1.1 objects1.2.
Proof.
  pose proof requests1 as Hreq%Nat.leb_le.
  destruct (Demo_passes (R := LmdbRepoStore) 40 40 envs1 seeds1 ltac:(done) mem_fits
    ClientCalls.Examples.random1 ClientCalls.Examples.clock1 user_key user1 abstract0 tables0 (λ _, ∅)
    file1 objects1.1 objects1.2 local0 ClientCalls.Examples.local0_stands ready1)
    as (_ & a' & _ & _ & Hdone & _ & _ & _ & Hr).
  destruct (Hr remote0 remote0_demo ltac:(cbn [started remote0]; lia)) as (cr & _ & Hrun & _).
  exists cr, a'. exact (conj Hrun Hdone).
Defined.
End Examples.
