(* ===== verification/LibTests.v ===== *)
(** * The tests of the library: [test_object], [test_depth_1], [test_block_size],
    [test_commit], [test_branch]

    The tests of [lofire/src] as programs: an assertion that fails and what is unwrapped
    panic. Printing is left out. *)

From S2P Require Import Bare BareTypes ObjectTree ObjectProps ObjectStoreProps ObjectSize AuthProps DemoProps.
From S2P Require Import Prelude Serde Types Block Store Object Utils Branch Commit Demo.

Definition assert (b : bool) : outcome unit := if b then Ret tt else Panic.
(** [.unwrap()] and [.expect(..)] *)
Definition unwrap_ok {A E} (r : result A E) : outcome A :=
  match r with Ok a => Ret a | Err _ => Panic end.

(** ** [object.rs] *)

Module ObjectTests.
Section Tests.
Context `{!Crypto, !SizeOfBlock} `{!Serde Block, !Serde BlockContentV0, !Serde ObjectContent}.
Variable obj_fuel : nat.

Definition MAX_ARITY_LEAVES : usize := 31774.
Definition MAX_ARITY_ROOT : usize := 31770.
Definition MAX_DATA_PAYLOAD_SIZE : usize := 2097112.

#[local] Instance FileV0_eq_dec : EqDecision FileV0.
Proof. solve_decision. Defined.
#[local] Instance File_eq_dec : EqDecision File.
Proof. solve_decision. Defined.
(** [assert_eq!] with the content of a file *)
Definition is_file (f : File) (c : ObjectContent) : bool :=
  match c with ObjectContent_File f' => bool_decide (f = f') | _ => false end.

Definition test_deps : list ObjectId := [Blake3Digest32 (array_fill 32 x09)].
Definition test_secret : SymKey := ChaCha20Key (array_fill 32 x00).
Definition test_pubkey : PubKey := Ed25519PubKey (array_fill 32 x01).

Definition test_file : File := File_V0 {|
  FileV0_content_type := String.list_byte_of_string "file/test";
  FileV0_metadata := String.list_byte_of_string "some meta data here";
  FileV0_content := concat (replicate 320 ((λ n, default x00 (Byte.of_N (N.of_nat n))) <$> seq 0 255)) |}.
Definition test_object : outcome unit :=
  let content := ObjectContent_File test_file in
  let deps := test_deps in
  let exp := Some (uint_wrap 32 (2 ^ 31)) in
  let max_object_size := 0%N in
  obj ← Object_new content deps exp max_object_size test_pubkey test_secret;
  _ ← assert (bool_decide (Object_deps obj = deps));
  cnt ← Object_content obj; cnt ← unwrap_ok cnt; _ ← assert (is_file test_file cnt);
  '(saved, store) ← Object_save obj HashMapRepoStore.new; _ ← unwrap_ok saved;
  id ← Object_id obj; key ← Object_key obj;
  '(obj2, store) ← Object_load obj_fuel id key store; obj2 ← unwrap_ok obj2;
  _ ← assert (bool_decide (Object_deps obj2 = deps));
  cnt ← Object_content obj2; cnt ← unwrap_ok cnt; _ ← assert (is_file test_file cnt);
  '(obj3, store) ← Object_load obj_fuel id None store; obj3 ← unwrap_ok obj3;
  _ ← assert (bool_decide (Object_deps obj3 = deps));
  cnt ← Object_content obj3;
  _ ← assert (match cnt with Err ObjectParseError_MissingRootKey => true | _ => false end);
  let exp4 := Some (uint_wrap 32 2342) in
  obj4 ← Object_copy obj exp4 test_pubkey test_secret; obj4 ← unwrap_ok obj4;
  '(saved, store) ← Object_save obj4 store; _ ← unwrap_ok saved;
  expiry4 ← Object_expiry obj4; _ ← assert (bool_decide (expiry4 = exp4));
  _ ← assert (bool_decide (Object_deps obj = deps));
  cnt ← Object_content obj4; cnt ← unwrap_ok cnt; assert (is_file test_file cnt).

(** The file fills the root node; its size is that of the value less what it is in. *)
Definition empty_file : ObjectContent := ObjectContent_File (File_V0 {|
  FileV0_content_type := []; FileV0_metadata := []; FileV0_content := [] |}).
Definition depth_1_size : N :=
  store_max_value_size - EMPTY_BLOCK_SIZE - DATA_VARINT_EXTRA - BLOCK_ID_SIZE * len test_deps
  - len (to_vec empty_file) - DATA_VARINT_EXTRA.
Definition depth_1_content : ObjectContent := ObjectContent_File (File_V0 {|
  FileV0_content_type := []; FileV0_metadata := [];
  FileV0_content := replicate (N.to_nat depth_1_size) x63 |}).
Definition test_depth_1 : outcome unit :=
  let expiry := Some (uint_wrap 32 (2 ^ 31)) in
  let max_object_size := store_max_value_size in
  object ← Object_new depth_1_content test_deps expiry max_object_size test_pubkey test_secret;
  root_key ← Object_key object; _ ← unwrap root_key;
  assert (bool_decide (length (Object_blocks object) = 1)).

(** The blocks of [test_block_size]: with a number of children, of keys and of dependencies *)
Definition zero_id : Digest := Blake3Digest32 (array_fill 32 x00).
Definition zero_key : SymKey := ChaCha20Key (array_fill 32 x00).
Definition keys_ser (n : N) : bytes := to_vec (BlockContentV0_InternalNode (replicate (N.to_nat n) zero_key)).
Definition data_ser (n : N) : bytes := to_vec (BlockContentV0_DataChunk (replicate (N.to_nat n) x00)).
Definition sized_block (children : N) (deps : ObjectDeps) (content : bytes) : Block :=
  Block_new (replicate (N.to_nat children) zero_id) deps (Some (uint_wrap 32 2342)) content None.
Definition zero_ids (n : N) : ObjectDeps := ObjectIdList (replicate (N.to_nat n) zero_id).
Definition ser_len (b : Block) : N := len (to_vec b).
Definition test_block_size : outcome unit :=
  let max_block_size := store_max_value_size in
  let leaf_empty := sized_block 0 (zero_ids 0) (data_ser 0) in
  let leaf_full_data := sized_block 0 (zero_ids 0) (data_ser MAX_DATA_PAYLOAD_SIZE) in
  let root_depsref :=
    sized_block 0 (DepListRef {| BlockRef_id := zero_id; BlockRef_key := zero_key |}) (data_ser 0) in
  let internal_max := sized_block MAX_ARITY_LEAVES (zero_ids 0) (keys_ser MAX_ARITY_LEAVES) in
  let internal_one := sized_block 1 (zero_ids 0) (keys_ser 1) in
  let internal_two := sized_block 2 (zero_ids 0) (keys_ser 2) in
  let root_one := sized_block 1 (zero_ids 8) (keys_ser 1) in
  let root_two := sized_block 2 (zero_ids 8) (keys_ser 2) in
  let max_arity_leaves :=
    ((max_block_size - EMPTY_BLOCK_SIZE - BIG_VARINT_EXTRA * 2) / (BLOCK_ID_SIZE + BLOCK_KEY_SIZE))%N in
  _ ← assert (max_arity_leaves =? MAX_ARITY_LEAVES)%N;
  _ ← assert (max_block_size - EMPTY_BLOCK_SIZE - DATA_VARINT_EXTRA =? MAX_DATA_PAYLOAD_SIZE)%N;
  let max_arity_root :=
    ((max_block_size - EMPTY_BLOCK_SIZE - MAX_DEPS_SIZE - BIG_VARINT_EXTRA * 2)
     / (BLOCK_ID_SIZE + BLOCK_KEY_SIZE))%N in
  _ ← assert (max_arity_root =? MAX_ARITY_ROOT)%N;
  _ ← assert (ser_len leaf_full_data =? max_block_size)%N;
  _ ← assert (ser_len leaf_empty =? EMPTY_BLOCK_SIZE)%N;
  _ ← assert (ser_len root_depsref =? EMPTY_ROOT_SIZE_DEPSREF)%N;
  _ ← assert (ser_len internal_max =? EMPTY_BLOCK_SIZE + BIG_VARINT_EXTRA * 2
              + MAX_ARITY_LEAVES * (BLOCK_ID_SIZE + BLOCK_KEY_SIZE))%N;
  _ ← assert (ser_len internal_max <? max_block_size)%N;
  _ ← assert (ser_len internal_one =? EMPTY_BLOCK_SIZE + 1 * BLOCK_ID_SIZE + 1 * BLOCK_KEY_SIZE)%N;
  _ ← assert (ser_len internal_two =? EMPTY_BLOCK_SIZE + 2 * BLOCK_ID_SIZE + 2 * BLOCK_KEY_SIZE)%N;
  _ ← assert (ser_len root_one =? EMPTY_BLOCK_SIZE + 8 * BLOCK_ID_SIZE + 1 * BLOCK_ID_SIZE
              + 1 * BLOCK_KEY_SIZE)%N;
  assert (ser_len root_two =? EMPTY_BLOCK_SIZE + 8 * BLOCK_ID_SIZE + 2 * BLOCK_ID_SIZE
          + 2 * BLOCK_KEY_SIZE)%N.
End Tests.

(** *** The two tests of sizes pass *)

Section Sizes.
Context `{!Crypto, !CryptoLaws} `{!Serde Block, !Serde BlockContentV0, !Serde ObjectContent}.
Context `{!SerdeSizes}.

Lemma len_replicate {A} n (x : A) : len (replicate (N.to_nat n) x) = n.
Proof. unfold len. rewrite length_replicate. lia. Qed.
Lemma keys_ser_len n : len (keys_ser n) = (1 + varint_len n + 33 * n)%N.
Proof. unfold keys_ser. by rewrite internal_size, len_replicate. Qed.
Lemma data_ser_len n : len (data_ser n) = (1 + varint_len n + n)%N.
Proof. unfold data_ser. by rewrite chunk_size, len_replicate. Qed.
Lemma zero_ids_size n : deps_size (zero_ids n) = (1 + varint_len n + 33 * n)%N.
Proof. unfold zero_ids. cbn [deps_size]. by rewrite len_replicate. Qed.
Lemma sized_block_len n d c :
  ser_len (sized_block n d c) =
  (1 + varint_len n + 33 * n + deps_size d + 5 + varint_len (len c) + len c)%N.
Proof.
  unfold ser_len, sized_block. rewrite ObjectSize.block_size. cbn [Block_new Block_children Block_deps Block_expiry
    Block_content BlockV0_new BlockV0_children BlockV0_deps BlockV0_expiry BlockV0_content expiry_size].
  by rewrite len_replicate.
Qed.

(** The constants [object.rs] computes with are the sizes of the encoding: a leaf of the
    largest payload fills the largest value exactly, the arities are the largest that fit, and
    the blocks of one and two children, with and without dependencies, are as long as the
    constants add up to. *)
Theorem test_block_size_passes : test_block_size = Ret tt.
Proof.
  unfold test_block_size. cbv zeta. rewrite !sized_block_len, !zero_ids_size, !keys_ser_len, !data_ser_len.
  vm_compute. reflexivity.
Qed.

(** A content that fits the root with its dependencies is not chunked. *)
Lemma Object_new_fits content deps expiry bs pk sk :
  (bs + HEADER < usize_max)%N → (len deps <= 8)%N →
  (EMPTY_BLOCK_SIZE + DATA_VARINT_EXTRA + BLOCK_ID_SIZE * len deps + len (to_vec content)
     <= valid_size bs)%N → ∃ b, is_Some (Block_key b) ∧
  Object_new content deps expiry bs pk sk = Ret {| Object_blocks := [b]; Object_deps := deps |}.
Proof.
  intros Hbs Hdeps Hfit. unfold Object_new. cbn [Object_new_fuel].
  rewrite (store_valid_value_size_eq bs Hbs). cbn [mbind outcome_bind].
  pose proof (valid_size_bounds bs) as [Hv _]. unfold MIN_SIZE in Hv.
  rewrite usize_sub_ok by (unfold EMPTY_BLOCK_SIZE; lia). cbn [mbind outcome_bind].
  rewrite usize_sub_ok by (unfold EMPTY_BLOCK_SIZE, DATA_VARINT_EXTRA; lia).
  cbn [mbind outcome_bind]. unfold make_deps. rewrite (proj2 (N.leb_le _ _) Hdeps).
  cbn [mbind outcome_bind]. rewrite (proj2 (N.leb_le _ _) Hfit).
  eexists. split; [|reflexivity]. by eexists.
Qed.
End Sizes.

Section Depth.
Import BareTypes.Instances.
Context `{!Crypto}.

Lemma file_len c :
  len (to_vec (ObjectContent_File (File_V0 {|
    FileV0_content_type := []; FileV0_metadata := []; FileV0_content := c |}))) =
  (4 + varint_len (len c) + len c)%N.
Proof.
  match goal with |- len ?v = _ => change v with (x02 :: x00 :: ([x00] ++ [x00]) ++ data_enc c) end.
  rewrite !len_cons, len_app, data_len. change (len ([x00] ++ [x00])) with 2%N. lia.
Qed.
Theorem test_depth_1_passes : test_depth_1 = Ret tt.
Proof.
  unfold test_depth_1. cbv zeta.
  destruct (Object_new_fits depth_1_content test_deps (Some (uint_wrap 32 (2 ^ 31))) store_max_value_size
    test_pubkey test_secret) as (b & [k Hk] & ->); [vm_compute; reflexivity|vm_compute; discriminate| |].
  - unfold depth_1_content, depth_1_size, empty_file. rewrite !file_len, len_replicate.
    vm_compute. discriminate.
  - cbn [mbind outcome_bind]. unfold Object_key, Object_root. cbn. by rewrite Hk.
Qed.
End Depth.
End ObjectTests.

(** ** [commit.rs] *)

Module CommitTests.
Section Tests.
Context `{!Crypto, !Ed25519, !SizeOfBlock}.
Context `{!Serde Block, !Serde BlockContentV0, !Serde ObjectContent, !Serde CommitContentV0}.
Variable obj_fuel : nat.

Definition one_missing {A} (r : result A CommitLoadError) : bool :=
  match r with Err (CommitLoadError_MissingBlocks missing) => bool_decide (length missing = 1) | _ => false end.

(** On the seed of the key pair *)
Definition test_commit (seed : bytes) : outcome unit :=
  let '(priv_key, pub_key) := generate_keypair seed in
  let seq := uint_wrap 32 3 in
  let obj_ref := {| BlockRef_id := Blake3Digest32 (array_fill 32 x01);
                    BlockRef_key := ChaCha20Key (array_fill 32 x02) |} in
  let obj_refs := [obj_ref] in
  let metadata := [x01; x02; x03] in
  let expiry := Some (uint_wrap 32 2342) in
  commit ← unwrap_ok (Commit_new priv_key pub_key seq obj_ref obj_refs obj_refs obj_refs metadata obj_ref expiry);
  let store := HashMapRepoStore.new in
  let metadata := replicate 64 x42 in
  let commit_types := [CommitType_Ack; CommitType_Transaction] in
  let secret := ChaCha20Key (array_fill 32 x00) in
  let member := MemberV0_new pub_key commit_types metadata in
  let quorum := {[ CommitType_Transaction := uint_wrap 32 3 ]} in
  let ack_delay := Minutes x03 in
  let tags := replicate 32 x63 in
  let branch := Branch_new pub_key pub_key secret [member] quorum ack_delay tags metadata in
  let body := CommitBody_Ack Ack_V0 in
  '(loaded, store) ← Commit_load_body obj_fuel commit store;
  _ ← assert (one_missing loaded);
  _ ← unwrap_ok (Commit_verify_sig commit);
  _ ← unwrap_ok (Commit_verify_perm commit body branch);
  deps ← Commit_verify_deps obj_fuel obj_fuel commit store;
  _ ← assert (one_missing deps);
  verified ← Commit_verify obj_fuel obj_fuel commit branch store;
  assert (match verified with Err (CommitVerifyError_BodyLoadError e) => one_missing (@Err unit _ e) | _ => false end).
End Tests.

Section Pass.
Context `{!Crypto, !Ed25519, !Ed25519Laws, !SizeOfBlock}.
Context `{!Serde Block, !Serde BlockContentV0, !Serde ObjectContent, !Serde CommitContentV0}.
Abbreviation empty := HashMapRepoStore.new.

Lemma load_empty n id key :
  Object_load (2 + n) id key empty = Ret (Err (ObjectParseError_MissingBlocks [id]), empty).
Proof. done. Qed.
Lemma load_content_empty n r :
  load_content (2 + n) r empty = Ret (Err (CommitLoadError_MissingBlocks [BlockRef_id r]), empty).
Proof. unfold load_content. by rewrite load_empty. Qed.
Lemma one_missing_set {A} (ids : gset ObjectId) id : ids = {[id]} →
  one_missing (@Err A _ (CommitLoadError_MissingBlocks (elements ids))) = true.
Proof. intros ->. cbn. by rewrite elements_singleton. Qed.

(** A commit whose body and dependencies are one block that is missing *)
Lemma verify_deps_empty n m (c : Commit) id :
  Commit_id c = None → BlockRef_id (CommitContentV0_body (Commit_content c)) = id →
  Forall (λ r, BlockRef_id r = id) (Commit_deps_acks c) →
  ∃ e, Commit_verify_deps (2 + n) (1 + m) c empty = Ret (Err e) ∧ one_missing (@Err unit _ e) = true.
Proof.
  intros Hid Hbody Hdeps. eexists. unfold Commit_verify_deps. cbn [load_branch Nat.add]. rewrite Hid.
  unfold visit_commit, Commit_load_body. change (S (S n)) with (2 + n).
  rewrite load_content_empty, Hbody. cbn [mbind outcome_bind try_bind negb bool_decide].
  assert (Hloop : ∀ rec deps (missing : gset ObjectId), Forall (λ r, BlockRef_id r = id) deps → missing = {[id]} →
    load_deps (2 + n) rec deps (∅, missing, empty) = Ret (Ok (∅, {[id]}, empty))).
  { intros rec deps missing. induction 1 as [|r deps Hr _ IH] in missing |- *; intros ->; [done|].
    cbn [load_deps]. unfold Commit_load. rewrite load_content_empty, Hr. cbn [mbind outcome_bind].
    apply IH. set_solver. }
  rewrite Hloop by (done || set_solver). cbn [mbind outcome_bind try_bind].
  rewrite decide_False by set_solver. split; [reflexivity|]. by apply (one_missing_set _ id).
Qed.

(** The test of commits passes whatever key pair it generates: a commit made with the keys
    of a member is signed and permitted; without its body and its dependencies, which are one
    block, it is refused by [load_body], [verify_deps] and [verify], which name this block. *)
Theorem test_commit_passes obj_fuel seed : (1 < obj_fuel)%nat → test_commit obj_fuel seed = Ret tt.
Proof.
  intros Hfuel. destruct obj_fuel as [|[|n]]; [lia..|]. unfold test_commit.
  pose proof (sign_verify_bytes seed) as Hsv. destruct (generate_keypair seed) as [sk pk].
  unfold Commit_new, CommitV0_new. set (content := Build_CommitContentV0 _ _ _ _ _ _ _ _ _).
  destruct (Hsv (to_vec content)) as (sig & Hs & Hv).
  change (sign_bytes sk pk _) with (sign_bytes sk pk (to_vec content)). rewrite Hs.
  cbn [fst unwrap_ok mbind outcome_bind].
  set (c := Commit_V0 _). change (S (S n)) with (2 + n).
  unfold Commit_load_body at 1. rewrite load_content_empty. cbn [mbind outcome_bind one_missing length].
  rewrite bool_decide_true by done. cbn [assert mbind outcome_bind].
  assert (Hsig : Commit_verify_sig c = Ok tt) by exact Hv. rewrite Hsig. cbn [unwrap_ok mbind outcome_bind].
  match goal with |- context [Commit_verify_perm c ?b ?br] =>
    assert (Hperm : Commit_verify_perm c b br = Ok tt) end.
  { unfold Commit_verify_perm. cbn. by destruct (decide _). }
  rewrite Hperm. cbn [unwrap_ok mbind outcome_bind].
  destruct (verify_deps_empty n (S n) c (Blake3Digest32 (array_fill 32 x01))) as (e & He & Hone);
    [done|done|by repeat constructor|].
  change (1 + S n) with (2 + n) in He. rewrite He. cbn [mbind outcome_bind].
  replace (one_missing (Err e)) with true by (by destruct e). cbn [assert mbind outcome_bind].
  unfold Commit_verify. rewrite Hsig. cbn [map_err try_bind]. unfold Commit_load_body.
  rewrite load_content_empty. cbn [mbind outcome_bind map_err try_bind one_missing length].
  by rewrite bool_decide_true.
Qed.
End Pass.
End CommitTests.

(** ** [branch.rs] *)

Module BranchTests.
Section Tests.
Context `{!Crypto, !Ed25519, !SizeOfBlock, !Bloom, !BloomBuilder}.
Context `{!Serde Block, !Serde BlockContentV0, !Serde ObjectContent, !Serde CommitContentV0}.
Variable obj_fuel : nat.

(** The branch and its commits are made by the text that the demonstration repeats:
    [create_commits] of [Demo]. *)
Definition test_branch (seeds : demo_seeds) : outcome unit :=
  '(refs, store) ← create_commits seeds HashMapRepoStore.new;
  '(c7, store) ← Commit_load obj_fuel (ref_a7 refs) store; c7 ← unwrap_ok c7;
  verified ← Commit_verify obj_fuel obj_fuel c7 (demo_branch seeds) store; _ ← unwrap_ok verified;
  let filter := add_refs [ref_br refs; ref_t1 refs; ref_t2 refs; ref_a3 refs; ref_t5 refs; ref_a6 refs]
                  (filter_new (uint_wrap 64 10) (1, 100)%N) in
  let their_commits := {| BloomFilter_k := filter_hashes filter;
                          BloomFilter_f := filter_get_u8_array filter |} in
  ids ← sync_req obj_fuel obj_fuel
          [BlockRef_id (ref_a3 refs); BlockRef_id (ref_t5 refs); BlockRef_id (ref_a6 refs); BlockRef_id (ref_a7 refs)]
          [BlockRef_id (ref_a3 refs); BlockRef_id (ref_t5 refs)] their_commits store;
  '(ids, store) ← unwrap_ok ids;
  _ ← assert (bool_decide (length ids = 1));
  assert (bool_decide (BlockRef_id (ref_a7 refs) ∈ ids)).
End Tests.
End BranchTests.

(** ** The tests, on the instances of the examples *)

Module Examples.
Import BareTypes.Instances ObjectSize.Instances ObjectProps.Examples ObjectStoreProps.Examples DemoProps.Examples.

Lemma test_block_size_passes_witness : ObjectTests.test_block_size = Ret tt.
Proof. apply (@ObjectTests.test_block_size_passes _ _ _ bare_sizes). Defined.
Lemma test_object_passes : ObjectTests.test_object 40 = Ret tt.
Proof. vm_compute. reflexivity. Qed.
Lemma test_commit_passes_witness : CommitTests.test_commit 40 [x07] = Ret tt.
Proof. apply (CommitTests.test_commit_passes 40 [x07]). lia. Defined.
Lemma test_branch_passes : BranchTests.test_branch 40 seeds1 = Ret tt.
Proof. vm_compute. reflexivity. Qed.
End Examples.
