(* ===== verification/LmdbTests.v ===== *)
(** * The tests of the LMDB block store and of the accounts

    The tests of [lofire-store-lmdb/src/repostore.rs] and [lofire-broker/src/account.rs] as
    programs, on the store that opening an empty directory gives; the clock stands still.
    [test_lmdb], which only calls [rkv] and prints, and [list_all] are left out. *)

From S2P Require Import Bare BareTypes BrokerRows NetBare LmdbView LmdbMem LmdbProps OverlayProps ObjectProps ObjectStoreProps.
From S2P Require Import Prelude Serde Types Block Store Object Utils LmdbRepoStore BrokerStore BrokerTables LibTests.
Import LmdbRepoStoreOps.

Module RepoStoreTests.
Section Tests.
Context `{!SingleStore, !MultiIntegerStore}.
Context `{!Crypto} `{!Serde Block, !Serde Digest, !Serde BlockMeta}.
Implicit Types (s : LmdbRepoStore) (store : LmdbRepoStore).

Definition u32_sub (a : u32) (b : N) : outcome u32 :=
  if (b <=? uint_N a)%N then Ret (uint_wrap 32 (uint_N a - b)) else Panic.
Definition u32_add (a : u32) (b : N) : outcome u32 :=
  if (uint_N a + b <? 2 ^ 32)%N then Ret (uint_wrap 32 (uint_N a + b)) else Panic.
Definition test_block (expiry : option Timestamp) (content : bytes) : Block :=
  Block_new [] (ObjectIdList []) expiry content None.
Definition byte_at (x : nat) : byte := default x00 (Byte.of_N (N.of_nat x)).

(** The loop of the first two tests: a block is put, pinned by the second, and synced *)
Fixpoint put_synced (pinned : bool) (xs : list nat) (now : Timestamp) s : outcome LmdbRepoStore :=
  match xs with
  | [] => Ret s
  | x :: xs =>
      '(id, s) ← put (test_block None (replicate 10 (byte_at x))) s; id ← unwrap_ok id;
      s ← (if pinned then '(r, s) ← set_pin id true s; _ ← unwrap_ok r; Ret s else Ret s);
      t ← u32_add now (N.of_nat x);
      '(r, s) ← has_been_synced id (Some t) s; _ ← unwrap_ok r;
      put_synced pinned xs now s
  end.
Definition test_remove_least_used store : outcome unit :=
  now ← now_timestamp (clock store); now ← u32_sub now 200;
  store ← put_synced false (seq 1 84) now store;
  '(ret, store) ← remove_least_used 200 store;
  assert (ret =? 208)%N.
Definition test_set_pin store : outcome unit :=
  now ← now_timestamp (clock store); now ← u32_sub now 200;
  store ← put_synced true (seq 1 99) now store;
  '(ret, store) ← remove_least_used 200 store;
  assert (ret =? 0)%N.

Definition test_get_valid_value_size : outcome unit :=
  let valid size expected := got ← store_valid_value_size size; assert (got =? expected)%N in
  _ ← valid 0%N 4072%N; _ ← valid 2%N 4072%N; _ ← valid 4072%N 4072%N;
  _ ← valid (4072 + 1)%N (4072 + 4096)%N; _ ← valid (4072 + 4096)%N (4072 + 4096)%N;
  _ ← valid (4072 + 4096 + 1)%N (4072 + 4096 + 4096)%N;
  _ ← valid (4072 + 4096 + 4096)%N (4072 + 4096 + 4096)%N;
  _ ← valid (4072 + 4096 + 4096 + 1)%N (4072 + 4096 + 4096 + 4096)%N;
  _ ← valid (4072 + 4096 * 511)%N (4072 + 4096 * 511)%N;
  valid (4072 + 4096 * 511 + 1)%N (4072 + 4096 * 511)%N.

(** The loop over the expiries: the blocks that are put *)
Fixpoint put_expiring (list_ : list Timestamp) (i : nat) (block_ids : list ObjectId) s
    : outcome (list ObjectId * LmdbRepoStore) :=
  match list_ with
  | [] => Ret (block_ids, s)
  | expiry :: list_ =>
      '(id, s) ← put (test_block (Some expiry) [byte_at i]) s; id ← unwrap_ok id;
      put_expiring list_ (S i) (block_ids ++ [id]) s
  end.
(** [store.get(..).is_err()] at each of the places *)
Fixpoint gets (found : bool) (places : list nat) (block_ids : list ObjectId) s : outcome LmdbRepoStore :=
  match places with
  | [] => Ret s
  | i :: places =>
      id ← unwrap (block_ids !! i);
      '(r, s) ← get id s; _ ← assert (Bool.eqb (is_ok r) found);
      gets found places block_ids s
  end.
Definition expiries (before after : list N) (now : Timestamp) : outcome (list Timestamp) :=
  b ← mapM (u32_sub now) before; a ← mapM (u32_add now) after; Ret (b ++ a).
Definition test_remove_expired store : outcome unit :=
  now ← now_timestamp (clock store);
  list_ ← expiries [10; 6; 6; 3; 2; 1]%N [3; 4; 4; 5; 10]%N now;
  '(block_ids, store) ← put_expiring list_ 0 [] store;
  '(r, store) ← remove_expired store; _ ← unwrap_ok r;
  store ← gets false [0; 1; 2; 5] block_ids store;
  _ ← gets true [6; 7] block_ids store; Ret tt.
Definition test_remove_all_expired store : outcome unit :=
  now ← now_timestamp (clock store);
  list_ ← expiries [10; 6; 6; 3; 2; 2]%N [] now;
  '(block_ids, store) ← put_expiring list_ 0 [] store;
  '(r, store) ← remove_expired store; _ ← unwrap_ok r;
  _ ← gets false [0; 1; 2; 3; 4; 5] block_ids store; Ret tt.
Definition test_remove_empty_expired store : outcome unit :=
  '(r, store) ← remove_expired store; unwrap_ok r.

(** With the hash of the block, which the test writes out *)
Definition test_store_block (hash : ObjectId) store : outcome unit :=
  let block := test_block None (String.list_byte_of_string "abc") in
  '(block_id, store) ← put block store; block_id ← unwrap_ok block_id;
  _ ← assert (bool_decide (block_id = Block_id block));
  _ ← assert (bool_decide (block_id = hash));
  '(block_res, store) ← get block_id store; block_res ← unwrap_ok block_res;
  assert (bool_decide (Block_id block_res = Block_id block)).
End Tests.
End RepoStoreTests.

(** ** [account.rs] *)

Module AccountTests.
Section Tests.
Context {St : Type} `{!BrokerStore St} `{!Serde PubKey, !Serde Digest, !Serde bool}.
Import Account.

Definition test_account (store : St) : outcome unit :=
  let user_id := Ed25519PubKey (array_fill 32 x01) in
  '(account, store) ← create user_id true store; account ← unwrap_ok account;
  '(account2, store) ← open user_id store; account2 ← unwrap_ok account2;
  let client_id := Ed25519PubKey (array_fill 32 x38) in
  let client_id_not_added := Ed25519PubKey (array_fill 32 x39) in
  '(r, store) ← add_client client_id account2 store; _ ← unwrap_ok r;
  admin ← is_admin account2 store; admin ← unwrap_ok admin; _ ← assert admin;
  r ← has_client client_id account store; _ ← unwrap_ok r;
  r ← has_client client_id_not_added account store; assert (negb (is_ok r)).
End Tests.
End AccountTests.

(** ** The tests, on the databases of the examples *)

Module Examples.
Import BareTypes.Instances NetBare.NetInstances ObjectProps.Examples ObjectStoreProps.Examples LmdbMem LmdbExamples MemStore.
Import RepoStoreTests AccountTests.

(** An hour after the epoch, which is long enough for what the tests subtract from now *)
Definition opened : LmdbRepoStore := empty_store (uint_wrap 64 (EPOCH_AS_UNIX_TIMESTAMP + 60 * 1000)).
Definition block_hash : ObjectId := Block_id (test_block None (String.list_byte_of_string "abc")).

Lemma store_tests_pass :
  test_remove_least_used opened = Ret tt ∧ test_set_pin opened = Ret tt ∧
  test_get_valid_value_size = Ret tt ∧ test_remove_expired opened = Ret tt ∧
  test_remove_all_expired opened = Ret tt ∧ test_remove_empty_expired opened = Ret tt ∧
  test_store_block block_hash opened = Ret tt ∧ test_account (∅ : ms_db) = Ret tt.
Proof. split_and!; vm_compute; reflexivity. Qed.
End Examples.
